(** * Kokoro Reader: the audio post-processing and WAV encoding pipeline

  A shallow embedding of [audio-utils] (normalizeAudio, upsampleAudio,
  createAudioBlob and their helpers), of the logger and of the TTS debugger
  they report to, over IEEE-754 binary64 numbers as specified by the
  Standard Library's [SpecFloat]. *)

From Stdlib Require Import ZArith Lia Bool String Ascii.
From Stdlib Require Import Floats.SpecFloat.
From stdpp Require Import base list strings gmap pretty.

Local Open Scope Z_scope.

(** ** JavaScript numbers

  A JS number is a binary64 value: [spec_float] read with precision 53 and
  infinity exponent 1024.  Every operation below returns the correctly
  rounded (ties to even) result, in canonical form. *)
Module Num.

Definition number := spec_float.

Definition prec : Z := 53.
Definition emax : Z := 1024.

Definition nan : number := S754_nan.
Definition pzero : number := S754_zero false.
Definition nzero : number := S754_zero true.
Definition pinf : number := S754_infinity false.
Definition ninf : number := S754_infinity true.

Definition add : number -> number -> number := SFadd prec emax.
Definition sub : number -> number -> number := SFsub prec emax.
Definition mul : number -> number -> number := SFmul prec emax.
Definition div : number -> number -> number := SFdiv prec emax.
Definition neg : number -> number := SFopp.

(** The number denoted by an integer literal or by an array length or a loop
    counter (exact below 2^53). *)
Definition ofZ (z : Z) : number := binary_normalize prec emax z 0 false.

(** The decimal literals of the source, each the binary64 nearest to the
    written decimal: the correctly rounded quotient of two exact integers. *)
Definition lit (num den : Z) : number := div (ofZ num) (ofZ den).

Definition one : number := Eval vm_compute in ofZ 1.
Definition two : number := Eval vm_compute in ofZ 2.
Definition c0_15 : number := Eval vm_compute in lit 15 100.
Definition c0_9 : number := Eval vm_compute in lit 9 10.
Definition c0_5 : number := Eval vm_compute in lit 1 2.
Definition c1_5 : number := Eval vm_compute in lit 3 2.
Definition c2_5 : number := Eval vm_compute in lit 5 2.
Definition c100 : number := Eval vm_compute in ofZ 100.
Definition c48000 : number := Eval vm_compute in ofZ 48000.

(** Comparisons: [<], [>], [<=], [>=] and [===] on numbers; each is false
    as soon as an operand is NaN. *)
Definition lt (x y : number) : bool := SFltb x y.
Definition gt (x y : number) : bool := SFltb y x.
Definition le (x y : number) : bool := SFleb x y.
Definition ge (x y : number) : bool := SFleb y x.
Definition strict_eq (x y : number) : bool := SFeqb x y.

Definition is_nan (x : number) : bool :=
  match x with S754_nan => true | _ => false end.

Definition is_zero (x : number) : bool :=
  match x with S754_zero _ => true | _ => false end.

Definition is_finite (x : number) : bool :=
  match x with S754_zero _ | S754_finite _ _ _ => true | _ => false end.

(** ToBoolean on a number: NaN, +0 and -0 are falsy. *)
Definition truthy (x : number) : bool := negb (is_nan x || is_zero x).

(** Bitwise equality of two numbers (not JS [===]: here NaN equals NaN and
    +0 differs from -0). *)
Definition same (x y : number) : bool :=
  match x, y with
  | S754_zero a, S754_zero b => Bool.eqb a b
  | S754_infinity a, S754_infinity b => Bool.eqb a b
  | S754_nan, S754_nan => true
  | S754_finite a m e, S754_finite b n f =>
      Bool.eqb a b && Pos.eqb m n && Z.eqb e f
  | _, _ => false
  end.

(** The integer part of a finite number's exact value, rounded down
    ([floorZ]) or toward zero ([truncZ]); 0 where there is none. *)
Definition floorZ (x : number) : Z :=
  match x with
  | S754_finite s m e =>
      if 0 <=? e then cond_Zopp s (Zpos m) * 2 ^ e
      else cond_Zopp s (Zpos m) / 2 ^ (- e)
  | _ => 0
  end.

Definition truncZ (x : number) : Z :=
  match x with
  | S754_finite s m e =>
      if 0 <=? e then cond_Zopp s (Zpos m) * 2 ^ e
      else cond_Zopp s (Zpos m / 2 ^ (- e))
  | _ => 0
  end.

(** Whether a number is an integer (zeros included). *)
Definition is_integer (x : number) : bool :=
  match x with
  | S754_zero _ => true
  | S754_finite _ m e => (0 <=? e) || (Zpos m mod 2 ^ (- e) =? 0)
  | _ => false
  end.

Definition Math_abs : number -> number := SFabs.
Definition Math_sqrt : number -> number := SFsqrt prec emax.

(** Math.floor: the largest integer not above [x]; NaN, infinities and
    zeros are returned as they are, and a positive fraction gives +0. *)
Definition Math_floor (x : number) : number :=
  match x with
  | S754_finite s m e =>
      if 0 <=? e then x
      else match floorZ x with
           | 0 => S754_zero s
           | q => ofZ q
           end
  | _ => x
  end.

(** Math.round: floor(x + 1/2), computed exactly; the sign of a zero result
    is the sign of [x]. *)
Definition Math_round (x : number) : number :=
  match x with
  | S754_finite s m e =>
      if 0 <=? e then x
      else match (2 * cond_Zopp s (Zpos m) + 2 ^ (- e)) / 2 ^ (- e + 1) with
           | 0 => S754_zero s
           | q => ofZ q
           end
  | _ => x
  end.

(** Math.max and Math.min of two numbers: NaN as soon as one is NaN, and
    +0 counts as larger than -0. *)
Definition Math_max (x y : number) : number :=
  if is_nan x || is_nan y then nan
  else if lt x y then y
  else if lt y x then x
  else match x, y with
       | S754_zero true, S754_zero _ => y
       | _, _ => x
       end.

Definition Math_min (x y : number) : number :=
  if is_nan x || is_nan y then nan
  else if lt x y then x
  else if lt y x then y
  else match x, y with
       | S754_zero false, S754_zero _ => y
       | _, _ => x
       end.

(** Math.fround, the rounding a Float32Array store applies: round to
    binary32 (precision 24, infinity exponent 128), then read the result
    back as a canonical binary64. *)
Definition widen (x : number) : number :=
  match x with
  | S754_finite s m e => binary_round prec emax s m e
  | _ => x
  end.

Definition fround (x : number) : number :=
  match x with
  | S754_finite s m e => widen (binary_round 24 128 s m e)
  | _ => x
  end.

(** A number a Float32Array can hold. *)
Definition is_float32 (x : number) : bool := same (fround x) x.

(** ToIntegerOrInfinity then a two's complement wrap to [w] bits, as the
    DataView setters apply to their value: NaN, zeros and infinities give
    0. *)
Definition wrap (w : Z) (z : Z) : Z := z mod 2 ^ w.

Definition toUintN (w : Z) (x : number) : Z := wrap w (truncZ x).

End Num.

(** ** Typed arrays, array buffers and data views *)
Module Typed.
Import Num.

(** What a call can throw. *)
Inductive Exn :=
| Error (message : string)
| RangeError (message : string).

Definition exn_message (e : Exn) : string :=
  match e with Error m | RangeError m => m end.

Inductive Outcome (A : Type) :=
| Returned (a : A)
| Thrown (e : Exn).
Arguments Returned {A} a.
Arguments Thrown {A} e.

(** A Float32Array: its elements, each read back as a number.  Array
    lengths, indices and byte offsets are integers below 2^53, on which
    binary64 arithmetic is exact; they are kept as [nat] and [Z]. *)
Definition Float32Array := list number.

Definition length_number (a : Float32Array) : number :=
  ofZ (Z.of_nat (length a)).

(** The integer-indexed property a number names, if any: [a[k]] reads the
    element at an integer [k >= 0] (with -0 read as 0) and is [undefined]
    for every other key. *)
Definition index_of (k : number) : option nat :=
  match k with
  | S754_zero _ => Some 0%nat
  | S754_finite false _ _ =>
      if is_integer k then Some (Z.to_nat (truncZ k)) else None
  | _ => None
  end.

Definition get (a : Float32Array) (k : number) : option number :=
  i ← index_of k; a !! i.

(** [v || 0] for an element read [v]: undefined, NaN and both zeros give
    the number 0. *)
Definition or_zero (v : option number) : number :=
  match v with
  | Some x => if truthy x then x else pzero
  | None => pzero
  end.

(** [new Float32Array(n)] for a number [n]: ToIndex on the length, then
    [n] zero elements.  NaN counts as 0; a negative, an infinite or a
    length above 2^53 - 1 is a RangeError. *)
Definition new_Float32Array (n : number) : Outcome Float32Array :=
  match n with
  | S754_nan | S754_zero _ => Returned []
  | S754_infinity _ => Thrown (RangeError "Invalid typed array length")
  | S754_finite _ _ _ =>
      let z := truncZ n in
      if (z <? 0) || (2 ^ 53 - 1 <? z)
      then Thrown (RangeError "Invalid typed array length")
      else Returned (replicate (Z.to_nat z) pzero)
  end.

(** An ArrayBuffer under a DataView: its bytes, each in [0, 256). *)
Definition ArrayBuffer := list Z.

Definition new_ArrayBuffer (n : nat) : ArrayBuffer := replicate n 0.

Definition out_of_bounds {A} : Outcome A :=
  Thrown (RangeError "Offset is outside the bounds of the DataView").

Definition setUint8 (view : ArrayBuffer) (offset : nat) (v : Z)
  : Outcome ArrayBuffer :=
  if (offset <? length view)%nat
  then Returned (<[offset := wrap 8 v]> view)
  else out_of_bounds.

Definition getUint8 (view : ArrayBuffer) (offset : nat) : Outcome Z :=
  match view !! offset with
  | Some b => Returned b
  | None => out_of_bounds
  end.

(** The [w] bytes of [v], least significant first. *)
Fixpoint le_bytes (w : nat) (v : Z) : list Z :=
  match w with
  | O => []
  | S w' => v mod 256 :: le_bytes w' (v / 256)
  end.

Fixpoint le_value (bs : list Z) : Z :=
  match bs with
  | [] => 0
  | b :: bs' => b + 256 * le_value bs'
  end.

(** Writing and reading [w] bytes at [offset], little endian. *)
Definition write_le (w : nat) (view : ArrayBuffer) (offset : nat) (v : Z)
  : Outcome ArrayBuffer :=
  if (offset + w <=? length view)%nat
  then Returned (take offset view ++ le_bytes w v ++ drop (offset + w) view)
  else out_of_bounds.

Definition read_le (w : nat) (view : ArrayBuffer) (offset : nat)
  : Outcome Z :=
  if (offset + w <=? length view)%nat
  then Returned (le_value (take w (drop offset view)))
  else out_of_bounds.

(** [view.setUint32(offset, v, true)] and its 16-bit and signed forms:
    the value is wrapped to the field's width (ToUint32, ToUint16,
    ToInt16 all store the same low bytes). *)
Definition setUint32 (view : ArrayBuffer) (offset : nat) (v : Z) :=
  write_le 4 view offset (wrap 32 v).
Definition setUint16 (view : ArrayBuffer) (offset : nat) (v : Z) :=
  write_le 2 view offset (wrap 16 v).
Definition setInt16 (view : ArrayBuffer) (offset : nat) (v : Z) :=
  write_le 2 view offset (wrap 16 v).
Definition getUint32 (view : ArrayBuffer) (offset : nat) :=
  read_le 4 view offset.
Definition getUint16 (view : ArrayBuffer) (offset : nat) :=
  read_le 2 view offset.

Record Blob := { blob_bytes : list Z; blob_type : string }.

End Typed.

(** ** The host, the logger and the TTS debugger *)
Module Log.
Import Num Typed.

(** [LogLevel] of types/logger.ts, with its numeric values. *)
Inductive LogLevel := DEBUG | INFO | WARN | ERROR | NONE.

Definition level_value (l : LogLevel) : Z :=
  match l with DEBUG => 0 | INFO => 1 | WARN => 2 | ERROR => 3 | NONE => 4 end.

(** The [data?: any] payload of a log call.  [VFixed d n] stands for the
    string [n.toFixed(d)], which the host formats. *)
Inductive LogVal :=
| VUndefined
| VNum (n : number)
| VStr (s : string)
| VBool (b : bool)
| VArr (a : list number)
| VFixed (digits : Z) (n : number)
| VObj (fields : list LogField)
with LogField :=
| Field (key : string) (value : LogVal).

Record LogEntry := {
  le_level : LogLevel;
  le_category : string;
  le_message : string;
  le_data : LogVal;
  le_timestamp : Z;
  le_count : option Z
}.

Record LoggerConfig := {
  level : LogLevel;
  enableConsole : bool;
  enableDeduplication : bool;
  maxEntries : nat;
  deduplicationWindow : Z
}.

Record Logger := {
  config : LoggerConfig;
  entries : list LogEntry;
  lastMessages : gmap string (LogEntry * Z)
}.

Record TTSDebugInfo := {
  di_stage : string;
  di_success : bool;
  di_data : LogVal;
  di_error : option string;
  di_timestamp : Z
}.

(** What the code calls and does not define: Math.tanh (which ECMAScript
    leaves implementation-approximated), the clock, the console and the
    random source.  [Date_now n] is what the n-th call of Date.now() returns,
    [getRandomValues n] the two Uint32 values of the n-th fill, and [console]
    tells whether a console call returns ([None]) or throws. *)
Record Platform := {
  Math_tanh : number -> number;
  Date_now : nat -> Z;
  console : LogLevel -> string -> LogVal -> option Exn;
  getRandomValues : nat -> Z * Z
}.

(** The mutable state a call can touch: the two module-level singletons
    [logger] and [ttsDebugger], and how often the clock and the random source
    were asked. *)
Record World := {
  logger : Logger;
  ttsDebugger : list TTSDebugInfo;
  clock : nat;
  entropy : nat
}.

(** Computations that read and write the world and may throw; what was
    written before a throw stays written. *)
Definition M (A : Type) : Type := World -> Outcome A * World.

Definition ret {A} (a : A) : M A := fun w => (Returned a, w).

Definition throw {A} (e : Exn) : M A := fun w => (Thrown e, w).

Definition bind {A B} (m : M A) (k : A -> M B) : M B :=
  fun w =>
    match m w with
    | (Returned a, w') => k a w'
    | (Thrown e, w') => (Thrown e, w')
    end.

Definition lift {A} (o : Outcome A) : M A := fun w => (o, w).

Definition try_catch {A} (m : M A) (handler : Exn -> M A) : M A :=
  fun w =>
    match m w with
    | (Thrown e, w') => handler e w'
    | r => r
    end.

Definition result {A} (m : M A) (w : World) : Outcome A := fst (m w).

End Log.

Declare Scope js_scope.
Delimit Scope js_scope with js.
Notation "x <- m ;; k" := (Log.bind m (fun x => k))
  (at level 100, m at next level, right associativity) : js_scope.
Notation "m ;; k" := (Log.bind m (fun _ => k))
  (at level 100, right associativity) : js_scope.

Module Logger.
Import Num Typed Log.
Local Open Scope js_scope.

Section WithPlatform.
Variable P : Platform.

(** Date.now() *)
Definition now : M Z :=
  fun w => (Returned (Date_now P (clock w)),
            {| logger := logger w; ttsDebugger := ttsDebugger w;
               clock := S (clock w); entropy := entropy w |}).

Definition get_logger : M Logger := fun w => (Returned (logger w), w).

Definition set_logger (l : Logger) : M unit :=
  fun w => (Returned tt,
            {| logger := l; ttsDebugger := ttsDebugger w;
               clock := clock w; entropy := entropy w |}).

Definition shouldLog (cfg : LoggerConfig) (l : LogLevel) : bool :=
  level_value (level cfg) <=? level_value l.

Definition with_count (e : LogEntry) (c : Z) : LogEntry :=
  {| le_level := le_level e; le_category := le_category e;
     le_message := le_message e; le_data := le_data e;
     le_timestamp := le_timestamp e; le_count := Some c |}.

(** [deduplicateMessage]: [None] for a message seen within the window (its
    stored copy counts one more), the entry itself otherwise. *)
Definition deduplicateMessage (entry : LogEntry) : M (option LogEntry) :=
  lg <- get_logger ;;
  if negb (enableDeduplication (config lg)) then ret (Some entry)
  else
    let key := (le_category entry ++ ":" ++ le_message entry)%string in
    t <- now ;;
    match lastMessages lg !! key with
    | Some (stored, lastSeen) =>
        if t - lastSeen <? deduplicationWindow (config lg) then
          let c := match le_count stored with
                   | Some c => if c =? 0 then 1 else c
                   | None => 1
                   end in
          set_logger {| config := config lg; entries := entries lg;
                        lastMessages :=
                          <[key := (with_count stored (c + 1), t)]>
                            (lastMessages lg) |} ;;
          ret None
        else
          set_logger {| config := config lg; entries := entries lg;
                        lastMessages :=
                          <[key := (with_count entry 1, t)]>
                            (lastMessages lg) |} ;;
          ret (Some entry)
    | None =>
        set_logger {| config := config lg; entries := entries lg;
                      lastMessages :=
                        <[key := (with_count entry 1, t)]>
                          (lastMessages lg) |} ;;
        ret (Some entry)
    end.

Definition addEntry (entry : LogEntry) : M unit :=
  lg <- get_logger ;;
  let kept := if (maxEntries (config lg) <=? length (entries lg))%nat
              then tail (entries lg) else entries lg in
  set_logger {| config := config lg; entries := kept ++ [entry];
                lastMessages := lastMessages lg |}.

(** The two characters before the count are those of the source literal,
    U+00C3 and U+2014, here as their UTF-8 bytes. *)
Definition formatMessage (entry : LogEntry) : string :=
  let countSuffix :=
    match le_count entry with
    | Some c => if 1 <? c then (" (Ã—" ++ pretty c ++ ")")%string
                else ""%string
    | None => ""%string
    end in
  ("[" ++ le_category entry ++ "] " ++ le_message entry ++ countSuffix)%string.

(** A console call of the level's method: it returns, or throws what the
    host throws. *)
Definition console_call (l : LogLevel) (message : string) (d : LogVal)
  : M unit :=
  match l with
  | NONE => ret tt
  | _ => match console P l message d with
         | Some e => throw e
         | None => ret tt
         end
  end.

(** [Logger.log] *)
Definition log (l : LogLevel) (category message : string) (d : LogVal)
  : M unit :=
  lg <- get_logger ;;
  if negb (shouldLog (config lg) l) then ret tt
  else
    t <- now ;;
    let entry := {| le_level := l; le_category := category;
                    le_message := message; le_data := d;
                    le_timestamp := t; le_count := None |} in
    deduplicated <- deduplicateMessage entry ;;
    match deduplicated with
    | None => ret tt
    | Some e =>
        addEntry e ;;
        if enableConsole (config lg)
        then console_call l (formatMessage e) d
        else ret tt
    end.

Definition debug := log DEBUG.
Definition info := log INFO.
Definition warn := log WARN.
Definition error := log ERROR.

(** [TTSDebugger.log], with its buffer of at most [MAX_LOGS] records. *)
Definition MAX_LOGS : nat := 1000.

Definition ttsDebugger_log (stg : string) (ok : bool) (d : LogVal)
    (err : option string) : M unit :=
  t <- now ;;
  (fun w =>
     let logs := ttsDebugger w in
     let kept := if (MAX_LOGS <=? length logs)%nat then tail logs else logs in
     (Returned tt,
      {| logger := logger w;
         ttsDebugger := kept ++ [{| di_stage := stg; di_success := ok;
                                    di_data := d; di_error := err;
                                    di_timestamp := t |}];
         clock := clock w; entropy := entropy w |})) ;;
  if ok then debug "tts" (stg ++ ": SUCCESS") d
  else error "tts" (stg ++ ": FAILED")
         (VObj [Field "error" match err with
                               | Some s => VStr s
                               | None => VUndefined
                               end;
                Field "data" d]).

End WithPlatform.
End Logger.

(** ** audio-utils *)
Module Audio.
Import Num Typed Log Logger.
Local Open Scope js_scope.

Section WithPlatform.
Variable P : Platform.

Definition num_of_nat (n : nat) : number := ofZ (Z.of_nat n).

(** The statistics [validateAudioData] gathers in its single pass. *)
Record Stats := {
  st_min : number;
  st_max : number;
  st_zeros : nat;
  st_clipped : nat
}.

Definition stats_step (st : Stats) (sample : number) : Stats :=
  {| st_min := if lt sample (st_min st) then sample else st_min st;
     st_max := if gt sample (st_max st) then sample else st_max st;
     st_zeros := if strict_eq sample pzero then S (st_zeros st)
                 else st_zeros st;
     st_clipped := if ge (Math_abs sample) one then S (st_clipped st)
                   else st_clipped st |}.

Definition stats_of (audioData : Float32Array) : Stats :=
  fold_left stats_step audioData
    {| st_min := pinf; st_max := ninf; st_zeros := 0; st_clipped := 0 |}.

Definition percent_of (count : nat) (audioData : Float32Array) : number :=
  mul (div (num_of_nat count) (length_number audioData)) c100.

Definition validateAudioData (audioData : Float32Array) (stage : string)
  : M unit :=
  let st := stats_of audioData in
  debug P "audio-validation" ("Audio data at " ++ stage)
    (VObj [Field "length" (VNum (length_number audioData));
           Field "min" (VNum (st_min st));
           Field "max" (VNum (st_max st));
           Field "zeros" (VNum (num_of_nat (st_zeros st)));
           Field "zeroPercent" (VFixed 2 (percent_of (st_zeros st) audioData));
           Field "clipped" (VNum (num_of_nat (st_clipped st)));
           Field "clippedPercent"
             (VFixed 2 (percent_of (st_clipped st) audioData))]).

Definition charCode (c : ascii) : Z := Z.of_N (N_of_ascii c).

Definition fromCharCode (codes : list Z) : string :=
  string_of_list_ascii (map (fun b => ascii_of_N (Z.to_N b)) codes).

(** [writeString]: one byte per character, from [offset] on. *)
Fixpoint writeString (view : ArrayBuffer) (offset : nat) (s : string)
  : Outcome ArrayBuffer :=
  match s with
  | EmptyString => Returned view
  | String c rest =>
      match setUint8 view offset (charCode c) with
      | Returned view' => writeString view' (S offset) rest
      | Thrown e => Thrown e
      end
  end.

Definition sumSquares (audioData : Float32Array) : number :=
  fold_left (fun acc x => add acc (mul x x)) audioData pzero.

Definition rms_of (audioData : Float32Array) : number :=
  Math_sqrt (div (sumSquares audioData) (length_number audioData)).

(** The soft limiter applied to one sample, and stored in a Float32Array. *)
Definition soft_limit (scaleFactor sample : number) : number :=
  let scaled := mul sample scaleFactor in
  fround (Math_tanh P (mul scaled c0_9)).

Definition normalizeAudio (audioData : Float32Array) (targetRMS : number)
  : M Float32Array :=
  debug P "audio-utils" "Starting RMS normalization"
    (VObj [Field "audioLength" (VNum (length_number audioData));
           Field "targetRMS" (VNum targetRMS)]) ;;
  validateAudioData audioData "pre-normalization" ;;
  if (length audioData =? 0)%nat then
    error P "audio-utils" "Cannot normalize empty audio data" VUndefined ;;
    throw (Error "Cannot normalize empty audio data")
  else
    let rms := rms_of audioData in
    if strict_eq rms pzero then
      warn P "audio-utils" "Audio is completely silent (RMS = 0)" VUndefined ;;
      ret audioData
    else
      let scaleFactor := div targetRMS rms in
      let normalizedAudio := map (soft_limit scaleFactor) audioData in
      validateAudioData normalizedAudio "post-normalization" ;;
      debug P "audio-utils" "RMS normalization complete"
        (VObj [Field "originalRMS" (VNum rms);
               Field "scaleFactor" (VNum scaleFactor);
               Field "targetRMS" (VNum targetRMS)]) ;;
      ret normalizedAudio.

(** The Catmull-Rom value written at output index [i]. *)
Definition interpolate (audioData : Float32Array) (ratio : number) (i : nat)
  : number :=
  let sourceIndex := div (num_of_nat i) ratio in
  let index := Math_floor sourceIndex in
  let fraction := sub sourceIndex index in
  let last := sub (length_number audioData) one in
  let y0 := or_zero (get audioData (Math_max pzero (sub index one))) in
  let y1 := or_zero (get audioData index) in
  let y2 := or_zero (get audioData (Math_min (add index one) last)) in
  let y3 := or_zero (get audioData (Math_min (add index two) last)) in
  let a0 := add (sub (add (mul (neg c0_5) y0) (mul c1_5 y1)) (mul c1_5 y2))
                (mul c0_5 y3) in
  let a1 := sub (add (sub y0 (mul c2_5 y1)) (mul two y2)) (mul c0_5 y3) in
  let a2 := add (mul (neg c0_5) y0) (mul c0_5 y2) in
  let a3 := y1 in
  add (add (add (mul (mul (mul a0 fraction) fraction) fraction)
                (mul (mul a1 fraction) fraction))
           (mul a2 fraction))
      a3.

Definition upsample_ratio (inputSampleRate outputSampleRate : number)
  : number := div outputSampleRate inputSampleRate.

Definition upsample_length (audioData : Float32Array) (ratio : number)
  : number := Math_floor (mul (length_number audioData) ratio).

Definition upsampleAudio (audioData : Float32Array)
    (inputSampleRate outputSampleRate : number) : M Float32Array :=
  ttsDebugger_log P "upsample-audio-start" true
    (VObj [Field "inputLength" (VNum (length_number audioData));
           Field "inputSampleRate" (VNum inputSampleRate);
           Field "outputSampleRate" (VNum outputSampleRate)]) None ;;
  validateAudioData audioData "pre-upsampling" ;;
  if (length audioData =? 0)%nat then
    ttsDebugger_log P "upsample-audio" false
      (VObj [Field "audioData" (VArr audioData);
             Field "inputSampleRate" (VNum inputSampleRate);
             Field "outputSampleRate" (VNum outputSampleRate)])
      (Some "Audio data is empty"%string) ;;
    throw (Error "Cannot upsample empty audio data")
  else
    let ratio := upsample_ratio inputSampleRate outputSampleRate in
    let outputLength := upsample_length audioData ratio in
    allocated <- lift (new_Float32Array outputLength) ;;
    (* every index below the allocated length is written once, in order *)
    let upsampledAudio :=
      map (fun i => fround (interpolate audioData ratio i))
          (List.seq 0 (length allocated)) in
    validateAudioData upsampledAudio "post-upsampling" ;;
    ttsDebugger_log P "upsample-audio-complete" true
      (VObj [Field "inputLength" (VNum (length_number audioData));
             Field "outputLength" (VNum (length_number upsampledAudio));
             Field "ratio" (VNum ratio);
             Field "inputSampleRate" (VNum inputSampleRate);
             Field "outputSampleRate" (VNum outputSampleRate)]) None ;;
    ret upsampledAudio.

(** The next two Uint32 values of [crypto.getRandomValues]. *)
Definition random_pair : M (Z * Z) :=
  fun w => (Returned (getRandomValues P (entropy w)),
            {| logger := logger w; ttsDebugger := ttsDebugger w;
               clock := clock w; entropy := S (entropy w) |}).

Definition c0x7FFF : number := Eval vm_compute in ofZ 32767.
Definition cm0x8000 : number := Eval vm_compute in ofZ (-32768).
Definition c0xFFFFFFFF : number := Eval vm_compute in ofZ 4294967295.

(** One sample as 16-bit PCM: clamp, scale, add the triangular dither of the
    two draws, round, clamp again. *)
Definition quantize (sample : number) (draws : Z * Z) : number :=
  let clampedSample := Math_max (neg one) (Math_min one sample) in
  let scaled := mul clampedSample c0x7FFF in
  let dither := mul (sub (div (ofZ (fst draws)) c0xFFFFFFFF)
                         (div (ofZ (snd draws)) c0xFFFFFFFF)) c0_5 in
  let dithered := Math_round (add scaled dither) in
  Math_max cm0x8000 (Math_min c0x7FFF dithered).

(** The PCM loop: two bytes per sample from [offset] on. *)
Fixpoint write_pcm (samples : list number) (offset : nat) (view : ArrayBuffer)
  : M ArrayBuffer :=
  match samples with
  | [] => ret view
  | sample :: rest =>
      draws <- random_pair ;;
      view' <- lift (setInt16 view offset (truncZ (quantize sample draws))) ;;
      write_pcm rest (offset + 2) view'
  end.

Definition processedSampleRate : Z := 48000.

(** The thirteen header writes of [createAudioBlob], for [len] samples. *)
Definition write_header (view : ArrayBuffer) (len : nat)
  : Outcome ArrayBuffer :=
  let then_ (o : Outcome ArrayBuffer) (f : ArrayBuffer -> Outcome ArrayBuffer) :=
    match o with Returned v => f v | Thrown e => Thrown e end in
  then_ (writeString view 0 "RIFF") (fun view =>
  then_ (setUint32 view 4 (36 + Z.of_nat len * 2)) (fun view =>
  then_ (writeString view 8 "WAVE") (fun view =>
  then_ (writeString view 12 "fmt ") (fun view =>
  then_ (setUint32 view 16 16) (fun view =>
  then_ (setUint16 view 20 1) (fun view =>
  then_ (setUint16 view 22 1) (fun view =>
  then_ (setUint32 view 24 processedSampleRate) (fun view =>
  then_ (setUint32 view 28 (processedSampleRate * 2)) (fun view =>
  then_ (setUint16 view 32 2) (fun view =>
  then_ (setUint16 view 34 16) (fun view =>
  then_ (writeString view 36 "data") (fun view =>
  setUint32 view 40 (Z.of_nat len * 2))))))))))))).

(** What the encoder reads back from the header it wrote. *)
Record HeaderValidation := {
  riffMarker : string;
  fileSize : Z;
  waveMarker : string;
  fmtMarker : string;
  audioFormat : Z;
  numChannels : Z;
  sampleRate : Z;
  bitsPerSample : Z
}.

Definition read_marker (view : ArrayBuffer) (offset : nat) : Outcome string :=
  match getUint8 view offset, getUint8 view (offset + 1),
        getUint8 view (offset + 2), getUint8 view (offset + 3) with
  | Returned a, Returned b, Returned c, Returned d =>
      Returned (fromCharCode [a; b; c; d])
  | Thrown e, _, _, _ | _, Thrown e, _, _ | _, _, Thrown e, _
  | _, _, _, Thrown e => Thrown e
  end.

Definition read_header (view : ArrayBuffer) : Outcome HeaderValidation :=
  match read_marker view 0, getUint32 view 4, read_marker view 8,
        read_marker view 12, getUint16 view 20, getUint16 view 22,
        getUint32 view 24, getUint16 view 34 with
  | Returned riff, Returned size, Returned wave, Returned fmt,
    Returned format, Returned channels, Returned rate, Returned bits =>
      Returned {| riffMarker := riff; fileSize := size; waveMarker := wave;
                  fmtMarker := fmt; audioFormat := format;
                  numChannels := channels; sampleRate := rate;
                  bitsPerSample := bits |}
  | Thrown e, _, _, _, _, _, _, _ | _, Thrown e, _, _, _, _, _, _
  | _, _, Thrown e, _, _, _, _, _ | _, _, _, Thrown e, _, _, _, _
  | _, _, _, _, Thrown e, _, _, _ | _, _, _, _, _, Thrown e, _, _
  | _, _, _, _, _, _, Thrown e, _ | _, _, _, _, _, _, _, Thrown e => Thrown e
  end.

(** The condition under which the encoder rejects the header it read. *)
Definition header_rejected (h : HeaderValidation) : bool :=
  negb (String.eqb (riffMarker h) "RIFF")
  || negb (String.eqb (waveMarker h) "WAVE").

Definition header_log (h : HeaderValidation) : LogVal :=
  VObj [Field "riffMarker" (VStr (riffMarker h));
        Field "fileSize" (VNum (ofZ (fileSize h)));
        Field "waveMarker" (VStr (waveMarker h));
        Field "fmtMarker" (VStr (fmtMarker h));
        Field "audioFormat" (VNum (ofZ (audioFormat h)));
        Field "numChannels" (VNum (ofZ (numChannels h)));
        Field "sampleRate" (VNum (ofZ (sampleRate h)));
        Field "bitsPerSample" (VNum (ofZ (bitsPerSample h)))].

(** The "Validate WAV header" block: read back, log, check. *)
Definition validate_header (view : ArrayBuffer) : M unit :=
  headerValidation <- lift (read_header view) ;;
  debug P "audio-utils" "WAV header validation" (header_log headerValidation) ;;
  if header_rejected headerValidation then
    error P "audio-utils" "Invalid WAV header markers"
      (header_log headerValidation) ;;
    throw (Error "Invalid WAV header construction")
  else ret tt.

(** The body of the [try] block of [createAudioBlob]. *)
Definition encode (audioData : Float32Array) (sampleRate : number) : M Blob :=
  normalizedAudio <- normalizeAudio audioData c0_15 ;;
  upsampledAudio <- upsampleAudio normalizedAudio sampleRate c48000 ;;
  ttsDebugger_log P "audio-processing-complete" true
    (VObj [Field "originalLength" (VNum (length_number audioData));
           Field "processedLength" (VNum (length_number upsampledAudio));
           Field "originalSampleRate" (VNum sampleRate);
           Field "processedSampleRate" (VNum (ofZ processedSampleRate))])
    None ;;
  let len := length upsampledAudio in
  let buffer := new_ArrayBuffer (44 + len * 2) in
  view <- lift (write_header buffer len) ;;
  validate_header view ;;
  view <- write_pcm upsampledAudio 44 view ;;
  debug P "audio-utils" "WAV PCM conversion complete"
    (VObj [Field "samplesConverted" (VNum (num_of_nat len));
           Field "blobSize" (VNum (num_of_nat (length view)))]) ;;
  let blob := {| blob_bytes := view; blob_type := "audio/wav" |} in
  ttsDebugger_log P "createAudioBlob-complete" true
    (VObj [Field "blobSize" (VNum (num_of_nat (length (blob_bytes blob))));
           Field "blobType" (VStr (blob_type blob));
           Field "bufferSize" (VNum (num_of_nat (length view)))]) None ;;
  ret blob.

Definition createAudioBlob (audioData : Float32Array) (sampleRate : number)
  : M Blob :=
  ttsDebugger_log P "createAudioBlob-start" true
    (VObj [Field "audioDataLength" (VNum (length_number audioData));
           Field "sampleRate" (VNum sampleRate);
           Field "audioDataType" (VStr "object");
           Field "isFloat32Array" (VBool true)]) None ;;
  if (length audioData =? 0)%nat then
    ttsDebugger_log P "createAudioBlob" false
      (VObj [Field "audioData" (VArr audioData);
             Field "sampleRate" (VNum sampleRate)])
      (Some "Audio data is empty or null"%string) ;;
    throw (Error "Cannot create blob from empty audio data")
  else if negb (truthy sampleRate) || le sampleRate pzero then
    ttsDebugger_log P "createAudioBlob" false
      (VObj [Field "audioData" (VNum (length_number audioData));
             Field "sampleRate" (VNum sampleRate)])
      (Some "Invalid sample rate"%string) ;;
    throw (Error "Invalid sample rate for audio blob creation")
  else
    try_catch (encode audioData sampleRate)
      (fun e =>
         ttsDebugger_log P "createAudioBlob" false
           (VObj [Field "audioDataLength" (VNum (length_number audioData));
                  Field "sampleRate" (VNum sampleRate)])
           (Some (exn_message e)) ;;
         throw e).

End WithPlatform.
End Audio.

(** ** Functional reading of the three stages

    What each stage returns when no log call throws; the theorems below
    relate the stateful definitions to these. *)
Module Pure.
Import Num Typed Log Audio.

Definition normalized (P : Platform) (audioData : Float32Array)
    (targetRMS : number) : Outcome Float32Array :=
  if (length audioData =? 0)%nat
  then Thrown (Error "Cannot normalize empty audio data")
  else if strict_eq (rms_of audioData) pzero then Returned audioData
  else Returned (map (soft_limit P (div targetRMS (rms_of audioData)))
                     audioData).

Definition upsampled (audioData : Float32Array)
    (inputSampleRate outputSampleRate : number) : Outcome Float32Array :=
  if (length audioData =? 0)%nat
  then Thrown (Error "Cannot upsample empty audio data")
  else
    let ratio := upsample_ratio inputSampleRate outputSampleRate in
    match new_Float32Array (upsample_length audioData ratio) with
    | Returned allocated =>
        Returned (map (fun i => fround (interpolate audioData ratio i))
                      (List.seq 0 (length allocated)))
    | Thrown e => Thrown e
    end.

(** A host whose console never throws. *)
Definition quiet (P : Platform) : Prop :=
  forall l message d, console P l message d = None.

(** [post m Q]: whatever the world, the outcome of [m] satisfies [Q]. *)
Definition post {A} (m : M A) (Q : Outcome A -> Prop) : Prop :=
  forall w, Q (result m w).

Definition returns {A} (m : M A) (a : A) : Prop :=
  post m (fun o => o = Returned a).

Definition throws {A} (m : M A) (e : Exn) : Prop :=
  post m (fun o => o = Thrown e).

(** Sample hosts and worlds for closed instances. *)
Definition tanh_stub (x : number) : number :=
  match x with
  | S754_finite s _ _ | S754_infinity s => if s then neg one else one
  | _ => x
  end.

Definition quiet_host : Platform :=
  {| Math_tanh := tanh_stub;
     Date_now := fun n => Z.of_nat n;
     console := fun _ _ _ => None;
     getRandomValues := fun _ => (0, 0) |}.

Definition failing_host : Platform :=
  {| Math_tanh := tanh_stub;
     Date_now := fun n => Z.of_nat n;
     console := fun _ _ _ => Some (Error "console unavailable");
     getRandomValues := fun _ => (0, 0) |}.

(** A host whose console throws on the messages [test] selects: on every
    statistics message of [validateAudioData], or on the after-statistics
    only. *)
Definition failing_on (test : string -> bool) : Platform :=
  {| Math_tanh := tanh_stub;
     Date_now := fun n => Z.of_nat n;
     console := fun _ message _ =>
                  if test message then Some (Error "console unavailable")
                  else None;
     getRandomValues := fun _ => (0, 0) |}.

Definition stats_failing_host : Platform :=
  failing_on (String.prefix "[audio-validation]").

Definition post_stats_failing_host : Platform :=
  failing_on (String.prefix "[audio-validation] Audio data at post-").

Definition development_config : LoggerConfig :=
  {| level := DEBUG; enableConsole := true; enableDeduplication := true;
     maxEntries := 1000; deduplicationWindow := 5000 |}.

Definition production_config : LoggerConfig :=
  {| level := WARN; enableConsole := true; enableDeduplication := true;
     maxEntries := 1000; deduplicationWindow := 5000 |}.

Definition fresh_world (cfg : LoggerConfig) : World :=
  {| logger := {| config := cfg; entries := []; lastMessages := ∅ |};
     ttsDebugger := []; clock := 0; entropy := 0 |}.

(** The four characters a buffer holds from [offset] on, and a header to
    tamper with: the one the encoder writes for an empty payload. *)
Definition marker (view : ArrayBuffer) (offset : nat) : string :=
  fromCharCode (take 4 (drop offset view)).

Definition empty_payload_header : ArrayBuffer :=
  Eval vm_compute in
    match write_header (new_ArrayBuffer 44) 0 with
    | Returned view => view
    | Thrown _ => []
    end.

(** The 44 bytes [write_header] leaves at the start of the buffer. *)
Definition header_bytes (len : nat) : list Z :=
  [82; 73; 70; 70] ++ le_bytes 4 (wrap 32 (36 + Z.of_nat len * 2))
  ++ [87; 65; 86; 69; 102; 109; 116; 32; 16; 0; 0; 0; 1; 0; 1; 0;
      128; 187; 0; 0; 0; 119; 1; 0; 2; 0; 16; 0; 100; 97; 116; 97]
  ++ le_bytes 4 (wrap 32 (Z.of_nat len * 2)).

(** The signal the encoder quantizes: normalized with the default target,
    then resampled to 48000 Hz. *)
Definition processed (P : Platform) (audioData : Float32Array)
    (sampleRate : number) : Outcome Float32Array :=
  match normalized P audioData c0_15 with
  | Returned normalizedAudio => upsampled normalizedAudio sampleRate c48000
  | Thrown e => Thrown e
  end.

(** An outcome that is a WAV blob for the signal [up]: 44 header bytes,
    then two bytes per sample. *)
Definition encoded (up : Float32Array) (o : Outcome Blob) : Prop :=
  exists bytes,
    o = Returned {| blob_bytes := bytes; blob_type := "audio/wav" |}
    /\ length bytes = (44 + 2 * length up)%nat
    /\ take 44 bytes = header_bytes (length up).

(** A sample rate [createAudioBlob] accepts. *)
Definition accepted_rate (sampleRate : number) : bool :=
  negb (negb (truthy sampleRate) || le sampleRate pzero).

(** Two tampered headers: a wrong data marker, and a zero sample rate. *)
Definition wrong_data_marker : ArrayBuffer :=
  <[36%nat := 88]> empty_payload_header.

Definition wrong_sample_rate : ArrayBuffer :=
  <[24%nat := 0]> (<[25%nat := 0]> empty_payload_header).

(** A short signal for closed instances. *)
Definition click : Float32Array := [pzero; c0_5; neg c0_5; pzero].

(** What [v || 0] makes of a sample [x] read from an array. *)
Definition read_sample (x : number) : number := or_zero (Some x).

(** A host whose hyperbolic tangent returns doubles within [-1, 1] (or
    NaN). *)
Definition bounded_tanh (P : Platform) : Prop :=
  forall x, valid_binary prec emax (Math_tanh P x) = true
            /\ lt one (Math_abs (Math_tanh P x)) = false.

(** One second of silence at 48 kHz ending in a full-scale sample, the
    argument the limiter passes to [Math.tanh] for that sample at the
    default target (about 29.58), and the double just below 1. *)
Definition one_second_click : Float32Array :=
  replicate (Pos.to_nat 47999) pzero ++ [one].

Definition loudest : number :=
  Eval vm_compute in
    mul (mul one (div c0_15 (Math_sqrt (div one (ofZ 48000))))) c0_9.

Definition below_one : number := S754_finite false 9007199254740991 (-53).

End Pure.

(** ** Rounding, in closed form *)
Module Round.

(** What [binary_round_aux] makes of a rounded mantissa [m] at exponent [e]:
    a zero, a finite number, or an infinity past the largest exponent. *)
Definition pack (prec emax : Z) (sx : bool) (m e : Z) : spec_float :=
  match m with
  | 0 => S754_zero sx
  | Zpos p => if e <=? emax - prec then S754_finite sx p e
              else S754_infinity sx
  | Zneg _ => S754_nan
  end.

(** A finite binary64 in canonical form: its mantissa fills the 53 bits, or
    its exponent is the least one. *)
Definition canonical (m : positive) (e : Z) : Prop :=
  bounded Num.prec Num.emax m e = true.

(** A zero, or a canonical finite number below 2^B in magnitude. *)
Definition bounded_by (B : Z) (x : spec_float) : Prop :=
  match x with
  | S754_zero _ => True
  | S754_finite _ m e => canonical m e /\ Zdigits2 (Zpos m) + e <= B
  | _ => False
  end.

(** A positive number that is infinite, or canonical with an exponent of at
    least [L]; [louder] also admits NaN: what a sum of squares with a
    non-zero term can be. *)
Definition at_least (L : Z) (x : spec_float) : Prop :=
  match x with
  | S754_infinity false => True
  | S754_finite false m e => canonical m e /\ L <= e
  | _ => False
  end.

Definition louder (L : Z) (x : spec_float) : Prop :=
  x = S754_nan \/ at_least L x.

(** A zero, or a canonical finite number of magnitude at most U * 2^a, its
    exponent not above [a]. *)
Definition upto (U a : Z) (x : spec_float) : Prop :=
  match x with
  | S754_zero _ => True
  | S754_finite _ m e => canonical m e /\ e <= a /\ Zpos m <= U * 2 ^ (a - e)
  | _ => False
  end.

(** A canonical finite number of magnitude from L * 2^a to U * 2^a. *)
Definition within (L U a : Z) (x : spec_float) : Prop :=
  match x with
  | S754_finite _ m e =>
      canonical m e /\ e <= a
      /\ L * 2 ^ (a - e) <= Zpos m <= U * 2 ^ (a - e)
  | _ => False
  end.

End Round.

(** ** The rest of the Logger class and of the TTS debugger *)
Module LoggerClass.
Import Num Typed Log Logger.
Local Open Scope js_scope.

(** [Partial<LoggerConfig>]: the fields an object literal gives. *)
Record PartialConfig := {
  p_level : option LogLevel;
  p_enableConsole : option bool;
  p_enableDeduplication : option bool;
  p_maxEntries : option nat;
  p_deduplicationWindow : option Z
}.

(** The object spread of a configuration and a partial one:
    [{ ...cfg, ...partial }]. *)
Definition spread (cfg : LoggerConfig) (partial : PartialConfig)
  : LoggerConfig :=
  {| level := default (level cfg) (p_level partial);
     enableConsole := default (enableConsole cfg) (p_enableConsole partial);
     enableDeduplication :=
       default (enableDeduplication cfg) (p_enableDeduplication partial);
     maxEntries := default (maxEntries cfg) (p_maxEntries partial);
     deduplicationWindow :=
       default (deduplicationWindow cfg) (p_deduplicationWindow partial) |}.

Section WithPlatform.
Variable P : Platform.

(** [cleanupExpiredMessages]: every record last seen more than the window
    ago is deleted. *)
Definition cleanupExpiredMessages : M unit :=
  t <- now P ;;
  lg <- get_logger ;;
  set_logger
    {| config := config lg; entries := entries lg;
       lastMessages :=
         filter (fun kv => negb (deduplicationWindow (config lg)
                                 <? t - snd (snd kv)))
                (lastMessages lg) |}.

Definition getEntries : M (list LogEntry) :=
  lg <- get_logger ;; ret (entries lg).

Definition clearEntries : M unit :=
  lg <- get_logger ;;
  set_logger {| config := config lg; entries := []; lastMessages := ∅ |}.

Definition updateConfig (newConfig : PartialConfig) : M unit :=
  lg <- get_logger ;;
  set_logger {| config := spread (config lg) newConfig;
                entries := entries lg; lastMessages := lastMessages lg |}.

(** [TTSDebugger.getLogs] and [getFailures]. *)
Definition getLogs : M (list TTSDebugInfo) :=
  fun w => (Returned (ttsDebugger w), w).

Definition getFailures : M (list TTSDebugInfo) :=
  fun w => (Returned (List.filter (fun info => negb (di_success info))
                                  (ttsDebugger w)), w).

End WithPlatform.
End LoggerClass.

(** ** sanitizer: escapeHtml *)
Module Sanitizer.

(** [s.replace(/c/g, replacement)] for a one-character pattern and a
    replacement without [$]: every occurrence, left to right. *)
Fixpoint replace_all (c : ascii) (replacement s : string) : string :=
  match s with
  | EmptyString => EmptyString
  | String x rest =>
      if Ascii.eqb x c then (replacement ++ replace_all c replacement rest)%string
      else String x (replace_all c replacement rest)
  end.

Definition quote : ascii := ascii_of_nat 34.
Definition apostrophe : ascii := ascii_of_nat 39.

Definition escapeHtml (unsafe : string) : string :=
  replace_all apostrophe "&#039;"
    (replace_all quote "&quot;"
       (replace_all ">" "&gt;"
          (replace_all "<" "&lt;"
             (replace_all "&" "&amp;" unsafe)))).

End Sanitizer.

(** ** Reasoning about the world *)
Module State.
Import Num Typed Log Logger.

(** [keeps I m]: [m] leaves [I] standing, whether it returns or throws. *)
Definition keeps {A} (I : World -> Prop) (m : M A) : Prop :=
  forall w, I w -> I (snd (m w)).

(** Both buffers within their caps: the logger's entries (a buffer of size
    0 still holds the entry just added) and the debugger's records. *)
Definition bounded_buffers (w : World) : Prop :=
  (length (entries (logger w))
   <= Nat.max 1 (maxEntries (config (logger w))))%nat
  /\ (length (ttsDebugger w) <= MAX_LOGS)%nat.

(** [holds I m Q]: from a world satisfying [I], the outcome of [m]
    satisfies [Q] and [I] still stands. *)
Definition holds {A} (I : World -> Prop) (m : M A) (Q : Outcome A -> Prop)
  : Prop :=
  forall w, I w -> Q (fst (m w)) /\ I (snd (m w)).

(** [runs I m Q]: from a world satisfying [I], [m] returns a value that,
    with the world it leaves, satisfies [Q]. *)
Definition runs {A} (I : World -> Prop) (m : M A) (Q : A -> World -> Prop)
  : Prop :=
  forall w, I w -> exists a, fst (m w) = Returned a /\ Q a (snd (m w)).

(** [steps R m]: [m] takes every world to one related to it by [R]. *)
Definition steps {A} (R : World -> World -> Prop) (m : M A) : Prop :=
  forall w, R w (snd (m w)).

(** The entry buffer after a step: the configuration is the same, and the
    buffer is no shorter, and no longer than the larger of its former length
    and the cap. *)
Definition buffer_grows (w w' : World) : Prop :=
  config (logger w') = config (logger w)
  /\ (length (entries (logger w)) <= length (entries (logger w')))%nat
  /\ (length (entries (logger w'))
      <= Nat.max (length (entries (logger w)))
                 (Nat.max 1 (maxEntries (config (logger w)))))%nat.

(** The deduplication key of a message. *)
Definition key_of (category message : string) : string :=
  (category ++ ":" ++ message)%string.

(** [unrecorded key cfg w]: the logger has the configuration [cfg] and no
    deduplication record under [key]. *)
Definition unrecorded (key : string) (cfg : LoggerConfig) (w : World)
  : Prop :=
  config (logger w) = cfg /\ lastMessages (logger w) !! key = None.

(** [logged j l category message d cfg w]: the logger has the configuration
    [cfg], and its buffer holds an entry of level [l] with that category,
    message and data, with at most [j] entries after it. *)
Definition logged (j : nat) (l : LogLevel) (category message : string)
    (d : LogVal) (cfg : LoggerConfig) (w : World) : Prop :=
  config (logger w) = cfg
  /\ exists older newer t,
       entries (logger w)
       = older ++ {| le_level := l; le_category := category;
                     le_message := message; le_data := d;
                     le_timestamp := t; le_count := None |} :: newer
       /\ (length newer <= j)%nat.

End State.

(** * Properties *)

Import Num Typed Log Logger Audio Pure Round.
Local Open Scope js_scope.

(** ** The monad *)

Lemma post_ret {A} (a : A) (Q : Outcome A -> Prop) :
  Q (Returned a) -> post (ret a) Q.
Proof. intros H w. exact H. Qed.

Lemma post_throw {A} (e : Exn) (Q : Outcome A -> Prop) :
  Q (Thrown e) -> post (throw e) Q.
Proof. intros H w. exact H. Qed.

Lemma post_lift {A} (o : Outcome A) (Q : Outcome A -> Prop) :
  Q o -> post (lift o) Q.
Proof. intros H w. exact H. Qed.

Lemma post_bind {A B} (m : M A) (k : A -> M B) (R : A -> Prop)
    (Q : Outcome B -> Prop) :
  post m (fun o => exists a, o = Returned a /\ R a) ->
  (forall a, R a -> post (k a) Q) ->
  post (bind m k) Q.
Proof.
  intros Hm Hk w. specialize (Hm w). unfold result, bind in *.
  destruct (m w) as [o w']. simpl in Hm.
  destruct Hm as (a & -> & Ha). apply (Hk a Ha w').
Qed.

Lemma post_bind_returns {A B} (m : M A) (k : A -> M B) (a : A)
    (Q : Outcome B -> Prop) :
  returns m a -> post (k a) Q -> post (bind m k) Q.
Proof.
  intros Hm Hk. apply post_bind with (R := fun x => x = a).
  - intros w. exists a. split; [apply Hm | reflexivity].
  - intros ? ->. exact Hk.
Qed.

Lemma post_bind_throws {A B} (m : M A) (k : A -> M B) (e : Exn)
    (Q : Outcome B -> Prop) :
  throws m e -> Q (Thrown e) -> post (bind m k) Q.
Proof.
  intros Hm HQ w. specialize (Hm w). unfold result, bind in *.
  destruct (m w) as [o w']. simpl in Hm. subst o. exact HQ.
Qed.

Lemma post_try_returns {A} (m : M A) (h : Exn -> M A) (Q : Outcome A -> Prop) :
  post m (fun o => (exists a, o = Returned a) /\ Q o) ->
  post (try_catch m h) Q.
Proof.
  intros Hm w. specialize (Hm w). unfold result, try_catch in *.
  destruct (m w) as [o w']. simpl in *.
  destruct Hm as [[a ->] HQ]. exact HQ.
Qed.

Lemma post_try_throws {A} (m : M A) (h : Exn -> M A) (e : Exn)
    (Q : Outcome A -> Prop) :
  throws m e -> post (h e) Q -> post (try_catch m h) Q.
Proof.
  intros Hm Hh w. specialize (Hm w). unfold result, try_catch in *.
  destruct (m w) as [o w']. simpl in *. subst o. apply (Hh w').
Qed.

Lemma post_weaken {A} (m : M A) (Q Q' : Outcome A -> Prop) :
  post m Q -> (forall o, Q o -> Q' o) -> post m Q'.
Proof. intros H HQ w. apply HQ, H. Qed.

(** ** Logging on a quiet host always returns *)

Section Quiet.
Variable P : Platform.
Hypothesis Hquiet : quiet P.

Lemma now_returns : post (now P) (fun o => exists t, o = Returned t /\ True).
Proof. intros w. eexists. split; reflexivity || exact I. Qed.

Lemma get_logger_returns :
  post get_logger (fun o => exists l, o = Returned l /\ True).
Proof. intros w. eexists. split; reflexivity || exact I. Qed.

Lemma set_logger_returns (l : Logger) : returns (set_logger l) tt.
Proof. intros w. reflexivity. Qed.

Lemma console_call_returns l message d :
  returns (console_call P l message d) tt.
Proof.
  intros w. unfold console_call. rewrite Hquiet. destruct l; reflexivity.
Qed.

Lemma deduplicateMessage_returns entry :
  post (deduplicateMessage P entry)
       (fun o => exists r, o = Returned r /\ True).
Proof.
  unfold deduplicateMessage.
  eapply post_bind; [apply get_logger_returns | intros lg _].
  destruct (negb _).
  { apply post_ret. eauto. }
  eapply post_bind; [apply now_returns | intros t _].
  destruct (lastMessages lg !! _) as [[stored lastSeen]|].
  - destruct (_ <? _);
      (eapply post_bind_returns; [apply set_logger_returns |]);
      apply post_ret; eauto.
  - eapply post_bind_returns; [apply set_logger_returns |].
    apply post_ret; eauto.
Qed.

Lemma addEntry_returns entry : returns (addEntry entry) tt.
Proof. intros w. reflexivity. Qed.

Lemma log_returns l category message d :
  returns (log P l category message d) tt.
Proof.
  unfold returns, log.
  eapply post_bind; [apply get_logger_returns | intros lg _].
  destruct (negb _); [apply post_ret; reflexivity |].
  eapply post_bind; [apply now_returns | intros t _].
  eapply post_bind; [apply deduplicateMessage_returns | intros [e|] _].
  - eapply post_bind_returns; [apply addEntry_returns |].
    destruct (enableConsole _).
    + apply console_call_returns.
    + apply post_ret. reflexivity.
  - apply post_ret. reflexivity.
Qed.

Lemma ttsDebugger_log_returns stg ok d err :
  returns (ttsDebugger_log P stg ok d err) tt.
Proof.
  unfold returns, ttsDebugger_log.
  eapply post_bind; [apply now_returns | intros t _].
  eapply post_bind_returns with (a := tt); [intros w; reflexivity |].
  destruct ok; apply log_returns.
Qed.

Lemma validateAudioData_returns audioData stg :
  returns (validateAudioData P audioData stg) tt.
Proof. apply log_returns. Qed.

End Quiet.

(** ** The stages on a quiet host *)

Ltac log_step :=
  lazymatch goal with
  | |- post (bind (ttsDebugger_log _ _ _ _ _) _) _ =>
      eapply post_bind_returns;
      [apply ttsDebugger_log_returns; assumption |]
  | |- post (bind (validateAudioData _ _ _) _) _ =>
      eapply post_bind_returns;
      [apply validateAudioData_returns; assumption |]
  | |- post (bind (log _ _ _ _ _) _) _ =>
      eapply post_bind_returns; [apply log_returns; assumption |]
  end.

Lemma normalizeAudio_result (P : Platform) (audioData : Float32Array)
    (targetRMS : number) :
  quiet P ->
  post (normalizeAudio P audioData targetRMS)
       (fun o => o = normalized P audioData targetRMS).
Proof.
  intros Hq. unfold normalizeAudio, normalized, debug, warn, error.
  do 2 log_step.
  destruct (length audioData =? 0)%nat.
  - log_step. apply post_throw. reflexivity.
  - destruct (strict_eq _ _).
    + log_step. apply post_ret. reflexivity.
    + do 2 log_step. apply post_ret. reflexivity.
Qed.

Lemma upsampleAudio_result (P : Platform) (audioData : Float32Array)
    (inputSampleRate outputSampleRate : number) :
  quiet P ->
  post (upsampleAudio P audioData inputSampleRate outputSampleRate)
       (fun o => o = upsampled audioData inputSampleRate outputSampleRate).
Proof.
  intros Hq. unfold upsampleAudio, upsampled.
  do 2 log_step.
  destruct (length audioData =? 0)%nat.
  - log_step. apply post_throw. reflexivity.
  - destruct (new_Float32Array _) as [allocated|e].
    + eapply post_bind_returns; [intros w; reflexivity |].
      do 2 log_step. apply post_ret. reflexivity.
    + eapply post_bind_throws; [intros w; reflexivity | reflexivity].
Qed.

Lemma createAudioBlob_empty (P : Platform) (sampleRate : number) :
  quiet P ->
  throws (createAudioBlob P [] sampleRate)
         (Error "Cannot create blob from empty audio data").
Proof.
  intros Hq. unfold throws, createAudioBlob. simpl.
  do 2 log_step. apply post_throw. reflexivity.
Qed.

Lemma bind_always_throws {A B} (m : M A) (k : A -> M B) :
  (forall a w, exists e, result (k a) w = Thrown e) ->
  forall w, exists e, result (bind m k) w = Thrown e.
Proof.
  intros Hk w. unfold result, bind.
  destruct (m w) as [[a|e] w']; [apply Hk | exists e; reflexivity].
Qed.

(** C6, as the code has it.  Given a zero-length signal, the normalizer, the
    converter and the encoder each throw, on every host: the call returns
    no value, and nothing is retried.  The error thrown is the stage's own
    empty-input error provided the console does not throw; each stage
    reports the failure through the console just before its own throw. *)
Theorem empty_input_is_rejected (P : Platform) (w : World)
    (targetRMS inputSampleRate outputSampleRate sampleRate : number) :
  ((exists e, result (normalizeAudio P [] targetRMS) w = Thrown e)
   /\ (exists e,
         result (upsampleAudio P [] inputSampleRate outputSampleRate) w
         = Thrown e)
   /\ (exists e, result (createAudioBlob P [] sampleRate) w = Thrown e))
  /\ (quiet P ->
      result (normalizeAudio P [] targetRMS) w
        = Thrown (Error "Cannot normalize empty audio data")
      /\ result (upsampleAudio P [] inputSampleRate outputSampleRate) w
        = Thrown (Error "Cannot upsample empty audio data")
      /\ result (createAudioBlob P [] sampleRate) w
        = Thrown (Error "Cannot create blob from empty audio data")).
Proof.
  split.
  - split; [| split].
    + unfold normalizeAudio.
      apply bind_always_throws. intros _ w1.
      apply bind_always_throws. intros _ w2. cbn [length Nat.eqb].
      apply bind_always_throws. intros _ w3. eexists. reflexivity.
    + unfold upsampleAudio.
      apply bind_always_throws. intros _ w1.
      apply bind_always_throws. intros _ w2. cbn [length Nat.eqb].
      apply bind_always_throws. intros _ w3. eexists. reflexivity.
    + unfold createAudioBlob.
      apply bind_always_throws. intros _ w1. cbn [length Nat.eqb].
      apply bind_always_throws. intros _ w2. eexists. reflexivity.
  - intros Hq. split; [| split].
    + apply (normalizeAudio_result P [] targetRMS Hq w).
    + apply (upsampleAudio_result P [] inputSampleRate outputSampleRate Hq w).
    + apply (createAudioBlob_empty P sampleRate Hq w).
Qed.

Lemma empty_input_is_rejected_witness :
  result (normalizeAudio quiet_host [] c0_15) (fresh_world development_config)
    = Thrown (Error "Cannot normalize empty audio data")
  /\ result (upsampleAudio quiet_host [] (ofZ 24000) c48000)
       (fresh_world development_config)
    = Thrown (Error "Cannot upsample empty audio data")
  /\ result (createAudioBlob quiet_host [] (ofZ 24000))
       (fresh_world development_config)
    = Thrown (Error "Cannot create blob from empty audio data").
Proof.
  apply (proj2 (empty_input_is_rejected quiet_host
                  (fresh_world development_config)
                  c0_15 (ofZ 24000) c48000 (ofZ 24000))).
  intros l message d. reflexivity.
Defined.

(** C6 fails as stated: each stage reports the empty input through
    [console.error] before it throws, so with a console that throws the
    console's error is thrown in place of the empty-input error, at the
    production level as well. *)
Lemma empty_input_error_can_be_replaced :
  result (normalizeAudio failing_host [] c0_15)
    (fresh_world production_config)
    = Thrown (Error "console unavailable")
  /\ result (upsampleAudio failing_host [] (ofZ 24000) c48000)
       (fresh_world production_config)
    = Thrown (Error "console unavailable")
  /\ result (createAudioBlob failing_host [] (ofZ 24000))
       (fresh_world production_config)
    = Thrown (Error "console unavailable").
Proof. repeat split; vm_compute; reflexivity. Qed.

(** ** Diagnostics *)

Lemma result_bind_thrown {A B} (m : M A) (k : A -> M B) (w : World) (e : Exn) :
  result m w = Thrown e -> result (bind m k) w = Thrown e.
Proof.
  unfold result, bind. destruct (m w) as [o w']. simpl. intros ->. reflexivity.
Qed.

Lemma result_bind_returned {A B} (m : M A) (k : A -> M B) (w w' : World)
    (a : A) :
  m w = (Returned a, w') -> result (bind m k) w = result (k a) w'.
Proof. unfold result, bind. intros ->. reflexivity. Qed.

(** C7, as the code has it.  The before and the after statistics are
    recorded by plain calls, with no handler around them.  As long as the
    recorder returns, the normalizer and the upsampler give their own result
    or error, whatever the state and the configuration of the logger.  An
    error thrown while the statistics are recorded -- before the stage has
    looked at its input, or after it has computed its output -- is the
    error the stage throws: it replaces the result, and the empty-input
    error as well, since the before-statistics come first. *)
Theorem diagnostics_are_unguarded (P : Platform) (audioData : Float32Array)
    (targetRMS inputSampleRate outputSampleRate : number) (w : World) :
  (quiet P ->
   result (normalizeAudio P audioData targetRMS) w
     = normalized P audioData targetRMS
   /\ result (upsampleAudio P audioData inputSampleRate outputSampleRate) w
     = upsampled audioData inputSampleRate outputSampleRate)
  /\ (forall (e : Exn) (w1 : World),
        debug P "audio-utils" "Starting RMS normalization"
          (VObj [Field "audioLength" (VNum (length_number audioData));
                 Field "targetRMS" (VNum targetRMS)]) w = (Returned tt, w1) ->
        result (validateAudioData P audioData "pre-normalization") w1
          = Thrown e ->
        result (normalizeAudio P audioData targetRMS) w = Thrown e)
  /\ (forall (e : Exn) (w1 : World),
        ttsDebugger_log P "upsample-audio-start" true
          (VObj [Field "inputLength" (VNum (length_number audioData));
                 Field "inputSampleRate" (VNum inputSampleRate);
                 Field "outputSampleRate" (VNum outputSampleRate)]) None w
          = (Returned tt, w1) ->
        result (validateAudioData P audioData "pre-upsampling") w1
          = Thrown e ->
        result (upsampleAudio P audioData inputSampleRate outputSampleRate) w
          = Thrown e)
  /\ (forall (e : Exn) (w1 w2 : World),
        debug P "audio-utils" "Starting RMS normalization"
          (VObj [Field "audioLength" (VNum (length_number audioData));
                 Field "targetRMS" (VNum targetRMS)]) w = (Returned tt, w1) ->
        validateAudioData P audioData "pre-normalization" w1
          = (Returned tt, w2) ->
        audioData <> [] -> strict_eq (rms_of audioData) pzero = false ->
        result (validateAudioData P
                  (map (soft_limit P (div targetRMS (rms_of audioData)))
                       audioData)
                  "post-normalization") w2 = Thrown e ->
        result (normalizeAudio P audioData targetRMS) w = Thrown e)
  /\ (forall (e : Exn) (w1 w2 : World) (allocated : Float32Array),
        ttsDebugger_log P "upsample-audio-start" true
          (VObj [Field "inputLength" (VNum (length_number audioData));
                 Field "inputSampleRate" (VNum inputSampleRate);
                 Field "outputSampleRate" (VNum outputSampleRate)]) None w
          = (Returned tt, w1) ->
        validateAudioData P audioData "pre-upsampling" w1
          = (Returned tt, w2) ->
        audioData <> [] ->
        new_Float32Array
          (upsample_length audioData
             (upsample_ratio inputSampleRate outputSampleRate))
          = Returned allocated ->
        result (validateAudioData P
                  (map (fun i =>
                          fround (interpolate audioData
                                    (upsample_ratio inputSampleRate
                                                    outputSampleRate) i))
                       (List.seq 0 (length allocated)))
                  "post-upsampling") w2 = Thrown e ->
        result (upsampleAudio P audioData inputSampleRate outputSampleRate) w
          = Thrown e).
Proof.
  split; [| split; [| split; [| split]]].
  - intros Hq. split.
    + apply (normalizeAudio_result P audioData targetRMS Hq w).
    + apply (upsampleAudio_result P audioData inputSampleRate
               outputSampleRate Hq w).
  - intros e w1 Hfirst Hstats. unfold normalizeAudio.
    rewrite (result_bind_returned _ _ w w1 tt Hfirst).
    apply result_bind_thrown, Hstats.
  - intros e w1 Hfirst Hstats. unfold upsampleAudio.
    rewrite (result_bind_returned _ _ w w1 tt Hfirst).
    apply result_bind_thrown, Hstats.
  - intros e w1 w2 Hfirst Hpre Hne Hrms Hstats. unfold normalizeAudio.
    rewrite (result_bind_returned _ _ w w1 tt Hfirst).
    rewrite (result_bind_returned _ _ w1 w2 tt Hpre).
    destruct audioData as [|x rest]; [contradiction |]. cbn [length Nat.eqb].
    rewrite Hrms. apply result_bind_thrown, Hstats.
  - intros e w1 w2 allocated Hfirst Hpre Hne Halloc Hstats.
    unfold upsampleAudio.
    rewrite (result_bind_returned _ _ w w1 tt Hfirst).
    rewrite (result_bind_returned _ _ w1 w2 tt Hpre).
    destruct audioData as [|x rest]; [contradiction |]. cbn [length Nat.eqb].
    cbv zeta. rewrite Halloc.
    rewrite (result_bind_returned _ _ w2 w2 allocated eq_refl).
    apply result_bind_thrown, Hstats.
Qed.

(** A run on a quiet host, and the four failing calls, each on a host
    whose console throws on the statistics messages only: before and after,
    in either stage. *)
Lemma diagnostics_are_unguarded_witness :
  (result (normalizeAudio quiet_host [one] c0_15)
     (fresh_world development_config) = normalized quiet_host [one] c0_15
   /\ result (upsampleAudio quiet_host [one] (ofZ 24000) c48000)
        (fresh_world development_config)
      = upsampled [one] (ofZ 24000) c48000)
  /\ result (normalizeAudio stats_failing_host [one] c0_15)
    (fresh_world development_config) = Thrown (Error "console unavailable")
  /\ result (upsampleAudio stats_failing_host [one] (ofZ 24000) c48000)
       (fresh_world development_config)
     = Thrown (Error "console unavailable")
  /\ result (normalizeAudio post_stats_failing_host [one] c0_15)
       (fresh_world development_config)
     = Thrown (Error "console unavailable")
  /\ result (upsampleAudio post_stats_failing_host [one] (ofZ 24000) c48000)
       (fresh_world development_config)
     = Thrown (Error "console unavailable").
Proof.
  destruct (diagnostics_are_unguarded stats_failing_host [one] c0_15
              (ofZ 24000) c48000 (fresh_world development_config))
    as (_ & Hpre_n & Hpre_u & _ & _).
  destruct (diagnostics_are_unguarded post_stats_failing_host [one] c0_15
              (ofZ 24000) c48000 (fresh_world development_config))
    as (_ & _ & _ & Hpost_n & Hpost_u).
  destruct (diagnostics_are_unguarded quiet_host [one] c0_15
              (ofZ 24000) c48000 (fresh_world development_config))
    as (Hquiet & _).
  split; [apply Hquiet; intros l message d; reflexivity |].
  split; [| split; [| split]].
  - eapply Hpre_n; [vm_compute; reflexivity | vm_compute; reflexivity].
  - eapply Hpre_u; [vm_compute; reflexivity | vm_compute; reflexivity].
  - eapply Hpost_n;
      [vm_compute; reflexivity | vm_compute; reflexivity | discriminate
      | vm_compute; reflexivity | vm_compute; reflexivity].
  - eapply Hpost_u;
      [vm_compute; reflexivity | vm_compute; reflexivity | discriminate
      | vm_compute; reflexivity | vm_compute; reflexivity].
Defined.

(** C7 fails as stated: on a host whose console throws on the statistics
    messages and on nothing else, the progress log before the statistics
    returns and the recorder itself throws; the normalizer and the
    upsampler, which would have returned, throw the recorder's error, and on
    an empty signal the recorder's error replaces the empty-input error.
    The same holds when only the after-statistics fail. *)
Lemma diagnostics_failure_aborts_the_stage :
  fst (debug stats_failing_host "audio-utils" "Starting RMS normalization"
         (VObj [Field "audioLength" (VNum (length_number [one]));
                Field "targetRMS" (VNum c0_15)])
         (fresh_world development_config)) = Returned tt
  /\ result (validateAudioData stats_failing_host [one] "pre-normalization")
       (fresh_world development_config)
     = Thrown (Error "console unavailable")
  /\ normalized stats_failing_host [one] c0_15 = Returned [one]
  /\ result (normalizeAudio stats_failing_host [one] c0_15)
       (fresh_world development_config)
     = Thrown (Error "console unavailable")
  /\ upsampled [one] (ofZ 24000) c48000 = Returned [one; one]
  /\ result (upsampleAudio stats_failing_host [one] (ofZ 24000) c48000)
       (fresh_world development_config)
     = Thrown (Error "console unavailable")
  /\ normalized stats_failing_host [] c0_15
     = Thrown (Error "Cannot normalize empty audio data")
  /\ result (normalizeAudio stats_failing_host [] c0_15)
       (fresh_world development_config)
     = Thrown (Error "console unavailable")
  /\ result (validateAudioData post_stats_failing_host [one]
               "pre-normalization") (fresh_world development_config)
     = Returned tt
  /\ result (normalizeAudio post_stats_failing_host [one] c0_15)
       (fresh_world development_config)
     = Thrown (Error "console unavailable")
  /\ result (upsampleAudio post_stats_failing_host [one] (ofZ 24000) c48000)
       (fresh_world development_config)
     = Thrown (Error "console unavailable").
Proof. repeat split; vm_compute; reflexivity. Qed.

(** ** The header self-check *)

Lemma read_header_44 (view : ArrayBuffer) :
  (44 <= length view)%nat ->
  exists h, read_header view = Returned h
            /\ riffMarker h = marker view 0
            /\ waveMarker h = marker view 8.
Proof.
  intros Hlen.
  do 44 (destruct view as [|? view]; [simpl in Hlen; lia |]).
  eexists. split; [reflexivity | split; reflexivity].
Qed.

Lemma header_rejected_iff (h : HeaderValidation) :
  header_rejected h = true
  <-> riffMarker h <> "RIFF"%string \/ waveMarker h <> "WAVE"%string.
Proof.
  unfold header_rejected. rewrite orb_true_iff, !negb_true_iff.
  rewrite <- !not_true_iff_false, !String.eqb_eq. reflexivity.
Qed.

Lemma validate_header_result (P : Platform) (view : ArrayBuffer)
    (h : HeaderValidation) :
  quiet P -> read_header view = Returned h ->
  post (validate_header P view)
       (fun o => o = if header_rejected h
                     then Thrown (Error "Invalid WAV header construction")
                     else Returned tt).
Proof.
  intros Hq Hread. unfold validate_header. rewrite Hread.
  eapply post_bind_returns; [intros w; reflexivity |].
  unfold debug, error. log_step.
  destruct (header_rejected h).
  - log_step. apply post_throw. reflexivity.
  - apply post_ret. reflexivity.
Qed.

Lemma write_header_returns (len : nat) :
  exists view,
    write_header (new_ArrayBuffer (44 + len * 2)) len = Returned view
    /\ (44 <= length view)%nat
    /\ marker view 0 = "RIFF"%string /\ marker view 8 = "WAVE"%string.
Proof.
  unfold new_ArrayBuffer, write_header.
  change (replicate (44 + len * 2) 0)
    with (replicate 44 0 ++ replicate (len * 2) 0).
  generalize (replicate (len * 2) 0). intros rest.
  generalize (Z.of_nat len * 2). intros z.
  cbn -[Z.modulo Z.div Z.add wrap Z.pow].
  eexists. split; [reflexivity |].
  split; [simpl; lia | split; reflexivity].
Qed.

(** ** The encoder *)

Lemma post_bind_cases {A B} (m : M A) (k : A -> M B)
    (R : Outcome A -> Prop) (Q : Outcome B -> Prop) :
  post m R ->
  (forall a, R (Returned a) -> post (k a) Q) ->
  (forall e, R (Thrown e) -> Q (Thrown e)) ->
  post (bind m k) Q.
Proof.
  intros Hm Hk He w. specialize (Hm w). unfold result, bind in *.
  destruct (m w) as [[a|e] w']; simpl in Hm.
  - apply (Hk a Hm w').
  - apply (He e Hm).
Qed.

Lemma post_try_catch {A} (m : M A) (h : Exn -> M A)
    (R Q : Outcome A -> Prop) :
  post m R ->
  (forall a, R (Returned a) -> Q (Returned a)) ->
  (forall e, R (Thrown e) -> post (h e) Q) ->
  post (try_catch m h) Q.
Proof.
  intros Hm Hr He w. specialize (Hm w). unfold result, try_catch in *.
  destruct (m w) as [[a|e] w']; simpl in Hm.
  - apply (Hr a Hm).
  - apply (He e Hm w').
Qed.

Lemma length_le_bytes (w : nat) (v : Z) : length (le_bytes w v) = w.
Proof. revert v. induction w; intros v; simpl; [| rewrite IHw]; reflexivity. Qed.

Lemma le_value_le_bytes (w : nat) (v : Z) :
  le_value (le_bytes w v) = v mod 256 ^ Z.of_nat w.
Proof.
  revert v. induction w as [|w IH]; intros v.
  - simpl. rewrite Z.mod_1_r. reflexivity.
  - cbn [le_bytes le_value]. rewrite IH.
    rewrite Nat2Z.inj_succ, Z.pow_succ_r by lia.
    rewrite Z.rem_mul_r by lia. reflexivity.
Qed.

Lemma length_header_bytes (len : nat) : length (header_bytes len) = 44%nat.
Proof.
  unfold header_bytes. rewrite !length_app, !length_le_bytes. reflexivity.
Qed.

Lemma write_header_bytes (len : nat) :
  write_header (new_ArrayBuffer (44 + len * 2)) len
    = Returned (header_bytes len ++ replicate (len * 2) 0).
Proof.
  unfold new_ArrayBuffer, header_bytes, write_header.
  change (replicate (44 + len * 2) 0)
    with (replicate 44 0 ++ replicate (len * 2) 0).
  generalize (replicate (len * 2) 0). intros rest.
  generalize (Z.of_nat len * 2). intros z.
  cbn -[Z.modulo Z.div Z.add wrap Z.pow]. reflexivity.
Qed.

Lemma write_pcm_frame (P : Platform) (samples : list number) :
  forall (offset : nat) (view : ArrayBuffer),
    (offset + 2 * length samples <= length view)%nat ->
    post (write_pcm P samples offset view)
         (fun o => exists view', o = Returned view'
                                 /\ length view' = length view
                                 /\ take offset view' = take offset view).
Proof.
  induction samples as [|sample rest IH]; intros offset view Hlen.
  - apply post_ret. eauto.
  - cbn [write_pcm]. cbn [length] in Hlen.
    eapply post_bind with (R := fun _ => True).
    { intros w. eexists. split; [reflexivity | exact I]. }
    intros draws _. unfold setInt16, write_le.
    destruct (Nat.leb_spec (offset + 2) (length view)) as [_|]; [| lia].
    eapply post_bind_returns; [intros w; reflexivity |].
    set (view1 := take offset view ++ _ ++ drop (offset + 2) view).
    assert (Hlen1 : length view1 = length view).
    { unfold view1. rewrite !length_app, length_take, length_drop.
      rewrite length_le_bytes. lia. }
    assert (Htake1 : take offset view1 = take offset view).
    { unfold view1. rewrite take_app_le by (rewrite length_take; lia).
      rewrite take_take. f_equal. lia. }
    eapply post_weaken; [apply (IH (offset + 2)%nat view1); lia |].
    intros o (view' & -> & Hl & Ht). exists view'. split; [reflexivity |].
    split; [lia |].
    rewrite <- Htake1.
    assert (Hboth : take offset (take (offset + 2) view')
                    = take offset (take (offset + 2) view1))
      by (rewrite Ht; reflexivity).
    rewrite !take_take in Hboth.
    replace (offset `min` (offset + 2))%nat with offset in Hboth by lia.
    exact Hboth.
Qed.

Lemma written_header_accepted (P : Platform) (len : nat) (rest : list Z) :
  quiet P -> returns (validate_header P (header_bytes len ++ rest)) tt.
Proof.
  intros Hq.
  destruct (read_header_44 (header_bytes len ++ rest)) as (h & Hh & Hr & Hw).
  { rewrite length_app, length_header_bytes. lia. }
  eapply post_weaken; [apply (validate_header_result P _ h Hq Hh) |].
  intros o ->.
  assert (Hacc : header_rejected h = false).
  { apply not_true_iff_false. rewrite header_rejected_iff, Hr, Hw.
    intros [Hne | Hne]; apply Hne; reflexivity. }
  rewrite Hacc. reflexivity.
Qed.

Lemma encode_result (P : Platform) (audioData : Float32Array)
    (sampleRate : number) :
  quiet P ->
  post (encode P audioData sampleRate)
       (fun o => match processed P audioData sampleRate with
                 | Returned up => encoded up o
                 | Thrown e => o = Thrown e
                 end).
Proof.
  intros Hq. unfold encode, processed.
  eapply post_bind_cases; [apply normalizeAudio_result, Hq | |].
  2: { intros e <-. reflexivity. }
  intros normalizedAudio <-.
  eapply post_bind_cases; [apply upsampleAudio_result, Hq | |].
  2: { intros e <-. reflexivity. }
  intros up <-. log_step.
  rewrite write_header_bytes.
  eapply post_bind_returns; [intros w; reflexivity |].
  eapply post_bind_returns; [apply written_header_accepted, Hq |].
  eapply post_bind.
  { apply write_pcm_frame with (offset := 44%nat).
    rewrite length_app, length_header_bytes, length_replicate. lia. }
  intros view (Hlen & Htake). unfold debug. do 2 log_step.
  apply post_ret. exists view. split; [reflexivity |].
  rewrite Hlen, Htake, length_app, length_header_bytes, length_replicate.
  split; [lia |].
  apply take_app_length'. symmetry. apply length_header_bytes.
Qed.

Lemma createAudioBlob_result (P : Platform) (audioData : Float32Array)
    (sampleRate : number) :
  quiet P -> audioData <> [] -> accepted_rate sampleRate = true ->
  post (createAudioBlob P audioData sampleRate)
       (fun o => match processed P audioData sampleRate with
                 | Returned up => encoded up o
                 | Thrown e => o = Thrown e
                 end).
Proof.
  intros Hq Hne Hrate. unfold createAudioBlob. log_step.
  destruct audioData as [|x rest]; [contradiction |]. cbn [length Nat.eqb].
  unfold accepted_rate in Hrate. apply negb_true_iff in Hrate.
  rewrite Hrate.
  eapply post_try_catch; [apply encode_result, Hq | |].
  - intros blob Hblob. exact Hblob.
  - intros e He. log_step. apply post_throw.
    destruct (processed P (x :: rest) sampleRate) as [up|e'].
    + destruct He as (bytes & Hbytes & _). discriminate.
    + exact He.
Qed.

Lemma read_le_header (w offset len : nat) (view : ArrayBuffer) :
  take 44 view = header_bytes len -> (44 <= length view)%nat ->
  (offset + w <= 44)%nat ->
  read_le w view offset
    = Returned (le_value (drop offset (take (offset + w) (header_bytes len)))).
Proof.
  intros Htake Hlen Hfit. unfold read_le.
  destruct (Nat.leb_spec (offset + w) (length view)) as [_|]; [| lia].
  rewrite take_drop_commute, <- Htake, take_take.
  replace ((offset + w) `min` 44)%nat with (offset + w)%nat by lia.
  reflexivity.
Qed.

Lemma wrap_32_bytes (z : Z) : wrap 32 z mod 256 ^ Z.of_nat 4 = wrap 32 z.
Proof.
  unfold wrap. change (256 ^ Z.of_nat 4) with (2 ^ 32).
  apply Z.mod_mod. lia.
Qed.

Lemma container_fields (len : nat) (bytes : ArrayBuffer) :
  take 44 bytes = header_bytes len -> (44 <= length bytes)%nat ->
  marker bytes 0 = "RIFF"%string
  /\ getUint32 bytes 4 = Returned (wrap 32 (36 + Z.of_nat len * 2))
  /\ marker bytes 8 = "WAVE"%string
  /\ marker bytes 12 = "fmt "%string
  /\ getUint32 bytes 16 = Returned 16
  /\ getUint16 bytes 20 = Returned 1
  /\ getUint16 bytes 22 = Returned 1
  /\ getUint32 bytes 24 = Returned 48000
  /\ getUint32 bytes 28 = Returned 96000
  /\ getUint16 bytes 32 = Returned 2
  /\ getUint16 bytes 34 = Returned 16
  /\ marker bytes 36 = "data"%string
  /\ getUint32 bytes 40 = Returned (wrap 32 (Z.of_nat len * 2)).
Proof.
  intros Htake Hlen.
  assert (Hmark : forall offset, (offset + 4 <= 44)%nat ->
            marker bytes offset
            = fromCharCode (drop offset (take (offset + 4) (header_bytes len)))).
  { intros offset Hfit. unfold marker.
    rewrite take_drop_commute, <- Htake, take_take.
    replace ((offset + 4) `min` 44)%nat with (offset + 4)%nat by lia.
    reflexivity. }
  unfold getUint32, getUint16.
  rewrite !Hmark by lia.
  rewrite !(read_le_header _ _ len bytes Htake Hlen) by lia.
  assert (Hsize : le_value (drop 4 (take (4 + 4) (header_bytes len)))
                  = wrap 32 (36 + Z.of_nat len * 2)).
  { change (drop 4 (take (4 + 4) (header_bytes len)))
      with (le_bytes 4 (wrap 32 (36 + Z.of_nat len * 2))).
    rewrite le_value_le_bytes. apply wrap_32_bytes. }
  assert (Hdata : le_value (drop 40 (take (40 + 4) (header_bytes len)))
                  = wrap 32 (Z.of_nat len * 2)).
  { change (drop 40 (take (40 + 4) (header_bytes len)))
      with (le_bytes 4 (wrap 32 (Z.of_nat len * 2))).
    rewrite le_value_le_bytes. apply wrap_32_bytes. }
  rewrite Hsize, Hdata. clear Hsize Hdata.
  unfold header_bytes.
  generalize (wrap 32 (36 + Z.of_nat len * 2)) (wrap 32 (Z.of_nat len * 2)).
  intros z1 z2.
  repeat split.
Qed.

(** ** Rounding: the shift-right of SpecFloat *)

Lemma iter_pos_nat {A} (f : A -> A) (p : positive) (x : A) :
  SpecFloat.iter_pos f p x = Nat.iter (Pos.to_nat p) f x.
Proof.
  revert x. induction p as [p IH|p IH|]; intros x; cbn [SpecFloat.iter_pos].
  - rewrite !IH, Pos2Nat.inj_xI.
    change (S (2 * Pos.to_nat p)) with (S (Pos.to_nat p + (Pos.to_nat p + 0)))%nat.
    rewrite Nat.add_0_r, <- Nat.iter_add, <- Nat.iter_succ_r. reflexivity.
  - rewrite !IH, Pos2Nat.inj_xO.
    change (2 * Pos.to_nat p)%nat with (Pos.to_nat p + (Pos.to_nat p + 0))%nat.
    rewrite Nat.add_0_r, <- Nat.iter_add. reflexivity.
  - reflexivity.
Qed.

Lemma shr_1_nonneg (m : Z) (r s : bool) :
  0 <= m ->
  shr_1 {| shr_m := m; shr_r := r; shr_s := s |}
  = {| shr_m := m / 2; shr_r := Z.odd m; shr_s := r || s |}.
Proof.
  intros Hm. rewrite <- Z.div2_div.
  destruct m as [|p|p]; [reflexivity | | lia].
  destruct p; reflexivity.
Qed.

(** After [n] shifts of a mantissa that came with no round or sticky bit,
    the mantissa is the quotient by 2^n and both bits are clear exactly when
    nothing was shifted out. *)
Lemma shr_iter (n : nat) (m : Z) (r s : bool) :
  0 <= m ->
  let rec := Nat.iter n shr_1 {| shr_m := m; shr_r := r; shr_s := s |} in
  shr_m rec = m / 2 ^ Z.of_nat n
  /\ (shr_r rec || shr_s rec = false
      <-> m mod 2 ^ Z.of_nat n = 0 /\ r || s = false).
Proof.
  intros Hm. induction n as [|n IH].
  - simpl. rewrite Z.div_1_r, Z.mod_1_r. tauto.
  - cbv zeta in IH |- *. rewrite Nat.iter_succ.
    destruct (Nat.iter n shr_1 _) as [m' r' s'].
    cbn [shr_m shr_r shr_s] in IH. destruct IH as [IHm IHb].
    assert (Hpow : 0 < 2 ^ Z.of_nat n) by (apply Z.pow_pos_nonneg; lia).
    assert (Hm' : 0 <= m') by (subst m'; apply Z.div_pos; lia).
    rewrite shr_1_nonneg by exact Hm'. cbn [shr_m shr_r shr_s].
    rewrite Nat2Z.inj_succ, Z.pow_succ_r by lia.
    rewrite (Z.mul_comm 2), <- Z.div_div by lia. rewrite <- IHm.
    split; [reflexivity |].
    rewrite Z.rem_mul_r by lia. rewrite <- IHm.
    rewrite orb_false_iff, IHb.
    pose proof (Z.mod_pos_bound m (2 ^ Z.of_nat n) Hpow) as Hb1.
    pose proof (Z.mod_pos_bound m' 2 ltac:(lia)) as Hb2.
    rewrite <- Z.negb_even, negb_false_iff.
    rewrite (Zmod_even m').
    destruct (Z.even m'); split.
    + intros (_ & H1 & H2). split; [lia | exact H2].
    + intros (H1 & H2). repeat split; [lia | exact H2].
    + intros (H & _). discriminate.
    + intros (H1 & H2). nia.
Qed.


Lemma digits2_pos_log2 (p : positive) :
  Zpos (digits2_pos p) = Z.log2 (Zpos p) + 1.
Proof.
  induction p as [p IH|p IH|]; [| | reflexivity].
  - cbn [digits2_pos]. rewrite Pos2Z.inj_succ, IH.
    change (Zpos p~1) with (2 * Zpos p + 1).
    rewrite Z.log2_succ_double by lia. lia.
  - cbn [digits2_pos]. rewrite Pos2Z.inj_succ, IH.
    change (Zpos p~0) with (2 * Zpos p).
    rewrite Z.log2_double by lia. lia.
Qed.

(** [Zdigits2] is the bit length. *)
Lemma Zdigits2_bounds (m : Z) :
  0 < m -> 2 ^ (Zdigits2 m - 1) <= m < 2 ^ Zdigits2 m.
Proof.
  intros Hm. destruct m as [|p|p]; try lia.
  cbn [Zdigits2]. rewrite digits2_pos_log2.
  replace (Z.log2 (Zpos p) + 1 - 1) with (Z.log2 (Zpos p)) by lia.
  pose proof (Z.log2_spec (Zpos p) Hm). lia.
Qed.

Lemma Zdigits2_unique (m d : Z) :
  2 ^ (d - 1) <= m < 2 ^ d -> 0 < m -> Zdigits2 m = d.
Proof.
  intros Hb Hm. destruct m as [|p|p]; try lia.
  cbn [Zdigits2]. rewrite digits2_pos_log2.
  assert (0 < d).
  { destruct (Z.lt_trichotomy d 0) as [Hd|[Hd|Hd]]; [| | lia].
    - rewrite (Z.pow_neg_r 2 d) in Hb by lia. lia.
    - subst d. simpl in Hb. lia. }
  rewrite (Z.log2_unique (Zpos p) (d - 1)); [lia | lia |].
  replace (Z.succ (d - 1)) with d by lia. exact Hb.
Qed.

Lemma Zdigits2_nonneg (m : Z) : 0 <= Zdigits2 m.
Proof. destruct m; simpl; lia. Qed.

Lemma Zdigits2_pos (m : Z) : 0 < m -> 0 < Zdigits2 m.
Proof. destruct m; simpl; lia. Qed.

Lemma loc_of_shr_record_exact (rec : shr_record) :
  loc_of_shr_record rec = loc_Exact <-> shr_r rec || shr_s rec = false.
Proof. destruct rec as [m [|] [|]]; simpl; split; congruence. Qed.

Lemma shr_record_of_loc_exact (m : Z) (l : location) :
  shr_r (shr_record_of_loc m l) || shr_s (shr_record_of_loc m l) = false
  <-> l = loc_Exact.
Proof. destruct l as [|[| |]]; simpl; split; congruence. Qed.

Lemma shr_record_of_loc_m (m : Z) (l : location) :
  shr_m (shr_record_of_loc m l) = m.
Proof. destruct l as [|[| |]]; reflexivity. Qed.

Lemma shr_spec (rec : shr_record) (e n : Z) :
  0 <= shr_m rec ->
  snd (shr rec e n) = e + Z.max 0 n
  /\ shr_m (fst (shr rec e n)) = shr_m rec / 2 ^ Z.max 0 n
  /\ (shr_r (fst (shr rec e n)) || shr_s (fst (shr rec e n)) = false
      <-> shr_m rec mod 2 ^ Z.max 0 n = 0
          /\ shr_r rec || shr_s rec = false).
Proof.
  intros Hm. destruct rec as [m r s]. cbn [shr_m shr_r shr_s] in *.
  destruct n as [|p|p]; cbn [shr fst snd].
  - rewrite Z.max_id, Z.add_0_r, Z.div_1_r, Z.mod_1_r. cbn [shr_m shr_r shr_s]. tauto.
  - rewrite iter_pos_nat.
    replace (Z.max 0 (Zpos p)) with (Z.of_nat (Pos.to_nat p))
      by (rewrite positive_nat_Z; lia).
    pose proof (shr_iter (Pos.to_nat p) m r s Hm) as H. cbv zeta in H.
    rewrite positive_nat_Z at 1. tauto.
  - replace (Z.max 0 (Z.neg p)) with 0 by lia.
    rewrite Z.add_0_r, Z.div_1_r, Z.mod_1_r. cbn [shr_m shr_r shr_s]. tauto.
Qed.

Lemma round_nearest_even_cases (q : Z) (l : location) :
  (round_nearest_even q l = q \/ round_nearest_even q l = q + 1)
  /\ (l = loc_Exact -> round_nearest_even q l = q).
Proof.
  destruct l as [|[| |]]; simpl; try destruct (Z.even q); split;
    (tauto || congruence || auto).
Qed.

Section Rounding.
Variables prec emax : Z.

(** [binary_round_aux] in closed form: shift to the exponent of the binade,
    round to nearest, shift once more if the mantissa overflowed. *)
Lemma binary_round_aux_unfold (sx : bool) (mx ex : Z) (lx : location) :
  0 <= mx ->
  let k := Z.max 0 (fexp prec emax (Zdigits2 mx + ex) - ex) in
  exists R : Z,
    (R = mx / 2 ^ k \/ R = mx / 2 ^ k + 1)
    /\ (lx = loc_Exact -> mx mod 2 ^ k = 0 -> R = mx / 2 ^ k)
    /\ let k2 := Z.max 0 (fexp prec emax (Zdigits2 R + (ex + k)) - (ex + k)) in
       binary_round_aux prec emax sx mx ex lx
       = pack prec emax sx (R / 2 ^ k2) (ex + k + k2).
Proof.
  intros Hmx k. unfold binary_round_aux, shr_fexp.
  pose proof (shr_spec (shr_record_of_loc mx lx) ex
                (fexp prec emax (Zdigits2 mx + ex) - ex)) as H1.
  rewrite shr_record_of_loc_m in H1. specialize (H1 Hmx).
  destruct (shr (shr_record_of_loc mx lx) ex _) as [rec1 e1].
  cbn [fst snd] in H1. destruct H1 as (He1 & Hm1 & Hx1). fold k in He1, Hm1, Hx1.
  set (R := round_nearest_even (shr_m rec1) (loc_of_shr_record rec1)).
  assert (Hk : 0 < 2 ^ k) by (apply Z.pow_pos_nonneg; lia).
  assert (Hq : 0 <= mx / 2 ^ k) by (apply Z.div_pos; lia).
  destruct (round_nearest_even_cases (shr_m rec1) (loc_of_shr_record rec1))
    as [HR HRx]. fold R in HR, HRx. rewrite Hm1 in HR, HRx.
  exists R. split; [exact HR |]. split.
  { intros Hl Hmod. apply HRx. apply loc_of_shr_record_exact, Hx1.
    split; [exact Hmod | apply shr_record_of_loc_exact, Hl]. }
  assert (HR0 : 0 <= R) by lia.
  pose proof (shr_spec (shr_record_of_loc R loc_Exact) e1
                (fexp prec emax (Zdigits2 R + e1) - e1)) as H2.
  rewrite shr_record_of_loc_m in H2. specialize (H2 HR0).
  destruct (shr (shr_record_of_loc R loc_Exact) e1 _) as [rec2 e2].
  cbn [fst snd] in H2. destruct H2 as (He2 & Hm2 & _).
  subst e1. cbv zeta. rewrite Hm2, He2. unfold pack. reflexivity.
Qed.

Hypothesis Hprec : 0 < prec.

Lemma Zdigits2_lt_pow (m d : Z) : 0 <= d -> 0 <= m < 2 ^ d -> Zdigits2 m <= d.
Proof.
  intros Hd [Hm0 Hm].
  destruct (Z.eq_dec m 0) as [->|Hne]; [simpl; lia |].
  pose proof (Zdigits2_bounds m ltac:(lia)) as [Hlo _].
  destruct (Z_lt_le_dec d (Zdigits2 m)) as [Hlt|]; [| lia].
  assert (2 ^ d <= 2 ^ (Zdigits2 m - 1)) by (apply Z.pow_le_mono_r; lia).
  lia.
Qed.

Lemma div_pow2_lt (m k d : Z) :
  0 <= k -> 0 <= d -> 0 <= m < 2 ^ (k + d) -> m / 2 ^ k < 2 ^ d.
Proof.
  intros Hk Hd [Hm0 Hm]. apply Z.div_lt_upper_bound.
  - apply Z.pow_pos_nonneg; lia.
  - rewrite <- Z.pow_add_r by lia. exact Hm.
Qed.

Lemma div_pow2_ge (m k d : Z) :
  0 <= k -> 0 <= d -> 2 ^ (k + d) <= m -> 2 ^ d <= m / 2 ^ k.
Proof.
  intros Hk Hd Hm. apply Z.div_le_lower_bound.
  - apply Z.pow_pos_nonneg; lia.
  - rewrite <- Z.pow_add_r by lia. exact Hm.
Qed.

(** The regular case: the mantissa has at least as many digits as the
    format keeps.  The result is the truncated mantissa or its successor at
    the binade's exponent, renormalized if it reached 2^prec. *)
Lemma binary_round_aux_regular (sx : bool) (mx ex : Z) (lx : location) :
  0 < mx -> ex <= fexp prec emax (Zdigits2 mx + ex) ->
  let e1 := fexp prec emax (Zdigits2 mx + ex) in
  let q := mx / 2 ^ (e1 - ex) in
  exists R : Z,
    (R = q \/ R = q + 1)
    /\ (lx = loc_Exact -> mx mod 2 ^ (e1 - ex) = 0 -> R = q)
    /\ 0 <= q < 2 ^ prec /\ R <= 2 ^ prec
    /\ (0 < R < 2 ^ prec -> fexp prec emax (Zdigits2 R + e1) = e1)
    /\ binary_round_aux prec emax sx mx ex lx
       = if R <? 2 ^ prec then pack prec emax sx R e1
         else pack prec emax sx (2 ^ (prec - 1)) (e1 + 1).
Proof.
  intros Hmx Hreg e1 q.
  destruct (binary_round_aux_unfold sx mx ex lx ltac:(lia)) as (R & HR & HRx & Hres).
  cbv zeta in Hres.
  replace (Z.max 0 (fexp prec emax (Zdigits2 mx + ex) - ex)) with (e1 - ex)
    in HR, HRx, Hres by (unfold e1; lia).
  replace (ex + (e1 - ex)) with e1 in Hres by lia.
  fold q in HR, HRx.
  set (d := Zdigits2 mx) in *.
  pose proof (Zdigits2_bounds mx Hmx) as [Hlo Hhi]. fold d in Hlo, Hhi.
  pose proof (Zdigits2_pos mx Hmx) as Hd. fold d in Hd.
  assert (Hk : 0 <= e1 - ex) by lia.
  assert (Hpk : 0 < 2 ^ (e1 - ex)) by (apply Z.pow_pos_nonneg; lia).
  assert (He1 : e1 = Z.max (d + ex - prec) (emin prec emax)) by reflexivity.
  assert (Hq0 : 0 <= q) by (apply Z.div_pos; lia).
  assert (Hqlt : q < 2 ^ prec).
  { apply div_pow2_lt; [lia | lia |]. split; [lia |].
    eapply Z.lt_le_trans; [exact Hhi |]. apply Z.pow_le_mono_r; lia. }
  assert (HRle : R <= 2 ^ prec) by lia.
  assert (Hcanon : 0 < R < 2 ^ prec -> fexp prec emax (Zdigits2 R + e1) = e1).
  { intros [HR0 HRlt]. unfold fexp.
    assert (Zdigits2 R <= prec) by (apply Zdigits2_lt_pow; lia).
    destruct (Z.eq_dec e1 (emin prec emax)) as [Hem|Hem]; [lia |].
    assert (Hnorm : e1 = d + ex - prec) by lia.
    assert (2 ^ (prec - 1) <= q).
    { apply div_pow2_ge; [lia | lia |].
      replace (e1 - ex + (prec - 1)) with (d - 1) by lia. exact Hlo. }
    assert (Zdigits2 R = prec) by (apply Zdigits2_unique; lia).
    lia. }
  exists R. split; [exact HR |]. split; [exact HRx |].
  split; [split; assumption |]. split; [exact HRle |].
  split; [exact Hcanon |].
  destruct (Z.ltb_spec R (2 ^ prec)) as [HRlt|HRge].
  - destruct (Z.eq_dec R 0) as [->|HRne].
    + rewrite Hres. rewrite Z.div_0_l; [reflexivity |].
      apply Z.pow_nonzero; lia.
    + rewrite Hres, (Hcanon ltac:(lia)).
      replace (Z.max 0 (e1 - e1)) with 0 by lia.
      rewrite Z.div_1_r, Z.add_0_r. reflexivity.
  - assert (HReq : R = 2 ^ prec) by lia.
    assert (HdR : Zdigits2 R = prec + 1).
    { apply Zdigits2_unique; [| lia]. rewrite HReq.
      replace (prec + 1 - 1) with prec by lia. split; [lia |].
      apply Z.pow_lt_mono_r; lia. }
    rewrite Hres, HdR.
    assert (Hf : fexp prec emax (prec + 1 + e1) = e1 + 1) by (unfold fexp; lia).
    rewrite Hf.
    replace (Z.max 0 (e1 + 1 - e1)) with 1 by lia.
    rewrite HReq. f_equal.
    replace prec with (prec - 1 + 1) at 1 by lia.
    rewrite Z.pow_add_r by lia. change (2 ^ 1) with 2.
    apply Z.div_mul. lia.
Qed.

End Rounding.

(** ** Binary64 *)

Lemma fexp64 (e : Z) : fexp prec emax e = Z.max (e - 53) (-1074).
Proof. reflexivity. Qed.

Lemma pos_iter_xO (p k : positive) :
  Zpos (Pos.iter xO p k) = Zpos p * 2 ^ Zpos k.
Proof.
  induction k as [|k IH] using Pos.peano_ind.
  - simpl. lia.
  - rewrite Pos.iter_succ, Pos2Z.inj_xO, IH, Pos2Z.inj_succ.
    rewrite Z.pow_succ_r by lia. lia.
Qed.

Lemma canonical_spec (m : positive) (e : Z) :
  canonical m e <->
  Z.max (Zdigits2 (Zpos m) + e - 53) (-1074) = e /\ e <= 971.
Proof.
  unfold canonical, bounded, canonical_mantissa.
  rewrite andb_true_iff, Z.eqb_eq, Z.leb_le. reflexivity.
Qed.

Lemma binary_round_canonical (s : bool) (m : positive) (e : Z) :
  canonical m e -> binary_round prec emax s m e = S754_finite s m e.
Proof.
  intros Hc. apply canonical_spec in Hc. destruct Hc as [Hf He].
  unfold binary_round, shl_align.
  change (fexp prec emax (Zpos (digits2_pos m) + e))
    with (Z.max (Zdigits2 (Zpos m) + e - 53) (-1074)).
  rewrite Hf, Z.sub_diag.
  destruct (binary_round_aux_regular prec emax ltac:(reflexivity)
              s (Zpos m) e loc_Exact ltac:(lia))
    as (R & _ & HRx & [_ Hq] & _ & _ & Hres).
  { rewrite fexp64. lia. }
  rewrite fexp64, Hf in HRx, Hq, Hres.
  rewrite Z.sub_diag in HRx, Hq.
  rewrite Z.div_1_r in HRx, Hq.
  rewrite (HRx eq_refl (Z.mod_1_r _)) in Hres.
  rewrite Hres.
  destruct (Z.ltb_spec (Zpos m) (2 ^ prec)) as [_|]; [| lia].
  unfold pack. change (Num.emax - Num.prec) with 971.
  destruct (Z.leb_spec e 971); [reflexivity | lia].
Qed.

Lemma Zdigits2_mul_pow2 (m j : Z) :
  0 < m -> 0 <= j -> Zdigits2 (m * 2 ^ j) = Zdigits2 m + j.
Proof.
  intros Hm Hj. pose proof (Zdigits2_bounds m Hm) as [Hlo Hhi].
  pose proof (Zdigits2_pos m Hm) as Hd.
  assert (0 < 2 ^ j) by (apply Z.pow_pos_nonneg; lia).
  apply Zdigits2_unique; [| nia].
  replace (Zdigits2 m + j - 1) with (Zdigits2 m - 1 + j) by lia.
  rewrite !Z.pow_add_r by lia. nia.
Qed.

Lemma pack_pos (s : bool) (m e : Z) :
  0 < m -> e <= 971 -> pack prec emax s m e = S754_finite s (Z.to_pos m) e.
Proof.
  intros Hm He. destruct m as [|p|p]; try lia. unfold pack.
  change (emax - prec) with 971.
  destruct (Z.leb_spec e 971); [reflexivity | lia].
Qed.

(** Rounding a value the format can hold exactly only renormalizes it. *)
Lemma binary_round_exact (s : bool) (m : positive) (e : Z) :
  let e1 := fexp prec emax (Zdigits2 (Zpos m) + e) in
  e1 <= e ->
  binary_round prec emax s m e = pack prec emax s (Zpos m * 2 ^ (e - e1)) e1.
Proof.
  intros e1 Hle. unfold binary_round, shl_align.
  change (fexp prec emax (Zpos (digits2_pos m) + e)) with e1.
  assert (Hshift : exists M : positive,
            Zpos M = Zpos m * 2 ^ (e - e1)
            /\ (let '(mz, ez) :=
                  match e1 - e with
                  | Z.neg d => (Pos.iter xO m d, e1)
                  | _ => (m, e)
                  end in
                binary_round_aux prec emax s (Zpos mz) ez loc_Exact)
               = binary_round_aux prec emax s (Zpos M) e1 loc_Exact).
  { destruct (e1 - e) as [|d|d] eqn:Hd; try lia.
    - exists m. replace (e - e1) with 0 by lia.
      replace e1 with e by lia. split; [lia | reflexivity].
    - exists (Pos.iter xO m d). rewrite pos_iter_xO.
      replace (e - e1) with (Zpos d) by lia. split; reflexivity. }
  destruct Hshift as (M & HM & ->).
  assert (HdM : Zdigits2 (Zpos M) = Zdigits2 (Zpos m) + (e - e1))
    by (rewrite HM; apply Zdigits2_mul_pow2; lia).
  assert (He1 : fexp prec emax (Zdigits2 (Zpos M) + e1) = e1).
  { rewrite HdM. replace (Zdigits2 (Zpos m) + (e - e1) + e1)
      with (Zdigits2 (Zpos m) + e) by lia. reflexivity. }
  destruct (binary_round_aux_regular prec emax ltac:(reflexivity)
              s (Zpos M) e1 loc_Exact ltac:(lia) ltac:(lia))
    as (R & _ & HRx & [_ Hq] & _ & _ & Hres).
  rewrite He1 in HRx, Hq, Hres. rewrite Z.sub_diag, Z.div_1_r in HRx, Hq.
  rewrite (HRx eq_refl (Z.mod_1_r _)) in Hres. rewrite Hres.
  destruct (Z.ltb_spec (Zpos M) (2 ^ prec)) as [_|]; [| lia].
  rewrite HM. reflexivity.
Qed.

(** The number of an integer below 2^53: its mantissa shifted to fill 53
    bits. *)
Lemma ofZ_pos (n : Z) :
  0 < n < 2 ^ 53 ->
  ofZ n = S754_finite false (Z.to_pos (n * 2 ^ (53 - Zdigits2 n)))
            (Zdigits2 n - 53).
Proof.
  intros [Hn Hlt]. destruct n as [|p|p]; try lia.
  pose proof (Zdigits2_pos (Zpos p) Hn) as Hd.
  assert (Hd53 : Zdigits2 (Zpos p) <= 53) by (apply Zdigits2_lt_pow; lia).
  unfold ofZ, binary_normalize.
  rewrite binary_round_exact; rewrite Z.add_0_r, fexp64.
  - replace (Z.max (Zdigits2 (Zpos p) - 53) (-1074))
      with (Zdigits2 (Zpos p) - 53) by lia.
    replace (0 - (Zdigits2 (Zpos p) - 53)) with (53 - Zdigits2 (Zpos p)) by lia.
    apply pack_pos; [| lia].
    assert (0 < 2 ^ (53 - Zdigits2 (Zpos p))) by (apply Z.pow_pos_nonneg; lia).
    nia.
  - lia.
Qed.

(** The canonical mantissa and exponent of an integer in (0, 2^53). *)
Lemma integer_form (n : Z) :
  0 < n < 2 ^ 53 ->
  let M := n * 2 ^ (53 - Zdigits2 n) in
  let E := Zdigits2 n - 53 in
  ofZ n = S754_finite false (Z.to_pos M) E
  /\ 0 < M /\ Zdigits2 M = 53 /\ -52 <= E <= 0 /\ M = n * 2 ^ (- E).
Proof.
  intros Hn M E.
  pose proof (Zdigits2_pos n ltac:(lia)) as Hd.
  assert (Hd53 : Zdigits2 n <= 53) by (apply Zdigits2_lt_pow; lia).
  assert (0 < 2 ^ (53 - Zdigits2 n)) by (apply Z.pow_pos_nonneg; lia).
  split; [apply ofZ_pos, Hn |]. split; [unfold M; nia |].
  split.
  { unfold M. rewrite Zdigits2_mul_pow2 by lia. lia. }
  split; [unfold E; lia |]. unfold M, E. f_equal. f_equal. lia.
Qed.

Lemma truncZ_ofZ (n : Z) : 0 <= n < 2 ^ 53 -> truncZ (ofZ n) = n.
Proof.
  intros Hn. destruct (Z.eq_dec n 0) as [->|Hne]; [reflexivity |].
  destruct (integer_form n ltac:(lia)) as (-> & HM & _ & HE & HMn).
  cbv zeta in *. set (M := n * 2 ^ (53 - Zdigits2 n)) in *.
  set (E := Zdigits2 n - 53) in *. unfold truncZ.
  rewrite Z2Pos.id by lia. cbn [cond_Zopp].
  destruct (Z.leb_spec 0 E).
  - replace E with 0 in * by lia. simpl in HMn. lia.
  - rewrite HMn. apply Z.div_mul. apply Z.pow_nonzero; lia.
Qed.

Lemma is_integer_ofZ (n : Z) : 0 <= n < 2 ^ 53 -> is_integer (ofZ n) = true.
Proof.
  intros Hn. destruct (Z.eq_dec n 0) as [->|Hne]; [reflexivity |].
  destruct (integer_form n ltac:(lia)) as (-> & HM & _ & HE & HMn).
  cbv zeta in *. unfold is_integer. rewrite Z2Pos.id by lia.
  apply orb_true_iff. right. apply Z.eqb_eq. rewrite HMn.
  apply Z.mod_mul. apply Z.pow_nonzero; lia.
Qed.

Lemma Math_floor_ofZ (n : Z) :
  0 <= n < 2 ^ 53 -> Math_floor (ofZ n) = ofZ n.
Proof.
  intros Hn. destruct (Z.eq_dec n 0) as [->|Hne]; [reflexivity |].
  pose proof (truncZ_ofZ n Hn) as Ht.
  destruct (integer_form n ltac:(lia)) as (Hform & HM & _ & HE & HMn).
  cbv zeta in *. rewrite Hform in Ht |- *. unfold Math_floor.
  destruct (Z.leb_spec 0 (Zdigits2 n - 53)) as [|Hneg]; [reflexivity |].
  assert (Hfl : floorZ (S754_finite false
                          (Z.to_pos (n * 2 ^ (53 - Zdigits2 n)))
                          (Zdigits2 n - 53)) = n).
  { unfold floorZ, truncZ in *.
    destruct (Z.leb_spec 0 (Zdigits2 n - 53)); [lia |]. exact Ht. }
  rewrite Hfl. destruct n; try lia. rewrite <- Hform. reflexivity.
Qed.

Lemma index_of_ofZ (n : Z) :
  0 <= n < 2 ^ 53 -> index_of (ofZ n) = Some (Z.to_nat n).
Proof.
  intros Hn. destruct (Z.eq_dec n 0) as [->|Hne]; [reflexivity |].
  pose proof (truncZ_ofZ n Hn) as Ht.
  pose proof (is_integer_ofZ n Hn) as Hi.
  destruct (integer_form n ltac:(lia)) as (Hform & _).
  cbv zeta in *. rewrite Hform in *. unfold index_of.
  rewrite Hi, Ht. reflexivity.
Qed.

Lemma new_Float32Array_ofZ (n : Z) :
  0 <= n < 2 ^ 53 ->
  new_Float32Array (ofZ n) = Returned (replicate (Z.to_nat n) pzero).
Proof.
  intros Hn. destruct (Z.eq_dec n 0) as [->|Hne]; [reflexivity |].
  pose proof (truncZ_ofZ n Hn) as Ht.
  destruct (integer_form n ltac:(lia)) as (Hform & _).
  cbv zeta in *. rewrite Hform in *. unfold new_Float32Array.
  rewrite Ht.
  destruct (Z.ltb_spec n 0); [lia |].
  destruct (Z.ltb_spec (2 ^ 53 - 1) n); [lia |]. reflexivity.
Qed.

(** Multiplying a normal number by a power of two moves its exponent. *)
Lemma mul_pow2 (s : bool) (M : positive) (E e2 : Z) :
  Zdigits2 (Zpos M) = 53 -> -1074 <= E + e2 + 52 <= 971 ->
  mul (S754_finite s M E) (S754_finite false 4503599627370496 e2)
  = S754_finite s M (E + e2 + 52).
Proof.
  intros HdM Hrange. unfold mul, SFmul. rewrite xorb_false_r.
  rewrite Pos2Z.inj_mul. change (Zpos 4503599627370496) with (2 ^ 52).
  assert (Hd : Zdigits2 (Zpos M * 2 ^ 52) = 105)
    by (rewrite Zdigits2_mul_pow2 by lia; lia).
  destruct (binary_round_aux_regular prec emax ltac:(reflexivity)
              s (Zpos M * 2 ^ 52) (E + e2) loc_Exact ltac:(lia))
    as (R & _ & HRx & [_ Hq] & _ & _ & Hres).
  { rewrite Hd, fexp64. lia. }
  rewrite Hd, fexp64 in HRx, Hq, Hres.
  replace (Z.max (105 + (E + e2) - 53) (-1074)) with (E + e2 + 52)
    in HRx, Hq, Hres by lia.
  replace (E + e2 + 52 - (E + e2)) with 52 in HRx, Hq by lia.
  rewrite Z.div_mul in HRx, Hq by lia.
  assert (Hmod : (Zpos M * 2 ^ 52) mod 2 ^ 52 = 0) by (apply Z.mod_mul; lia).
  rewrite (HRx eq_refl Hmod) in Hres.
  rewrite Hres.
  destruct (Z.ltb_spec (Zpos M) (2 ^ prec)) as [_|]; [| lia].
  rewrite pack_pos by lia. reflexivity.
Qed.

Lemma mul_ofZ_one (n : Z) : 0 <= n < 2 ^ 53 -> mul (ofZ n) one = ofZ n.
Proof.
  intros Hn. destruct (Z.eq_dec n 0) as [->|Hne]; [reflexivity |].
  destruct (integer_form n ltac:(lia)) as (-> & HM & HdM & HE & _).
  cbv zeta in *. unfold one. rewrite mul_pow2.
  - f_equal. lia.
  - rewrite Z2Pos.id by lia. exact HdM.
  - lia.
Qed.

Lemma mul_ofZ_two (n : Z) :
  0 <= n < 2 ^ 52 -> mul (ofZ n) two = ofZ (2 * n).
Proof.
  intros Hn. destruct (Z.eq_dec n 0) as [->|Hne]; [reflexivity |].
  assert (H53' : 2 ^ 53 = 2 * 2 ^ 52) by reflexivity.
  destruct (integer_form n ltac:(lia)) as (-> & HM & HdM & HE & _).
  clear H53'. cbv zeta in *.
  assert (H53 : 2 ^ 53 = 2 * 2 ^ 52) by reflexivity.
  rewrite (ofZ_pos (2 * n)) by lia.
  unfold two. rewrite mul_pow2.
  - assert (Hd2 : Zdigits2 (2 * n) = Zdigits2 n + 1).
    { rewrite (Z.mul_comm 2 n). apply (Zdigits2_mul_pow2 n 1); lia. }
    rewrite Hd2. f_equal; [| lia]. f_equal.
    assert (Hd52 : Zdigits2 n <= 52) by (apply Zdigits2_lt_pow; lia).
    assert (Hp : 2 ^ (53 - Zdigits2 n) = 2 * 2 ^ (53 - (Zdigits2 n + 1))).
    { rewrite <- Z.pow_succ_r by lia. f_equal. lia. }
    rewrite Hp. lia.
  - rewrite Z2Pos.id by lia. exact HdM.
  - lia.
Qed.

Lemma div_eucl_spec (a b : Z) : Z.div_eucl a b = (a / b, a mod b).
Proof. unfold Z.div, Z.modulo. destruct (Z.div_eucl a b). reflexivity. Qed.

Lemma new_location_zero (steps : Z) : new_location steps 0 = loc_Exact.
Proof. unfold new_location. destruct (Z.even steps); reflexivity. Qed.

(** A finite number divided by itself is 1. *)
Lemma div_self (s : bool) (m : positive) (e : Z) :
  div (S754_finite s m e) (S754_finite s m e) = one.
Proof.
  unfold div, SFdiv, SFdiv_core_binary. rewrite xorb_nilpotent.
  replace (Zdigits2 (Zpos m) + e - (Zdigits2 (Zpos m) + e)) with 0 by lia.
  rewrite Z.sub_diag.
  change (Z.min (fexp prec emax 0) 0) with (-53).
  change (0 - -53) with 53.
  rewrite Z.shiftl_mul_pow2 by lia.
  rewrite div_eucl_spec.
  rewrite (Z.mul_comm (Zpos m)), Z.div_mul, Z.mod_mul by lia.
  rewrite new_location_zero. reflexivity.
Qed.

(** A positive integer below 2^53 divided by 1 is itself. *)
Lemma div_ofZ_one (n : Z) : 0 <= n < 2 ^ 53 -> div (ofZ n) one = ofZ n.
Proof.
  intros Hn. destruct (Z.eq_dec n 0) as [->|Hne]; [reflexivity |].
  destruct (integer_form n ltac:(lia)) as (-> & HM & HdM & HE & _).
  cbv zeta in *. set (M := n * 2 ^ (53 - Zdigits2 n)) in *.
  set (E := Zdigits2 n - 53) in *.
  unfold div, one, SFdiv, SFdiv_core_binary. rewrite xorb_false_r.
  rewrite Z2Pos.id by lia. rewrite HdM.
  change (Zdigits2 4503599627370496) with 53.
  replace (53 + E - (53 + -52)) with (E + 52) by lia.
  rewrite fexp64.
  replace (Z.min (Z.max (E + 52 - 53) (-1074)) (E - -52)) with (E - 1) by lia.
  replace (E - -52 - (E - 1)) with 53 by lia.
  rewrite Z.shiftl_mul_pow2 by lia.
  rewrite div_eucl_spec.
  change (Zpos 4503599627370496) with (2 ^ 52).
  replace (M * 2 ^ 53) with (M * 2 * 2 ^ 52)
    by (change (2 ^ 53) with (2 * 2 ^ 52); lia).
  rewrite Z.div_mul, Z.mod_mul by lia.
  rewrite new_location_zero.
  assert (Hd : Zdigits2 (M * 2) = 54).
  { change 2 with (2 ^ 1) at 1. rewrite Zdigits2_mul_pow2 by lia. lia. }
  destruct (binary_round_aux_regular prec emax ltac:(reflexivity)
              false (M * 2) (E - 1) loc_Exact ltac:(lia))
    as (R & _ & HRx & [_ Hq] & _ & _ & Hres).
  { rewrite Hd, fexp64. lia. }
  rewrite Hd, fexp64 in HRx, Hq, Hres.
  replace (Z.max (54 + (E - 1) - 53) (-1074)) with E in HRx, Hq, Hres by lia.
  replace (E - (E - 1)) with 1 in HRx, Hq by lia.
  change (2 ^ 1) with 2 in HRx, Hq.
  rewrite Z.div_mul in HRx, Hq by lia.
  assert (Hmod : (M * 2) mod 2 = 0) by (apply Z.mod_mul; lia).
  rewrite (HRx eq_refl Hmod) in Hres.
  rewrite Hres.
  destruct (Z.ltb_spec M (2 ^ prec)) as [_|]; [| lia].
  apply pack_pos; lia.
Qed.

Lemma sub_self (x : number) : is_finite x = true -> sub x x = pzero.
Proof.
  destruct x as [[|]|[|]| |[|] m e]; try discriminate; intros _;
    try reflexivity; unfold sub, SFsub; rewrite Z.sub_diag; reflexivity.
Qed.

(** ** Silence *)

Lemma length_number_pos (audioData : Float32Array) :
  audioData <> [] -> Z.of_nat (length audioData) < 2 ^ 53 ->
  exists m e, length_number audioData = S754_finite false m e.
Proof.
  intros Hne Hlen. unfold length_number.
  assert (0 < Z.of_nat (length audioData))
    by (destruct audioData; [contradiction | cbn [length]; lia]).
  destruct (integer_form (Z.of_nat (length audioData))) as (-> & _);
    [lia | eauto].
Qed.

Lemma sumSquares_zeros (audioData : Float32Array) :
  Forall (fun x => is_zero x = true) audioData ->
  sumSquares audioData = pzero.
Proof.
  unfold sumSquares. induction 1 as [|x rest Hx _ IH]; [reflexivity |].
  cbn [fold_left]. destruct x as [[|]| | |]; try discriminate; exact IH.
Qed.

Lemma rms_of_zeros (audioData : Float32Array) :
  audioData <> [] -> Z.of_nat (length audioData) < 2 ^ 53 ->
  Forall (fun x => is_zero x = true) audioData ->
  rms_of audioData = pzero.
Proof.
  intros Hne Hlen Hz. unfold rms_of. rewrite (sumSquares_zeros _ Hz).
  destruct (length_number_pos audioData Hne Hlen) as (m & e & ->).
  reflexivity.
Qed.

(** ** The length of the upsampled signal *)

Lemma new_Float32Array_floor (x : number) :
  is_finite x = true -> 0 <= floorZ x < 2 ^ 53 ->
  new_Float32Array (Math_floor x)
  = Returned (replicate (Z.to_nat (floorZ x)) pzero).
Proof.
  destruct x as [s|s| |s m e]; try discriminate; intros _ Hfl.
  - reflexivity.
  - unfold Math_floor. destruct (Z.leb_spec 0 e) as [He|He].
    + unfold new_Float32Array.
      assert (Ht : truncZ (S754_finite s m e) = floorZ (S754_finite s m e)).
      { unfold truncZ, floorZ. destruct (Z.leb_spec 0 e); [reflexivity | lia]. }
      rewrite Ht.
      destruct (Z.ltb_spec (floorZ (S754_finite s m e)) 0); [lia |].
      destruct (Z.ltb_spec (2 ^ 53 - 1) (floorZ (S754_finite s m e))); [lia |].
      reflexivity.
    + destruct (floorZ (S754_finite s m e)) as [|q|q] eqn:Hq; [reflexivity | | lia].
      apply new_Float32Array_ofZ. lia.
Qed.

Lemma upsampled_length (audioData : Float32Array)
    (inputSampleRate outputSampleRate : number) :
  let product := mul (length_number audioData)
                     (div outputSampleRate inputSampleRate) in
  audioData <> [] -> is_finite product = true ->
  0 <= floorZ product < 2 ^ 53 ->
  exists up, upsampled audioData inputSampleRate outputSampleRate
             = Returned up
             /\ length up = Z.to_nat (floorZ product).
Proof.
  intros product Hne Hfin Hfl. unfold upsampled, upsample_length, upsample_ratio.
  destruct audioData as [|x rest]; [contradiction |].
  cbn [length Nat.eqb]. fold product.
  rewrite (new_Float32Array_floor product Hfin Hfl).
  eexists. split; [reflexivity |].
  rewrite length_map, length_seq, length_replicate. reflexivity.
Qed.

Lemma length_nonempty (audioData : Float32Array) :
  audioData <> [] -> 0 < Z.of_nat (length audioData).
Proof. destruct audioData; [contradiction | cbn [length]; lia]. Qed.

Lemma floorZ_ofZ (n : Z) : 0 <= n < 2 ^ 53 -> floorZ (ofZ n) = n.
Proof.
  intros Hn. rewrite <- (truncZ_ofZ n Hn) at 2.
  destruct (Z.eq_dec n 0) as [->|Hne]; [reflexivity |].
  destruct (integer_form n ltac:(lia)) as (-> & _).
  unfold floorZ, truncZ. destruct (0 <=? _); reflexivity.
Qed.

Lemma is_finite_ofZ (n : Z) : 0 <= n < 2 ^ 53 -> is_finite (ofZ n) = true.
Proof.
  intros Hn. destruct (Z.eq_dec n 0) as [->|Hne]; [reflexivity |].
  destruct (integer_form n ltac:(lia)) as (-> & _). reflexivity.
Qed.

Lemma upsampled_doubles (audioData : Float32Array) :
  audioData <> [] -> Z.of_nat (length audioData) < 2 ^ 52 ->
  exists up, upsampled audioData (ofZ 24000) c48000 = Returned up
             /\ length up = (2 * length audioData)%nat.
Proof.
  intros Hne Hlen. pose proof (length_nonempty audioData Hne) as Hpos.
  assert (H53 : 2 ^ 53 = 2 * 2 ^ 52) by reflexivity.
  assert (Hprod : mul (length_number audioData) (div c48000 (ofZ 24000))
                  = ofZ (2 * Z.of_nat (length audioData))).
  { change (div c48000 (ofZ 24000)) with two.
    apply mul_ofZ_two. lia. }
  destruct (upsampled_length audioData (ofZ 24000) c48000 Hne) as (up & Hup & Hl).
  - rewrite Hprod. apply is_finite_ofZ. lia.
  - rewrite Hprod, floorZ_ofZ by lia. lia.
  - exists up. split; [exact Hup |].
    rewrite Hl, Hprod, floorZ_ofZ by lia. lia.
Qed.

(** C4, as the code has it.  The output length is the floor of the double
    the product inputLength * (outputRate / inputRate) rounds to, the ratio
    itself being rounded to a double first; for 24000 to 48000 Hz the ratio
    is exactly 2 and the output is exactly twice as long as the input. *)
Theorem upsample_length_is_floor_of_rounded_product (P : Platform) (w : World)
    (audioData : Float32Array) :
  quiet P -> audioData <> [] ->
  (forall inputSampleRate outputSampleRate : number,
     let product := mul (length_number audioData)
                        (div outputSampleRate inputSampleRate) in
     is_finite product = true -> 0 <= floorZ product < 2 ^ 53 ->
     exists up,
       result (upsampleAudio P audioData inputSampleRate outputSampleRate) w
       = Returned up
       /\ Z.of_nat (length up) = floorZ product)
  /\ (Z.of_nat (length audioData) < 2 ^ 52 ->
      exists up,
        result (upsampleAudio P audioData (ofZ 24000) c48000) w = Returned up
        /\ length up = (2 * length audioData)%nat).
Proof.
  intros Hq Hne. split.
  - intros inputSampleRate outputSampleRate product Hfin Hfl.
    destruct (upsampled_length audioData inputSampleRate outputSampleRate
                Hne Hfin Hfl) as (up & Hup & Hl).
    exists up. split.
    + rewrite <- Hup. apply upsampleAudio_result, Hq.
    + rewrite Hl. fold product. lia.
  - intros Hlen.
    destruct (upsampled_doubles audioData Hne Hlen) as (up & Hup & Hl).
    exists up. split; [| exact Hl].
    rewrite <- Hup. apply upsampleAudio_result, Hq.
Qed.

Lemma upsample_length_is_floor_of_rounded_product_witness :
  (forall inputSampleRate outputSampleRate : number,
     let product := mul (length_number [one; pzero; one])
                        (div outputSampleRate inputSampleRate) in
     is_finite product = true -> 0 <= floorZ product < 2 ^ 53 ->
     exists up,
       result (upsampleAudio quiet_host [one; pzero; one]
                 inputSampleRate outputSampleRate)
         (fresh_world development_config)
       = Returned up
       /\ Z.of_nat (length up) = floorZ product)
  /\ (Z.of_nat (length [one; pzero; one]) < 2 ^ 52 ->
      exists up,
        result (upsampleAudio quiet_host [one; pzero; one] (ofZ 24000) c48000)
          (fresh_world development_config) = Returned up
        /\ length up = (2 * length [one; pzero; one])%nat).
Proof.
  apply (upsample_length_is_floor_of_rounded_product quiet_host
           (fresh_world development_config) [one; pzero; one]).
  - intros l message d. reflexivity.
  - discriminate.
Defined.

(** C4 fails as stated: 27 samples resampled from 3 Hz to 13 Hz give 116
    samples, one fewer than floor(27 * 13 / 3) = 117, because 13 / 3 is
    rounded down to a double before it is multiplied by 27. *)
Lemma upsample_length_is_not_the_exact_floor :
  exists up,
    result (upsampleAudio quiet_host (replicate 27 one) (ofZ 3) (ofZ 13))
      (fresh_world development_config) = Returned up
    /\ length up = 116%nat
    /\ 27 * 13 / 3 = 117.
Proof.
  eexists. split; [vm_compute; reflexivity |]. split; reflexivity.
Qed.

(** ** Division *)

Lemma SFdiv_core_binary_spec (m1 m2 : positive) (e1 e2 : Z) :
  let e' := Z.min (fexp prec emax (Zdigits2 (Zpos m1) + e1
                                   - (Zdigits2 (Zpos m2) + e2)))
                  (e1 - e2) in
  let s := e1 - e2 - e' in
  SFdiv_core_binary prec emax (Zpos m1) e1 (Zpos m2) e2
  = (Zpos m1 * 2 ^ s / Zpos m2, e',
     new_location (Zpos m2) ((Zpos m1 * 2 ^ s) mod Zpos m2)).
Proof.
  intros e' s. unfold SFdiv_core_binary. fold e'. fold s.
  assert (Hs : 0 <= s) by (unfold s, e'; lia).
  assert (Hm : forall z, 0 <= z ->
               match z with
               | Z.pos _ => Z.shiftl (Zpos m1) z
               | 0 => Zpos m1
               | Z.neg _ => 0
               end = Zpos m1 * 2 ^ z).
  { intros [|p|p] Hz; try lia.
    rewrite Z.shiftl_mul_pow2 by lia. reflexivity. }
  rewrite (Hm s Hs), div_eucl_spec. reflexivity.
Qed.

Lemma Zdigits2_ge (m t : Z) : 0 < m -> 2 ^ (t - 1) <= m -> t <= Zdigits2 m.
Proof.
  intros Hm Ht. pose proof (Zdigits2_bounds m Hm) as [_ Hhi].
  destruct (Z_lt_le_dec (Zdigits2 m) t) as [Hlt|]; [| lia].
  pose proof (Zdigits2_pos m Hm).
  assert (2 ^ Zdigits2 m <= 2 ^ (t - 1)) by (apply Z.pow_le_mono_r; lia).
  lia.
Qed.

(** The quotient of two finite numbers is a zero, an infinity or a finite
    number in canonical form, whatever the form of the operands. *)
Lemma div_finite_form (sx sy : bool) (mx my : positive) (ex ey : Z) :
  let r := div (S754_finite sx mx ex) (S754_finite sy my ey) in
  r = S754_zero (xorb sx sy) \/ r = S754_infinity (xorb sx sy)
  \/ exists m e, r = S754_finite (xorb sx sy) m e /\ canonical m e.
Proof.
  intros r. unfold r, div, SFdiv. rewrite SFdiv_core_binary_spec.
  set (d1 := Zdigits2 (Zpos mx)). set (d2 := Zdigits2 (Zpos my)).
  set (e' := Z.min (fexp prec emax (d1 + ex - (d2 + ey))) (ex - ey)).
  set (s := ex - ey - e').
  set (q := Zpos mx * 2 ^ s / Zpos my).
  set (lz := new_location _ _).
  assert (Hs : 0 <= s) by (unfold s, e'; lia).
  assert (Hps : 0 < 2 ^ s) by (apply Z.pow_pos_nonneg; lia).
  pose proof (Zdigits2_bounds (Zpos mx) ltac:(lia)) as [Hlo1 Hhi1].
  pose proof (Zdigits2_bounds (Zpos my) ltac:(lia)) as [Hlo2 Hhi2].
  pose proof (Zdigits2_pos (Zpos mx) ltac:(lia)) as Hd1.
  pose proof (Zdigits2_pos (Zpos my) ltac:(lia)) as Hd2.
  fold d1 in Hlo1, Hhi1, Hd1. fold d2 in Hlo2, Hhi2, Hd2.
  assert (Hq0 : 0 <= q) by (apply Z.div_pos; nia).
  (* the quotient has at least d1 - d2 + s digits *)
  assert (Hbig : forall t, 0 <= t -> t <= d1 - d2 + s - 1 -> 2 ^ t <= q).
  { intros t Ht0 Ht. apply Z.div_le_lower_bound; [lia |].
    assert (2 ^ t * 2 ^ d2 <= 2 ^ (d1 - 1) * 2 ^ s).
    { rewrite <- !Z.pow_add_r by lia. apply Z.pow_le_mono_r; lia. }
    assert (0 < 2 ^ t) by (apply Z.pow_pos_nonneg; lia).
    nia. }
  destruct (Z.eq_dec q 0) as [Hqz|Hqnz].
  - (* the quotient underflows *)
    assert (He' : e' <= -1074).
    { destruct (Z_le_gt_dec e' (-1074)) as [|Hgt]; [assumption |].
      exfalso.
      assert (He'le : e' <= Z.max (d1 + ex - (d2 + ey) - 53) (-1074))
        by (unfold e'; rewrite fexp64; lia).
      assert (Hs_eq : s = ex - ey - e') by reflexivity.
      specialize (Hbig 0 ltac:(lia) ltac:(lia)). simpl in Hbig. lia. }
    destruct (binary_round_aux_unfold prec emax (xorb sx sy) q e' lz Hq0)
      as (R & HR & _ & Hres). cbv zeta in Hres.
    assert (Hk : Z.max 0 (fexp prec emax (Zdigits2 q + e') - e') = -1074 - e')
      by (rewrite Hqz, fexp64; change (Zdigits2 0) with 0; lia).
    rewrite Hk in HR, Hres.
    replace (e' + (-1074 - e')) with (-1074) in Hres by lia.
    rewrite Hqz, Z.div_0_l in HR by (apply Z.pow_nonzero; lia).
    destruct HR as [-> | ->]; rewrite Hres.
    + left. reflexivity.
    + right. right. exists 1%positive, (-1074). split; reflexivity.
  - destruct (binary_round_aux_regular prec emax ltac:(reflexivity)
                (xorb sx sy) q e' lz ltac:(lia))
      as (R & HR & _ & Hq & HRle & Hcanon & Hres).
    { (* regular: the exponent chosen is at most the binade's *)
      assert (d1 - d2 + s <= Zdigits2 q).
      { destruct (Z_le_gt_dec (d1 - d2 + s) 0) as [|Hpos].
        - pose proof (Zdigits2_pos q ltac:(lia)). lia.
        - apply Zdigits2_ge; [lia |]. apply Hbig; lia. }
      assert (He'le : e' <= Z.max (d1 + ex - (d2 + ey) - 53) (-1074))
        by (unfold e'; rewrite fexp64; lia).
      assert (Hs_eq : s = ex - ey - e') by reflexivity.
      rewrite fexp64. lia. }
    rewrite Hres. clear Hres.
    set (e1 := fexp prec emax (Zdigits2 q + e')) in *.
    destruct (Z.ltb_spec R (2 ^ prec)) as [HRlt|HRge].
    + destruct (Z.eq_dec R 0) as [->|HRnz]; [left; reflexivity |].
      assert (HRpos : 0 < R) by lia.
      destruct R as [|p|p]; try lia. unfold pack.
      destruct (Z.leb_spec e1 (emax - prec)); [| right; left; reflexivity].
      right. right. exists p, e1. split; [reflexivity |].
      apply canonical_spec. specialize (Hcanon ltac:(lia)).
      rewrite fexp64 in Hcanon. change (emax - prec) with 971 in *. lia.
    + unfold pack. change (2 ^ (prec - 1)) with (Zpos 4503599627370496).
      destruct (Z.leb_spec (e1 + 1) (emax - prec)); [| right; left; reflexivity].
      right. right. exists 4503599627370496%positive, (e1 + 1).
      split; [reflexivity |]. apply canonical_spec.
      change (Zdigits2 (Zpos 4503599627370496)) with 53.
      change (emax - prec) with 971 in *.
      assert (-1074 <= e1) by (unfold e1; rewrite fexp64; lia). lia.
Qed.

(** ** Order *)

Lemma floorZ_ge (n : Z) (m : positive) (e a b : Z) :
  0 <= a -> 0 <= b -> e = b - a -> n * 2 ^ a <= Zpos m * 2 ^ b ->
  n <= floorZ (S754_finite false m e).
Proof.
  intros Ha Hb He Hle. unfold floorZ. cbn [cond_Zopp].
  assert (Hpa : 0 < 2 ^ a) by (apply Z.pow_pos_nonneg; lia).
  assert (Hpb : 0 < 2 ^ b) by (apply Z.pow_pos_nonneg; lia).
  destruct (Z.leb_spec 0 e) as [He0|He0].
  - replace b with (e + a) in Hle by lia.
    rewrite Z.pow_add_r in Hle by lia. nia.
  - apply Z.div_le_lower_bound; [apply Z.pow_pos_nonneg; lia |].
    replace a with (- e + b) in Hle by lia.
    rewrite Z.pow_add_r in Hle by lia.
    assert (0 < 2 ^ (- e)) by (apply Z.pow_pos_nonneg; lia).
    nia.
Qed.

Lemma floorZ_le (n : Z) (m : positive) (e a b : Z) :
  0 <= a -> 0 <= b -> e = b - a -> Zpos m * 2 ^ b <= n * 2 ^ a ->
  floorZ (S754_finite false m e) <= n.
Proof.
  intros Ha Hb He Hle. unfold floorZ. cbn [cond_Zopp].
  assert (Hpa : 0 < 2 ^ a) by (apply Z.pow_pos_nonneg; lia).
  assert (Hpb : 0 < 2 ^ b) by (apply Z.pow_pos_nonneg; lia).
  destruct (Z.leb_spec 0 e) as [He0|He0].
  - replace b with (e + a) in Hle by lia.
    rewrite Z.pow_add_r in Hle by lia. nia.
  - assert (Hpe : 0 < 2 ^ (- e)) by (apply Z.pow_pos_nonneg; lia).
    replace a with (- e + b) in Hle by lia.
    rewrite Z.pow_add_r in Hle by lia.
    assert (Zpos m <= n * 2 ^ (- e)) by nia.
    apply Z.div_le_upper_bound; [lia |]. lia.
Qed.

(** A canonical number with the exponent of a normal one has 53 digits. *)
Lemma canonical_normal (m : positive) (e : Z) :
  canonical m e -> -1074 < e ->
  Zdigits2 (Zpos m) = 53 /\ 2 ^ 52 <= Zpos m < 2 ^ 53.
Proof.
  intros Hc He. apply canonical_spec in Hc. destruct Hc as [Hf _].
  assert (Hd : Zdigits2 (Zpos m) = 53) by lia.
  pose proof (Zdigits2_bounds (Zpos m) ltac:(lia)) as Hb.
  rewrite Hd in Hb. split; [exact Hd | exact Hb].
Qed.

(** An integer times a ratio of at least 2^j is at least 2^j times the
    integer, after rounding. *)
Lemma mul_integer_ge (n j : Z) (mr : positive) (er : Z) :
  0 < n < 2 ^ 53 -> 0 <= j -> canonical mr er ->
  j - 52 < er \/ (er = j - 52 /\ 2 ^ 52 <= Zpos mr) ->
  let v := mul (ofZ n) (S754_finite false mr er) in
  v = pinf \/ (exists m e, v = S754_finite false m e /\ Zpos m < 2 ^ 53)
              /\ n * 2 ^ j <= floorZ v.
Proof.
  intros Hn Hj Hc Hge v.
  destruct (integer_form n Hn) as (Hform & HM & HdM & HE & HMn).
  cbv zeta in *. set (M := n * 2 ^ (53 - Zdigits2 n)) in *.
  set (E := Zdigits2 n - 53) in *.
  destruct (canonical_normal mr er Hc ltac:(lia)) as [Hdr Hmr].
  pose proof (Zdigits2_bounds M HM) as HMb. rewrite HdM in HMb.
  change (2 ^ (53 - 1)) with (2 ^ 52) in HMb.
  unfold v, mul. rewrite Hform. unfold SFmul. cbn [xorb].
  rewrite Pos2Z.inj_mul, Z2Pos.id by lia.
  set (Pm := M * Zpos mr).
  assert (HP : 2 ^ 104 <= Pm < 2 ^ 106).
  { unfold Pm. change (2 ^ 104) with (2 ^ 52 * 2 ^ 52).
    change (2 ^ 106) with (2 ^ 53 * 2 ^ 53). nia. }
  set (d := Zdigits2 Pm).
  assert (Hd : 105 <= d <= 106).
  { split.
    - apply Zdigits2_ge; [lia |]. change (2 ^ (105 - 1)) with (2 ^ 104). lia.
    - apply Zdigits2_lt_pow; lia. }
  pose proof (Zdigits2_bounds Pm ltac:(lia)) as HPb. fold d in HPb.
  destruct (binary_round_aux_regular prec emax ltac:(reflexivity)
              false Pm (E + er) loc_Exact ltac:(lia))
    as (R & HR & _ & Hq & HRle & _ & Hres).
  { fold d. rewrite fexp64. lia. }
  fold d in HR, Hq, Hres. rewrite fexp64 in HR, Hq, Hres.
  replace (Z.max (d + (E + er) - 53) (-1074)) with (d - 53 + E + er)
    in HR, Hq, Hres by lia.
  replace (d - 53 + E + er - (E + er)) with (d - 53) in HR, Hq by lia.
  set (k := d - 53) in *. set (q := Pm / 2 ^ k) in *.
  assert (Hpk : 0 < 2 ^ k) by (apply Z.pow_pos_nonneg; lia).
  assert (Hq52 : 2 ^ 52 <= q).
  { apply div_pow2_ge; [lia | lia |].
    replace (k + 52) with (d - 1) by lia. lia. }
  (* the truncated product is already large enough *)
  assert (Hkey : M * 2 ^ j <= q * 2 ^ (k + er)).
  { assert (Hpj : 0 < 2 ^ j) by (apply Z.pow_pos_nonneg; lia).
    destruct (Z.eq_dec (k + er) j) as [Heq|Hne].
    - rewrite Heq. assert (k = 52) by lia. assert (2 ^ 52 <= Zpos mr) by lia.
      assert (M <= q).
      { apply Z.div_le_lower_bound; [lia |]. unfold Pm.
        replace k with 52 by lia. nia. }
      nia.
    - assert (Hj1 : j + 1 <= k + er) by lia.
      assert (2 ^ (j + 1) <= 2 ^ (k + er)) by (apply Z.pow_le_mono_r; lia).
      rewrite Z.pow_add_r in H by lia. change (2 ^ 1) with 2 in H.
      change (2 ^ 53) with (2 * 2 ^ 52) in HMb. nia. }
  assert (HkeyR : n * 2 ^ j * 2 ^ (- E) <= R * 2 ^ (k + er)).
  { assert (0 < 2 ^ (k + er)) by (apply Z.pow_pos_nonneg; lia).
    rewrite HMn in Hkey. nia. }
  rewrite Hres. clear Hres.
  destruct (Z.ltb_spec R (2 ^ prec)) as [HRlt|HRge].
  - assert (HRpos : 0 < R) by lia.
    destruct R as [|p|p]; try lia. unfold pack.
    destruct (Z.leb_spec (k + E + er) (emax - prec)); [| left; reflexivity].
    right. split; [exists p, (k + E + er); split; [reflexivity | exact HRlt] |].
    apply (floorZ_ge _ p _ (- E) (k + er)); lia.
  - unfold pack. change (2 ^ (prec - 1)) with (Zpos 4503599627370496).
    destruct (Z.leb_spec (k + E + er + 1) (emax - prec)); [| left; reflexivity].
    right. split; [eexists _, _; split; [reflexivity | reflexivity] |].
    apply (floorZ_ge _ 4503599627370496 _ (- E) (k + er + 1)); try lia.
    assert (HReq : R = 2 ^ 53) by (change (2 ^ prec) with (2 ^ 53) in *; lia).
    rewrite HReq in HkeyR.
    rewrite (Z.pow_add_r 2 (k + er) 1) by lia.
    change (Zpos 4503599627370496) with (2 ^ 52).
    change (2 ^ 53) with (2 ^ 52 * 2 ^ 1) in HkeyR. lia.
Qed.

Lemma new_Float32Array_floor_cases (m : positive) (e : Z) :
  Zpos m < 2 ^ 53 ->
  let x := S754_finite false m e in
  (floorZ x < 2 ^ 53 ->
   new_Float32Array (Math_floor x)
   = Returned (replicate (Z.to_nat (floorZ x)) pzero))
  /\ (2 ^ 53 <= floorZ x ->
      new_Float32Array (Math_floor x)
      = Thrown (RangeError "Invalid typed array length")).
Proof.
  intros Hm x.
  assert (H0 : 0 <= floorZ x).
  { unfold x, floorZ. cbn [cond_Zopp]. destruct (Z.leb_spec 0 e).
    - assert (0 <= 2 ^ e) by (apply Z.pow_nonneg; lia). nia.
    - apply Z.div_pos; [lia |]. apply Z.pow_pos_nonneg; lia. }
  split.
  - intros Hlt. apply new_Float32Array_floor; [reflexivity | lia].
  - intros Hge. unfold x in *. unfold Math_floor, floorZ in *.
    cbn [cond_Zopp] in *.
    destruct (Z.leb_spec 0 e) as [He|He].
    + unfold new_Float32Array, truncZ. cbn [cond_Zopp].
      destruct (Z.leb_spec 0 e); [| lia].
      destruct (Z.ltb_spec (Zpos m * 2 ^ e) 0); [reflexivity |].
      destruct (Z.ltb_spec (2 ^ 53 - 1) (Zpos m * 2 ^ e)); [reflexivity | lia].
    + exfalso.
      assert (Hpe : 0 < 2 ^ (- e)) by (apply Z.pow_pos_nonneg; lia).
      assert (Zpos m / 2 ^ (- e) <= Zpos m).
      { apply Z.div_le_upper_bound; [exact Hpe | nia]. }
      lia.
Qed.

Lemma compare_pow2 (c : Z) (mr : positive) (er : Z) :
  SFcompare (S754_finite false 4503599627370496 c)
            (S754_finite false mr er)
  = Some match c ?= er with
         | Lt => Lt
         | Gt => Gt
         | Eq => (4503599627370496 ?= mr)%positive
         end.
Proof. reflexivity. Qed.

(** What a ratio greater than 1, or at least 2, looks like. *)
Lemma ratio_above (j : Z) (x y : number) :
  (j = 0 /\ lt one (div x y) = true) \/ (j = 1 /\ le two (div x y) = true) ->
  div x y = pinf
  \/ exists mr er, div x y = S754_finite false mr er /\ canonical mr er
                   /\ (j - 52 < er \/ (er = j - 52 /\ 2 ^ 52 <= Zpos mr)).
Proof.
  intros Hcmp.
  assert (Hform : div x y = S754_nan \/ (exists s, div x y = S754_zero s)
                  \/ (exists s, div x y = S754_infinity s)
                  \/ exists s m e, div x y = S754_finite s m e
                                   /\ canonical m e).
  { destruct x as [sx|sx| |sx mx ex], y as [sy|sy| |sy my ey];
      try (left; reflexivity);
      try (right; left; eexists; reflexivity);
      try (right; right; left; eexists; reflexivity).
    destruct (div_finite_form sx sy mx my ex ey) as [H | [H | (m & e & H & Hc)]];
      cbv zeta in H; rewrite H; eauto 10. }
  destruct Hform as [H | [[s H] | [[s H] | (s & m & e & H & Hc)]]];
    rewrite H in *.
  - destruct Hcmp as [[_ Hc] | [_ Hc]]; discriminate.
  - destruct Hcmp as [[_ Hc] | [_ Hc]]; discriminate.
  - destruct s; [destruct Hcmp as [[_ Hc] | [_ Hc]]; discriminate |].
    left. reflexivity.
  - destruct s; [destruct Hcmp as [[_ Hx] | [_ Hx]]; discriminate |].
    right. exists m, e. split; [reflexivity |]. split; [exact Hc |].
    destruct Hcmp as [[-> Hlt] | [-> Hle]].
    + unfold lt, SFltb, one in Hlt.
      rewrite (compare_pow2 (-52) m e) in Hlt.
      destruct (Z.compare_spec (-52) e) as [He|He|He]; try discriminate.
      * right. split; [lia |].
        destruct (Pos.compare_spec 4503599627370496 m); try discriminate.
        change (2 ^ 52) with (Zpos 4503599627370496). lia.
      * left. lia.
    + unfold le, SFleb, two in Hle.
      rewrite (compare_pow2 (-51) m e) in Hle.
      destruct (Z.compare_spec (-51) e) as [He|He|He]; try discriminate.
      * right. split; [lia |].
        destruct (Pos.compare_spec 4503599627370496 m); try discriminate;
          change (2 ^ 52) with (Zpos 4503599627370496); lia.
      * left. lia.
Qed.

Lemma upsampled_at_least (j : Z) (audioData : Float32Array)
    (inputSampleRate outputSampleRate : number) :
  audioData <> [] -> Z.of_nat (length audioData) < 2 ^ 53 ->
  (j = 0 /\ lt one (upsample_ratio inputSampleRate outputSampleRate) = true)
  \/ (j = 1 /\ le two (upsample_ratio inputSampleRate outputSampleRate) = true) ->
  (exists up,
     upsampled audioData inputSampleRate outputSampleRate = Returned up
     /\ Z.of_nat (length audioData) * 2 ^ j <= Z.of_nat (length up))
  \/ upsampled audioData inputSampleRate outputSampleRate
     = Thrown (RangeError "Invalid typed array length").
Proof.
  intros Hne Hlen Hcmp. pose proof (length_nonempty audioData Hne) as Hpos.
  assert (Hj : 0 <= j) by (destruct Hcmp as [[-> _] | [-> _]]; lia).
  unfold upsampled, upsample_length, upsample_ratio in *.
  assert (Hnz : (length audioData =? 0)%nat = false)
    by (apply Nat.eqb_neq; lia).
  rewrite Hnz.
  destruct (ratio_above j outputSampleRate inputSampleRate Hcmp)
    as [Hinf | (mr & er & Hr & Hc & Hge)].
  - right. rewrite Hinf. unfold length_number.
    destruct (integer_form (Z.of_nat (length audioData)) ltac:(lia)) as (-> & _).
    reflexivity.
  - rewrite Hr. unfold length_number.
    destruct (mul_integer_ge (Z.of_nat (length audioData)) j mr er
                ltac:(lia) Hj Hc Hge) as [Hv | [(m & e & Hv & Hm) Hfl]];
      cbv zeta in *.
    + right. rewrite Hv. reflexivity.
    + rewrite Hv in *.
      destruct (new_Float32Array_floor_cases m e Hm) as [Hsmall Hbig].
      cbv zeta in *.
      destruct (Z_lt_le_dec (floorZ (S754_finite false m e)) (2 ^ 53)) as [Hlt|Hge53].
      * left. rewrite (Hsmall Hlt). eexists. split; [reflexivity |].
        rewrite length_map, length_seq, length_replicate. lia.
      * right. rewrite (Hbig Hge53). reflexivity.
Qed.

(** C8, as the code has it.  With a ratio above 1 the upsampler either
    returns a signal at least as long as its input -- at least twice as long
    once the ratio is 2 or more -- or fails on a length no array can have;
    the output is not always strictly longer. *)
Theorem upsample_does_not_shorten (P : Platform) (w : World)
    (audioData : Float32Array) (inputSampleRate outputSampleRate : number) :
  quiet P -> audioData <> [] -> Z.of_nat (length audioData) < 2 ^ 53 ->
  lt one (upsample_ratio inputSampleRate outputSampleRate) = true ->
  (exists up,
     result (upsampleAudio P audioData inputSampleRate outputSampleRate) w
     = Returned up
     /\ (length audioData <= length up)%nat
     /\ (le two (upsample_ratio inputSampleRate outputSampleRate) = true ->
         (length audioData < length up)%nat
         /\ (2 * length audioData <= length up)%nat))
  \/ result (upsampleAudio P audioData inputSampleRate outputSampleRate) w
     = Thrown (RangeError "Invalid typed array length").
Proof.
  intros Hq Hne Hlen Hlt.
  rewrite (upsampleAudio_result P audioData inputSampleRate outputSampleRate
             Hq w).
  pose proof (length_nonempty audioData Hne) as Hpos.
  destruct (upsampled_at_least 0 audioData inputSampleRate outputSampleRate
              Hne Hlen ltac:(left; split; [reflexivity | exact Hlt]))
    as [(up & Hup & Hl) | Hthrown]; [| right; exact Hthrown].
  left. exists up. split; [exact Hup |]. split; [lia |].
  intros Hle2.
  destruct (upsampled_at_least 1 audioData inputSampleRate outputSampleRate
              Hne Hlen ltac:(right; split; [reflexivity | exact Hle2]))
    as [(up' & Hup' & Hl') | Hthrown].
  - rewrite Hup in Hup'. injection Hup' as <-. lia.
  - rewrite Hup in Hthrown. discriminate.
Qed.

Lemma upsample_does_not_shorten_witness :
  (exists up,
     result (upsampleAudio quiet_host [one; pzero; one] (ofZ 24000) c48000)
       (fresh_world development_config)
     = Returned up
     /\ (length [one; pzero; one] <= length up)%nat
     /\ (le two (upsample_ratio (ofZ 24000) c48000) = true ->
         (length [one; pzero; one] < length up)%nat
         /\ (2 * length [one; pzero; one] <= length up)%nat))
  \/ result (upsampleAudio quiet_host [one; pzero; one] (ofZ 24000) c48000)
       (fresh_world development_config)
     = Thrown (RangeError "Invalid typed array length").
Proof.
  apply (upsample_does_not_shorten quiet_host (fresh_world development_config)
           [one; pzero; one] (ofZ 24000) c48000).
  - intros l message d. reflexivity.
  - discriminate.
  - vm_compute. reflexivity.
  - vm_compute. reflexivity.
Defined.

(** C8 fails as stated: one sample resampled from 24000 Hz to 36000 Hz, a
    ratio of 1.5, gives floor(1.5) = 1 sample, no more than the input. *)
Lemma upsample_may_keep_the_length :
  lt one (upsample_ratio (ofZ 24000) (ofZ 36000)) = true
  /\ result (upsampleAudio quiet_host [one] (ofZ 24000) (ofZ 36000))
       (fresh_world development_config) = Returned [one].
Proof. split; vm_compute; reflexivity. Qed.

(** ** The container *)

Lemma normalized_returns (P : Platform) (audioData : Float32Array)
    (targetRMS : number) :
  audioData <> [] ->
  exists normalizedAudio,
    normalized P audioData targetRMS = Returned normalizedAudio
    /\ length normalizedAudio = length audioData.
Proof.
  intros Hne. unfold normalized.
  destruct audioData as [|x rest]; [contradiction |]. cbn [length Nat.eqb].
  destruct (strict_eq _ _); eexists; (split; [reflexivity |]).
  - reflexivity.
  - rewrite length_map. reflexivity.
Qed.

Lemma processed_zeros (P : Platform) (n : nat) :
  (0 < n)%nat -> Z.of_nat n < 2 ^ 52 ->
  exists up, processed P (replicate n pzero) (ofZ 24000) = Returned up
             /\ length up = (2 * n)%nat.
Proof.
  intros Hn Hlt.
  assert (Hne : replicate n pzero <> []) by (destruct n; [lia | discriminate]).
  assert (H53 : 2 ^ 53 = 2 * 2 ^ 52) by reflexivity.
  assert (Hrms : rms_of (replicate n pzero) = pzero).
  { apply rms_of_zeros; [exact Hne | rewrite length_replicate; lia |].
    apply Forall_replicate. reflexivity. }
  unfold processed, normalized. rewrite Hrms.
  assert (Hnz : (length (replicate n pzero) =? 0)%nat = false)
    by (apply Nat.eqb_neq; rewrite length_replicate; lia).
  rewrite Hnz. change (strict_eq pzero pzero) with true. cbv iota.
  destruct (upsampled_doubles (replicate n pzero) Hne) as (up & Hup & Hl).
  { rewrite length_replicate. lia. }
  exists up. split; [exact Hup |]. rewrite Hl, length_replicate. reflexivity.
Qed.

(** C3, as the code has it.  The container of [sampleCount] samples is
    44 + 2 * sampleCount bytes long, with one channel, block align 2 and 16
    bits per sample; its two size fields hold 36 + 2 * sampleCount and
    2 * sampleCount modulo 2^32, which are the sizes themselves as long as
    the file size fits the 32-bit field. *)
Theorem container_layout (P : Platform) (w : World)
    (audioData up : Float32Array) (sampleRate : number) :
  quiet P -> audioData <> [] -> accepted_rate sampleRate = true ->
  processed P audioData sampleRate = Returned up ->
  exists blob,
    result (createAudioBlob P audioData sampleRate) w = Returned blob
    /\ blob_type blob = "audio/wav"%string
    /\ length (blob_bytes blob) = (44 + 2 * length up)%nat
    /\ getUint32 (blob_bytes blob) 4
       = Returned ((36 + 2 * Z.of_nat (length up)) mod 2 ^ 32)
    /\ getUint32 (blob_bytes blob) 40
       = Returned ((2 * Z.of_nat (length up)) mod 2 ^ 32)
    /\ getUint16 (blob_bytes blob) 22 = Returned 1
    /\ getUint16 (blob_bytes blob) 32 = Returned 2
    /\ getUint16 (blob_bytes blob) 34 = Returned 16
    /\ (36 + 2 * Z.of_nat (length up) < 2 ^ 32 ->
        getUint32 (blob_bytes blob) 4
        = Returned (36 + 2 * Z.of_nat (length up))
        /\ getUint32 (blob_bytes blob) 40
           = Returned (2 * Z.of_nat (length up))).
Proof.
  intros Hq Hne Hrate Hup.
  pose proof (createAudioBlob_result P audioData sampleRate Hq Hne Hrate w)
    as Hres. cbv beta in Hres. rewrite Hup in Hres.
  destruct Hres as (bytes & Hblob & Hlen & Htake).
  exists {| blob_bytes := bytes; blob_type := "audio/wav" |}.
  split; [exact Hblob |]. cbn [blob_bytes blob_type].
  destruct (container_fields (length up) bytes Htake ltac:(lia))
    as (_ & Hsize & _ & _ & _ & _ & Hch & _ & _ & Halign & Hbits & _ & Hdata).
  unfold wrap in Hsize, Hdata.
  replace (36 + Z.of_nat (length up) * 2) with (36 + 2 * Z.of_nat (length up))
    in Hsize by lia.
  replace (Z.of_nat (length up) * 2) with (2 * Z.of_nat (length up))
    in Hdata by lia.
  repeat (split; [assumption || reflexivity |]).
  intros Hfit. rewrite Hsize, Hdata, !Z.mod_small by lia. split; reflexivity.
Qed.

Lemma container_layout_witness :
  exists blob,
    result (createAudioBlob quiet_host [pzero; pzero] (ofZ 24000))
      (fresh_world development_config) = Returned blob
    /\ blob_type blob = "audio/wav"%string
    /\ length (blob_bytes blob) = (44 + 2 * length (replicate 4 pzero))%nat
    /\ getUint32 (blob_bytes blob) 4
       = Returned ((36 + 2 * Z.of_nat (length (replicate 4 pzero))) mod 2 ^ 32)
    /\ getUint32 (blob_bytes blob) 40
       = Returned ((2 * Z.of_nat (length (replicate 4 pzero))) mod 2 ^ 32)
    /\ getUint16 (blob_bytes blob) 22 = Returned 1
    /\ getUint16 (blob_bytes blob) 32 = Returned 2
    /\ getUint16 (blob_bytes blob) 34 = Returned 16
    /\ (36 + 2 * Z.of_nat (length (replicate 4 pzero)) < 2 ^ 32 ->
        getUint32 (blob_bytes blob) 4
        = Returned (36 + 2 * Z.of_nat (length (replicate 4 pzero)))
        /\ getUint32 (blob_bytes blob) 40
           = Returned (2 * Z.of_nat (length (replicate 4 pzero)))).
Proof.
  apply (container_layout quiet_host (fresh_world development_config)
           [pzero; pzero] (replicate 4 pzero) (ofZ 24000)).
  - intros l message d. reflexivity.
  - discriminate.
  - vm_compute. reflexivity.
  - vm_compute. reflexivity.
Defined.

(** C3 fails as stated: 2^30 samples of silence at 24000 Hz become 2^31
    encoded samples; the container is 44 + 2^32 bytes long, but its data
    size field reads 0 and its file size field 36. *)
Lemma container_sizes_wrap_at_4GiB :
  exists blob,
    result (createAudioBlob quiet_host (replicate (Z.to_nat (2 ^ 30)) pzero)
              (ofZ 24000))
      (fresh_world production_config) = Returned blob
    /\ Z.of_nat (length (blob_bytes blob)) = 44 + 2 ^ 32
    /\ getUint32 (blob_bytes blob) 40 = Returned 0
    /\ getUint32 (blob_bytes blob) 4 = Returned 36.
Proof.
  assert (Hn : exists n, Z.to_nat (2 ^ 30) = n /\ Z.of_nat n = 2 ^ 30).
  { eexists. split; [reflexivity |]. apply Z2Nat.id. lia. }
  destruct Hn as (n & -> & Hn).
  destruct (processed_zeros quiet_host n ltac:(lia) ltac:(lia))
    as (up & Hup & Hl).
  destruct (container_layout quiet_host (fresh_world production_config)
              (replicate n pzero) up (ofZ 24000))
    as (blob & Hblob & _ & Hlen & Hsize & Hdata & _).
  - intros l message d. reflexivity.
  - destruct n; [lia | discriminate].
  - vm_compute. reflexivity.
  - exact Hup.
  - exists blob. split; [exact Hblob |].
    assert (Hup32 : 2 * Z.of_nat (length up) = 2 ^ 32).
    { rewrite Hl. change (2 ^ 32) with (4 * 2 ^ 30). lia. }
    split; [rewrite Hlen; lia |].
    rewrite Hsize, Hdata, Hup32. split; reflexivity.
Qed.

(** ** Ratios of at most 1 *)

Lemma canonical_digits (m : positive) (e : Z) :
  canonical m e -> Zpos m < 2 ^ 53 /\ -1074 <= e <= 971.
Proof.
  intros Hc. apply canonical_spec in Hc. destruct Hc as [Hf He].
  pose proof (Zdigits2_bounds (Zpos m) ltac:(lia)) as [_ Hhi].
  assert (Zdigits2 (Zpos m) <= 53) by lia.
  assert (2 ^ Zdigits2 (Zpos m) <= 2 ^ 53) by (apply Z.pow_le_mono_r; lia).
  lia.
Qed.

(** An integer times a ratio of at most 1 is at most the integer, after
    rounding. *)
Lemma mul_integer_le (n : Z) (mr : positive) (er : Z) :
  0 < n < 2 ^ 53 -> canonical mr er ->
  er < -52 \/ (er = -52 /\ Zpos mr <= 2 ^ 52) ->
  let v := mul (ofZ n) (S754_finite false mr er) in
  v = pzero
  \/ (exists m e, v = S754_finite false m e /\ Zpos m < 2 ^ 53)
     /\ floorZ v <= n.
Proof.
  intros Hn Hc Hle v.
  destruct (integer_form n Hn) as (Hform & HM & HdM & HE & HMn).
  cbv zeta in *. set (M := n * 2 ^ (53 - Zdigits2 n)) in *.
  set (E := Zdigits2 n - 53) in *.
  destruct (canonical_digits mr er Hc) as [Hmr53 Her].
  pose proof (Zdigits2_bounds M HM) as HMb. rewrite HdM in HMb.
  change (2 ^ (53 - 1)) with (2 ^ 52) in HMb.
  assert (Hmr : Zpos mr <= 2 ^ (- er)).
  { destruct Hle as [Hlt | [-> Hm]]; [| exact Hm].
    assert (2 ^ 53 <= 2 ^ (- er)) by (apply Z.pow_le_mono_r; lia). lia. }
  unfold v, mul. rewrite Hform. unfold SFmul. cbn [xorb].
  rewrite Pos2Z.inj_mul, Z2Pos.id by lia.
  set (Pm := M * Zpos mr).
  assert (HPpos : 0 < Pm) by (unfold Pm; nia).
  set (d := Zdigits2 Pm).
  pose proof (Zdigits2_bounds Pm HPpos) as HPb. fold d in HPb.
  pose proof (Zdigits2_pos Pm HPpos) as Hdpos. fold d in Hdpos.
  assert (Hd53 : 53 <= d).
  { apply Zdigits2_ge; [lia |]. change (2 ^ (53 - 1)) with (2 ^ 52).
    unfold Pm. nia. }
  assert (Hdhi : d + er <= 53).
  { assert (Hlt : Pm < 2 ^ (53 - er)).
    { replace (53 - er) with (53 + - er) by lia.
      rewrite Z.pow_add_r by lia.
      assert (0 < 2 ^ (- er)) by (apply Z.pow_pos_nonneg; lia).
      unfold Pm. nia. }
    destruct (Z_le_gt_dec (d + er) 53) as [|Hgt]; [assumption | exfalso].
    assert (2 ^ (53 - er) <= 2 ^ (d - 1)) by (apply Z.pow_le_mono_r; lia).
    lia. }
  destruct (binary_round_aux_regular prec emax ltac:(reflexivity)
              false Pm (E + er) loc_Exact HPpos)
    as (R & HR & HRx & Hq & HRle & _ & Hres).
  { fold d. rewrite fexp64. lia. }
  fold d in HR, HRx, Hq, Hres. rewrite fexp64 in HR, HRx, Hq, Hres.
  set (e1 := Z.max (d + (E + er) - 53) (-1074)) in *.
  set (k := e1 - (E + er)) in *. set (q := Pm / 2 ^ k) in *.
  assert (He1 : e1 <= E) by (unfold e1; lia).
  assert (Hk : 0 <= k) by (unfold k, e1; lia).
  assert (Hpk : 0 < 2 ^ k) by (apply Z.pow_pos_nonneg; lia).
  (* the integer, in units of the result's last place *)
  set (L := n * 2 ^ (- e1)).
  assert (HL : Pm <= L * 2 ^ k).
  { unfold L. rewrite <- Z.mul_assoc, <- Z.pow_add_r by lia.
    replace (- e1 + k) with (- E + - er) by (unfold k; lia).
    rewrite Z.pow_add_r by lia. rewrite Z.mul_assoc, <- HMn.
    unfold Pm. nia. }
  assert (HRL : R <= L).
  { destruct (Z.eq_dec Pm (L * 2 ^ k)) as [Heq|Hne].
    - assert (Hmod : Pm mod 2 ^ k = 0) by (rewrite Heq; apply Z.mod_mul; lia).
      rewrite (HRx eq_refl Hmod). unfold q. rewrite Heq, Z.div_mul by lia. lia.
    - assert (q < L) by (apply Z.div_lt_upper_bound; lia). lia. }
  rewrite Hres. clear Hres.
  destruct (Z.ltb_spec R (2 ^ prec)) as [HRlt|HRge].
  - destruct (Z.eq_dec R 0) as [->|HRnz]; [left; reflexivity |].
    assert (HRpos : 0 < R) by lia.
    destruct R as [|p|p]; try lia. unfold pack.
    change (emax - prec) with 971.
    destruct (Z.leb_spec e1 971); [| lia].
    right. split; [exists p, e1; split; [reflexivity | exact HRlt] |].
    apply (floorZ_le _ p _ (- e1) 0); [lia | lia | lia |].
    rewrite Z.pow_0_r, Z.mul_1_r. exact HRL.
  - assert (HReq : R = 2 ^ 53) by (change (2 ^ prec) with (2 ^ 53) in *; lia).
    assert (He1neg : e1 + 1 <= 0).
    { destruct (Z_le_gt_dec (e1 + 1) 0) as [|Hgt]; [assumption | exfalso].
      assert (e1 = 0) by lia. unfold L in HRL.
      replace (- e1) with 0 in HRL by lia. simpl in HRL. lia. }
    unfold pack. change (2 ^ (prec - 1)) with (Zpos 4503599627370496).
    change (emax - prec) with 971.
    destruct (Z.leb_spec (e1 + 1) 971); [| lia].
    right. split; [eexists _, _; split; reflexivity |].
    apply (floorZ_le _ 4503599627370496 _ (- (e1 + 1)) 0); [lia | lia | lia |].
    rewrite Z.pow_0_r, Z.mul_1_r.
    change (Zpos 4503599627370496) with (2 ^ 52).
    unfold L in HRL. rewrite HReq in HRL.
    replace (- e1) with (- (e1 + 1) + 1) in HRL by lia.
    rewrite Z.pow_add_r in HRL by lia.
    change (2 ^ 53) with (2 ^ 52 * 2) in HRL. change (2 ^ 1) with 2 in HRL.
    lia.
Qed.

(** A normal number divided by one that is at least as large is at most 1. *)
Lemma div_le_one (mx my : positive) (ex ey : Z) :
  Zdigits2 (Zpos mx) = 53 -> Zdigits2 (Zpos my) = 53 ->
  -1021 <= ex - ey ->
  ex < ey \/ (ex = ey /\ Zpos mx <= Zpos my) ->
  exists mq eq,
    div (S754_finite false mx ex) (S754_finite false my ey)
    = S754_finite false mq eq
    /\ canonical mq eq
    /\ (eq < -52 \/ (eq = -52 /\ Zpos mq <= 2 ^ 52)).
Proof.
  intros Hdx Hdy Hrange Hle.
  pose proof (Zdigits2_bounds (Zpos mx) ltac:(lia)) as Hbx. rewrite Hdx in Hbx.
  pose proof (Zdigits2_bounds (Zpos my) ltac:(lia)) as Hby. rewrite Hdy in Hby.
  change (2 ^ (53 - 1)) with (2 ^ 52) in Hbx, Hby.
  assert (H53 : 2 ^ 53 = 2 * 2 ^ 52) by reflexivity.
  assert (H54 : 2 ^ 54 = 2 * 2 ^ 53) by reflexivity.
  set (dl := ex - ey) in *.
  assert (Hdl : dl <= 0) by (unfold dl; lia).
  assert (Hxy : Zpos mx <= Zpos my * 2 ^ (- dl)).
  { destruct Hle as [Hlt | [Heq Hm]].
    - assert (2 ^ 1 <= 2 ^ (- dl)) by (apply Z.pow_le_mono_r; unfold dl; lia).
      change (2 ^ 1) with 2 in *. nia.
    - replace (- dl) with 0 by (unfold dl; lia). simpl. lia. }
  unfold div, SFdiv. cbn [xorb]. rewrite SFdiv_core_binary_spec.
  rewrite Hdx, Hdy. rewrite fexp64.
  replace (53 + ex - (53 + ey)) with dl by (unfold dl; lia).
  replace (ex - ey) with dl by reflexivity.
  replace (Z.min (Z.max (dl - 53) (-1074)) dl) with (dl - 53) by lia.
  replace (dl - (dl - 53)) with 53 by lia.
  set (q := Zpos mx * 2 ^ 53 / Zpos my).
  set (rem := (Zpos mx * 2 ^ 53) mod Zpos my).
  assert (Hdiv : Zpos mx * 2 ^ 53 = Zpos my * q + rem)
    by (apply Z.div_mod; lia).
  assert (Hrem : 0 <= rem < Zpos my) by (apply Z.mod_pos_bound; lia).
  assert (Hq52 : 2 ^ 52 <= q) by (apply Z.div_le_lower_bound; nia).
  assert (Hq54 : q < 2 ^ 54) by (apply Z.div_lt_upper_bound; nia).
  assert (Hqtop : q <= 2 ^ (53 - dl)).
  { apply Z.div_le_upper_bound; [lia |].
    replace (53 - dl) with (- dl + 53) by lia. rewrite Z.pow_add_r by lia.
    assert (0 < 2 ^ 53) by lia. nia. }
  set (dq := Zdigits2 q).
  assert (Hdq : 53 <= dq <= 54).
  { split.
    - apply Zdigits2_ge; [lia |]. change (2 ^ (53 - 1)) with (2 ^ 52). lia.
    - apply Zdigits2_lt_pow; lia. }
  pose proof (Zdigits2_bounds q ltac:(lia)) as Hqb. fold dq in Hqb.
  destruct (binary_round_aux_regular prec emax ltac:(reflexivity)
              false q (dl - 53) (new_location (Zpos my) rem) ltac:(lia))
    as (R & HR & HRx & Hq & HRle & Hcanon & Hres).
  { fold dq. rewrite fexp64. lia. }
  fold dq in HR, HRx, Hq, Hcanon, Hres.
  assert (Hfe : fexp prec emax (dq + (dl - 53)) = dq + dl - 106)
    by (rewrite fexp64; lia).
  rewrite !Hfe in HR, HRx, Hq, Hcanon, Hres.
  replace (dq + dl - 106 - (dl - 53)) with (dq - 53) in HR, HRx, Hq by lia.
  set (k := dq - 53) in *. set (e1 := dq + dl - 106) in *.
  assert (Hpk : 0 < 2 ^ k) by (apply Z.pow_pos_nonneg; lia).
  assert (Hq' : 2 ^ 52 <= q / 2 ^ k).
  { apply div_pow2_ge; [lia | lia |].
    replace (k + 52) with (dq - 1) by lia. lia. }
  set (L := 2 ^ (- e1)).
  assert (HLk : 2 ^ (53 - dl) = L * 2 ^ k).
  { unfold L. rewrite <- Z.pow_add_r by lia. f_equal. unfold e1, k. lia. }
  assert (HRL : R <= L).
  { destruct (Z.eq_dec q (2 ^ (53 - dl))) as [Heq|Hne].
    - assert (Hrem0 : rem = 0).
      { assert (Zpos my * 2 ^ (- dl) * 2 ^ 53 = Zpos my * q).
        { rewrite Heq. replace (53 - dl) with (- dl + 53) by lia.
          rewrite Z.pow_add_r by lia. lia. }
        assert (0 < 2 ^ 53) by lia. nia. }
      assert (Hmod : q mod 2 ^ k = 0)
        by (rewrite Heq, HLk; apply Z.mod_mul; lia).
      rewrite Hrem0, new_location_zero in HRx.
      rewrite (HRx eq_refl Hmod). rewrite Heq, HLk, Z.div_mul by lia. lia.
    - assert (q / 2 ^ k < L) by (apply Z.div_lt_upper_bound; lia). lia. }
  assert (He1 : e1 <= -52).
  { destruct (Z_le_gt_dec e1 (-52)) as [|Hgt]; [assumption | exfalso].
    assert (2 ^ (- e1) <= 2 ^ 51).
    { destruct (Z_le_gt_dec 0 (- e1)).
      - apply Z.pow_le_mono_r; lia.
      - rewrite Z.pow_neg_r by lia. lia. }
    unfold L in HRL. change (2 ^ 52) with (2 * 2 ^ 51) in *. lia. }
  rewrite Hres. clear Hres.
  destruct (Z.ltb_spec R (2 ^ prec)) as [HRlt|HRge].
  - assert (HRpos : 0 < R) by lia.
    destruct R as [|p|p]; try lia. unfold pack.
    change (emax - prec) with 971.
    destruct (Z.leb_spec e1 971); [| lia].
    exists p, e1. split; [reflexivity |]. split.
    + apply canonical_spec. specialize (Hcanon ltac:(lia)).
      rewrite fexp64 in Hcanon. lia.
    + destruct (Z.eq_dec e1 (-52)) as [Heq|Hne]; [| left; lia].
      right. split; [exact Heq |]. unfold L in HRL. rewrite Heq in HRL.
      exact HRL.
  - assert (HReq : R = 2 ^ 53) by (change (2 ^ prec) with (2 ^ 53) in *; lia).
    assert (He1' : e1 <= -53).
    { destruct (Z_le_gt_dec e1 (-53)) as [|Hgt]; [assumption | exfalso].
      assert (e1 = -52) by lia. unfold L in HRL.
      replace (- e1) with 52 in HRL by lia. lia. }
    unfold pack. change (2 ^ (prec - 1)) with (Zpos 4503599627370496).
    change (emax - prec) with 971.
    destruct (Z.leb_spec (e1 + 1) 971); [| lia].
    exists 4503599627370496%positive, (e1 + 1). split; [reflexivity |]. split.
    + apply canonical_spec. change (Zdigits2 (Zpos 4503599627370496)) with 53.
      unfold e1 in *. lia.
    + destruct (Z.eq_dec (e1 + 1) (-52)) as [Heq|Hne]; [| left; lia].
      right. split; [exact Heq |]. change (Zpos 4503599627370496) with (2 ^ 52).
      lia.
Qed.

Lemma compare_positive (a : positive) (c : Z) (mr : positive) (er : Z) :
  SFcompare (S754_finite false a c) (S754_finite false mr er)
  = Some match c ?= er with
         | Lt => Lt
         | Gt => Gt
         | Eq => (a ?= mr)%positive
         end.
Proof. reflexivity. Qed.

Lemma upsampled_not_longer (audioData : Float32Array) (sampleRate : number) :
  audioData <> [] -> Z.of_nat (length audioData) < 2 ^ 53 ->
  valid_binary prec emax sampleRate = true -> le c48000 sampleRate = true ->
  exists up, upsampled audioData sampleRate c48000 = Returned up
             /\ (length up <= length audioData)%nat.
Proof.
  intros Hne Hlen Hvalid Hle.
  pose proof (length_nonempty audioData Hne) as Hpos.
  assert (Hnz : (length audioData =? 0)%nat = false)
    by (apply Nat.eqb_neq; lia).
  unfold upsampled, upsample_length, upsample_ratio. rewrite Hnz.
  destruct (integer_form (Z.of_nat (length audioData)) ltac:(lia))
    as (Hform & _).
  destruct sampleRate as [s|[|]| |[|] my ey]; try discriminate.
  - (* an infinite rate: ratio 0, no sample *)
    unfold length_number. rewrite Hform. cbn. exists []. split; [reflexivity |].
    cbn. lia.
  - unfold le, SFleb, c48000 in Hle. rewrite compare_positive in Hle.
    assert (Hc : canonical my ey) by exact Hvalid.
    assert (Hey : -37 < ey \/ (ey = -37 /\ Zpos 6597069766656000 <= Zpos my)).
    { destruct (Z.compare_spec (-37) ey) as [He|He|He]; try discriminate.
      - right. split; [lia |].
        destruct (Pos.compare_spec 6597069766656000 my); try discriminate; lia.
      - left. lia. }
    destruct (canonical_normal my ey Hc ltac:(lia)) as [Hdy _].
    destruct (canonical_digits my ey Hc) as [_ Hrange].
    destruct (div_le_one 6597069766656000 my (-37) ey eq_refl Hdy
                ltac:(lia) ltac:(lia))
      as (mq & eq & Hdiv & Hcq & Hq1).
    unfold c48000. rewrite Hdiv. unfold length_number.
    destruct (mul_integer_le (Z.of_nat (length audioData)) mq eq
                ltac:(lia) Hcq Hq1) as [Hv | [(m & e & Hv & Hm) Hfl]];
      cbv zeta in *.
    + rewrite Hv. exists []. split; [reflexivity |]. cbn. lia.
    + rewrite Hv in *.
      destruct (new_Float32Array_floor_cases m e Hm) as [Hsmall _].
      cbv zeta in Hsmall. rewrite (Hsmall ltac:(lia)).
      eexists. split; [reflexivity |].
      rewrite length_map, length_seq, length_replicate. lia.
Qed.

Lemma processed_as_upsampled (P : Platform) (audioData : Float32Array)
    (sampleRate : number) :
  audioData <> [] ->
  exists normalizedAudio,
    normalizedAudio <> []
    /\ length normalizedAudio = length audioData
    /\ processed P audioData sampleRate
       = upsampled normalizedAudio sampleRate c48000.
Proof.
  intros Hne.
  destruct (normalized_returns P audioData c0_15 Hne) as (na & Hna & Hl).
  exists na. split; [| split; [exact Hl |]].
  - intros ->. destruct audioData; [contradiction | discriminate].
  - unfold processed. rewrite Hna. reflexivity.
Qed.

(** C10, as the code has it.  Whatever rate comes in, a container that is
    produced declares 48000 Hz and 96000 bytes per second; its sample count
    is the floor of the double inputLength * (48000 / sampleRate) rounds to;
    and a rate of 48000 Hz or more, infinite included, gives a container of
    no more samples than the input rather than an error. *)
Theorem container_rate_is_fixed (P : Platform) (w : World)
    (audioData : Float32Array) (sampleRate : number) :
  quiet P -> audioData <> [] -> Z.of_nat (length audioData) < 2 ^ 53 ->
  accepted_rate sampleRate = true ->
  (forall up,
     processed P audioData sampleRate = Returned up ->
     exists blob,
       result (createAudioBlob P audioData sampleRate) w = Returned blob
       /\ getUint32 (blob_bytes blob) 24 = Returned 48000
       /\ getUint32 (blob_bytes blob) 28 = Returned 96000
       /\ length (blob_bytes blob) = (44 + 2 * length up)%nat)
  /\ (let product := mul (length_number audioData) (div c48000 sampleRate) in
      is_finite product = true -> 0 <= floorZ product < 2 ^ 53 ->
      exists up, processed P audioData sampleRate = Returned up
                 /\ Z.of_nat (length up) = floorZ product)
  /\ (valid_binary prec emax sampleRate = true ->
      le c48000 sampleRate = true ->
      exists up, processed P audioData sampleRate = Returned up
                 /\ (length up <= length audioData)%nat).
Proof.
  intros Hq Hne Hlen Hrate.
  destruct (processed_as_upsampled P audioData sampleRate Hne)
    as (na & Hna & Hl & Hproc).
  split; [| split].
  - intros up Hup.
    pose proof (createAudioBlob_result P audioData sampleRate Hq Hne Hrate w)
      as Hres. cbv beta in Hres. rewrite Hup in Hres.
    destruct Hres as (bytes & Hblob & Hbl & Htake).
    exists {| blob_bytes := bytes; blob_type := "audio/wav" |}.
    split; [exact Hblob |]. cbn [blob_bytes].
    destruct (container_fields (length up) bytes Htake ltac:(lia))
      as (_ & _ & _ & _ & _ & _ & _ & Hrate48 & Hbyte & _).
    repeat split; assumption.
  - intros product Hfin Hfl. rewrite Hproc.
    assert (Hsame : length_number na = length_number audioData)
      by (unfold length_number; rewrite Hl; reflexivity).
    destruct (upsampled_length na sampleRate c48000 Hna) as (up & Hup & Hlup);
      rewrite ?Hsame; try assumption.
    exists up. split; [exact Hup |]. rewrite Hlup, Hsame. fold product. lia.
  - intros Hvalid Hle. rewrite Hproc, <- Hl.
    apply upsampled_not_longer; try assumption. rewrite Hl. exact Hlen.
Qed.

Lemma container_rate_is_fixed_witness :
  (forall up,
     processed quiet_host click (ofZ 96000) = Returned up ->
     exists blob,
       result (createAudioBlob quiet_host click (ofZ 96000))
         (fresh_world development_config) = Returned blob
       /\ getUint32 (blob_bytes blob) 24 = Returned 48000
       /\ getUint32 (blob_bytes blob) 28 = Returned 96000
       /\ length (blob_bytes blob) = (44 + 2 * length up)%nat)
  /\ (let product := mul (length_number click) (div c48000 (ofZ 96000)) in
      is_finite product = true -> 0 <= floorZ product < 2 ^ 53 ->
      exists up, processed quiet_host click (ofZ 96000) = Returned up
                 /\ Z.of_nat (length up) = floorZ product)
  /\ (valid_binary prec emax (ofZ 96000) = true ->
      le c48000 (ofZ 96000) = true ->
      exists up, processed quiet_host click (ofZ 96000) = Returned up
                 /\ (length up <= length click)%nat).
Proof.
  apply (container_rate_is_fixed quiet_host (fresh_world development_config)
           click (ofZ 96000)).
  - intros l message d. reflexivity.
  - discriminate.
  - vm_compute. reflexivity.
  - vm_compute. reflexivity.
Defined.

(** C10 fails as stated: 11 samples at 275 Hz are encoded as 1919 samples,
    one fewer than floor(11 * 48000 / 275) = 1920. *)
Lemma encoded_count_is_not_the_exact_floor :
  exists up blob,
    processed quiet_host (replicate 11 c0_5) (ofZ 275) = Returned up
    /\ length up = 1919%nat
    /\ 11 * 48000 / 275 = 1920
    /\ result (createAudioBlob quiet_host (replicate 11 c0_5) (ofZ 275))
         (fresh_world production_config) = Returned blob
    /\ length (blob_bytes blob) = (44 + 2 * 1919)%nat.
Proof.
  eexists. eexists.
  split; [vm_compute; reflexivity |].
  split; [reflexivity |]. split; [reflexivity |].
  split; [vm_compute; reflexivity | reflexivity].
Qed.

(** ** Magnitudes *)

Lemma bounded_by_weaken (B B' : Z) (x : number) :
  bounded_by B x -> B <= B' -> bounded_by B' x.
Proof. destruct x; simpl; try tauto. intros [Hc Hb] HB. split; [exact Hc | lia]. Qed.

Lemma bounded_by_finite (B : Z) (x : number) :
  bounded_by B x -> is_finite x = true.
Proof. destruct x; simpl; tauto || reflexivity. Qed.

(** Rounding a mantissa with enough digits keeps the magnitude within one
    binade. *)
Lemma binary_round_aux_bounded (B : Z) (s : bool) (mx ex : Z) (lx : location) :
  0 < mx -> ex <= fexp prec emax (Zdigits2 mx + ex) ->
  Zdigits2 mx + ex <= B -> -1074 <= B <= 1023 ->
  bounded_by (B + 1) (binary_round_aux prec emax s mx ex lx).
Proof.
  intros Hmx Hreg HB HBr.
  destruct (binary_round_aux_regular prec emax ltac:(reflexivity)
              s mx ex lx Hmx Hreg)
    as (R & HR & _ & Hq & HRle & Hcanon & Hres).
  rewrite Hres. clear Hres.
  set (d := Zdigits2 mx) in *.
  assert (Hfe : fexp prec emax (d + ex) = Z.max (d + ex - 53) (-1074))
    by apply fexp64.
  rewrite !Hfe in *. set (e1 := Z.max (d + ex - 53) (-1074)) in *.
  set (k := e1 - ex) in *. set (q := mx / 2 ^ k) in *.
  pose proof (Zdigits2_bounds mx Hmx) as [Hlo Hhi]. fold d in Hlo, Hhi.
  pose proof (Zdigits2_pos mx Hmx) as Hd. fold d in Hd.
  assert (Hk : 0 <= k) by (unfold k; lia).
  destruct (Z.ltb_spec R (2 ^ prec)) as [HRlt|HRge].
  - destruct (Z.eq_dec R 0) as [->|HRnz]; [exact I |].
    assert (HRpos : 0 < R) by lia.
    destruct R as [|p|p]; try lia. unfold pack.
    change (emax - prec) with 971.
    destruct (Z.leb_spec e1 971); [| unfold e1 in *; lia].
    cbn [bounded_by]. split.
    + apply canonical_spec. specialize (Hcanon ltac:(lia)).
      rewrite fexp64 in Hcanon. lia.
    + (* digits of the rounded mantissa *)
      destruct (Z_le_gt_dec k d) as [Hkd|Hkd].
      * assert (q < 2 ^ (d - k)).
        { apply div_pow2_lt; [lia | lia |]. split; [lia |].
          replace (k + (d - k)) with d by lia. exact Hhi. }
        assert (Zpos p < 2 ^ (d - k + 1)).
        { rewrite Z.pow_add_r by lia. change (2 ^ 1) with 2.
          assert (0 < 2 ^ (d - k)) by (apply Z.pow_pos_nonneg; lia). lia. }
        assert (Zdigits2 (Zpos p) <= d - k + 1)
          by (apply Zdigits2_lt_pow; lia).
        unfold k in *. lia.
      * assert (q = 0).
        { apply Z.div_small. split; [lia |].
          eapply Z.lt_le_trans; [exact Hhi |].
          apply Z.pow_le_mono_r; lia. }
        assert (Zpos p = 1) by lia.
        replace (Zpos p) with 1 by lia. change (Zdigits2 1) with 1.
        unfold k, e1 in *. lia.
  - unfold pack. change (2 ^ (prec - 1)) with (Zpos 4503599627370496).
    change (emax - prec) with 971.
    assert (HReq : R = 2 ^ 53) by (change (2 ^ prec) with (2 ^ 53) in *; lia).
    assert (Hq53 : 2 ^ 53 - 1 <= q) by lia.
    (* a carry needs a full mantissa: the result is normal *)
    assert (Hnorm : e1 = d + ex - 53).
    { destruct (Z.eq_dec e1 (d + ex - 53)) as [|Hne]; [assumption | exfalso].
      assert (He1 : e1 = -1074 /\ d + ex - 53 < -1074) by (unfold e1 in *; lia).
      assert (Hdk : d - k < 53) by (unfold k; lia).
      destruct (Z_le_gt_dec 0 (d - k)) as [Hnn|Hneg].
      - assert (q < 2 ^ (d - k)).
        { apply div_pow2_lt; [lia | lia |]. split; [lia |].
          replace (k + (d - k)) with d by lia. exact Hhi. }
        assert (2 ^ (d - k) <= 2 ^ 52) by (apply Z.pow_le_mono_r; lia).
        change (2 ^ 53) with (2 * 2 ^ 52) in Hq53. lia.
      - assert (q = 0).
        { apply Z.div_small. split; [lia |].
          eapply Z.lt_le_trans; [exact Hhi |].
          apply Z.pow_le_mono_r; lia. }
        lia. }
    destruct (Z.leb_spec (e1 + 1) 971); [| lia].
    cbn [bounded_by]. split.
    + apply canonical_spec. change (Zdigits2 (Zpos 4503599627370496)) with 53.
      lia.
    + change (Zdigits2 (Zpos 4503599627370496)) with 53. lia.
Qed.

(** [shl_align] keeps the value and the magnitude. *)
Lemma shl_align_spec (m : positive) (e e' : Z) :
  let '(m', e'') := shl_align m e e' in
  (e' < e -> Zpos m' = Zpos m * 2 ^ (e - e') /\ e'' = e')
  /\ (e <= e' -> m' = m /\ e'' = e).
Proof.
  unfold shl_align.
  destruct (e' - e) as [|p|p] eqn:Hd.
  - split; [lia | intros; split; reflexivity].
  - split; [lia | intros; split; reflexivity].
  - split; [| lia]. intros _. split; [| reflexivity].
    unfold shift_pos. rewrite pos_iter_xO.
    replace (e - e') with (Zpos p) by lia. reflexivity.
Qed.

Lemma binary_round_bounded (B : Z) (s : bool) (m : positive) (e : Z) :
  Zdigits2 (Zpos m) + e <= B -> -1074 <= B <= 1023 ->
  bounded_by (B + 1) (binary_round prec emax s m e).
Proof.
  intros HB HBr. unfold binary_round.
  pose proof (shl_align_spec m e (fexp prec emax (Zpos (digits2_pos m) + e)))
    as Hs.
  destruct (shl_align m e (fexp prec emax (Zpos (digits2_pos m) + e)))
    as [mz ez].
  destruct Hs as [Hlt Hge].
  change (Zpos (digits2_pos m)) with (Zdigits2 (Zpos m)) in *.
  destruct (Z_lt_le_dec (fexp prec emax (Zdigits2 (Zpos m) + e)) e) as [Hc|Hc].
  - destruct (Hlt Hc) as [Hm He]. subst ez.
    assert (Hdig : Zdigits2 (Zpos mz)
                   = Zdigits2 (Zpos m)
                     + (e - fexp prec emax (Zdigits2 (Zpos m) + e))).
    { rewrite Hm. apply Zdigits2_mul_pow2; lia. }
    apply binary_round_aux_bounded; try lia.
    + rewrite Hdig.
      replace (Zdigits2 (Zpos m)
               + (e - fexp prec emax (Zdigits2 (Zpos m) + e))
               + fexp prec emax (Zdigits2 (Zpos m) + e))
        with (Zdigits2 (Zpos m) + e) by lia.
      lia.
  - destruct (Hge Hc) as [-> ->].
    apply binary_round_aux_bounded; lia.
Qed.

Lemma Zdigits2_mul_le (a b : Z) :
  0 < a -> 0 < b -> Zdigits2 (a * b) <= Zdigits2 a + Zdigits2 b.
Proof.
  intros Ha Hb.
  pose proof (Zdigits2_bounds a Ha) as [_ Hah].
  pose proof (Zdigits2_bounds b Hb) as [_ Hbh].
  pose proof (Zdigits2_pos a Ha). pose proof (Zdigits2_pos b Hb).
  apply Zdigits2_lt_pow; [lia |]. split; [nia |].
  rewrite Z.pow_add_r by lia. nia.
Qed.

Lemma Zdigits2_mono (a b : Z) : 0 < a <= b -> Zdigits2 a <= Zdigits2 b.
Proof.
  intros [Ha Hab].
  pose proof (Zdigits2_bounds b ltac:(lia)) as [_ Hbh].
  pose proof (Zdigits2_pos b ltac:(lia)).
  apply Zdigits2_lt_pow; lia.
Qed.

(** The product of two bounded numbers is bounded. *)
Lemma mul_bounded (B1 B2 : Z) (x y : number) :
  bounded_by B1 x -> bounded_by B2 y -> -1074 <= B1 + B2 <= 1023 ->
  bounded_by (B1 + B2 + 1) (mul x y).
Proof.
  intros Hx Hy HB.
  destruct x as [sx|sx| |sx mx ex], y as [sy|sy| |sy my ey];
    try contradiction; try exact I.
  destruct Hx as [Hcx Hbx], Hy as [Hcy Hby].
  unfold mul, SFmul. rewrite Pos2Z.inj_mul.
  pose proof (Zdigits2_mul_le (Zpos mx) (Zpos my) ltac:(lia) ltac:(lia)) as Hd.
  apply binary_round_aux_bounded; try lia.
  rewrite fexp64.
  destruct (Z_le_gt_dec (ex + ey) (-1074)) as [|Hbig]; [lia |].
  pose proof (canonical_digits mx ex Hcx) as [_ Hex].
  pose proof (canonical_digits my ey Hcy) as [_ Hey].
  assert (Hd53 : 53 <= Zdigits2 (Zpos mx * Zpos my)).
  { destruct (Z_le_gt_dec ex (-1074)) as [Hsx|Hnx].
    - destruct (canonical_normal my ey Hcy ltac:(lia)) as [Hdy _].
      rewrite <- Hdy. apply Zdigits2_mono. nia.
    - destruct (canonical_normal mx ex Hcx ltac:(lia)) as [Hdx _].
      rewrite <- Hdx. apply Zdigits2_mono. nia. }
  lia.
Qed.

(** Normalising an integer sum of two aligned bounded mantissas. *)
Lemma binary_normalize_bounded (B z ez : Z) :
  Z.abs z < 2 ^ (B - ez) -> 0 <= B - ez -> -1074 <= B <= 1023 ->
  bounded_by (B + 1) (binary_normalize prec emax z ez false).
Proof.
  intros Hz Hnn HB.
  assert (Hdig : forall p : positive,
             Zpos p < 2 ^ (B - ez) -> Zdigits2 (Zpos p) + ez <= B).
  { intros p Hp.
    assert (Zdigits2 (Zpos p) <= B - ez) by (apply Zdigits2_lt_pow; lia).
    lia. }
  destruct z as [|p|p]; unfold binary_normalize.
  - exact I.
  - apply binary_round_bounded; [apply Hdig; lia | lia].
  - apply binary_round_bounded; [apply Hdig; lia | lia].
Qed.

Lemma aligned_lt (B : Z) (m : positive) (e ez : Z) :
  Zdigits2 (Zpos m) + e <= B -> ez <= e ->
  Zpos (fst (shl_align m e ez)) < 2 ^ (B - ez).
Proof.
  intros Hb Hle.
  pose proof (shl_align_spec m e ez) as Hs.
  destruct (shl_align m e ez) as [m' e']. destruct Hs as [Hlt Hge].
  cbn [fst].
  pose proof (Zdigits2_bounds (Zpos m) ltac:(lia)) as [_ Hhi].
  pose proof (Zdigits2_pos (Zpos m) ltac:(lia)) as Hd.
  destruct (Z_lt_le_dec ez e) as [Hc|Hc].
  - destruct (Hlt Hc) as [-> _].
    assert (2 ^ Zdigits2 (Zpos m) * 2 ^ (e - ez) <= 2 ^ (B - ez)).
    { rewrite <- Z.pow_add_r by lia. apply Z.pow_le_mono_r; lia. }
    assert (0 < 2 ^ (e - ez)) by (apply Z.pow_pos_nonneg; lia).
    nia.
  - destruct (Hge Hc) as [-> _].
    eapply Z.lt_le_trans; [exact Hhi |]. apply Z.pow_le_mono_r; lia.
Qed.

Lemma add_bounded (B : Z) (x y : number) :
  bounded_by B x -> bounded_by B y -> -1074 <= B + 1 <= 1023 ->
  bounded_by (B + 2) (add x y).
Proof.
  intros Hx Hy HB.
  destruct x as [sx|sx| |sx mx ex], y as [sy|sy| |sy my ey];
    try contradiction.
  - destruct sx, sy; exact I.
  - eapply bounded_by_weaken; [exact Hy | lia].
  - eapply bounded_by_weaken; [exact Hx | lia].
  - destruct Hx as [Hcx Hbx], Hy as [Hcy Hby].
    unfold add, SFadd.
    pose proof (aligned_lt B mx ex (Z.min ex ey) Hbx ltac:(lia)) as H1.
    pose proof (aligned_lt B my ey (Z.min ex ey) Hby ltac:(lia)) as H2.
    pose proof (Zdigits2_pos (Zpos mx) ltac:(lia)).
    replace (B + 2) with (B + 1 + 1) by lia.
    apply binary_normalize_bounded; try lia.
    replace (B + 1 - Z.min ex ey) with (B - Z.min ex ey + 1) by lia.
    rewrite Z.pow_add_r by lia. change (2 ^ 1) with 2.
    set (pw := 2 ^ (B - Z.min ex ey)) in *.
    set (a := Zpos (fst (shl_align mx ex (Z.min ex ey)))) in *.
    set (b := Zpos (fst (shl_align my ey (Z.min ex ey)))) in *.
    assert (0 < a /\ 0 < b) by (unfold a, b; lia).
    clearbody pw a b.
    destruct sx, sy; cbn [cond_Zopp]; lia.
Qed.

Lemma sub_bounded (B : Z) (x y : number) :
  bounded_by B x -> bounded_by B y -> -1074 <= B + 1 <= 1023 ->
  bounded_by (B + 2) (sub x y).
Proof.
  intros Hx Hy HB.
  destruct x as [sx|sx| |sx mx ex], y as [sy|sy| |sy my ey];
    try contradiction.
  - destruct sx, sy; exact I.
  - unfold sub, SFsub. cbn [bounded_by] in *.
    destruct Hy as [Hcy Hby]. split; [exact Hcy | lia].
  - eapply bounded_by_weaken; [exact Hx | lia].
  - destruct Hx as [Hcx Hbx], Hy as [Hcy Hby].
    unfold sub, SFsub.
    pose proof (aligned_lt B mx ex (Z.min ex ey) Hbx ltac:(lia)) as H1.
    pose proof (aligned_lt B my ey (Z.min ex ey) Hby ltac:(lia)) as H2.
    pose proof (Zdigits2_pos (Zpos mx) ltac:(lia)).
    replace (B + 2) with (B + 1 + 1) by lia.
    apply binary_normalize_bounded; try lia.
    replace (B + 1 - Z.min ex ey) with (B - Z.min ex ey + 1) by lia.
    rewrite Z.pow_add_r by lia. change (2 ^ 1) with 2.
    set (pw := 2 ^ (B - Z.min ex ey)) in *.
    set (a := Zpos (fst (shl_align mx ex (Z.min ex ey)))) in *.
    set (b := Zpos (fst (shl_align my ey (Z.min ex ey)))) in *.
    assert (0 < a /\ 0 < b) by (unfold a, b; lia).
    clearbody pw a b.
    destruct sx, sy; cbn [cond_Zopp]; lia.
Qed.

Lemma neg_bounded (B : Z) (x : number) : bounded_by B x -> bounded_by B (neg x).
Proof. destruct x; simpl; tauto. Qed.

(** ** Float32 stores *)

Lemma fexp32 (e : Z) : fexp 24 128 e = Z.max (e - 24) (-149).
Proof. reflexivity. Qed.

(** Rounding to binary32: a mantissa below 2^24 at an exponent of at least
    -149, and a value of at most 1 stays at most 1. *)
Lemma binary_round32_spec (s : bool) (m : positive) (e : Z) :
  exists R e1,
    binary_round 24 128 s m e = pack 24 128 s R e1
    /\ 0 <= R < 2 ^ 24 /\ -149 <= e1
    /\ (e <= 0 -> Zpos m <= 2 ^ (- e) -> e1 <= 0 /\ R <= 2 ^ (- e1)).
Proof.
  unfold binary_round.
  pose proof (shl_align_spec m e (fexp 24 128 (Zpos (digits2_pos m) + e)))
    as Hs.
  destruct (shl_align m e (fexp 24 128 (Zpos (digits2_pos m) + e)))
    as [mz ez].
  destruct Hs as [Hlt Hge].
  change (Zpos (digits2_pos m)) with (Zdigits2 (Zpos m)) in *.
  set (d := Zdigits2 (Zpos m)) in *.
  pose proof (Zdigits2_bounds (Zpos m) ltac:(lia)) as [Hdlo Hdhi].
  pose proof (Zdigits2_pos (Zpos m) ltac:(lia)) as Hdpos.
  fold d in Hdlo, Hdhi, Hdpos.
  assert (Hfe : fexp 24 128 (d + e) = Z.max (d + e - 24) (-149))
    by apply fexp32.
  rewrite Hfe in *. set (e1 := Z.max (d + e - 24) (-149)) in *.
  destruct (Z_lt_le_dec e1 e) as [Hc|Hc].
  - (* enough room: the shifted mantissa is stored exactly *)
    destruct (Hlt Hc) as [Hm He]. subst ez.
    assert (Hdz : Zdigits2 (Zpos mz) = d + (e - e1))
      by (rewrite Hm; apply Zdigits2_mul_pow2; lia).
    assert (Hfz : fexp 24 128 (Zdigits2 (Zpos mz) + e1) = e1).
    { rewrite Hdz, fexp32. unfold e1. lia. }
    destruct (binary_round_aux_regular 24 128 ltac:(reflexivity)
                s (Zpos mz) e1 loc_Exact ltac:(lia) ltac:(lia))
      as (R & _ & HRx & Hq & _ & _ & Hres).
    rewrite Hfz in HRx, Hq, Hres.
    rewrite Z.sub_diag, Z.div_1_r in HRx, Hq.
    rewrite (HRx eq_refl (Z.mod_1_r _)) in Hres.
    destruct (Z.ltb_spec (Zpos mz) (2 ^ 24)) as [_|]; [| lia].
    exists (Zpos mz), e1. repeat split; try lia; try exact Hres.
    rewrite Hm. replace (- e1) with (- e + (e - e1)) by lia.
    rewrite Z.pow_add_r by lia.
    assert (0 < 2 ^ (e - e1)) by (apply Z.pow_pos_nonneg; lia). nia.
  - (* the mantissa is cut at exponent e1 *)
    destruct (Hge Hc) as [-> ->]. fold d in Hfe.
    destruct (binary_round_aux_regular 24 128 ltac:(reflexivity)
                s (Zpos m) e loc_Exact ltac:(lia))
      as (R & HR & HRx & Hq & HRle & _ & Hres).
    { fold d. rewrite Hfe. exact Hc. }
    fold d in HR, HRx, Hq, Hres. rewrite Hfe in HR, HRx, Hq, Hres.
    fold e1 in HR, HRx, Hq, Hres.
    set (k := e1 - e) in *. set (q := Zpos m / 2 ^ k) in *.
    assert (Hk : 0 <= k) by (unfold k; lia).
    assert (Hpk : 0 < 2 ^ k) by (apply Z.pow_pos_nonneg; lia).
    assert (Hle1 : e <= 0 -> Zpos m <= 2 ^ (- e) ->
                   e1 <= -23 /\ R <= 2 ^ (- e1)).
    { intros He0 Hm1.
      assert (Hd1 : d <= - e + 1).
      { apply Zdigits2_lt_pow; [lia |]. split; [lia |].
        rewrite Z.pow_add_r by lia. change (2 ^ 1) with 2.
        assert (0 < 2 ^ (- e)) by (apply Z.pow_pos_nonneg; lia). lia. }
      assert (He1 : e1 <= -23) by (unfold e1; lia).
      split; [exact He1 |].
      assert (Hsplit : 2 ^ (- e) = 2 ^ (- e1) * 2 ^ k).
      { rewrite <- Z.pow_add_r by lia. f_equal. unfold k. lia. }
      assert (Hqle : q <= 2 ^ (- e1)).
      { apply Z.div_le_upper_bound; [lia |]. rewrite Z.mul_comm. lia. }
      destruct (Z.eq_dec q (2 ^ (- e1))) as [Heq|Hne].
      - assert (Hmq : 2 ^ k * q <= Zpos m)
          by (apply Z.mul_div_le; lia).
        assert (Hmeq : Zpos m = 2 ^ (- e1) * 2 ^ k) by nia.
        assert (Hmod : Zpos m mod 2 ^ k = 0)
          by (rewrite Hmeq; apply Z.mod_mul; lia).
        rewrite (HRx eq_refl Hmod). lia.
      - lia. }
    change (2 ^ 24) with 16777216 in *.
    destruct (Z.ltb_spec R 16777216) as [HRlt|HRge].
    + exists R, e1. split; [exact Hres |]. split; [lia |].
      split; [unfold e1; lia |].
      intros He0 Hm1. destruct (Hle1 He0 Hm1). lia.
    + exists (2 ^ (24 - 1)), (e1 + 1). split; [exact Hres |].
      change (2 ^ (24 - 1)) with 8388608.
      split; [lia |]. split; [unfold e1; lia |].
      intros He0 Hm1. destruct (Hle1 He0 Hm1) as [He1 HRb].
      split; [lia |].
      assert (HR24 : R = 16777216) by lia.
      rewrite HR24 in HRb.
      replace (- e1) with (- (e1 + 1) + 1) in HRb by lia.
      rewrite Z.pow_add_r in HRb by lia.
      change (2 ^ 1) with 2 in HRb. lia.
Qed.

(** Reading a binary32 back as a binary64 is exact. *)
Lemma widen_pack32 (s : bool) (R e1 : Z) :
  0 < R < 2 ^ 24 -> -149 <= e1 <= 104 ->
  let E := Z.max (Zdigits2 R + e1 - 53) (-1074) in
  widen (pack 24 128 s R e1)
  = S754_finite s (Z.to_pos (R * 2 ^ (e1 - E))) E
  /\ canonical (Z.to_pos (R * 2 ^ (e1 - E))) E
  /\ Zdigits2 (R * 2 ^ (e1 - E)) + E = Zdigits2 R + e1
  /\ E <= e1.
Proof.
  intros HR He1 E.
  assert (HdR : Zdigits2 R <= 24) by (apply Zdigits2_lt_pow; lia).
  pose proof (Zdigits2_pos R ltac:(lia)) as HdRp.
  assert (HE : E <= e1) by (unfold E; lia).
  assert (Hpow : 0 < 2 ^ (e1 - E)) by (apply Z.pow_pos_nonneg; lia).
  assert (Hdig : Zdigits2 (R * 2 ^ (e1 - E)) = Zdigits2 R + (e1 - E))
    by (apply Zdigits2_mul_pow2; lia).
  destruct R as [|p|p]; try lia.
  unfold pack. change (128 - 24) with 104.
  destruct (Z.leb_spec e1 104); [| lia].
  cbn [widen].
  pose proof (binary_round_exact s p e1) as Hex. cbv zeta in Hex.
  rewrite fexp64 in Hex. fold E in Hex. rewrite (Hex HE).
  rewrite pack_pos by (unfold E; lia).
  split; [reflexivity |]. split; [| split; [lia | exact HE]].
  apply canonical_spec. rewrite Z2Pos.id by lia. rewrite Hdig.
  unfold E. lia.
Qed.

(** What a Float32Array store makes of a finite number. *)
Lemma fround_finite (s : bool) (m : positive) (e : Z) :
  let r := fround (S754_finite s m e) in
  (r = S754_zero s \/ r = S754_infinity s
   \/ exists M E, r = S754_finite s M E /\ canonical M E
                  /\ Zdigits2 (Zpos M) + E <= 128)
  /\ (e <= 0 -> Zpos m <= 2 ^ (- e) ->
      r = S754_zero s
      \/ exists M E, r = S754_finite s M E /\ canonical M E
                     /\ E <= 0 /\ Zpos M <= 2 ^ (- E)).
Proof.
  intros r. unfold r, fround.
  destruct (binary_round32_spec s m e) as (R & e1 & -> & HR & He1 & Hone).
  destruct (Z.eq_dec R 0) as [->|HRnz].
  { split; [left; reflexivity | intros; left; reflexivity]. }
  assert (HdR : Zdigits2 R <= 24) by (apply Zdigits2_lt_pow; lia).
  destruct (Z_le_gt_dec e1 104) as [Hfin|Hinf].
  - destruct (widen_pack32 s R e1 ltac:(lia) ltac:(lia))
      as (Hw & Hc & Hd & HE).
    cbv zeta in *.
    set (E := Z.max (Zdigits2 R + e1 - 53) (-1074)) in *.
    assert (Hpow : 0 < 2 ^ (e1 - E)) by (apply Z.pow_pos_nonneg; lia).
    rewrite Hw. split.
    + right; right. eexists _, _. split; [reflexivity |].
      split; [exact Hc |]. rewrite Z2Pos.id by lia. lia.
    + intros He0 Hm1. destruct (Hone He0 Hm1) as [He10 HR1].
      right. eexists _, _. split; [reflexivity |].
      split; [exact Hc |]. split; [lia |].
      rewrite Z2Pos.id by lia.
      replace (- E) with (- e1 + (e1 - E)) by lia.
      rewrite Z.pow_add_r by lia. nia.
  - destruct R as [|p|p]; try lia.
    unfold pack. change (128 - 24) with 104.
    destruct (Z.leb_spec e1 104); [lia |]. cbn [widen].
    split; [right; left; reflexivity |].
    intros He0 Hm1. destruct (Hone He0 Hm1). lia.
Qed.

Lemma same_eq (x y : number) : same x y = true -> x = y.
Proof.
  destruct x as [a|a| |a m e], y as [b|b| |b n f]; simpl; try discriminate.
  - intros H. apply Bool.eqb_prop in H. congruence.
  - intros H. apply Bool.eqb_prop in H. congruence.
  - reflexivity.
  - intros H. apply andb_true_iff in H. destruct H as [H He].
    apply andb_true_iff in H. destruct H as [Hs Hm].
    apply Bool.eqb_prop in Hs. apply Pos.eqb_eq in Hm. apply Z.eqb_eq in He.
    congruence.
Qed.

(** A finite element of a Float32Array is below 2^128 in magnitude. *)
Lemma float32_bounded (x : number) :
  is_finite x = true -> is_float32 x = true -> bounded_by 128 x.
Proof.
  intros Hfin H32. apply same_eq in H32.
  destruct x as [s|s| |s m e]; try discriminate; [exact I |].
  destruct (fround_finite s m e) as [[Hz|[Hi|(M & E & Hr & Hc & Hb)]] _];
    cbv zeta in *; rewrite H32 in *; try discriminate.
  injection Hr as -> ->. split; assumption.
Qed.

(** ** Equal rates *)

Lemma or_zero_bounded (B : Z) (a : Float32Array) (k : number) :
  Forall (bounded_by B) a -> bounded_by B (or_zero (get a k)).
Proof.
  intros Ha. unfold get.
  destruct (index_of k) as [i|]; [| exact I]. cbn.
  destruct (a !! i) as [x|] eqn:Hx; [| exact I].
  cbn [or_zero]. destruct (truthy x); [| exact I].
  rewrite Forall_forall in Ha. apply Ha.
  apply list_elem_of_lookup. exists i. exact Hx.
Qed.

Lemma mul_zero_r (B : Z) (x z : number) :
  bounded_by B x -> is_zero z = true -> is_zero (mul x z) = true.
Proof.
  destruct x as [s|s| |s m e], z as [t|t| |t n f]; simpl;
    try discriminate; try contradiction; reflexivity.
Qed.

Lemma add_zero_zero (x y : number) :
  is_zero x = true -> is_zero y = true -> is_zero (add x y) = true.
Proof.
  destruct x as [[|]|s| |s m e], y as [[|]|t| |t n f]; simpl;
    try discriminate; reflexivity.
Qed.

Lemma add_zero_l (z : number) (v : option number) :
  is_zero z = true -> add z (or_zero v) = or_zero v.
Proof.
  destruct z as [[|]|s| |s m e]; try discriminate; intros _;
    destruct v as [[[|]|t| |t n f]|]; reflexivity.
Qed.

Lemma constant_bounded :
  bounded_by 2 c0_5 /\ bounded_by 2 (neg c0_5) /\ bounded_by 2 c1_5
  /\ bounded_by 2 c2_5 /\ bounded_by 2 two.
Proof.
  repeat split; try reflexivity; apply Z.leb_le; reflexivity.
Qed.

(** At ratio 1 every Catmull-Rom coefficient is multiplied by a zero
    fraction, and the value written is the sample under the index. *)
Lemma interpolate_one (a : Float32Array) (i : nat) :
  Forall (bounded_by 128) a -> Z.of_nat i < 2 ^ 53 ->
  let sourceIndex := div (num_of_nat i) one in
  sourceIndex = num_of_nat i
  /\ Math_floor sourceIndex = num_of_nat i
  /\ sub sourceIndex (Math_floor sourceIndex) = pzero
  /\ interpolate a one i = or_zero (a !! i).
Proof.
  intros Ha Hi sourceIndex.
  assert (Hrange : 0 <= Z.of_nat i < 2 ^ 53) by lia.
  assert (Hsrc : sourceIndex = num_of_nat i)
    by (apply div_ofZ_one; exact Hrange).
  assert (Hfloor : Math_floor sourceIndex = num_of_nat i)
    by (rewrite Hsrc; apply Math_floor_ofZ; exact Hrange).
  assert (Hfrac : sub sourceIndex (Math_floor sourceIndex) = pzero).
  { rewrite Hfloor, Hsrc. apply sub_self, is_finite_ofZ. exact Hrange. }
  repeat split; try assumption.
  unfold interpolate. fold sourceIndex. rewrite Hfrac, Hfloor.
  destruct constant_bounded as (H05 & Hn05 & H15 & H25 & H2).
  set (y0 := or_zero (get a (Math_max pzero (sub (num_of_nat i) one)))).
  set (y2 := or_zero (get a (Math_min (add (num_of_nat i) one)
                                      (sub (length_number a) one)))).
  set (y3 := or_zero (get a (Math_min (add (num_of_nat i) two)
                                      (sub (length_number a) one)))).
  assert (Hy1 : get a (num_of_nat i) = a !! i).
  { unfold get, num_of_nat. rewrite index_of_ofZ by exact Hrange.
    rewrite Nat2Z.id. reflexivity. }
  rewrite Hy1. set (y1 := or_zero (a !! i)).
  assert (By0 : bounded_by 128 y0) by (apply or_zero_bounded; exact Ha).
  assert (By2 : bounded_by 128 y2) by (apply or_zero_bounded; exact Ha).
  assert (By3 : bounded_by 128 y3) by (apply or_zero_bounded; exact Ha).
  assert (By1 : bounded_by 128 y1).
  { unfold y1. rewrite <- Hy1. apply or_zero_bounded. exact Ha. }
  assert (Hmul : forall c y, bounded_by 2 c -> bounded_by 128 y ->
                             bounded_by 131 (mul c y)).
  { intros c y Hc Hy. apply (mul_bounded 2 128); [exact Hc | exact Hy | lia]. }
  set (a0 := add (sub (add (mul (neg c0_5) y0) (mul c1_5 y1)) (mul c1_5 y2))
                 (mul c0_5 y3)).
  set (a1 := sub (add (sub y0 (mul c2_5 y1)) (mul two y2)) (mul c0_5 y3)).
  set (a2 := add (mul (neg c0_5) y0) (mul c0_5 y2)).
  assert (Ba0 : bounded_by 137 a0).
  { apply (add_bounded 135); [| | lia].
    - apply (sub_bounded 133); [| | lia].
      + apply (add_bounded 131); [| | lia]; apply Hmul; assumption.
      + eapply bounded_by_weaken; [apply Hmul; eassumption | lia].
    - eapply bounded_by_weaken; [apply Hmul; eassumption | lia]. }
  assert (Ba1 : bounded_by 137 a1).
  { apply (sub_bounded 135); [| | lia].
    - apply (add_bounded 133); [| | lia].
      + apply (sub_bounded 131); [| | lia].
        * eapply bounded_by_weaken; [exact By0 | lia].
        * apply Hmul; assumption.
      + eapply bounded_by_weaken; [apply Hmul; eassumption | lia].
    - eapply bounded_by_weaken; [apply Hmul; eassumption | lia]. }
  assert (Ba2 : bounded_by 133 a2).
  { apply (add_bounded 131); [| | lia]; apply Hmul; assumption. }
  assert (Hz : forall B x, bounded_by B x -> is_zero (mul x pzero) = true).
  { intros B x Hx. apply (mul_zero_r B); [exact Hx | reflexivity]. }
  assert (Hzz : forall z, is_zero z = true -> is_zero (mul z pzero) = true).
  { intros [s|s| |s m e]; try discriminate. reflexivity. }
  apply add_zero_l.
  repeat apply add_zero_zero.
  - apply Hzz, Hzz, (Hz 137), Ba0.
  - apply Hzz, (Hz 137), Ba1.
  - apply (Hz 133), Ba2.
Qed.

Lemma strict_eq_refl (x : number) : is_finite x = true -> strict_eq x x = true.
Proof.
  destruct x as [s|s| |s m e]; try discriminate; intros _; [reflexivity |].
  unfold strict_eq, SFeqb, SFcompare.
  rewrite Z.compare_refl, Pos.compare_cont_refl. destruct s; reflexivity.
Qed.

Lemma read_sample_finite (x : number) :
  is_finite x = true ->
  read_sample x = (if is_zero x then pzero else x)
  /\ strict_eq x (read_sample x) = true.
Proof.
  destruct x as [s|s| |s m e]; try discriminate; intros _.
  - split; [reflexivity | destruct s; reflexivity].
  - split; [reflexivity |].
    apply (strict_eq_refl (S754_finite s m e)). reflexivity.
Qed.

Lemma fround_read_sample (x : number) :
  is_float32 x = true -> fround (read_sample x) = read_sample x.
Proof.
  intros H32. apply same_eq in H32. unfold read_sample, or_zero.
  destruct (truthy x); [exact H32 | reflexivity].
Qed.

Lemma map_lookup_seq {A B} (f : option A -> B) (l : list A) :
  map (fun i => f (l !! i)) (List.seq 0 (length l))
  = map (fun x => f (Some x)) l.
Proof.
  apply list_eq. intros i.
  change (map (fun i => f (l !! i)) (List.seq 0 (length l)))
    with ((fun i => f (l !! i)) <$> seq 0 (length l)).
  change (map (fun x => f (Some x)) l) with ((fun x => f (Some x)) <$> l).
  rewrite !list_lookup_fmap.
  destruct (l !! i) as [x|] eqn:Hx.
  - rewrite (lookup_seq_lt 0 (length l) i).
    + cbn. rewrite Hx. reflexivity.
    + apply lookup_lt_is_Some. exists x. exact Hx.
  - rewrite lookup_seq_ge; [reflexivity |].
    apply lookup_ge_None. exact Hx.
Qed.

(** With equal finite rates the resampler copies its input, reading each
    sample through [v || 0]. *)
Lemma upsampled_equal_rates (a : Float32Array) (s : bool) (m : positive)
    (e : Z) :
  a <> [] -> Z.of_nat (length a) < 2 ^ 53 ->
  Forall (fun x => is_finite x = true /\ is_float32 x = true) a ->
  upsampled a (S754_finite s m e) (S754_finite s m e)
  = Returned (map read_sample a).
Proof.
  intros Hne Hlen Ha. unfold upsampled, upsample_ratio, upsample_length.
  pose proof (length_nonempty a Hne) as Hpos.
  destruct (Nat.eqb_spec (length a) 0) as [Hz|_]; [lia |].
  rewrite div_self. unfold length_number.
  rewrite mul_ofZ_one, Math_floor_ofZ, new_Float32Array_ofZ by lia.
  rewrite length_replicate, Nat2Z.id.
  assert (Hb : Forall (bounded_by 128) a).
  { eapply Forall_impl; [exact Ha |]. intros x [Hf H32].
    apply float32_bounded; assumption. }
  f_equal.
  transitivity (map (fun i => fround (or_zero (a !! i)))
                    (List.seq 0 (length a))).
  - apply map_ext_in. intros i Hi. apply in_seq in Hi.
    destruct (interpolate_one a i Hb ltac:(lia)) as (_ & _ & _ & ->).
    reflexivity.
  - etransitivity;
      [exact (map_lookup_seq (fun v => fround (or_zero v)) a) |].
    apply map_ext_in. intros x Hx. apply fround_read_sample.
    rewrite Forall_forall in Ha. apply Ha. apply list_elem_of_In. exact Hx.
Qed.

(** C9, as the code has it.  With equal finite positive rates and a
    non-empty signal of finite samples the ratio is exactly 1, every source
    index is the output index with a zero fraction, and the output has the
    input's length and equals it sample for sample (a -0 sample is written
    as +0, which compares equal). *)
Theorem equal_rates_copy_finite_samples (P : Platform) (w : World)
    (audioData : Float32Array) (r : number) :
  quiet P -> audioData <> [] -> Z.of_nat (length audioData) < 2 ^ 53 ->
  Forall (fun x => is_finite x = true /\ is_float32 x = true) audioData ->
  is_finite r = true -> lt pzero r = true ->
  upsample_ratio r r = one
  /\ (forall i : nat,
        (i < length audioData)%nat ->
        let sourceIndex := div (num_of_nat i) (upsample_ratio r r) in
        sourceIndex = num_of_nat i
        /\ Math_floor sourceIndex = num_of_nat i
        /\ sub sourceIndex (Math_floor sourceIndex) = pzero)
  /\ exists up,
       result (upsampleAudio P audioData r r) w = Returned up
       /\ length up = length audioData
       /\ up = map (fun x => if is_zero x then pzero else x) audioData
       /\ Forall2 (fun x y => strict_eq x y = true) audioData up.
Proof.
  intros Hq Hne Hlen Ha Hfin Hpos.
  destruct r as [[|]|[|]| |[|] m e]; try discriminate.
  assert (Hratio : upsample_ratio (S754_finite false m e)
                                  (S754_finite false m e) = one)
    by apply div_self.
  assert (Hb : Forall (bounded_by 128) audioData).
  { eapply Forall_impl; [exact Ha |]. intros x [Hf H32].
    apply float32_bounded; assumption. }
  split; [exact Hratio |]. split.
  - intros i Hi. rewrite Hratio.
    destruct (interpolate_one audioData i Hb ltac:(lia)) as (H1 & H2 & H3 & _).
    repeat split; assumption.
  - exists (map read_sample audioData).
    split; [| split; [apply length_map | split]].
    + rewrite (upsampleAudio_result P audioData _ _ Hq w).
      apply upsampled_equal_rates; assumption.
    + apply map_ext_in. intros x Hx.
      apply read_sample_finite.
      rewrite Forall_forall in Ha. apply Ha, list_elem_of_In, Hx.
    + clear Hne Hlen Hb. induction Ha as [|x rest [Hf _] _ IH]; cbn [map].
      * constructor.
      * constructor; [apply read_sample_finite, Hf | exact IH].
Qed.

Lemma equal_rates_copy_finite_samples_witness :
  upsample_ratio c48000 c48000 = one
  /\ (forall i : nat,
        (i < length click)%nat ->
        let sourceIndex := div (num_of_nat i) (upsample_ratio c48000 c48000) in
        sourceIndex = num_of_nat i
        /\ Math_floor sourceIndex = num_of_nat i
        /\ sub sourceIndex (Math_floor sourceIndex) = pzero)
  /\ exists up,
       result (upsampleAudio quiet_host click c48000 c48000)
         (fresh_world production_config) = Returned up
       /\ length up = length click
       /\ up = map (fun x => if is_zero x then pzero else x) click
       /\ Forall2 (fun x y => strict_eq x y = true) click up.
Proof.
  apply (equal_rates_copy_finite_samples quiet_host
           (fresh_world production_config) click c48000).
  - intros l message d. reflexivity.
  - discriminate.
  - vm_compute. reflexivity.
  - repeat constructor.
  - reflexivity.
  - reflexivity.
Defined.

(** C9 fails as stated: with equal rates a NaN sample is written as 0
    (the gather reads it through [|| 0]), an infinite sample is written as
    NaN (its coefficients are Infinity - Infinity, then multiplied by the
    zero fraction), and the positive rate Infinity gives the ratio NaN and an
    empty output. *)
Lemma equal_rates_are_not_always_the_identity :
  result (upsampleAudio quiet_host [nan] c48000 c48000)
    (fresh_world development_config) = Returned [pzero]
  /\ result (upsampleAudio quiet_host [one; pinf] c48000 c48000)
       (fresh_world development_config) = Returned [nan; nan]
  /\ lt pzero pinf = true
  /\ result (upsampleAudio quiet_host [one] pinf pinf)
       (fresh_world development_config) = Returned [].
Proof. repeat split; vm_compute; reflexivity. Qed.

(** ** The limiter's range *)

(** A canonical positive number is at most 1 exactly when its mantissa is
    at most 2^-e. *)
Lemma at_most_one_spec (m : positive) (e : Z) :
  canonical m e ->
  lt one (S754_finite false m e) = false <-> e <= 0 /\ Zpos m <= 2 ^ (- e).
Proof.
  intros Hc. unfold lt, SFltb, one.
  rewrite compare_positive.
  pose proof (canonical_digits m e Hc) as [Hm He].
  change (2 ^ 53) with (2 * 2 ^ 52) in Hm.
  destruct (Z.compare_spec (-52) e) as [Heq|Hlt|Hgt].
  - subst e. change (2 ^ (- -52)) with (Zpos 4503599627370496).
    destruct (4503599627370496 ?= m)%positive eqn:Hcmp;
      rewrite Pos2Z.inj_compare in Hcmp.
    + apply Z.compare_eq in Hcmp. split; [intros _; lia | reflexivity].
    + assert (Hlt : 4503599627370496 < Zpos m) by exact Hcmp.
      split; [discriminate | intros [_ H]; lia].
    + assert (Hlt : Zpos m < 4503599627370496) by (apply Z.gt_lt; exact Hcmp).
      split; [intros _; lia | reflexivity].
  - split; [discriminate |]. intros [He0 Hle].
    destruct (canonical_normal m e Hc ltac:(lia)) as [_ [Hlo _]].
    assert (2 ^ (- e) < 2 ^ 52) by (apply Z.pow_lt_mono_r; lia). lia.
  - split; [| reflexivity]. intros _. split; [lia |].
    assert (2 ^ 53 <= 2 ^ (- e)) by (apply Z.pow_le_mono_r; lia).
    change (2 ^ 53) with (2 * 2 ^ 52) in *. lia.
Qed.

(** A Float32Array store does not take a value of at most 1 above 1. *)
Lemma fround_at_most_one (x : number) :
  valid_binary prec emax x = true ->
  lt one (Math_abs x) = false -> lt one (Math_abs (fround x)) = false.
Proof.
  intros Hv Hle.
  destruct x as [s|s| |s m e]; [exact Hle | exact Hle | exact Hle |].
  cbn [Math_abs SFabs] in Hle. cbn [valid_binary] in Hv.
  apply (at_most_one_spec m e Hv) in Hle. destruct Hle as [He Hm].
  destruct (fround_finite s m e) as [_ Hone]. cbv zeta in Hone.
  destruct (Hone He Hm) as [->|(M & E & -> & Hc & HE & HM)]; [reflexivity |].
  cbn [Math_abs SFabs]. apply at_most_one_spec; [exact Hc |].
  split; assumption.
Qed.

(** ** Sums of squares *)

(** Rounding a positive mantissa of at least 53 digits gives a positive
    normal number or an infinity. *)
Lemma binary_round_aux_positive (L mx ex : Z) (lx : location) :
  0 < mx -> 53 <= Zdigits2 mx -> -1074 <= L <= Zdigits2 mx + ex - 53 ->
  at_least L (binary_round_aux prec emax false mx ex lx).
Proof.
  intros Hmx Hd HL.
  set (d := Zdigits2 mx) in *.
  assert (Hfe : fexp prec emax (d + ex) = d + ex - 53)
    by (rewrite fexp64; lia).
  destruct (binary_round_aux_regular prec emax ltac:(reflexivity)
              false mx ex lx Hmx)
    as (R & HR & _ & Hq & HRle & Hcanon & Hres).
  { fold d. rewrite Hfe. lia. }
  fold d in HR, Hq, Hcanon, Hres. rewrite !Hfe in HR, Hq, Hcanon, Hres.
  replace (d + ex - 53 - ex) with (d - 53) in HR, Hq by lia.
  rewrite Hres. clear Hres.
  pose proof (Zdigits2_bounds mx Hmx) as Hb. fold d in Hb.
  assert (Hq52 : 2 ^ 52 <= mx / 2 ^ (d - 53)).
  { apply div_pow2_ge; [lia | lia |].
    replace (d - 53 + 52) with (d - 1) by lia. lia. }
  assert (H52 : 0 < 2 ^ 52) by reflexivity.
  destruct (Z.ltb_spec R (2 ^ prec)) as [HRlt|HRge].
  - destruct R as [|p|p]; try lia. unfold pack.
    destruct (Z.leb_spec (d + ex - 53) (emax - prec)); [| exact I].
    split; [| lia].
    apply canonical_spec. specialize (Hcanon ltac:(lia)).
    rewrite fexp64 in Hcanon. change (emax - prec) with 971 in *. lia.
  - unfold pack. change (2 ^ (prec - 1)) with (Zpos 4503599627370496).
    destruct (Z.leb_spec (d + ex - 53 + 1) (emax - prec)); [| exact I].
    split; [| lia].
    apply canonical_spec. change (Zdigits2 (Zpos 4503599627370496)) with 53.
    change (emax - prec) with 971 in *. lia.
Qed.

Lemma binary_round_positive (L : Z) (m : positive) (e : Z) :
  -1074 <= L <= Zdigits2 (Zpos m) + e - 53 ->
  at_least L (binary_round prec emax false m e).
Proof.
  intros HL. unfold binary_round.
  pose proof (shl_align_spec m e (fexp prec emax (Zpos (digits2_pos m) + e)))
    as Hs.
  destruct (shl_align m e (fexp prec emax (Zpos (digits2_pos m) + e)))
    as [mz ez].
  destruct Hs as [Hlt Hge].
  change (Zpos (digits2_pos m)) with (Zdigits2 (Zpos m)) in *.
  set (d := Zdigits2 (Zpos m)) in *.
  assert (Hfe : fexp prec emax (d + e) = d + e - 53) by (rewrite fexp64; lia).
  rewrite Hfe in *.
  destruct (Z_lt_le_dec (d + e - 53) e) as [Hc|Hc].
  - destruct (Hlt Hc) as [Hm ->].
    assert (Hdz : Zdigits2 (Zpos mz) = 53).
    { rewrite Hm, Zdigits2_mul_pow2 by lia. fold d. lia. }
    apply binary_round_aux_positive; lia.
  - destruct (Hge Hc) as [-> ->]. fold d.
    apply binary_round_aux_positive; fold d; lia.
Qed.

(** A non-zero finite element of a Float32Array is a normal binary64. *)
Lemma float32_normal (s : bool) (m : positive) (e : Z) :
  is_float32 (S754_finite s m e) = true ->
  canonical m e /\ -201 <= e /\ Zdigits2 (Zpos m) = 53.
Proof.
  intros H32. apply same_eq in H32. unfold fround in H32.
  destruct (binary_round32_spec s m e) as (R & e1 & Hr & HR & He1 & _).
  rewrite Hr in H32.
  destruct (Z.eq_dec R 0) as [->|HRnz]; [discriminate |].
  destruct (Z_le_gt_dec e1 104) as [Hfin|Hinf].
  - destruct (widen_pack32 s R e1 ltac:(lia) ltac:(lia))
      as (Hw & Hc & Hd & HE).
    cbv zeta in *. rewrite Hw in H32. injection H32 as Hm He.
    pose proof (Zdigits2_pos R ltac:(lia)) as HdR.
    assert (Hlow : -201 <= e) by lia.
    rewrite Hm, He in Hc.
    split; [exact Hc |]. split; [exact Hlow |].
    apply (canonical_normal m e Hc). lia.
  - destruct R as [|p|p]; try lia. unfold pack in H32.
    change (128 - 24) with 104 in H32.
    destruct (Z.leb_spec e1 104); [lia | discriminate].
Qed.

Lemma square_at_least (x : number) :
  is_float32 x = true ->
  (is_zero x = true /\ mul x x = pzero) \/ louder (-350) (mul x x).
Proof.
  intros H32. destruct x as [s|s| |s m e].
  - left. destruct s; split; reflexivity.
  - right. right. destruct s; exact I.
  - right. left. reflexivity.
  - right. right.
    destruct (float32_normal s m e H32) as (Hc & He & Hd).
    unfold mul, SFmul. rewrite Bool.xorb_nilpotent, Pos2Z.inj_mul.
    pose proof (Zdigits2_bounds (Zpos m) ltac:(lia)) as Hb.
    rewrite Hd in Hb. change (2 ^ (53 - 1)) with (2 ^ 52) in Hb.
    assert (Hsq : 2 ^ 104 <= Zpos m * Zpos m).
    { change (2 ^ 104) with (2 ^ 52 * 2 ^ 52). nia. }
    assert (Hdsq : 105 <= Zdigits2 (Zpos m * Zpos m)).
    { apply Zdigits2_ge; [lia |]. change (2 ^ (105 - 1)) with (2 ^ 104).
      exact Hsq. }
    apply binary_round_aux_positive; lia.
Qed.

Lemma aligned_digits (m : positive) (e ez : Z) :
  ez <= e ->
  Zdigits2 (Zpos (fst (shl_align m e ez))) + ez = Zdigits2 (Zpos m) + e.
Proof.
  intros Hle. pose proof (shl_align_spec m e ez) as Hs.
  destruct (shl_align m e ez) as [m' e']. destruct Hs as [Hlt Hge].
  cbn [fst].
  destruct (Z_lt_le_dec ez e) as [Hc|Hc].
  - destruct (Hlt Hc) as [-> _]. rewrite Zdigits2_mul_pow2 by lia. lia.
  - destruct (Hge Hc) as [-> _]. lia.
Qed.

(** Adding a positive term to a sum that is +0 or positive. *)
Lemma add_at_least (L : Z) (acc t : number) :
  -1074 < L -> acc = pzero \/ at_least L acc -> at_least L t ->
  at_least L (add acc t).
Proof.
  intros HL [->|Hacc] Ht.
  - destruct t as [s|[|]| |[|] m e]; try contradiction; exact Ht.
  - destruct acc as [sa|[|]| |[|] ma ea]; try contradiction;
      destruct t as [st|[|]| |[|] mt et]; try contradiction; try exact I.
    destruct Hacc as [Hca Hea], Ht as [Hct Het].
    unfold add, SFadd. cbn [cond_Zopp].
    pose proof (aligned_digits ma ea (Z.min ea et) ltac:(lia)) as Hda.
    destruct (canonical_normal ma ea Hca ltac:(lia)) as [Hdma _].
    set (a := Zpos (fst (shl_align ma ea (Z.min ea et)))) in *.
    set (b := Zpos (fst (shl_align mt et (Z.min ea et)))) in *.
    assert (Hab : 0 < a /\ 0 < b) by (unfold a, b; lia).
    assert (Hmono : Zdigits2 a <= Zdigits2 (a + b))
      by (apply Zdigits2_mono; lia).
    destruct (a + b) as [|p|p] eqn:Hsum; try lia.
    unfold binary_normalize.
    apply binary_round_positive. lia.
Qed.

Lemma add_nan_r (x : number) : add x nan = nan.
Proof. destruct x; reflexivity. Qed.

Lemma add_pzero_r (L : Z) (acc : number) :
  at_least L acc -> add acc pzero = acc.
Proof. destruct acc as [s|[|]| |[|] m e]; try contradiction; reflexivity. Qed.

(** One step of the sum of squares. *)
Lemma add_square_step (acc x : number) :
  is_float32 x = true -> acc = pzero \/ louder (-350) acc ->
  let acc' := add acc (mul x x) in
  (acc' = pzero \/ louder (-350) acc')
  /\ (louder (-350) acc -> louder (-350) acc')
  /\ (is_zero x = false -> louder (-350) acc').
Proof.
  intros H32 Hacc acc'. unfold acc'.
  destruct (square_at_least x H32) as [[Hz ->]|[->|Ht]].
  - destruct Hacc as [->|[->|Hacc]].
    + split; [left; reflexivity |]. split.
      * intros [H|H]; [discriminate | contradiction].
      * rewrite Hz. discriminate.
    + split; [right; left; reflexivity |].
      split; intros _; left; reflexivity.
    + rewrite (add_pzero_r _ _ Hacc).
      split; [right; right; exact Hacc |].
      split; intros _; right; exact Hacc.
  - rewrite add_nan_r.
    split; [right; left; reflexivity |].
    split; intros _; left; reflexivity.
  - destruct Hacc as [->|[->|Hacc]].
    + assert (H : at_least (-350) (add pzero (mul x x)))
        by (apply add_at_least; [lia | left; reflexivity | exact Ht]).
      split; [right; right; exact H |]. split; intros _; right; exact H.
    + split; [right; left; reflexivity |].
      split; intros _; left; reflexivity.
    + assert (H : at_least (-350) (add acc (mul x x)))
        by (apply add_at_least; [lia | right; exact Hacc | exact Ht]).
      split; [right; right; exact H |]. split; intros _; right; exact H.
Qed.

Lemma sumSquares_louder (audioData : Float32Array) :
  Forall (fun x => is_float32 x = true) audioData ->
  Exists (fun x => is_zero x = false) audioData ->
  louder (-350) (sumSquares audioData).
Proof.
  intros Ha Hex. unfold sumSquares.
  assert (Hgen : forall acc,
            acc = pzero \/ louder (-350) acc ->
            let r := fold_left (fun acc x => add acc (mul x x)) audioData acc in
            (louder (-350) acc
             \/ Exists (fun x => is_zero x = false) audioData) ->
            louder (-350) r).
  { clear Hex. induction Ha as [|x rest Hx _ IH]; intros acc Hacc r Hsome.
    - destruct Hsome as [H|H]; [exact H | inversion H].
    - unfold r. cbn [fold_left].
      destruct (add_square_step acc x Hx Hacc) as (Hinv & Hkeep & Hnew).
      apply IH; [exact Hinv |].
      destruct Hsome as [H|H]; [left; apply Hkeep, H |].
      inversion H as [? ? Hnz|? ? Hrest]; subst.
      + left. apply Hnew, Hnz.
      + right. exact Hrest. }
  apply Hgen; [left; reflexivity | right; exact Hex].
Qed.

Lemma louder_weaken (L L' : Z) (x : number) :
  louder L x -> L' <= L -> louder L' x.
Proof.
  intros [->|H] HL; [left; reflexivity | right].
  destruct x as [s|[|]| |[|] m e]; try contradiction; [exact I |].
  destruct H as [Hc He]. split; [exact Hc | lia].
Qed.

(** The mean of a non-zero sum of squares is not zero. *)
Lemma div_louder (x : number) (n : Z) :
  louder (-350) x -> 0 < n < 2 ^ 53 -> louder (-403) (div x (ofZ n)).
Proof.
  intros Hx Hn.
  destruct (integer_form n Hn) as (Hform & HM & HdM & HE & _).
  cbv zeta in *. rewrite Hform. clear Hform.
  set (M := n * 2 ^ (53 - Zdigits2 n)) in *.
  set (E := Zdigits2 n - 53) in *.
  destruct Hx as [->|Hx]; [left; reflexivity | right].
  destruct x as [s|[|]| |[|] m e]; try contradiction; [exact I |].
  destruct Hx as [Hc He].
  destruct (canonical_normal m e Hc ltac:(lia)) as [Hdm Hm].
  pose proof (Zdigits2_bounds M HM) as HMb. rewrite HdM in HMb.
  change (2 ^ (53 - 1)) with (2 ^ 52) in HMb.
  unfold div, SFdiv. cbn [xorb].
  rewrite SFdiv_core_binary_spec. rewrite Z2Pos.id by lia.
  rewrite Hdm, HdM, fexp64.
  replace (Z.min (Z.max (53 + e - (53 + E) - 53) (-1074)) (e - E))
    with (e - E - 53) by lia.
  replace (e - E - (e - E - 53)) with 53 by lia.
  set (q := Zpos m * 2 ^ 53 / M).
  assert (H53 : 2 ^ 53 = 2 * 2 ^ 52) by reflexivity.
  assert (Hq52 : 2 ^ 52 <= q) by (apply Z.div_le_lower_bound; nia).
  assert (Hdq : 53 <= Zdigits2 q).
  { apply Zdigits2_ge; [lia |]. change (2 ^ (53 - 1)) with (2 ^ 52). lia. }
  apply binary_round_aux_positive; lia.
Qed.

(** The square root of a positive number is positive. *)
Lemma sqrt_louder (L : Z) (x : number) :
  -1074 <= L -> louder L x -> louder (-1074) (Math_sqrt x).
Proof.
  intros HL [->|Hx]; [left; reflexivity | right].
  destruct x as [s|[|]| |[|] m e]; try contradiction; [exact I |].
  destruct Hx as [Hc He].
  unfold Math_sqrt, SFsqrt, SFsqrt_core_binary.
  set (d := Zdigits2 (Zpos m)).
  pose proof (Zdigits2_pos (Zpos m) ltac:(lia)) as Hd. fold d in Hd.
  pose proof (Zdigits2_bounds (Zpos m) ltac:(lia)) as [Hlo _]. fold d in Hlo.
  rewrite fexp64, !Z.div2_div.
  pose proof (Z.div_mod (d + e + 1) 2 ltac:(lia)) as Ht.
  pose proof (Z.mod_pos_bound (d + e + 1) 2 ltac:(lia)) as Htr.
  pose proof (Z.div_mod e 2 ltac:(lia)) as Hh.
  pose proof (Z.mod_pos_bound e 2 ltac:(lia)) as Hhr.
  set (t := (d + e + 1) / 2) in *. set (h := e / 2) in *.
  set (e' := Z.min (Z.max (t - 53) (-1074)) h).
  assert (He' : e' <= t - 53 /\ 2 * e' <= e /\ -1074 <= e')
    by (unfold e'; lia).
  set (s := e - 2 * e').
  assert (Hs : 0 <= s /\ 105 <= d + s) by (unfold s; lia).
  assert (Hm' : match s with
                | Z.pos _ => Z.shiftl (Zpos m) s
                | 0 => Zpos m
                | Z.neg _ => 0
                end = Zpos m * 2 ^ s).
  { destruct s as [|p|p] eqn:Hsp; try lia.
    rewrite Z.shiftl_mul_pow2 by lia. reflexivity. }
  rewrite Hm'. clear Hm'.
  assert (Hbig : 2 ^ 104 <= Zpos m * 2 ^ s).
  { assert (2 ^ 104 <= 2 ^ (d - 1 + s)) by (apply Z.pow_le_mono_r; lia).
    rewrite Z.pow_add_r in H by lia.
    assert (0 < 2 ^ s) by (apply Z.pow_pos_nonneg; lia). nia. }
  pose proof (Z.sqrtrem_spec (Zpos m * 2 ^ s) ltac:(lia)) as Hsq.
  destruct (Z.sqrtrem (Zpos m * 2 ^ s)) as [q r].
  destruct Hsq as [Hsq Hr].
  assert (Hq52 : 2 ^ 52 <= q).
  { destruct (Z_lt_le_dec q (2 ^ 52)) as [Hlt|]; [exfalso | assumption].
    change (2 ^ 104) with (2 ^ 52 * 2 ^ 52) in Hbig. nia. }
  assert (Hdq : 53 <= Zdigits2 q).
  { apply Zdigits2_ge; [lia |]. change (2 ^ (53 - 1)) with (2 ^ 52). lia. }
  assert (H52 : 0 < 2 ^ 52) by reflexivity.
  apply binary_round_aux_positive; lia.
Qed.

Lemma louder_nonzero (L : Z) (x : number) :
  louder L x -> strict_eq x pzero = false.
Proof.
  intros [->|H]; [reflexivity |].
  destruct x as [s|[|]| |[|] m e]; try contradiction; reflexivity.
Qed.

(** A signal with a non-zero sample has a non-zero RMS: the squares of
    Float32Array elements do not underflow. *)
Lemma rms_of_nonzero (audioData : Float32Array) :
  Z.of_nat (length audioData) < 2 ^ 53 ->
  Forall (fun x => is_float32 x = true) audioData ->
  Exists (fun x => is_zero x = false) audioData ->
  strict_eq (rms_of audioData) pzero = false.
Proof.
  intros Hlen Ha Hex. unfold rms_of, length_number.
  assert (Hpos : 0 < Z.of_nat (length audioData)).
  { destruct Hex; cbn [length]; lia. }
  apply (louder_nonzero (-1074)), (sqrt_louder (-403)); [lia |].
  apply div_louder; [| lia].
  apply sumSquares_louder; assumption.
Qed.

Lemma at_most_one_le (m : positive) (e : Z) :
  canonical m e -> e <= 0 -> Zpos m <= 2 ^ (- e) ->
  le (S754_finite false m e) one = true.
Proof.
  intros Hc He Hm. unfold le, SFleb, one. rewrite compare_positive.
  destruct (Z.compare_spec e (-52)) as [Heq|Hlt|Hgt]; [| reflexivity |].
  - subst e. change (2 ^ (- -52)) with (Zpos 4503599627370496) in Hm.
    destruct (m ?= 4503599627370496)%positive eqn:Hcmp;
      [reflexivity | reflexivity | exfalso].
    rewrite Pos2Z.inj_compare in Hcmp.
    assert (Hlt : 4503599627370496 < Zpos m) by (apply Z.gt_lt; exact Hcmp).
    lia.
  - exfalso.
    destruct (canonical_normal m e Hc ltac:(lia)) as [_ [Hlo _]].
    assert (2 ^ (- e) < 2 ^ 52) by (apply Z.pow_lt_mono_r; lia). lia.
Qed.

(** What the limiter stores, given a hyperbolic tangent within [-1, 1]. *)
Lemma stored_at_most_one (x : number) :
  valid_binary prec emax x = true -> lt one (Math_abs x) = false ->
  lt one (Math_abs (fround x)) = false
  /\ (is_nan (fround x) = true \/ le (Math_abs (fround x)) one = true).
Proof.
  intros Hv Hle.
  split; [apply fround_at_most_one; assumption |].
  destruct x as [s|[|]| |s m e]; try discriminate.
  - right. reflexivity.
  - left. reflexivity.
  - right. cbn [Math_abs SFabs] in Hle. cbn [valid_binary] in Hv.
    apply (at_most_one_spec m e Hv) in Hle. destruct Hle as [He Hm].
    destruct (fround_finite s m e) as [_ Hone]. cbv zeta in Hone.
    destruct (Hone He Hm) as [->|(M & E & -> & Hc & HE & HM)]; [reflexivity |].
    cbn [Math_abs SFabs]. apply at_most_one_le; assumption.
Qed.

Lemma all_zero_or_not (audioData : Float32Array) :
  Forall (fun x => is_zero x = true) audioData
  \/ Exists (fun x => is_zero x = false) audioData.
Proof.
  induction audioData as [|x rest IH]; [left; constructor |].
  destruct (is_zero x) eqn:Hx.
  - destruct IH as [IH|IH]; [left | right].
    + constructor; assumption.
    + apply Exists_cons_tl, IH.
  - right. apply Exists_cons_hd, Hx.
Qed.

(** C1, as the code has it.  Given a host tangent within [-1, 1], no
    sample of the normalizer's output has an absolute value above 1.0: each
    is NaN or at most 1.0 in magnitude, and the output is as long as the
    input. *)
Theorem normalizer_output_is_at_most_one (P : Platform) (w : World)
    (audioData : Float32Array) (targetRMS : number) :
  quiet P -> bounded_tanh P -> audioData <> [] ->
  Z.of_nat (length audioData) < 2 ^ 53 ->
  Forall (fun x => is_float32 x = true) audioData ->
  exists out,
    result (normalizeAudio P audioData targetRMS) w = Returned out
    /\ length out = length audioData
    /\ Forall (fun s => lt one (Math_abs s) = false
                        /\ (is_nan s = true \/ le (Math_abs s) one = true))
              out.
Proof.
  intros Hq Htanh Hne Hlen Ha.
  rewrite (normalizeAudio_result P audioData targetRMS Hq w).
  unfold normalized.
  pose proof (length_nonempty audioData Hne) as Hpos.
  destruct (Nat.eqb_spec (length audioData) 0) as [Hz|_]; [lia |].
  destruct (strict_eq (rms_of audioData) pzero) eqn:Hrms.
  - (* silent: the input is all zeros *)
    exists audioData. split; [reflexivity |]. split; [reflexivity |].
    destruct (all_zero_or_not audioData) as [Hzero|Hsome].
    + eapply Forall_impl; [exact Hzero |].
      intros [s|s| |s m e] Hs; try discriminate.
      split; [reflexivity | right; reflexivity].
    + rewrite (rms_of_nonzero audioData Hlen Ha Hsome) in Hrms.
      discriminate.
  - eexists. split; [reflexivity |]. split; [apply length_map |].
    apply Forall_forall. intros s Hs.
    apply list_elem_of_In, in_map_iff in Hs. destruct Hs as (x & <- & _).
    unfold soft_limit.
    destruct (Htanh (mul (mul x (div targetRMS (rms_of audioData))) c0_9))
      as [Hv Hb].
    apply stored_at_most_one; assumption.
Qed.

Lemma normalizer_output_is_at_most_one_witness :
  exists out,
    result (normalizeAudio quiet_host click c0_15)
      (fresh_world development_config) = Returned out
    /\ length out = length click
    /\ Forall (fun s => lt one (Math_abs s) = false
                        /\ (is_nan s = true \/ le (Math_abs s) one = true))
              out.
Proof.
  apply (normalizer_output_is_at_most_one quiet_host
           (fresh_world development_config) click c0_15).
  - intros l message d. reflexivity.
  - intros [s|[|]| |[|] m e]; split; reflexivity.
  - discriminate.
  - vm_compute. reflexivity.
  - repeat constructor.
Defined.

Lemma sumSquares_snoc_zeros (n : nat) (x : number) :
  sumSquares (replicate n pzero ++ [x]) = add pzero (mul x x).
Proof.
  unfold sumSquares. rewrite fold_left_app. cbn [fold_left]. f_equal.
  apply (sumSquares_zeros (replicate n pzero)).
  apply Forall_replicate. reflexivity.
Qed.

(** C1 fails as stated.  For the last sample of one second of silence
    ending in a full-scale click the limiter evaluates the tangent at about
    29.58, where every double within an ulp of the true value (1.0 and the
    double below it) is stored as exactly 1.0; and a NaN sample is stored as
    NaN, which is not below 1.0 either. *)
Lemma limiter_reaches_one :
  lt (ofZ 29) loudest = true
  /\ fround one = one /\ fround below_one = one
  /\ lt (Math_abs one) one = false
  /\ (forall (P : Platform) (w : World),
        quiet P -> fround (Math_tanh P loudest) = one ->
        exists out,
          result (normalizeAudio P one_second_click c0_15) w = Returned out
          /\ last out = Some one)
  /\ (forall (P : Platform) (w : World),
        quiet P -> Math_tanh P nan = nan ->
        result (normalizeAudio P [nan] c0_15) w = Returned [nan]
        /\ lt (Math_abs nan) one = false).
Proof.
  split; [vm_compute; reflexivity |].
  split; [vm_compute; reflexivity |].
  split; [vm_compute; reflexivity |].
  split; [vm_compute; reflexivity |].
  split.
  - intros P w Hq Hone.
    rewrite (normalizeAudio_result P one_second_click c0_15 Hq w).
    unfold normalized, one_second_click.
    assert (Hlen : length (replicate (Pos.to_nat 47999) pzero ++ [one])
                   = Pos.to_nat 48000).
    { rewrite length_app, length_replicate. cbn [length]. lia. }
    assert (Hrms : rms_of (replicate (Pos.to_nat 47999) pzero ++ [one])
                   = Math_sqrt (div one (ofZ 48000))).
    { unfold rms_of, length_number.
      rewrite sumSquares_snoc_zeros, Hlen, positive_nat_Z. reflexivity. }
    rewrite Hlen, Hrms.
    destruct (Nat.eqb_spec (Pos.to_nat 48000) 0) as [Hz|_]; [lia |].
    change (strict_eq (Math_sqrt (div one (ofZ 48000))) pzero) with false.
    eexists. split; [reflexivity |].
    rewrite map_app. cbn [map]. rewrite last_snoc. f_equal.
    unfold soft_limit.
    change (mul (mul one (div c0_15 (Math_sqrt (div one (ofZ 48000))))) c0_9)
      with loudest.
    exact Hone.
  - intros P w Hq Hnan.
    rewrite (normalizeAudio_result P [nan] c0_15 Hq w).
    split; [| reflexivity].
    unfold normalized. cbn [length Nat.eqb].
    change (strict_eq (rms_of [nan]) pzero) with false.
    cbn [map]. unfold soft_limit.
    change (mul (mul nan (div c0_15 (rms_of [nan]))) c0_9) with nan.
    rewrite Hnan. reflexivity.
Qed.

(** ** Silence *)

(** C5, as the code has it.  Provided the console does not throw, a
    non-empty signal whose RMS is zero -- which the all-zero signals, and no
    others, have -- is returned as it is: no error, the same all-zero
    samples, and the one division on the way, by the length, is by a
    non-zero number. *)
Theorem silent_signal_is_passed_through (P : Platform) (w : World)
    (audioData : Float32Array) (targetRMS : number) :
  quiet P -> audioData <> [] -> Z.of_nat (length audioData) < 2 ^ 53 ->
  Forall (fun x => is_float32 x = true) audioData ->
  is_zero (length_number audioData) = false
  /\ (strict_eq (rms_of audioData) pzero = true <->
      Forall (fun x => is_zero x = true) audioData)
  /\ (strict_eq (rms_of audioData) pzero = true ->
      result (normalizeAudio P audioData targetRMS) w = Returned audioData).
Proof.
  intros Hq Hne Hlen Ha. split; [| split].
  - destruct (length_number_pos audioData Hne Hlen) as (m & e & ->).
    reflexivity.
  - split.
    + intros Hrms.
      destruct (all_zero_or_not audioData) as [Hzero|Hsome]; [exact Hzero |].
      rewrite (rms_of_nonzero audioData Hlen Ha Hsome) in Hrms.
      discriminate.
    + intros Hz. rewrite (rms_of_zeros audioData Hne Hlen Hz). reflexivity.
  - intros Hrms.
    rewrite (normalizeAudio_result P audioData targetRMS Hq w).
    unfold normalized. rewrite Hrms.
    destruct audioData; [contradiction | reflexivity].
Qed.

Lemma silent_signal_is_passed_through_witness :
  is_zero (length_number [pzero; nzero; pzero]) = false
  /\ (strict_eq (rms_of [pzero; nzero; pzero]) pzero = true <->
      Forall (fun x => is_zero x = true) [pzero; nzero; pzero])
  /\ (strict_eq (rms_of [pzero; nzero; pzero]) pzero = true ->
      result (normalizeAudio quiet_host [pzero; nzero; pzero] c0_15)
        (fresh_world development_config)
      = Returned [pzero; nzero; pzero]).
Proof.
  apply (silent_signal_is_passed_through quiet_host
           (fresh_world development_config) [pzero; nzero; pzero] c0_15).
  - intros l message d. reflexivity.
  - discriminate.
  - vm_compute. reflexivity.
  - repeat constructor.
Defined.

(** C5 fails as stated: on the silent path the warning goes through
    [console.warn] before the return, so with a console that throws the
    call throws although the RMS is zero, at the production level as
    well. *)
Lemma silent_signal_can_raise :
  strict_eq (rms_of [pzero; pzero]) pzero = true
  /\ result (normalizeAudio failing_host [pzero; pzero] c0_15)
       (fresh_world production_config)
     = Thrown (Error "console unavailable").
Proof. split; vm_compute; reflexivity. Qed.

(** * Further properties of the pipeline, the logger and the sanitizer *)

Import LoggerClass Sanitizer State.

(** ** State invariants *)

Lemma keeps_ret {A} (I : World -> Prop) (a : A) : keeps I (ret a).
Proof. intros w Hw. exact Hw. Qed.

Lemma keeps_throw {A} (I : World -> Prop) (e : Exn) : keeps I (@throw A e).
Proof. intros w Hw. exact Hw. Qed.

Lemma keeps_lift {A} (I : World -> Prop) (o : Outcome A) : keeps I (lift o).
Proof. intros w Hw. exact Hw. Qed.

Lemma keeps_bind {A B} (I : World -> Prop) (m : M A) (k : A -> M B) :
  keeps I m -> (forall a, keeps I (k a)) -> keeps I (bind m k).
Proof.
  intros Hm Hk w Hw. unfold bind. specialize (Hm w Hw).
  destruct (m w) as [[a|e] w']; cbn [snd] in *.
  - apply Hk, Hm.
  - exact Hm.
Qed.

Lemma keeps_try_catch {A} (I : World -> Prop) (m : M A) (h : Exn -> M A) :
  keeps I m -> (forall e, keeps I (h e)) -> keeps I (try_catch m h).
Proof.
  intros Hm Hh w Hw. unfold try_catch. specialize (Hm w Hw).
  destruct (m w) as [[a|e] w']; cbn [snd] in *.
  - exact Hm.
  - apply Hh, Hm.
Qed.

Lemma length_tail_pred {A} (l : list A) :
  length (tail l) = Nat.pred (length l).
Proof. destruct l; reflexivity. Qed.

Section Buffers.
Variable P : Platform.

Lemma now_keeps_buffers : keeps bounded_buffers (now P).
Proof. intros w Hw. exact Hw. Qed.

Lemma get_logger_keeps_buffers : keeps bounded_buffers get_logger.
Proof. intros w Hw. exact Hw. Qed.

Lemma deduplicateMessage_keeps_buffers (entry : LogEntry) :
  keeps bounded_buffers (deduplicateMessage P entry).
Proof.
  intros w Hw. unfold deduplicateMessage, bind, get_logger, now, set_logger,
    ret.
  cbn [fst snd].
  destruct (enableDeduplication (config (logger w))); cbn [negb];
    [| exact Hw].
  destruct (lastMessages (logger w) !! _) as [[stored lastSeen]|];
    [destruct (_ <? _) |]; exact Hw.
Qed.

Lemma addEntry_keeps_buffers (entry : LogEntry) :
  keeps bounded_buffers (addEntry entry).
Proof.
  intros w [He Hd]. unfold addEntry, bind, get_logger, set_logger.
  split; [| exact Hd]. cbn [fst snd logger entries config].
  rewrite length_app. cbn [length].
  destruct (Nat.leb_spec (maxEntries (config (logger w)))
                         (length (entries (logger w)))) as [Hfull|Hroom].
  - rewrite length_tail_pred. lia.
  - lia.
Qed.

Lemma console_call_keeps_buffers l message d :
  keeps bounded_buffers (console_call P l message d).
Proof.
  intros w Hw. unfold console_call.
  destruct l; try exact Hw; destruct (console P _ _ _); exact Hw.
Qed.

Lemma log_keeps_buffers l category message d :
  keeps bounded_buffers (log P l category message d).
Proof.
  unfold log. apply keeps_bind; [apply get_logger_keeps_buffers |].
  intros lg. destruct (negb _); [apply keeps_ret |].
  apply keeps_bind; [apply now_keeps_buffers |]. intros t.
  apply keeps_bind; [apply deduplicateMessage_keeps_buffers |].
  intros [e|]; [| apply keeps_ret].
  apply keeps_bind; [apply addEntry_keeps_buffers |]. intros _.
  destruct (enableConsole _);
    [apply console_call_keeps_buffers | apply keeps_ret].
Qed.

Lemma ttsDebugger_log_keeps_buffers stg ok d err :
  keeps bounded_buffers (ttsDebugger_log P stg ok d err).
Proof.
  unfold ttsDebugger_log.
  apply keeps_bind; [apply now_keeps_buffers |]. intros t.
  apply keeps_bind.
  - intros w [He Hd]. split; [exact He |].
    cbn [snd ttsDebugger]. rewrite length_app. cbn [length].
    unfold MAX_LOGS in *.
    destruct (Nat.leb_spec 1000 (length (ttsDebugger w))) as [Hfull|Hroom].
    + rewrite length_tail_pred. lia.
    + lia.
  - intros _. destruct ok; apply log_keeps_buffers.
Qed.

Lemma validateAudioData_keeps_buffers audioData stg :
  keeps bounded_buffers (validateAudioData P audioData stg).
Proof. apply log_keeps_buffers. Qed.

Lemma normalizeAudio_keeps_buffers audioData targetRMS :
  keeps bounded_buffers (normalizeAudio P audioData targetRMS).
Proof.
  unfold normalizeAudio.
  apply keeps_bind; [apply log_keeps_buffers |]. intros _.
  apply keeps_bind; [apply validateAudioData_keeps_buffers |]. intros _.
  destruct (_ =? _)%nat.
  - apply keeps_bind; [apply log_keeps_buffers | intros; apply keeps_throw].
  - destruct (strict_eq _ _).
    + apply keeps_bind; [apply log_keeps_buffers | intros; apply keeps_ret].
    + apply keeps_bind; [apply validateAudioData_keeps_buffers |]. intros _.
      apply keeps_bind; [apply log_keeps_buffers | intros; apply keeps_ret].
Qed.

Lemma upsampleAudio_keeps_buffers audioData inputSampleRate outputSampleRate :
  keeps bounded_buffers
    (upsampleAudio P audioData inputSampleRate outputSampleRate).
Proof.
  unfold upsampleAudio.
  apply keeps_bind; [apply ttsDebugger_log_keeps_buffers |]. intros _.
  apply keeps_bind; [apply validateAudioData_keeps_buffers |]. intros _.
  destruct (_ =? _)%nat.
  - apply keeps_bind; [apply ttsDebugger_log_keeps_buffers |].
    intros; apply keeps_throw.
  - apply keeps_bind; [apply keeps_lift |]. intros allocated.
    apply keeps_bind; [apply validateAudioData_keeps_buffers |]. intros _.
    apply keeps_bind; [apply ttsDebugger_log_keeps_buffers |].
    intros; apply keeps_ret.
Qed.

Lemma write_pcm_keeps_buffers samples :
  forall offset view, keeps bounded_buffers (write_pcm P samples offset view).
Proof.
  induction samples as [|sample rest IH]; intros offset view; cbn [write_pcm].
  - apply keeps_ret.
  - apply keeps_bind; [intros w Hw; exact Hw |]. intros draws.
    apply keeps_bind; [apply keeps_lift |]. intros view'. apply IH.
Qed.

Lemma validate_header_keeps_buffers view :
  keeps bounded_buffers (validate_header P view).
Proof.
  unfold validate_header.
  apply keeps_bind; [apply keeps_lift |]. intros h.
  apply keeps_bind; [apply log_keeps_buffers |]. intros _.
  destruct (header_rejected h).
  - apply keeps_bind; [apply log_keeps_buffers | intros; apply keeps_throw].
  - apply keeps_ret.
Qed.

Lemma encode_keeps_buffers audioData sampleRate :
  keeps bounded_buffers (encode P audioData sampleRate).
Proof.
  unfold encode.
  apply keeps_bind; [apply normalizeAudio_keeps_buffers |]. intros na.
  apply keeps_bind; [apply upsampleAudio_keeps_buffers |]. intros ua.
  apply keeps_bind; [apply ttsDebugger_log_keeps_buffers |]. intros _.
  apply keeps_bind; [apply keeps_lift |]. intros view.
  apply keeps_bind; [apply validate_header_keeps_buffers |]. intros _.
  apply keeps_bind; [apply write_pcm_keeps_buffers |]. intros view'.
  apply keeps_bind; [apply log_keeps_buffers |]. intros _.
  apply keeps_bind; [apply ttsDebugger_log_keeps_buffers |].
  intros; apply keeps_ret.
Qed.

End Buffers.

(** X1. The logger's entry buffer and the debugger's record buffer stay
    within their caps across a whole call of [createAudioBlob], whatever the
    input, the host and the outcome (returned or thrown). *)
Theorem createAudioBlob_keeps_buffers_bounded (P : Platform)
    (audioData : Float32Array) (sampleRate : number) (w : World) :
  bounded_buffers w ->
  bounded_buffers (snd (createAudioBlob P audioData sampleRate w)).
Proof.
  revert w. change (keeps bounded_buffers (createAudioBlob P audioData sampleRate)).
  unfold createAudioBlob.
  apply keeps_bind; [apply ttsDebugger_log_keeps_buffers |]. intros _.
  destruct (_ =? _)%nat.
  - apply keeps_bind; [apply ttsDebugger_log_keeps_buffers |].
    intros; apply keeps_throw.
  - destruct (_ || _).
    + apply keeps_bind; [apply ttsDebugger_log_keeps_buffers |].
      intros; apply keeps_throw.
    + apply keeps_try_catch; [apply encode_keeps_buffers |]. intros e.
      apply keeps_bind; [apply ttsDebugger_log_keeps_buffers |].
      intros; apply keeps_throw.
Qed.

Lemma createAudioBlob_keeps_buffers_bounded_witness :
  bounded_buffers
    (snd (createAudioBlob failing_host click c48000
            (fresh_world development_config))).
Proof.
  apply (createAudioBlob_keeps_buffers_bounded failing_host click c48000
           (fresh_world development_config)).
  split; cbn; unfold MAX_LOGS; lia.
Defined.

Lemma steps_bind {A B} (R : World -> World -> Prop) (m : M A)
    (k : A -> M B) :
  (forall x y z, R x y -> R y z -> R x z) ->
  steps R m -> (forall a, steps R (k a)) -> steps R (bind m k).
Proof.
  intros Htrans Hm Hk w. unfold bind. specialize (Hm w).
  destruct (m w) as [[a|e] w']; cbn [snd] in *.
  - eapply Htrans; [exact Hm | apply Hk].
  - exact Hm.
Qed.

Lemma buffer_grows_refl (w : World) : buffer_grows w w.
Proof. unfold buffer_grows. split; [reflexivity | lia]. Qed.

Lemma buffer_grows_trans (x y z : World) :
  buffer_grows x y -> buffer_grows y z -> buffer_grows x z.
Proof.
  unfold buffer_grows. intros (Hc1 & Hl1 & Hu1) (Hc2 & Hl2 & Hu2).
  rewrite Hc1 in *. split; [congruence | lia].
Qed.

Lemma log_buffer_grows (P : Platform) (l : LogLevel)
    (category message : string) (d : LogVal) :
  steps buffer_grows (log P l category message d).
Proof.
  assert (Hsame : forall {A} (m : M A),
            (forall w, logger (snd (m w)) = logger w) ->
            steps buffer_grows m).
  { intros A m H w. unfold buffer_grows. rewrite H. split; [reflexivity | lia]. }
  unfold log.
  apply steps_bind; [apply buffer_grows_trans | apply Hsame; reflexivity |].
  intros lg. destruct (negb _); [apply Hsame; reflexivity |].
  apply steps_bind; [apply buffer_grows_trans | apply Hsame; reflexivity |].
  intros t.
  apply steps_bind; [apply buffer_grows_trans | |].
  - intros w. unfold deduplicateMessage, bind, get_logger, now, set_logger,
      ret. cbn [fst snd logger].
    destruct (enableDeduplication (config (logger w))); cbn [negb fst snd];
      [| apply buffer_grows_refl].
    destruct (lastMessages (logger w) !! _) as [[stored lastSeen]|];
      [destruct (_ <? _) |]; cbn [fst snd];
      (split; [reflexivity | cbn [logger entries config]; lia]).
  - intros [e|]; [| apply Hsame; reflexivity].
    apply steps_bind; [apply buffer_grows_trans | |].
    + intros w. unfold addEntry, bind, get_logger, set_logger.
      cbn [fst snd logger]. split; [reflexivity |].
      cbn [logger entries config]. rewrite length_app. cbn [length].
      destruct (Nat.leb_spec (maxEntries (config (logger w)))
                             (length (entries (logger w)))).
      * rewrite length_tail_pred. lia.
      * lia.
    + intros _. apply Hsame. intros w.
      destruct (enableConsole _); [| reflexivity]. unfold console_call.
      destruct l; try reflexivity; destruct (console P _ _ _); reflexivity.
Qed.

(** X2. A log call leaves the configuration alone, never shrinks the entry
    buffer, and never lets it grow past the larger of its present length and
    the cap: a buffer within the cap stays within it, and one left over-full
    by a lowered [maxEntries] is never trimmed. *)
Theorem log_never_shrinks_the_buffer (P : Platform) (l : LogLevel)
    (category message : string) (d : LogVal) (w : World) :
  let w' := snd (log P l category message d w) in
  config (logger w') = config (logger w)
  /\ (length (entries (logger w)) <= length (entries (logger w')))%nat
  /\ (length (entries (logger w'))
      <= Nat.max (length (entries (logger w)))
                 (Nat.max 1 (maxEntries (config (logger w)))))%nat.
Proof.
  intros w'. pose proof (log_buffer_grows P l category message d w) as H.
  unfold buffer_grows in H. fold w' in H.
  destruct H as (Hc & Hlo & Hhi). split; [exact Hc |]. split; assumption.
Qed.

(** ** Above the DEBUG level *)

Lemma holds_ret {A} (I : World -> Prop) (a : A) (Q : Outcome A -> Prop) :
  Q (Returned a) -> holds I (ret a) Q.
Proof. intros HQ w Hw. split; assumption. Qed.

Lemma holds_lift {A} (I : World -> Prop) (o : Outcome A)
    (Q : Outcome A -> Prop) :
  Q o -> holds I (lift o) Q.
Proof. intros HQ w Hw. split; assumption. Qed.

Lemma holds_bind {A B} (I : World -> Prop) (m : M A) (k : A -> M B)
    (R : Outcome A -> Prop) (Q : Outcome B -> Prop) :
  holds I m R ->
  (forall a, R (Returned a) -> holds I (k a) Q) ->
  (forall e, R (Thrown e) -> Q (Thrown e)) ->
  holds I (bind m k) Q.
Proof.
  intros Hm Hk He w Hw. unfold bind. destruct (Hm w Hw) as [HR HI].
  destruct (m w) as [[a|e] w']; cbn [fst snd] in *.
  - apply Hk; assumption.
  - split; [apply He, HR | exact HI].
Qed.

Lemma holds_then {A B} (I : World -> Prop) (m : M A) (k : A -> M B)
    (a : A) (Q : Outcome B -> Prop) :
  holds I m (fun o => o = Returned a) -> holds I (k a) Q ->
  holds I (bind m k) Q.
Proof.
  intros Hm Hk. eapply holds_bind; [exact Hm | |].
  - intros a' Ha. injection Ha as ->. exact Hk.
  - intros e He. discriminate.
Qed.

Lemma holds_try_catch {A} (I : World -> Prop) (m : M A) (h : Exn -> M A)
    (R Q : Outcome A -> Prop) :
  holds I m R ->
  (forall a, R (Returned a) -> Q (Returned a)) ->
  (forall e, R (Thrown e) -> holds I (h e) Q) ->
  holds I (try_catch m h) Q.
Proof.
  intros Hm Ha Hh w Hw. unfold try_catch. destruct (Hm w Hw) as [HR HI].
  destruct (m w) as [[a|e] w']; cbn [fst snd] in *.
  - split; [apply Ha, HR | exact HI].
  - apply Hh; assumption.
Qed.

Lemma holds_post {A} (I : World -> Prop) (m : M A) (Q : Outcome A -> Prop) :
  post m Q -> keeps I m -> holds I m Q.
Proof. intros Hp Hk w Hw. split; [apply Hp | apply Hk, Hw]. Qed.

Section AboveDebug.
Variable P : Platform.
Variable lg : Logger.
Hypothesis Hlevel : level (config lg) <> DEBUG.

Lemma debug_filtered category message d :
  holds (fun w => logger w = lg) (debug P category message d)
        (fun o => o = Returned tt).
Proof.
  intros w Hw. unfold debug, log, bind, get_logger. cbn [fst snd].
  rewrite Hw. unfold shouldLog.
  destruct (level (config lg)); try contradiction; cbn; split; congruence.
Qed.

Lemma ttsDebugger_log_filtered stg d err :
  holds (fun w => logger w = lg) (ttsDebugger_log P stg true d err)
        (fun o => o = Returned tt).
Proof.
  unfold ttsDebugger_log.
  eapply holds_bind with (R := fun o => exists t, o = Returned t).
  - intros w Hw. split; [eexists; reflexivity | exact Hw].
  - intros t _. eapply holds_then.
    + intros w Hw. split; [reflexivity | exact Hw].
    + apply debug_filtered.
  - intros e [t Ht]. discriminate.
Qed.

Lemma validateAudioData_filtered audioData stg :
  holds (fun w => logger w = lg) (validateAudioData P audioData stg)
        (fun o => o = Returned tt).
Proof. apply debug_filtered. Qed.

Lemma upsampleAudio_filtered audioData inputSampleRate outputSampleRate :
  audioData <> [] ->
  holds (fun w => logger w = lg)
        (upsampleAudio P audioData inputSampleRate outputSampleRate)
        (fun o => o = upsampled audioData inputSampleRate outputSampleRate).
Proof.
  intros Hne. unfold upsampleAudio, upsampled.
  eapply holds_then; [apply ttsDebugger_log_filtered |].
  eapply holds_then; [apply validateAudioData_filtered |].
  destruct audioData as [|x rest]; [contradiction |]. cbn [length Nat.eqb].
  destruct (new_Float32Array _) as [allocated|e].
  - eapply holds_then; [apply holds_lift; reflexivity |].
    eapply holds_then; [apply validateAudioData_filtered |].
    eapply holds_then; [apply ttsDebugger_log_filtered |].
    apply holds_ret. reflexivity.
  - eapply holds_bind with (R := fun o => o = Thrown e).
    + apply holds_lift. reflexivity.
    + intros a Ha. discriminate.
    + intros e' He'. congruence.
Qed.

Lemma normalizeAudio_filtered audioData targetRMS :
  audioData <> [] -> strict_eq (rms_of audioData) pzero = false ->
  holds (fun w => logger w = lg) (normalizeAudio P audioData targetRMS)
        (fun o => o = normalized P audioData targetRMS).
Proof.
  intros Hne Hrms. unfold normalizeAudio, normalized.
  eapply holds_then; [apply debug_filtered |].
  eapply holds_then; [apply validateAudioData_filtered |].
  destruct audioData as [|x rest]; [contradiction |]. cbn [length Nat.eqb].
  rewrite Hrms.
  eapply holds_then; [apply validateAudioData_filtered |].
  eapply holds_then; [apply debug_filtered |].
  apply holds_ret. reflexivity.
Qed.

Lemma validate_header_filtered (len : nat) (rest : list Z) :
  holds (fun w => logger w = lg)
        (validate_header P (header_bytes len ++ rest))
        (fun o => o = Returned tt).
Proof.
  destruct (read_header_44 (header_bytes len ++ rest)) as (h & Hh & Hr & Hw).
  { rewrite length_app, length_header_bytes. lia. }
  assert (Hacc : header_rejected h = false).
  { apply not_true_iff_false. rewrite header_rejected_iff, Hr, Hw.
    intros [Hne | Hne]; apply Hne; reflexivity. }
  unfold validate_header. rewrite Hh.
  eapply holds_then; [apply holds_lift; reflexivity |].
  eapply holds_then; [apply debug_filtered |].
  rewrite Hacc. apply holds_ret. reflexivity.
Qed.

Lemma write_pcm_keeps_logger samples :
  forall offset view,
    keeps (fun w => logger w = lg) (write_pcm P samples offset view).
Proof.
  induction samples as [|sample rest IH]; intros offset view; cbn [write_pcm].
  - apply keeps_ret.
  - apply keeps_bind; [intros w Hw; exact Hw |]. intros draws.
    apply keeps_bind; [apply keeps_lift |]. intros view'. apply IH.
Qed.

Lemma encode_filtered audioData sampleRate up :
  audioData <> [] -> strict_eq (rms_of audioData) pzero = false ->
  processed P audioData sampleRate = Returned up ->
  holds (fun w => logger w = lg) (encode P audioData sampleRate) (encoded up).
Proof.
  intros Hne Hrms Hup. unfold encode. unfold processed in Hup.
  destruct (normalized_returns P audioData c0_15 Hne)
    as (normalizedAudio & Hnorm & Hlen).
  rewrite Hnorm in Hup.
  eapply holds_then.
  { rewrite <- Hnorm. apply normalizeAudio_filtered; assumption. }
  eapply holds_then.
  { rewrite <- Hup. apply upsampleAudio_filtered.
    intros ->. destruct audioData; [contradiction | discriminate]. }
  eapply holds_then; [apply ttsDebugger_log_filtered |].
  rewrite write_header_bytes.
  eapply holds_then; [apply holds_lift; reflexivity |].
  eapply holds_then; [apply validate_header_filtered |].
  eapply holds_bind.
  - apply holds_post; [| apply write_pcm_keeps_logger].
    apply write_pcm_frame with (offset := 44%nat).
    rewrite length_app, length_header_bytes, length_replicate. lia.
  - intros view (view' & Hv & Hvlen & Htake). injection Hv as <-.
    eapply holds_then; [apply debug_filtered |].
    eapply holds_then; [apply ttsDebugger_log_filtered |].
    apply holds_ret. exists view. split; [reflexivity |].
    rewrite Hvlen, Htake, length_app, length_header_bytes, length_replicate.
    split; [lia |].
    apply take_app_length'. symmetry. apply length_header_bytes.
  - intros e (view' & Hv & _). discriminate.
Qed.

End AboveDebug.

(** X3. Unless the logger is at the DEBUG level, the normalizer (on a
    signal that is not silent) and the converter never reach the console on
    a non-empty input: whatever the console does, each returns what it
    computes and leaves the logger as it was. *)
Theorem stages_are_console_free_above_debug (P : Platform) (w : World)
    (audioData : Float32Array) :
  level (config (logger w)) <> DEBUG -> audioData <> [] ->
  (forall inputSampleRate outputSampleRate,
     let r := upsampleAudio P audioData inputSampleRate outputSampleRate w in
     fst r = upsampled audioData inputSampleRate outputSampleRate
     /\ logger (snd r) = logger w)
  /\ (forall targetRMS,
        strict_eq (rms_of audioData) pzero = false ->
        let r := normalizeAudio P audioData targetRMS w in
        fst r = normalized P audioData targetRMS
        /\ logger (snd r) = logger w).
Proof.
  intros Hlevel Hne. split.
  - intros inputSampleRate outputSampleRate r.
    apply (upsampleAudio_filtered P (logger w) Hlevel audioData
             inputSampleRate outputSampleRate Hne w eq_refl).
  - intros targetRMS Hrms r.
    apply (normalizeAudio_filtered P (logger w) Hlevel audioData targetRMS
             Hne Hrms w eq_refl).
Qed.

Lemma stages_are_console_free_above_debug_witness :
  (forall inputSampleRate outputSampleRate,
     let r := upsampleAudio failing_host click inputSampleRate
                outputSampleRate (fresh_world production_config) in
     fst r = upsampled click inputSampleRate outputSampleRate
     /\ logger (snd r) = logger (fresh_world production_config))
  /\ (forall targetRMS,
        strict_eq (rms_of click) pzero = false ->
        let r := normalizeAudio failing_host click targetRMS
                   (fresh_world production_config) in
        fst r = normalized failing_host click targetRMS
        /\ logger (snd r) = logger (fresh_world production_config)).
Proof.
  apply (stages_are_console_free_above_debug failing_host
           (fresh_world production_config) click).
  - discriminate.
  - discriminate.
Defined.

(** ** The debugger's records *)

Lemma log_keeps_records (P : Platform) (l : LogLevel)
    (category message : string) (d : LogVal) :
  steps (fun w w' => ttsDebugger w' = ttsDebugger w)
        (log P l category message d).
Proof.
  assert (Htrans : forall x y z : World,
            ttsDebugger y = ttsDebugger x -> ttsDebugger z = ttsDebugger y ->
            ttsDebugger z = ttsDebugger x) by (intros; congruence).
  unfold log.
  apply steps_bind; [exact Htrans | intros w; reflexivity |]. intros lg.
  destruct (negb _); [intros w; reflexivity |].
  apply steps_bind; [exact Htrans | intros w; reflexivity |]. intros t.
  apply steps_bind; [exact Htrans | |].
  - intros w. unfold deduplicateMessage, bind, get_logger, now, set_logger,
      ret. cbn [fst snd logger].
    destruct (enableDeduplication (config (logger w))); cbn [negb fst snd];
      [| reflexivity].
    destruct (lastMessages (logger w) !! _) as [[stored lastSeen]|];
      [destruct (_ <? _) |]; reflexivity.
  - intros [e|]; [| intros w; reflexivity].
    apply steps_bind; [exact Htrans | intros w; reflexivity |].
    intros _ w. destruct (enableConsole _); [| reflexivity].
    unfold console_call.
    destruct l; try reflexivity; destruct (console P _ _ _); reflexivity.
Qed.

(** The record [ttsDebugger.log] stores at time [t]. *)
Lemma ttsDebugger_log_records (P : Platform) (stg : string) (ok : bool)
    (d : LogVal) (err : option string) (w : World) :
  ttsDebugger (snd (ttsDebugger_log P stg ok d err w))
  = (if (MAX_LOGS <=? length (ttsDebugger w))%nat
     then tail (ttsDebugger w) else ttsDebugger w)
    ++ [{| di_stage := stg; di_success := ok; di_data := d; di_error := err;
           di_timestamp := Date_now P (clock w) |}].
Proof.
  unfold ttsDebugger_log, bind at 1, now. cbn [fst snd].
  unfold bind at 1. cbn [fst snd].
  match goal with
  | |- ttsDebugger (snd (?m ?w')) = _ =>
      transitivity (ttsDebugger w');
      [| reflexivity]
  end.
  destruct ok; apply log_keeps_records.
Qed.

(** X5. [ttsDebugger.log] stores its record before it reports it: whatever
    the logger and the console do (a throwing console included), the record
    is the newest one afterwards, the buffer having dropped its oldest
    record if it was full; a failure is then the last of [getFailures]. *)
Theorem debugger_records_before_reporting (P : Platform) (stg : string)
    (ok : bool) (d : LogVal) (err : option string) (w : World) :
  let record := {| di_stage := stg; di_success := ok; di_data := d;
                   di_error := err; di_timestamp := Date_now P (clock w) |} in
  let w' := snd (ttsDebugger_log P stg ok d err w) in
  ttsDebugger w'
  = (if (MAX_LOGS <=? length (ttsDebugger w))%nat
     then tail (ttsDebugger w) else ttsDebugger w) ++ [record]
  /\ fst (getLogs w') = Returned (ttsDebugger w')
  /\ (ok = false ->
      exists failures, fst (getFailures w') = Returned failures
                       /\ last failures = Some record).
Proof.
  intros record w'.
  pose proof (ttsDebugger_log_records P stg ok d err w) as Hrec.
  fold w' in Hrec. fold record in Hrec.
  split; [exact Hrec |]. split; [reflexivity |].
  intros ->. eexists. split; [reflexivity |].
  cbn [snd]. rewrite Hrec, List.filter_app.
  cbn [List.filter di_success negb record].
  apply last_snoc.
Qed.

Lemma accepted_rate_positive (sampleRate : number) :
  accepted_rate sampleRate = lt pzero sampleRate.
Proof. destruct sampleRate as [[|]|[|]| |[|] m e]; reflexivity. Qed.

Lemma bind_run {A B} (m : M A) (k : A -> M B) (w w1 : World) (a : A) :
  m w = (Returned a, w1) -> bind m k w = k a w1.
Proof. intros H. unfold bind. rewrite H. reflexivity. Qed.

Lemma ttsDebugger_log_runs (P : Platform) (stg : string) (ok : bool)
    (d : LogVal) (err : option string) (w : World) :
  quiet P ->
  exists w1, ttsDebugger_log P stg ok d err w = (Returned tt, w1).
Proof.
  intros Hq. pose proof (ttsDebugger_log_returns P Hq stg ok d err w) as Hret.
  unfold result in Hret.
  destruct (ttsDebugger_log P stg ok d err w) as [[[]|e0] w1];
    cbn [fst] in Hret; [| discriminate].
  exists w1. reflexivity.
Qed.

Lemma throw_after_record (P : Platform) (stg : string) (d : LogVal)
    (err : string) (e : Exn) (w : World) :
  quiet P ->
  let r := (ttsDebugger_log P stg false d (Some err) ;; @throw Blob e)%js w in
  fst r = Thrown e
  /\ exists record,
       last (ttsDebugger (snd r)) = Some record
       /\ di_stage record = stg /\ di_success record = false
       /\ di_error record = Some err.
Proof.
  intros Hq r. unfold r, bind.
  pose proof (ttsDebugger_log_returns P Hq stg false d (Some err) w) as Hret.
  pose proof (ttsDebugger_log_records P stg false d (Some err) w) as Hrec.
  unfold result in Hret.
  destruct (ttsDebugger_log P stg false d (Some err) w) as [[u|e0] w1];
    cbn [fst snd] in *; [| discriminate].
  unfold throw. cbn [fst snd].
  split; [reflexivity |].
  eexists. split; [rewrite Hrec; apply last_snoc |].
  repeat split.
Qed.

(** X6. [createAudioBlob] accepts exactly the sample rates above zero
    (Infinity included): given a non-empty signal and a rate that is NaN, a
    zero or negative, it throws 'Invalid sample rate for audio blob
    creation' and leaves a failure record 'Invalid sample rate' as the
    debugger's newest record. *)
Theorem invalid_sample_rate_is_rejected (P : Platform) (w : World)
    (audioData : Float32Array) (sampleRate : number) :
  quiet P -> audioData <> [] -> lt pzero sampleRate = false ->
  let r := createAudioBlob P audioData sampleRate w in
  fst r = Thrown (Error "Invalid sample rate for audio blob creation")
  /\ exists record,
       last (ttsDebugger (snd r)) = Some record
       /\ di_stage record = "createAudioBlob"%string
       /\ di_success record = false
       /\ di_error record = Some "Invalid sample rate"%string.
Proof.
  intros Hq Hne Hrate r. unfold r, createAudioBlob.
  match goal with
  | |- context [ttsDebugger_log P ?s true ?d None] =>
      destruct (ttsDebugger_log_runs P s true d None w Hq) as [w1 Hstart]
  end.
  rewrite !(bind_run _ _ _ _ _ Hstart).
  destruct audioData as [|x rest]; [contradiction |]. cbn [length Nat.eqb].
  rewrite <- accepted_rate_positive in Hrate. unfold accepted_rate in Hrate.
  apply negb_false_iff in Hrate. rewrite Hrate.
  apply throw_after_record, Hq.
Qed.

Lemma invalid_sample_rate_is_rejected_witness :
  let r := createAudioBlob quiet_host click nan
             (fresh_world development_config) in
  fst r = Thrown (Error "Invalid sample rate for audio blob creation")
  /\ exists record,
       last (ttsDebugger (snd r)) = Some record
       /\ di_stage record = "createAudioBlob"%string
       /\ di_success record = false
       /\ di_error record = Some "Invalid sample rate"%string.
Proof.
  apply (invalid_sample_rate_is_rejected quiet_host
           (fresh_world development_config) click nan).
  - intros l message d. reflexivity.
  - discriminate.
  - reflexivity.
Defined.

(** X7. Whenever [createAudioBlob] throws (the console not failing), the
    debugger's newest record is a failure of stage 'createAudioBlob': with
    the text 'Audio data is empty or null' for an empty signal, 'Invalid
    sample rate' for a rejected rate, and otherwise the message of the very
    error that is rethrown. *)
Theorem createAudioBlob_failure_is_recorded (P : Platform) (w : World)
    (audioData : Float32Array) (sampleRate : number) (e : Exn) :
  quiet P ->
  fst (createAudioBlob P audioData sampleRate w) = Thrown e ->
  exists record,
    last (ttsDebugger (snd (createAudioBlob P audioData sampleRate w)))
    = Some record
    /\ di_stage record = "createAudioBlob"%string
    /\ di_success record = false
    /\ di_error record
       = Some (if (length audioData =? 0)%nat
               then "Audio data is empty or null"%string
               else if accepted_rate sampleRate then exn_message e
                    else "Invalid sample rate"%string).
Proof.
  intros Hq. unfold createAudioBlob.
  match goal with
  | |- context [ttsDebugger_log P ?s true ?d None] =>
      destruct (ttsDebugger_log_runs P s true d None w Hq) as [w1 Hstart]
  end.
  rewrite !(bind_run _ _ _ _ _ Hstart).
  destruct (length audioData =? 0)%nat.
  - intros _. apply throw_after_record, Hq.
  - unfold accepted_rate.
    destruct (negb (truthy sampleRate) || le sampleRate pzero); cbn [negb].
    + intros _. apply throw_after_record, Hq.
    + unfold try_catch.
      destruct (encode P audioData sampleRate w1) as [[blob|e'] w2];
        [discriminate |].
      intros Hthrown.
      match goal with
      | |- context [(ttsDebugger_log P ?s false ?d (Some ?m) ;; throw e')%js w2] =>
          destruct (throw_after_record P s d m e' w2 Hq) as (Hfst & Hrec)
      end.
      rewrite Hfst in Hthrown. injection Hthrown as ->.
      exact Hrec.
Qed.

Lemma createAudioBlob_failure_is_recorded_witness :
  exists record,
    last (ttsDebugger
            (snd (createAudioBlob quiet_host click
                    (S754_finite false 4503599627370496 (-1074))
                    (fresh_world development_config))))
    = Some record
    /\ di_stage record = "createAudioBlob"%string
    /\ di_success record = false
    /\ di_error record
       = Some (if (length click =? 0)%nat
               then "Audio data is empty or null"%string
               else if accepted_rate
                         (S754_finite false 4503599627370496 (-1074))
                    then exn_message
                           (RangeError "Invalid typed array length")
                    else "Invalid sample rate"%string).
Proof.
  apply (createAudioBlob_failure_is_recorded quiet_host
           (fresh_world development_config) click
           (S754_finite false 4503599627370496 (-1074))
           (RangeError "Invalid typed array length")).
  - intros l message d. reflexivity.
  - vm_compute. reflexivity.
Defined.

(** ** Deduplication *)

Lemma string_app_empty (s : string) : (s ++ "")%string = s.
Proof.
  induction s as [|c s IH]; [reflexivity |].
  change (String c s ++ "")%string with (String c (s ++ "")%string).
  f_equal. exact IH.
Qed.

(** The count [(existing.entry.count || 1) + 1] gives a stored record. *)
Lemma log_duplicate_run (P : Platform) (l : LogLevel)
    (category message : string) (d : LogVal) (w : World)
    (stored : LogEntry) (seen : Z) :
  shouldLog (config (logger w)) l = true ->
  enableDeduplication (config (logger w)) = true ->
  lastMessages (logger w) !! key_of category message = Some (stored, seen) ->
  (Date_now P (S (clock w)) - seen
   <? deduplicationWindow (config (logger w))) = true ->
  log P l category message d w
  = (Returned tt,
     {| logger :=
          {| config := config (logger w);
             entries := entries (logger w);
             lastMessages :=
               <[key_of category message :=
                   (with_count stored
                      (match le_count stored with
                       | Some c => if c =? 0 then 1 else c
                       | None => 1
                       end + 1),
                    Date_now P (S (clock w)))]> (lastMessages (logger w)) |};
        ttsDebugger := ttsDebugger w;
        clock := S (S (clock w));
        entropy := entropy w |}).
Proof.
  intros Hlevel Hdedup Hlook Hage.
  unfold log, bind, get_logger. cbn [fst snd].
  rewrite Hlevel. cbn [negb]. unfold now at 1. cbn [fst snd].
  unfold deduplicateMessage, bind, get_logger, now, set_logger, ret.
  cbn [fst snd logger clock le_category le_message].
  rewrite Hdedup. cbn [negb].
  unfold key_of in Hlook. rewrite Hlook. cbn [fst snd clock].
  rewrite Hage. reflexivity.
Qed.

(** What a call that is neither filtered nor a duplicate does. *)
Lemma log_fresh_run (P : Platform) (l : LogLevel)
    (category message : string) (d : LogVal) (w : World) :
  shouldLog (config (logger w)) l = true ->
  enableDeduplication (config (logger w)) = true ->
  match lastMessages (logger w) !! key_of category message with
  | Some (_, seen) =>
      (Date_now P (S (clock w)) - seen
       <? deduplicationWindow (config (logger w))) = false
  | None => True
  end ->
  let entry := {| le_level := l; le_category := category;
                  le_message := message; le_data := d;
                  le_timestamp := Date_now P (clock w);
                  le_count := None |} in
  log P l category message d w
  = ((if enableConsole (config (logger w))
      then match l with
           | NONE => Returned tt
           | _ => match console P l ("[" ++ category ++ "] " ++ message) d with
                  | Some e => Thrown e
                  | None => Returned tt
                  end
           end
      else Returned tt),
     {| logger :=
          {| config := config (logger w);
             entries :=
               (if (maxEntries (config (logger w))
                    <=? length (entries (logger w)))%nat
                then tail (entries (logger w)) else entries (logger w))
               ++ [entry];
             lastMessages :=
               <[key_of category message :=
                   (with_count entry 1, Date_now P (S (clock w)))]>
                 (lastMessages (logger w)) |};
        ttsDebugger := ttsDebugger w;
        clock := S (S (clock w));
        entropy := entropy w |}).
Proof.
  intros Hlevel Hdedup Hlook entry.
  unfold log, bind, get_logger. cbn [fst snd].
  rewrite Hlevel. cbn [negb]. unfold now at 1. cbn [fst snd].
  unfold deduplicateMessage, bind, get_logger, now, set_logger, ret.
  cbn [fst snd logger clock le_category le_message].
  rewrite Hdedup. cbn [negb]. fold entry.
  unfold key_of in *.
  assert (Hfmt : formatMessage entry
                 = ("[" ++ category ++ "] " ++ message)%string).
  { unfold formatMessage. cbn [le_count le_category le_message entry].
    rewrite string_app_empty. reflexivity. }
  assert (Hcons : forall wa : World,
            (if enableConsole (config (logger w))
             then console_call P l (formatMessage entry) d
             else ret tt) wa
            = ((if enableConsole (config (logger w))
                then match l with
                     | NONE => Returned tt
                     | _ => match console P l
                                    ("[" ++ category ++ "] " ++ message) d with
                            | Some e => Thrown e
                            | None => Returned tt
                            end
                     end
                else Returned tt), wa)).
  { intros wa. rewrite Hfmt. destruct (enableConsole _); [| reflexivity].
    unfold console_call.
    destruct l; try reflexivity; destruct (console P _ _ _); reflexivity. }
  destruct (lastMessages (logger w) !! _) as [[stored seen]|].
  - cbn [fst snd clock]. rewrite Hlook. cbn [fst snd].
    unfold addEntry, bind, get_logger, set_logger.
    cbn [fst snd logger config entries lastMessages].
    rewrite Hcons. reflexivity.
  - cbn [fst snd].
    unfold addEntry, bind, get_logger, set_logger.
    cbn [fst snd logger config entries lastMessages].
    rewrite Hcons. reflexivity.
Qed.

(** After a call that passes the level filter, the message's key is on
    record with the time of the call. *)
Lemma log_marks_key (P : Platform) (l : LogLevel)
    (category message : string) (d : LogVal) (w : World) :
  shouldLog (config (logger w)) l = true ->
  enableDeduplication (config (logger w)) = true ->
  let w1 := snd (log P l category message d w) in
  config (logger w1) = config (logger w)
  /\ clock w1 = S (S (clock w))
  /\ exists stored,
       lastMessages (logger w1) !! key_of category message
       = Some (stored, Date_now P (S (clock w))).
Proof.
  intros Hlevel Hdedup w1. unfold w1.
  destruct (lastMessages (logger w) !! key_of category message)
    as [[stored seen]|] eqn:Hlook.
  - destruct (Date_now P (S (clock w)) - seen
              <? deduplicationWindow (config (logger w))) eqn:Hage.
    + rewrite (log_duplicate_run P l category message d w stored seen
                 Hlevel Hdedup Hlook Hage).
      cbn [snd logger config clock lastMessages].
      split; [reflexivity |]. split; [reflexivity |].
      eexists. apply lookup_insert_eq.
    + rewrite (log_fresh_run P l category message d w Hlevel Hdedup).
      2: { rewrite Hlook. exact Hage. }
      cbn [snd logger config clock lastMessages].
      split; [reflexivity |]. split; [reflexivity |].
      eexists. apply lookup_insert_eq.
  - rewrite (log_fresh_run P l category message d w Hlevel Hdedup).
    2: { rewrite Hlook. exact I. }
    cbn [snd logger config clock lastMessages].
    split; [reflexivity |]. split; [reflexivity |].
    eexists. apply lookup_insert_eq.
Qed.

(** X8. A message whose key [category:message] repeats that of the call
    before it within the deduplication window is dropped: whatever its
    level and data, the call returns without storing an entry or reaching
    the console, and only raises the stored count and the time last seen.
    The key is the bare concatenation, so a different category and message
    with the same key are dropped alike. *)
Theorem repeated_message_is_dropped (P : Platform) (l l' : LogLevel)
    (category message category' message' : string) (d d' : LogVal)
    (w : World) :
  shouldLog (config (logger w)) l = true ->
  shouldLog (config (logger w)) l' = true ->
  enableDeduplication (config (logger w)) = true ->
  key_of category' message' = key_of category message ->
  Date_now P (S (S (S (clock w)))) - Date_now P (S (clock w))
  < deduplicationWindow (config (logger w)) ->
  let w1 := snd (log P l category message d w) in
  let r2 := log P l' category' message' d' w1 in
  fst r2 = Returned tt
  /\ entries (logger (snd r2)) = entries (logger w1)
  /\ exists stored,
       lastMessages (logger w1) !! key_of category message
       = Some (stored, Date_now P (S (clock w)))
       /\ lastMessages (logger (snd r2)) !! key_of category message
          = Some (with_count stored
                    (match le_count stored with
                     | Some c => if c =? 0 then 1 else c
                     | None => 1
                     end + 1),
                  Date_now P (S (S (S (clock w))))).
Proof.
  intros Hlevel Hlevel' Hdedup Hkey Hage w1 r2.
  destruct (log_marks_key P l category message d w Hlevel Hdedup)
    as (Hcfg & Hclock & stored & Hlook).
  fold w1 in Hcfg, Hclock, Hlook.
  assert (Hrun : r2 = log P l' category' message' d' w1) by reflexivity.
  rewrite (log_duplicate_run P l' category' message' d' w1 stored
             (Date_now P (S (clock w)))) in Hrun.
  - rewrite Hrun. cbn [fst snd logger entries lastMessages].
    split; [reflexivity |]. split; [reflexivity |].
    exists stored. split; [exact Hlook |].
    rewrite Hkey, Hclock. apply lookup_insert_eq.
  - rewrite Hcfg. exact Hlevel'.
  - rewrite Hcfg. exact Hdedup.
  - rewrite Hkey. exact Hlook.
  - rewrite Hcfg, Hclock. apply Z.ltb_lt. exact Hage.
Qed.

Lemma repeated_message_is_dropped_witness :
  let w1 := snd (log failing_host DEBUG "a:b" "c" VUndefined
                   (fresh_world development_config)) in
  let r2 := log failing_host ERROR "a" "b:c" (VStr "lost") w1 in
  fst r2 = Returned tt
  /\ entries (logger (snd r2)) = entries (logger w1)
  /\ exists stored,
       lastMessages (logger w1) !! key_of "a:b" "c"
       = Some (stored, Date_now failing_host
                         (S (clock (fresh_world development_config))))
       /\ lastMessages (logger (snd r2)) !! key_of "a:b" "c"
          = Some (with_count stored
                    (match le_count stored with
                     | Some c => if c =? 0 then 1 else c
                     | None => 1
                     end + 1),
                  Date_now failing_host
                    (S (S (S (clock (fresh_world development_config)))))).
Proof.
  apply (repeated_message_is_dropped failing_host DEBUG ERROR
           "a:b" "c" "a" "b:c" VUndefined (VStr "lost")
           (fresh_world development_config)).
  - reflexivity.
  - reflexivity.
  - reflexivity.
  - reflexivity.
  - cbn. lia.
Defined.

(** X9. A message that passes the level filter and is not a duplicate (its
    key is not on record, or was last seen a full window ago) is appended
    as the newest entry, the oldest being dropped from a full buffer; it is
    put on record with count 1; and the console method of its level is
    called with exactly "[category] message": an entry that is printed never
    carries a count, so no count suffix is ever printed.  The call throws
    what the console throws. *)
Theorem fresh_message_is_stored_and_printed (P : Platform) (l : LogLevel)
    (category message : string) (d : LogVal) (w : World) :
  shouldLog (config (logger w)) l = true ->
  enableDeduplication (config (logger w)) = true ->
  match lastMessages (logger w) !! key_of category message with
  | Some (_, seen) =>
      deduplicationWindow (config (logger w))
      <= Date_now P (S (clock w)) - seen
  | None => True
  end ->
  let entry := {| le_level := l; le_category := category;
                  le_message := message; le_data := d;
                  le_timestamp := Date_now P (clock w);
                  le_count := None |} in
  let r := log P l category message d w in
  fst r = (if enableConsole (config (logger w))
           then match l with
                | NONE => Returned tt
                | _ => match console P l
                               ("[" ++ category ++ "] " ++ message) d with
                       | Some e => Thrown e
                       | None => Returned tt
                       end
                end
           else Returned tt)
  /\ entries (logger (snd r))
     = (if (maxEntries (config (logger w))
            <=? length (entries (logger w)))%nat
        then tail (entries (logger w)) else entries (logger w)) ++ [entry]
  /\ lastMessages (logger (snd r)) !! key_of category message
     = Some (with_count entry 1, Date_now P (S (clock w))).
Proof.
  intros Hlevel Hdedup Hlook entry r. unfold r.
  rewrite (log_fresh_run P l category message d w Hlevel Hdedup).
  - cbn [fst snd logger entries lastMessages]. fold entry.
    split; [reflexivity |]. split; [reflexivity |]. apply lookup_insert_eq.
  - destruct (lastMessages (logger w) !! key_of category message)
      as [[stored seen]|]; [| exact I].
    apply Z.ltb_ge. exact Hlook.
Qed.

Lemma fresh_message_is_stored_and_printed_witness :
  let entry := {| le_level := WARN; le_category := "audio-utils";
                  le_message := "Audio is completely silent (RMS = 0)";
                  le_data := VUndefined;
                  le_timestamp :=
                    Date_now failing_host
                      (clock (fresh_world production_config));
                  le_count := None |} in
  let r := log failing_host WARN "audio-utils"
             "Audio is completely silent (RMS = 0)" VUndefined
             (fresh_world production_config) in
  fst r = (if enableConsole (config (logger (fresh_world production_config)))
           then match console failing_host WARN
                        ("[" ++ "audio-utils" ++ "] "
                         ++ "Audio is completely silent (RMS = 0)")
                        VUndefined with
                | Some e => Thrown e
                | None => Returned tt
                end
           else Returned tt)
  /\ entries (logger (snd r))
     = (if (maxEntries (config (logger (fresh_world production_config)))
            <=? length (entries (logger (fresh_world production_config))))%nat
        then tail (entries (logger (fresh_world production_config)))
        else entries (logger (fresh_world production_config))) ++ [entry]
  /\ lastMessages (logger (snd r))
     !! key_of "audio-utils" "Audio is completely silent (RMS = 0)"
     = Some (with_count entry 1,
             Date_now failing_host
               (S (clock (fresh_world production_config)))).
Proof.
  apply (fresh_message_is_stored_and_printed failing_host WARN "audio-utils"
           "Audio is completely silent (RMS = 0)" VUndefined
           (fresh_world production_config)).
  - reflexivity.
  - reflexivity.
  - exact I.
Defined.

(** ** Cleaning the deduplication records *)

Lemma log_plain_run (P : Platform) (l : LogLevel)
    (category message : string) (d : LogVal) (w : World) :
  shouldLog (config (logger w)) l = true ->
  enableDeduplication (config (logger w)) = false ->
  let entry := {| le_level := l; le_category := category;
                  le_message := message; le_data := d;
                  le_timestamp := Date_now P (clock w);
                  le_count := None |} in
  log P l category message d w
  = ((if enableConsole (config (logger w))
      then match l with
           | NONE => Returned tt
           | _ => match console P l ("[" ++ category ++ "] " ++ message) d with
                  | Some e => Thrown e
                  | None => Returned tt
                  end
           end
      else Returned tt),
     {| logger :=
          {| config := config (logger w);
             entries :=
               (if (maxEntries (config (logger w))
                    <=? length (entries (logger w)))%nat
                then tail (entries (logger w)) else entries (logger w))
               ++ [entry];
             lastMessages := lastMessages (logger w) |};
        ttsDebugger := ttsDebugger w;
        clock := S (clock w);
        entropy := entropy w |}).
Proof.
  intros Hlevel Hdedup entry.
  unfold log, bind, get_logger. cbn [fst snd].
  rewrite Hlevel. cbn [negb]. unfold now at 1. cbn [fst snd].
  unfold deduplicateMessage, bind, get_logger, ret.
  cbn [fst snd logger]. rewrite Hdedup. cbn [negb fst snd]. fold entry.
  unfold addEntry, bind, get_logger, set_logger.
  cbn [fst snd logger config entries lastMessages].
  assert (Hfmt : formatMessage entry
                 = ("[" ++ category ++ "] " ++ message)%string).
  { unfold formatMessage. cbn [le_count le_category le_message entry].
    rewrite string_app_empty. reflexivity. }
  rewrite Hfmt. destruct (enableConsole _); [| reflexivity].
  unfold console_call.
  destruct l; try reflexivity; destruct (console P _ _ _); reflexivity.
Qed.

(** The outcome of a call and the entries it leaves depend on the records
    only through whether the message counts as a duplicate. *)
Lemma log_outcome (P : Platform) (l : LogLevel)
    (category message : string) (d : LogVal) (w : World) :
  shouldLog (config (logger w)) l = true ->
  let duplicate :=
    enableDeduplication (config (logger w))
    && match lastMessages (logger w) !! key_of category message with
       | Some (_, seen) =>
           Date_now P (S (clock w)) - seen
           <? deduplicationWindow (config (logger w))
       | None => false
       end in
  let entry := {| le_level := l; le_category := category;
                  le_message := message; le_data := d;
                  le_timestamp := Date_now P (clock w);
                  le_count := None |} in
  let r := log P l category message d w in
  fst r = (if duplicate then Returned tt
           else if enableConsole (config (logger w))
                then match l with
                     | NONE => Returned tt
                     | _ => match console P l
                                    ("[" ++ category ++ "] " ++ message) d with
                            | Some e => Thrown e
                            | None => Returned tt
                            end
                     end
                else Returned tt)
  /\ entries (logger (snd r))
     = (if duplicate then entries (logger w)
        else (if (maxEntries (config (logger w))
                  <=? length (entries (logger w)))%nat
              then tail (entries (logger w)) else entries (logger w))
             ++ [entry]).
Proof.
  intros Hlevel duplicate entry r. unfold r, duplicate.
  destruct (enableDeduplication (config (logger w))) eqn:Hdedup;
    cbn [andb].
  - destruct (lastMessages (logger w) !! key_of category message)
      as [[stored seen]|] eqn:Hlook.
    + destruct (Date_now P (S (clock w)) - seen
                <? deduplicationWindow (config (logger w))) eqn:Hage.
      * rewrite (log_duplicate_run P l category message d w stored seen
                   Hlevel Hdedup Hlook Hage).
        split; reflexivity.
      * rewrite (log_fresh_run P l category message d w Hlevel Hdedup).
        2: { rewrite Hlook. exact Hage. }
        split; reflexivity.
    + rewrite (log_fresh_run P l category message d w Hlevel Hdedup).
      2: { rewrite Hlook. exact I. }
      split; reflexivity.
  - rewrite (log_plain_run P l category message d w Hlevel Hdedup).
    split; reflexivity.
Qed.

(** X10. [cleanupExpiredMessages] deletes only records that can no longer
    suppress anything: with a clock that does not run backwards, a log call
    after the cleanup has the outcome, and leaves the entries, it would have
    had if the cleanup had only read the clock. *)
Theorem cleanup_is_transparent (P : Platform) (l : LogLevel)
    (category message : string) (d : LogVal) (w : World) :
  Date_now P (clock w) <= Date_now P (S (S (clock w))) ->
  let cleaned := snd (cleanupExpiredMessages P w) in
  let ticked := snd (now P w) in
  config (logger cleaned) = config (logger w)
  /\ entries (logger cleaned) = entries (logger w)
  /\ fst (log P l category message d cleaned)
     = fst (log P l category message d ticked)
  /\ entries (logger (snd (log P l category message d cleaned)))
     = entries (logger (snd (log P l category message d ticked))).
Proof.
  intros Hmono cleaned ticked.
  assert (Hcfg : config (logger cleaned) = config (logger w)) by reflexivity.
  assert (Hent : entries (logger cleaned) = entries (logger w))
    by reflexivity.
  split; [exact Hcfg |]. split; [exact Hent |].
  destruct (shouldLog (config (logger w)) l) eqn:Hlevel.
  - destruct (log_outcome P l category message d cleaned) as [Hc1 Hc2];
      [rewrite Hcfg; exact Hlevel |].
    destruct (log_outcome P l category message d ticked) as [Ht1 Ht2];
      [exact Hlevel |].
    cbv zeta in *. rewrite Hc1, Hc2, Ht1, Ht2.
    assert (Hdup :
      match lastMessages (logger cleaned) !! key_of category message with
      | Some (_, seen) =>
          Date_now P (S (clock cleaned)) - seen
          <? deduplicationWindow (config (logger cleaned))
      | None => false
      end
      = match lastMessages (logger ticked) !! key_of category message with
        | Some (_, seen) =>
            Date_now P (S (clock ticked)) - seen
            <? deduplicationWindow (config (logger ticked))
        | None => false
        end).
    { change (config (logger cleaned)) with (config (logger w)).
      change (config (logger ticked)) with (config (logger w)).
      change (clock cleaned) with (S (clock w)).
      change (clock ticked) with (S (clock w)).
      change (lastMessages (logger ticked)) with (lastMessages (logger w)).
      change (lastMessages (logger cleaned))
        with (filter (fun kv : string * (LogEntry * Z) =>
                        negb (deduplicationWindow (config (logger w))
                              <? Date_now P (clock w) - snd (snd kv)))
                     (lastMessages (logger w))).
      destruct (lastMessages (logger w) !! key_of category message)
        as [[stored seen]|] eqn:Hlook.
      - destruct (deduplicationWindow (config (logger w))
                  <? Date_now P (clock w) - seen) eqn:Hstale.
        + (* deleted: it would not have suppressed the message either *)
          rewrite (proj2 (map_lookup_filter_None _ _ _)).
          * symmetry. apply Z.ltb_ge. apply Z.ltb_lt in Hstale. lia.
          * right. intros x Hx. rewrite Hlook in Hx. injection Hx as <-.
            cbn [snd]. rewrite Hstale. cbn. tauto.
        + rewrite (proj2 (map_lookup_filter_Some _ _ _ (stored, seen))).
          * reflexivity.
          * split; [exact Hlook |]. cbn [snd]. rewrite Hstale. exact I.
      - rewrite (proj2 (map_lookup_filter_None _ _ _)); [reflexivity |].
        left. exact Hlook. }
    rewrite Hdup. split; reflexivity.
  - assert (Hf : forall w0, config (logger w0) = config (logger w) ->
                   log P l category message d w0 = (Returned tt, w0)).
    { intros w0 H0. unfold log, bind, get_logger. cbn [fst snd].
      rewrite H0, Hlevel. reflexivity. }
    rewrite (Hf cleaned Hcfg), (Hf ticked eq_refl). split; reflexivity.
Qed.

Lemma cleanup_is_transparent_witness :
  let cleaned := snd (cleanupExpiredMessages quiet_host
                        (fresh_world development_config)) in
  let ticked := snd (now quiet_host (fresh_world development_config)) in
  config (logger cleaned) = config (logger (fresh_world development_config))
  /\ entries (logger cleaned)
     = entries (logger (fresh_world development_config))
  /\ fst (log quiet_host INFO "tts" "ready" VUndefined cleaned)
     = fst (log quiet_host INFO "tts" "ready" VUndefined ticked)
  /\ entries (logger (snd (log quiet_host INFO "tts" "ready" VUndefined
                             cleaned)))
     = entries (logger (snd (log quiet_host INFO "tts" "ready" VUndefined
                               ticked))).
Proof.
  apply (cleanup_is_transparent quiet_host INFO "tts" "ready" VUndefined
           (fresh_world development_config)).
  cbn. lia.
Defined.

(** ** Configuration *)

(** X11. After [updateConfig] has set the level to NONE, [debug], [info],
    [warn] and [error] do nothing at all: no entry, no record, no clock
    read, no console call.  A direct [log] call at level NONE still passes
    the filter and is stored, but no console method belongs to it and it
    cannot throw. *)
Theorem level_none_silences_the_logger (P : Platform)
    (newConfig : PartialConfig) (w : World) :
  p_level newConfig = Some NONE ->
  let w1 := snd (updateConfig newConfig w) in
  (forall category message d,
     debug P category message d w1 = (Returned tt, w1)
     /\ info P category message d w1 = (Returned tt, w1)
     /\ warn P category message d w1 = (Returned tt, w1)
     /\ error P category message d w1 = (Returned tt, w1))
  /\ (forall category message d,
        fst (log P NONE category message d w1) = Returned tt)
  /\ entries (logger w1) = entries (logger w).
Proof.
  intros Hnone w1.
  assert (Hlevel : level (config (logger w1)) = NONE).
  { unfold w1, updateConfig, bind, get_logger, set_logger.
    cbn [fst snd logger config spread level]. rewrite Hnone. reflexivity. }
  assert (Hsilent : forall l category message d,
            l <> NONE -> log P l category message d w1 = (Returned tt, w1)).
  { intros l category message d Hl. unfold log, bind, get_logger.
    cbn [fst snd]. unfold shouldLog. rewrite Hlevel.
    destruct l; try contradiction; reflexivity. }
  split; [| split].
  - intros category message d.
    repeat split; apply Hsilent; discriminate.
  - intros category message d.
    destruct (log_outcome P NONE category message d w1) as [Hout _].
    { unfold shouldLog. rewrite Hlevel. reflexivity. }
    cbv zeta in Hout. rewrite Hout.
    destruct (_ && _); [reflexivity |].
    destruct (enableConsole _); reflexivity.
  - reflexivity.
Qed.

Lemma level_none_silences_the_logger_witness :
  let w1 := snd (updateConfig
                   {| p_level := Some NONE; p_enableConsole := None;
                      p_enableDeduplication := None; p_maxEntries := None;
                      p_deduplicationWindow := None |}
                   (fresh_world development_config)) in
  (forall category message d,
     debug failing_host category message d w1 = (Returned tt, w1)
     /\ info failing_host category message d w1 = (Returned tt, w1)
     /\ warn failing_host category message d w1 = (Returned tt, w1)
     /\ error failing_host category message d w1 = (Returned tt, w1))
  /\ (forall category message d,
        fst (log failing_host NONE category message d w1) = Returned tt)
  /\ entries (logger w1) = entries (logger (fresh_world development_config)).
Proof.
  apply (level_none_silences_the_logger failing_host
           {| p_level := Some NONE; p_enableConsole := None;
              p_enableDeduplication := None; p_maxEntries := None;
              p_deduplicationWindow := None |}
           (fresh_world development_config)).
  reflexivity.
Defined.

(** X12. [clearEntries] empties the entries and forgets every
    deduplication record: [getEntries] then returns the empty list, and the
    next message that passes the level filter is stored as the only entry,
    however recently its key was seen. *)
Theorem clearEntries_forgets_duplicates (P : Platform) (l : LogLevel)
    (category message : string) (d : LogVal) (w : World) :
  shouldLog (config (logger w)) l = true ->
  let cleared := snd (clearEntries w) in
  fst (getEntries cleared) = Returned []
  /\ fst (getEntries (snd (log P l category message d cleared)))
     = Returned [{| le_level := l; le_category := category;
                    le_message := message; le_data := d;
                    le_timestamp := Date_now P (clock w);
                    le_count := None |}].
Proof.
  intros Hlevel cleared. split; [reflexivity |].
  destruct (log_outcome P l category message d cleared) as [_ Hent];
    [exact Hlevel |].
  cbv zeta in Hent. unfold getEntries, bind, get_logger, ret. cbn [fst snd].
  rewrite Hent.
  change (lastMessages (logger cleared)) with (∅ : gmap string (LogEntry * Z)).
  rewrite lookup_empty, andb_false_r.
  change (entries (logger cleared)) with (@nil LogEntry).
  destruct (_ <=? _)%nat; reflexivity.
Qed.

Lemma clearEntries_forgets_duplicates_witness :
  let cleared :=
    snd (clearEntries
           (snd (log quiet_host WARN "tts" "slow" VUndefined
                   (fresh_world production_config)))) in
  fst (getEntries cleared) = Returned []
  /\ fst (getEntries (snd (log quiet_host WARN "tts" "slow" VUndefined
                             cleared)))
     = Returned [{| le_level := WARN; le_category := "tts";
                    le_message := "slow"; le_data := VUndefined;
                    le_timestamp :=
                      Date_now quiet_host
                        (clock (snd (log quiet_host WARN "tts" "slow"
                                       VUndefined
                                       (fresh_world production_config))));
                    le_count := None |}].
Proof.
  apply (clearEntries_forgets_duplicates quiet_host WARN "tts" "slow"
           VUndefined
           (snd (log quiet_host WARN "tts" "slow" VUndefined
                   (fresh_world production_config)))).
  reflexivity.
Defined.

(** ** escapeHtml *)

Lemma string_app_cons (c : ascii) (s t : string) :
  (String c s ++ t)%string = String c (s ++ t)%string.
Proof. reflexivity. Qed.

Lemma string_app_assoc (s t u : string) :
  ((s ++ t) ++ u)%string = (s ++ t ++ u)%string.
Proof.
  induction s as [|c s IH]; [reflexivity |].
  rewrite !string_app_cons. f_equal. exact IH.
Qed.

Lemma replace_all_app (c : ascii) (r s t : string) :
  replace_all c r (s ++ t) = (replace_all c r s ++ replace_all c r t)%string.
Proof.
  induction s as [|x s IH]; [reflexivity |].
  rewrite string_app_cons. cbn [replace_all].
  destruct (Ascii.eqb x c).
  - rewrite IH, string_app_assoc. reflexivity.
  - rewrite string_app_cons, IH. reflexivity.
Qed.

(** What [escapeHtml] makes of one character. *)
Lemma escapeHtml_cons (c : ascii) (s : string) :
  escapeHtml (String c s)
  = ((if Ascii.eqb c "&" then "&amp;"
      else if Ascii.eqb c "<" then "&lt;"
      else if Ascii.eqb c ">" then "&gt;"
      else if Ascii.eqb c quote then "&quot;"
      else if Ascii.eqb c apostrophe then "&#039;"
      else String c "") ++ escapeHtml s)%string.
Proof.
  unfold escapeHtml.
  change (String c s) with (String c "" ++ s)%string.
  rewrite !replace_all_app.
  match goal with
  | |- (?a ++ _)%string = (?b ++ _)%string =>
      assert (Hhead : a = b); [| rewrite Hhead; reflexivity]
  end.
  destruct (Ascii.eqb_spec c "&") as [->|Hamp]; [reflexivity |].
  destruct (Ascii.eqb_spec c "<") as [->|Hlt]; [reflexivity |].
  destruct (Ascii.eqb_spec c ">") as [->|Hgt]; [reflexivity |].
  destruct (Ascii.eqb_spec c quote) as [->|Hquot]; [reflexivity |].
  destruct (Ascii.eqb_spec c apostrophe) as [->|Hapos]; [reflexivity |].
  cbn [replace_all].
  apply Ascii.eqb_neq in Hamp, Hlt, Hgt, Hquot, Hapos.
  rewrite Hamp. cbn [replace_all]. rewrite Hlt. cbn [replace_all].
  rewrite Hgt. cbn [replace_all]. rewrite Hquot. cbn [replace_all].
  rewrite Hapos. reflexivity.
Qed.

(** X13. The five replacement passes of [escapeHtml] amount to one
    simultaneous substitution: each of & < > and the two quotes becomes its
    entity, every other character is kept, and no entity is escaped a second
    time; so escaping distributes over concatenation. *)
Theorem escapeHtml_is_characterwise :
  escapeHtml "" = ""%string
  /\ (forall (c : ascii) (s : string),
        escapeHtml (String c s)
        = ((if Ascii.eqb c "&" then "&amp;"
            else if Ascii.eqb c "<" then "&lt;"
            else if Ascii.eqb c ">" then "&gt;"
            else if Ascii.eqb c quote then "&quot;"
            else if Ascii.eqb c apostrophe then "&#039;"
            else String c "") ++ escapeHtml s)%string)
  /\ (forall s t : string,
        escapeHtml (s ++ t) = (escapeHtml s ++ escapeHtml t)%string).
Proof.
  split; [reflexivity |]. split; [apply escapeHtml_cons |].
  intros s t. unfold escapeHtml. rewrite !replace_all_app. reflexivity.
Qed.

Lemma in_string_app (x : ascii) (s t : string) :
  In x (list_ascii_of_string (s ++ t))
  <-> In x (list_ascii_of_string s) \/ In x (list_ascii_of_string t).
Proof.
  induction s as [|c s IH].
  - cbn. tauto.
  - rewrite string_app_cons. cbn [list_ascii_of_string In]. rewrite IH. tauto.
Qed.

(** X14. The output of [escapeHtml] contains no <, no >, no double quote
    and no apostrophe, whatever the input; and a text without any of the
    five characters is returned as it is. *)
Theorem escapeHtml_output_is_inert (unsafe : string) :
  (forall x : ascii,
     In x (list_ascii_of_string (escapeHtml unsafe)) ->
     x <> "<"%char /\ x <> ">"%char /\ x <> quote /\ x <> apostrophe)
  /\ ((forall x : ascii,
         In x (list_ascii_of_string unsafe) ->
         x <> "&"%char /\ x <> "<"%char /\ x <> ">"%char
         /\ x <> quote /\ x <> apostrophe) ->
      escapeHtml unsafe = unsafe).
Proof.
  split.
  - induction unsafe as [|c s IH]; intros x Hx; [destruct Hx |].
    rewrite escapeHtml_cons in Hx. apply in_string_app in Hx.
    destruct Hx as [Hx|Hx]; [| apply IH, Hx].
    destruct (Ascii.eqb_spec c "&") as [->|Hamp].
    { cbn in Hx. unfold quote, apostrophe.
      repeat destruct Hx as [<-|Hx]; try contradiction;
        repeat split; discriminate. }
    destruct (Ascii.eqb_spec c "<") as [->|Hlt].
    { cbn in Hx. unfold quote, apostrophe.
      repeat destruct Hx as [<-|Hx]; try contradiction;
        repeat split; discriminate. }
    destruct (Ascii.eqb_spec c ">") as [->|Hgt].
    { cbn in Hx. unfold quote, apostrophe.
      repeat destruct Hx as [<-|Hx]; try contradiction;
        repeat split; discriminate. }
    destruct (Ascii.eqb_spec c quote) as [->|Hquot].
    { cbn in Hx. unfold quote, apostrophe.
      repeat destruct Hx as [<-|Hx]; try contradiction;
        repeat split; discriminate. }
    destruct (Ascii.eqb_spec c apostrophe) as [->|Hapos].
    { cbn in Hx. unfold quote, apostrophe.
      repeat destruct Hx as [<-|Hx]; try contradiction;
        repeat split; discriminate. }
    cbn in Hx. destruct Hx as [<-|[]]. repeat split; assumption.
  - induction unsafe as [|c s IH]; intros Hclean; [reflexivity |].
    rewrite escapeHtml_cons.
    destruct (Hclean c ltac:(left; reflexivity))
      as (Hamp & Hlt & Hgt & Hquot & Hapos).
    apply Ascii.eqb_neq in Hamp, Hlt, Hgt, Hquot, Hapos.
    rewrite Hamp, Hlt, Hgt, Hquot, Hapos, string_app_cons.
    f_equal. apply IH. intros x Hx. apply Hclean. right. exact Hx.
Qed.

(** X15. [escapeHtml] loses nothing: two different texts never have the
    same escaped form. *)
Theorem escapeHtml_is_injective (s t : string) :
  escapeHtml s = escapeHtml t -> s = t.
Proof.
  revert t. induction s as [|c s IH]; intros [|c' t] H.
  - reflexivity.
  - exfalso. rewrite escapeHtml_cons in H. change (escapeHtml "") with ""%string in H.
    destruct (Ascii.eqb c' "&"); [discriminate |].
    destruct (Ascii.eqb c' "<"); [discriminate |].
    destruct (Ascii.eqb c' ">"); [discriminate |].
    destruct (Ascii.eqb c' quote); [discriminate |].
    destruct (Ascii.eqb c' apostrophe); discriminate.
  - exfalso. rewrite escapeHtml_cons in H. change (escapeHtml "") with ""%string in H.
    destruct (Ascii.eqb c "&"); [discriminate |].
    destruct (Ascii.eqb c "<"); [discriminate |].
    destruct (Ascii.eqb c ">"); [discriminate |].
    destruct (Ascii.eqb c quote); [discriminate |].
    destruct (Ascii.eqb c apostrophe); discriminate.
  - rewrite !escapeHtml_cons in H.
    assert (Hboth : c = c' /\ escapeHtml s = escapeHtml t).
    { destruct (Ascii.eqb_spec c "&") as [->|Hamp];
        [| destruct (Ascii.eqb_spec c "<") as [->|Hlt];
           [| destruct (Ascii.eqb_spec c ">") as [->|Hgt];
              [| destruct (Ascii.eqb_spec c quote) as [->|Hquot];
                 [| destruct (Ascii.eqb_spec c apostrophe) as [->|Hapos]]]]];
      (destruct (Ascii.eqb_spec c' "&") as [->|Hamp'];
        [| destruct (Ascii.eqb_spec c' "<") as [->|Hlt'];
           [| destruct (Ascii.eqb_spec c' ">") as [->|Hgt'];
              [| destruct (Ascii.eqb_spec c' quote) as [->|Hquot'];
                 [| destruct (Ascii.eqb_spec c' apostrophe)
                      as [->|Hapos']]]]]);
      cbv [String.append] in H; fold String.append in H;
      try discriminate H;
      try (injection H; intros; subst; first [split; [reflexivity | assumption] | congruence]). }
    destruct Hboth as [-> Htail]. f_equal. apply IH, Htail.
Qed.

Lemma escapeHtml_is_injective_witness :
  "a<b" = "a<b".
Proof.
  apply (escapeHtml_is_injective "a<b" "a<b"). reflexivity.
Defined.

(** ** The statistics of validateAudioData *)

Lemma stats_step_nan (st : Stats) : stats_step st nan = st.
Proof.
  destruct st as [mn mx z c]. unfold stats_step. cbn.
  destruct mx as [?|?| |? ? ?]; reflexivity.
Qed.

Lemma stats_fold_counts (audioData : Float32Array) :
  forall st : Stats,
    let st' := fold_left stats_step audioData st in
    (st_zeros st' + st_clipped st'
     <= st_zeros st + st_clipped st + length audioData)%nat.
Proof.
  induction audioData as [|x rest IH]; intros st; cbn [fold_left length].
  - lia.
  - specialize (IH (stats_step st x)). cbv zeta in IH.
    assert (Hstep : (st_zeros (stats_step st x) + st_clipped (stats_step st x)
                     <= S (st_zeros st + st_clipped st))%nat).
    { unfold stats_step. cbn [st_zeros st_clipped].
      destruct (strict_eq x pzero) eqn:Hz;
        destruct (ge (Math_abs x) one) eqn:Hc; try lia.
      exfalso. destruct x as [[|]|[|]| |[|] m e]; discriminate. }
    lia.
Qed.

(** X16. The statistics [validateAudioData] reports do not see NaN
    samples: minimum, maximum, zero count and clipped count are those of the
    signal with its NaN samples removed (so an all-NaN signal reports
    min = Infinity and max = -Infinity, like an empty one).  A sample counts
    as zero or as clipped, never both: the two counts together never exceed
    the length. *)
Theorem statistics_ignore_nan (audioData : Float32Array) :
  stats_of (List.filter (fun x => negb (is_nan x)) audioData)
  = stats_of audioData
  /\ (st_zeros (stats_of audioData) + st_clipped (stats_of audioData)
      <= length audioData)%nat.
Proof.
  split.
  - unfold stats_of.
    generalize ({| st_min := pinf; st_max := ninf; st_zeros := 0;
                   st_clipped := 0 |}).
    induction audioData as [|x rest IH]; intros st; [reflexivity |].
    cbn [List.filter fold_left].
    destruct x as [s|s| |s m e]; cbn [is_nan negb fold_left];
      try apply IH.
    rewrite stats_step_nan. apply IH.
  - pose proof (stats_fold_counts audioData
                  {| st_min := pinf; st_max := ninf; st_zeros := 0;
                     st_clipped := 0 |}) as H.
    cbv zeta in H. cbn [st_zeros st_clipped] in H. unfold stats_of. lia.
Qed.

(** ** Interpolation at the original samples *)

(** Where the source index is a whole number the fraction is zero, and the
    value written is the sample under the index. *)
Lemma interpolate_on_sample (a : Float32Array) (ratio : number) (i : nat)
    (k : Z) :
  Forall (bounded_by 128) a -> 0 <= k < 2 ^ 53 ->
  div (num_of_nat i) ratio = ofZ k ->
  interpolate a ratio i = or_zero (a !! Z.to_nat k).
Proof.
  intros Ha Hk Hsrc.
  assert (Hfloor : Math_floor (ofZ k) = ofZ k) by (apply Math_floor_ofZ, Hk).
  assert (Hfrac : sub (ofZ k) (ofZ k) = pzero)
    by (apply sub_self, is_finite_ofZ, Hk).
  unfold interpolate. rewrite Hsrc, Hfloor, Hfrac.
  destruct constant_bounded as (H05 & Hn05 & H15 & H25 & H2).
  set (y0 := or_zero (get a (Math_max pzero (sub (ofZ k) one)))).
  set (y2 := or_zero (get a (Math_min (add (ofZ k) one)
                                      (sub (length_number a) one)))).
  set (y3 := or_zero (get a (Math_min (add (ofZ k) two)
                                      (sub (length_number a) one)))).
  assert (Hy1 : get a (ofZ k) = a !! Z.to_nat k).
  { unfold get. rewrite index_of_ofZ by exact Hk. reflexivity. }
  rewrite Hy1. set (y1 := or_zero (a !! Z.to_nat k)).
  assert (By0 : bounded_by 128 y0) by (apply or_zero_bounded; exact Ha).
  assert (By2 : bounded_by 128 y2) by (apply or_zero_bounded; exact Ha).
  assert (By3 : bounded_by 128 y3) by (apply or_zero_bounded; exact Ha).
  assert (By1 : bounded_by 128 y1).
  { unfold y1. rewrite <- Hy1. apply or_zero_bounded. exact Ha. }
  assert (Hmul : forall c y, bounded_by 2 c -> bounded_by 128 y ->
                             bounded_by 131 (mul c y)).
  { intros c y Hc Hy. apply (mul_bounded 2 128); [exact Hc | exact Hy | lia]. }
  set (a0 := add (sub (add (mul (neg c0_5) y0) (mul c1_5 y1)) (mul c1_5 y2))
                 (mul c0_5 y3)).
  set (a1 := sub (add (sub y0 (mul c2_5 y1)) (mul two y2)) (mul c0_5 y3)).
  set (a2 := add (mul (neg c0_5) y0) (mul c0_5 y2)).
  assert (Ba0 : bounded_by 137 a0).
  { apply (add_bounded 135); [| | lia].
    - apply (sub_bounded 133); [| | lia].
      + apply (add_bounded 131); [| | lia]; apply Hmul; assumption.
      + eapply bounded_by_weaken; [apply Hmul; eassumption | lia].
    - eapply bounded_by_weaken; [apply Hmul; eassumption | lia]. }
  assert (Ba1 : bounded_by 137 a1).
  { apply (sub_bounded 135); [| | lia].
    - apply (add_bounded 133); [| | lia].
      + apply (sub_bounded 131); [| | lia].
        * eapply bounded_by_weaken; [exact By0 | lia].
        * apply Hmul; assumption.
      + eapply bounded_by_weaken; [apply Hmul; eassumption | lia].
    - eapply bounded_by_weaken; [apply Hmul; eassumption | lia]. }
  assert (Ba2 : bounded_by 133 a2).
  { apply (add_bounded 131); [| | lia]; apply Hmul; assumption. }
  assert (Hz : forall B x, bounded_by B x -> is_zero (mul x pzero) = true).
  { intros B x Hx. apply (mul_zero_r B); [exact Hx | reflexivity]. }
  assert (Hzz : forall z, is_zero z = true -> is_zero (mul z pzero) = true).
  { intros [s|s| |s m e]; try discriminate. reflexivity. }
  apply add_zero_l.
  repeat apply add_zero_zero.
  - apply Hzz, Hzz, (Hz 137), Ba0.
  - apply Hzz, (Hz 137), Ba1.
  - apply (Hz 133), Ba2.
Qed.

(** Half of an even integer. *)
Lemma div_ofZ_two (k : Z) :
  0 <= k < 2 ^ 52 -> div (ofZ (2 * k)) two = ofZ k.
Proof.
  intros Hk. destruct (Z.eq_dec k 0) as [->|Hne]; [reflexivity |].
  assert (H53 : 2 ^ 53 = 2 * 2 ^ 52) by reflexivity.
  rewrite <- (div_ofZ_one k) by lia.
  rewrite (ofZ_pos (2 * k)), (ofZ_pos k) by lia.
  assert (Hd2 : Zdigits2 (2 * k) = Zdigits2 k + 1).
  { rewrite (Z.mul_comm 2 k). apply (Zdigits2_mul_pow2 k 1); lia. }
  assert (Hd52 : Zdigits2 k <= 52) by (apply Zdigits2_lt_pow; lia).
  assert (Hp : 2 ^ (53 - Zdigits2 k) = 2 * 2 ^ (53 - (Zdigits2 k + 1))).
  { rewrite <- Z.pow_succ_r by lia. f_equal. lia. }
  rewrite Hd2.
  replace (2 * k * 2 ^ (53 - (Zdigits2 k + 1)))
    with (k * 2 ^ (53 - Zdigits2 k)) by (rewrite Hp; lia).
  unfold div, two, one, SFdiv, SFdiv_core_binary.
  change (Zdigits2 4503599627370496) with 53.
  replace (Zdigits2 k + 1 - 53 - -51) with (Zdigits2 k - 53 - -52) by lia.
  replace (Zdigits2 (Z.pos (Z.to_pos (k * 2 ^ (53 - Zdigits2 k))))
           + (Zdigits2 k + 1 - 53) - (53 + -51))
    with (Zdigits2 (Z.pos (Z.to_pos (k * 2 ^ (53 - Zdigits2 k))))
          + (Zdigits2 k - 53) - (53 + -52)) by lia.
  reflexivity.
Qed.

Lemma finite_float32_bounded (a : Float32Array) :
  Forall (fun x => is_finite x = true /\ is_float32 x = true) a ->
  Forall (bounded_by 128) a.
Proof.
  intros Ha. eapply Forall_impl; [exact Ha |]. intros x [Hf H32].
  apply float32_bounded; assumption.
Qed.

Lemma map_lookup {A B} (f : A -> B) (l : list A) (i : nat) :
  map f l !! i = f <$> (l !! i).
Proof. exact (list_lookup_fmap f l i). Qed.

Lemma upsampled_lookup (a up : Float32Array)
    (inputSampleRate outputSampleRate : number) (i : nat) (y : number) :
  upsampled a inputSampleRate outputSampleRate = Returned up ->
  up !! i = Some y ->
  y = fround (interpolate a (upsample_ratio inputSampleRate outputSampleRate)
                i).
Proof.
  unfold upsampled. destruct (_ =? _)%nat; [discriminate |].
  destruct (new_Float32Array _) as [allocated|e]; [| discriminate].
  intros Hup Hy.
  apply (f_equal (fun o => match o with
                           | Returned v => v
                           | Thrown _ => []
                           end)) in Hup.
  cbv beta iota in Hup. subst up.
  unfold Float32Array in *. rewrite map_lookup in Hy.
  destruct (seq 0 (length allocated) !! i) as [j|] eqn:Hj; [| discriminate].
  apply lookup_seq in Hj. destruct Hj as [-> _].
  apply (inj Some) in Hy. symmetry. exact Hy.
Qed.

(** X17. Resampling from 24000 Hz to 48000 Hz, the path every blob takes at
    the synthesizer's rate, keeps the original samples: for a non-empty
    signal of finite samples the output is twice as long and its sample
    2k is input sample k (a -0 read as +0); only the odd positions are
    interpolated. *)
Theorem doubling_keeps_the_original_samples (P : Platform) (w : World)
    (audioData : Float32Array) :
  quiet P -> audioData <> [] -> Z.of_nat (length audioData) < 2 ^ 52 ->
  Forall (fun x => is_finite x = true /\ is_float32 x = true) audioData ->
  exists up,
    result (upsampleAudio P audioData (ofZ 24000) c48000) w = Returned up
    /\ length up = (2 * length audioData)%nat
    /\ forall (k : nat) (x : number),
         audioData !! k = Some x ->
         up !! (2 * k)%nat = Some (if is_zero x then pzero else x).
Proof.
  intros Hq Hne Hlen Ha.
  destruct (upsampled_doubles audioData Hne Hlen) as (up & Hup & Hl).
  exists up. split.
  { rewrite <- Hup. apply upsampleAudio_result, Hq. }
  split; [exact Hl |].
  intros k x Hx.
  assert (Hk : (k < length audioData)%nat)
    by (apply lookup_lt_is_Some; exists x; exact Hx).
  destruct (up !! (2 * k)%nat) as [y|] eqn:Hy.
  2: { apply lookup_ge_None in Hy. lia. }
  rewrite (upsampled_lookup audioData up _ _ _ y Hup Hy).
  change (upsample_ratio (ofZ 24000) c48000) with two.
  assert (H53 : 2 ^ 53 = 2 * 2 ^ 52) by reflexivity.
  rewrite (interpolate_on_sample audioData two (2 * k) (Z.of_nat k)).
  - rewrite Nat2Z.id, Hx.
    assert (Hfx : is_finite x = true /\ is_float32 x = true).
    { rewrite Forall_forall in Ha. apply Ha.
      apply list_elem_of_lookup. exists k. exact Hx. }
    destruct Hfx as [Hf H32].
    change (or_zero (Some x)) with (read_sample x).
    rewrite (fround_read_sample x H32).
    f_equal. apply read_sample_finite, Hf.
  - apply finite_float32_bounded, Ha.
  - lia.
  - unfold num_of_nat.
    replace (Z.of_nat (2 * k)) with (2 * Z.of_nat k) by lia.
    apply div_ofZ_two. lia.
Qed.

Lemma doubling_keeps_the_original_samples_witness :
  exists up,
    result (upsampleAudio quiet_host click (ofZ 24000) c48000)
      (fresh_world development_config) = Returned up
    /\ length up = (2 * length click)%nat
    /\ forall (k : nat) (x : number),
         click !! k = Some x ->
         up !! (2 * k)%nat = Some (if is_zero x then pzero else x).
Proof.
  apply (doubling_keeps_the_original_samples quiet_host
           (fresh_world development_config) click).
  - intros l message d. reflexivity.
  - discriminate.
  - vm_compute. reflexivity.
  - repeat constructor.
Defined.

(** X18. At any ratio above zero the first output sample, if there is one,
    is the first input sample (of a signal of finite samples): the source
    index 0 / ratio is 0, with a zero fraction. *)
Theorem first_sample_is_kept (P : Platform) (w : World)
    (audioData up : Float32Array) (inputSampleRate outputSampleRate : number)
    (y : number) :
  quiet P ->
  Forall (fun x => is_finite x = true /\ is_float32 x = true) audioData ->
  lt pzero (upsample_ratio inputSampleRate outputSampleRate) = true ->
  result (upsampleAudio P audioData inputSampleRate outputSampleRate) w
  = Returned up ->
  up !! 0%nat = Some y ->
  exists x, audioData !! 0%nat = Some x
            /\ y = (if is_zero x then pzero else x).
Proof.
  intros Hq Ha Hratio Hres Hy.
  rewrite (upsampleAudio_result P audioData _ _ Hq w) in Hres.
  rewrite (upsampled_lookup audioData up _ _ _ y Hres Hy).
  assert (Hne : audioData <> []).
  { intros ->. discriminate Hres. }
  destruct audioData as [|x rest]; [contradiction |].
  exists x. split; [reflexivity |].
  rewrite (interpolate_on_sample (x :: rest) _ 0 0).
  - apply Forall_inv in Ha. destruct Ha as [Hf H32].
    change (or_zero ((x :: rest) !! Z.to_nat 0)) with (read_sample x).
    rewrite (fround_read_sample x H32). apply read_sample_finite, Hf.
  - apply finite_float32_bounded, Ha.
  - lia.
  - change (num_of_nat 0) with pzero. change (ofZ 0) with pzero.
    destruct (upsample_ratio inputSampleRate outputSampleRate)
      as [[|]|[|]| |[|] m e]; try discriminate; reflexivity.
Qed.

Lemma first_sample_is_kept_witness :
  exists x, [c0_5; neg c0_5] !! 0%nat = Some x
            /\ c0_5 = (if is_zero x then pzero else x).
Proof.
  apply (first_sample_is_kept quiet_host (fresh_world development_config)
           [c0_5; neg c0_5]
           [c0_5; S754_finite true 8106642323275776 (-54)]
           (ofZ 44100) (ofZ 48000) c0_5).
  - intros l message d. reflexivity.
  - repeat constructor.
  - vm_compute. reflexivity.
  - vm_compute. reflexivity.
  - reflexivity.
Defined.

(** ** 16-bit quantization *)

(** Rounding always gives a valid double. *)
Lemma binary_round_aux_valid (s : bool) (mx ex : Z) (lx : location) :
  0 < mx -> ex <= fexp prec emax (Zdigits2 mx + ex) ->
  valid_binary prec emax (binary_round_aux prec emax s mx ex lx) = true.
Proof.
  intros Hmx Hreg.
  destruct (binary_round_aux_regular prec emax ltac:(reflexivity)
              s mx ex lx Hmx Hreg)
    as (R & HR & _ & Hq & HRle & Hcanon & Hres).
  rewrite Hres. clear Hres.
  set (e1 := fexp prec emax (Zdigits2 mx + ex)) in *.
  assert (He1 : -1074 <= e1) by (unfold e1; rewrite fexp64; lia).
  destruct (Z.ltb_spec R (2 ^ prec)) as [HRlt|HRge].
  - destruct R as [|p|p]; [reflexivity | | cbv zeta in Hq; lia].
    unfold pack. destruct (Z.leb_spec e1 (emax - prec)); [| reflexivity].
    cbn [valid_binary]. apply canonical_spec.
    specialize (Hcanon ltac:(lia)). rewrite fexp64 in Hcanon.
    change (emax - prec) with 971 in *. lia.
  - unfold pack. change (2 ^ (prec - 1)) with (Zpos 4503599627370496).
    destruct (Z.leb_spec (e1 + 1) (emax - prec)); [| reflexivity].
    cbn [valid_binary]. apply canonical_spec.
    change (Zdigits2 (Zpos 4503599627370496)) with 53.
    change (emax - prec) with 971 in *. lia.
Qed.

Lemma binary_round_valid (s : bool) (m : positive) (e : Z) :
  valid_binary prec emax (binary_round prec emax s m e) = true.
Proof.
  unfold binary_round.
  pose proof (shl_align_spec m e (fexp prec emax (Zpos (digits2_pos m) + e)))
    as Hs.
  destruct (shl_align m e (fexp prec emax (Zpos (digits2_pos m) + e)))
    as [mz ez].
  destruct Hs as [Hlt Hge].
  change (Zpos (digits2_pos m)) with (Zdigits2 (Zpos m)) in *.
  destruct (Z_lt_le_dec (fexp prec emax (Zdigits2 (Zpos m) + e)) e) as [Hc|Hc].
  - destruct (Hlt Hc) as [Hm ->].
    apply binary_round_aux_valid; [lia |].
    rewrite Hm, Zdigits2_mul_pow2 by lia.
    replace (Zdigits2 (Zpos m)
             + (e - fexp prec emax (Zdigits2 (Zpos m) + e))
             + fexp prec emax (Zdigits2 (Zpos m) + e))
      with (Zdigits2 (Zpos m) + e) by lia.
    lia.
  - destruct (Hge Hc) as [-> ->]. apply binary_round_aux_valid; lia.
Qed.

Lemma binary_normalize_valid (z e : Z) (szero : bool) :
  valid_binary prec emax (binary_normalize prec emax z e szero) = true.
Proof.
  destruct z as [|p|p]; [reflexivity | |]; apply binary_round_valid.
Qed.

Lemma ofZ_valid (z : Z) : valid_binary prec emax (ofZ z) = true.
Proof. apply binary_normalize_valid. Qed.

Lemma add_valid (x y : number) :
  valid_binary prec emax x = true -> valid_binary prec emax y = true ->
  valid_binary prec emax (add x y) = true.
Proof.
  intros Hx Hy.
  destruct x as [sx|sx| |sx mx ex], y as [sy|sy| |sy my ey];
    try reflexivity; try assumption.
  - destruct sx, sy; reflexivity.
  - destruct sx, sy; reflexivity.
  - apply binary_normalize_valid.
Qed.

Lemma sub_valid (x y : number) :
  valid_binary prec emax x = true -> valid_binary prec emax y = true ->
  valid_binary prec emax (sub x y) = true.
Proof.
  intros Hx Hy.
  destruct x as [sx|sx| |sx mx ex], y as [sy|sy| |sy my ey];
    try reflexivity; try assumption.
  - destruct sx, sy; reflexivity.
  - destruct sx, sy; reflexivity.
  - apply binary_normalize_valid.
Qed.

Lemma mul_valid (x y : number) :
  valid_binary prec emax x = true -> valid_binary prec emax y = true ->
  valid_binary prec emax (mul x y) = true.
Proof.
  intros Hx Hy.
  destruct x as [sx|sx| |sx mx ex], y as [sy|sy| |sy my ey];
    try reflexivity.
  cbn [valid_binary] in Hx, Hy.
  unfold mul, SFmul. rewrite Pos2Z.inj_mul.
  apply binary_round_aux_valid; [lia |].
  rewrite fexp64.
  destruct (Z_le_gt_dec (ex + ey) (-1074)) as [|Hbig]; [lia |].
  pose proof (canonical_digits mx ex Hx) as [_ Hex].
  pose proof (canonical_digits my ey Hy) as [_ Hey].
  assert (Hd53 : 53 <= Zdigits2 (Zpos mx * Zpos my)).
  { destruct (Z_le_gt_dec ex (-1074)) as [Hsx|Hnx].
    - destruct (canonical_normal my ey Hy ltac:(lia)) as [Hdy _].
      rewrite <- Hdy. apply Zdigits2_mono. nia.
    - destruct (canonical_normal mx ex Hx ltac:(lia)) as [Hdx _].
      rewrite <- Hdx. apply Zdigits2_mono. nia. }
  lia.
Qed.

Lemma Math_min_valid (x y : number) :
  valid_binary prec emax x = true -> valid_binary prec emax y = true ->
  valid_binary prec emax (Math_min x y) = true.
Proof.
  intros Hx Hy. unfold Math_min.
  destruct (is_nan x || is_nan y); [reflexivity |].
  destruct (lt x y); [exact Hx |]. destruct (lt y x); [exact Hy |].
  destruct x as [[|]| | |]; try exact Hx; destruct y; assumption.
Qed.

Lemma Math_max_valid (x y : number) :
  valid_binary prec emax x = true -> valid_binary prec emax y = true ->
  valid_binary prec emax (Math_max x y) = true.
Proof.
  intros Hx Hy. unfold Math_max.
  destruct (is_nan x || is_nan y); [reflexivity |].
  destruct (lt x y); [exact Hy |]. destruct (lt y x); [exact Hx |].
  destruct x as [[|]| | |]; try exact Hx; destruct y; assumption.
Qed.

Lemma Math_round_valid (x : number) :
  valid_binary prec emax x = true ->
  valid_binary prec emax (Math_round x) = true.
Proof.
  intros Hx. destruct x as [s|s| |s m e]; try exact Hx.
  unfold Math_round. destruct (0 <=? e); [exact Hx |].
  destruct (_ / _) as [|p|p]; [reflexivity | |]; apply ofZ_valid.
Qed.

(** One draw over 0xFFFFFFFF: a valid number between 0 and 1. *)
Lemma draw_fraction (r : Z) :
  0 <= r <= 4294967295 ->
  let u := div (ofZ r) c0xFFFFFFFF in
  u = pzero
  \/ exists m e, u = S754_finite false m e /\ canonical m e
                 /\ (e < -52 \/ (e = -52 /\ Zpos m <= 2 ^ 52)).
Proof.
  intros Hr u. unfold u.
  destruct (Z.eq_dec r 0) as [->|Hnz]; [left; reflexivity | right].
  destruct (integer_form r ltac:(lia)) as (Hform & HM & HdM & HE & HMr).
  cbv zeta in *. rewrite Hform. unfold c0xFFFFFFFF.
  assert (Hd32 : Zdigits2 r <= 32) by (apply Zdigits2_lt_pow; lia).
  pose proof (Zdigits2_pos r ltac:(lia)) as Hdpos.
  apply div_le_one.
  - rewrite Z2Pos.id by lia. exact HdM.
  - reflexivity.
  - lia.
  - destruct (Z.eq_dec (Zdigits2 r) 32) as [H32|Hlt]; [right | left; lia].
    split; [lia |]. rewrite Z2Pos.id by lia. rewrite H32.
    change (2 ^ (53 - 32)) with 2097152.
    change (Zpos 9007199252643840) with (4294967295 * 2097152). lia.
Qed.

Lemma canonical_valid (s : bool) (m : positive) (e : Z) :
  canonical m e -> valid_binary prec emax (S754_finite s m e) = true.
Proof. intros H. exact H. Qed.

Lemma dither_valid (draws : Z * Z) :
  0 <= fst draws <= 4294967295 -> 0 <= snd draws <= 4294967295 ->
  valid_binary prec emax
    (mul (sub (div (ofZ (fst draws)) c0xFFFFFFFF)
              (div (ofZ (snd draws)) c0xFFFFFFFF)) c0_5) = true.
Proof.
  intros H1 H2. apply mul_valid; [| reflexivity].
  apply sub_valid.
  - destruct (draw_fraction (fst draws) H1) as [->|(m & e & -> & Hc & _)];
      [reflexivity | exact Hc].
  - destruct (draw_fraction (snd draws) H2) as [->|(m & e & -> & Hc & _)];
      [reflexivity | exact Hc].
Qed.

Lemma compare_negative (a : positive) (c : Z) (mr : positive) (er : Z) :
  SFcompare (S754_finite true a c) (S754_finite true mr er)
  = Some match c ?= er with
         | Lt => Gt
         | Gt => Lt
         | Eq => CompOpp (a ?= mr)%positive
         end.
Proof. reflexivity. Qed.

(** A valid number strictly between -32768 and 32767 has its integer part
    there too. *)
Lemma between_bounds (x : number) :
  valid_binary prec emax x = true ->
  lt cm0x8000 x = true -> lt x c0x7FFF = true ->
  -32768 <= truncZ x <= 32767.
Proof.
  intros Hv Hlo Hhi.
  destruct x as [s|[|]| |[|] m e]; try discriminate; [cbn; lia | |].
  - (* negative *)
    cbn [valid_binary] in Hv.
    unfold lt, SFltb, cm0x8000 in Hlo. rewrite compare_negative in Hlo.
    pose proof (canonical_digits m e Hv) as [Hm He].
    assert (Hlt : e < -37).
    { destruct (Z.compare_spec (-37) e) as [Heq|Hl|Hg];
        [| discriminate | lia].
      subst e. destruct (canonical_normal m (-37) Hv ltac:(lia)) as [_ [H52 _]].
      destruct (4503599627370496 ?= m)%positive eqn:Hcmp; try discriminate.
      rewrite Pos2Z.inj_compare in Hcmp.
      assert (Zpos m < 4503599627370496) by (apply Z.gt_lt; exact Hcmp).
      change (2 ^ 52) with 4503599627370496 in H52. lia. }
    unfold truncZ. destruct (Z.leb_spec 0 e); [lia |].
    cbn [cond_Zopp].
    assert (Hq : Zpos m / 2 ^ (- e) <= 32768).
    { assert (2 ^ 38 <= 2 ^ (- e)) by (apply Z.pow_le_mono_r; lia).
      assert (0 < 2 ^ (- e)) by (apply Z.pow_pos_nonneg; lia).
      apply Z.div_le_upper_bound; [lia |].
      change (2 ^ 53) with (32768 * 2 ^ 38) in Hm. nia. }
    assert (0 <= Zpos m / 2 ^ (- e)) by (apply Z.div_pos; [lia |];
      apply Z.pow_pos_nonneg; lia).
    lia.
  - (* positive *)
    cbn [valid_binary] in Hv.
    unfold lt, SFltb, c0x7FFF in Hhi. rewrite compare_positive in Hhi.
    pose proof (canonical_digits m e Hv) as [Hm He].
    assert (Hle : e <= -38).
    { destruct (Z.compare_spec e (-38)) as [Heq|Hl|Hg];
        [lia | lia | discriminate]. }
    unfold truncZ. destruct (Z.leb_spec 0 e); [lia |].
    cbn [cond_Zopp].
    assert (Hq : Zpos m / 2 ^ (- e) < 32768).
    { assert (2 ^ 38 <= 2 ^ (- e)) by (apply Z.pow_le_mono_r; lia).
      assert (0 < 2 ^ (- e)) by (apply Z.pow_pos_nonneg; lia).
      apply Z.div_lt_upper_bound; [lia |].
      change (2 ^ 53) with (32768 * 2 ^ 38) in Hm. nia. }
    assert (0 <= Zpos m / 2 ^ (- e)) by (apply Z.div_pos; [lia |];
      apply Z.pow_pos_nonneg; lia).
    lia.
Qed.

(** The final clamp. *)
Lemma final_clamp_range (d : number) :
  valid_binary prec emax d = true ->
  -32768 <= truncZ (Math_max cm0x8000 (Math_min c0x7FFF d)) <= 32767.
Proof.
  intros Hv. unfold Math_min.
  destruct (is_nan d) eqn:Hnan.
  { destruct d; try discriminate. vm_compute. split; discriminate. }
  replace (is_nan c0x7FFF || false) with false by reflexivity.
  destruct (lt c0x7FFF d) eqn:Hcd; [vm_compute; split; discriminate |].
  destruct (lt d c0x7FFF) eqn:Hdc.
  - unfold Math_max. rewrite Hnan.
    replace (is_nan cm0x8000 || false) with false by reflexivity.
    destruct (lt cm0x8000 d) eqn:Hmd.
    + apply between_bounds; assumption.
    + destruct (lt d cm0x8000); vm_compute; split; discriminate.
  - change (match c0x7FFF with
            | S754_zero false => match d with
                                 | S754_zero _ => d
                                 | _ => c0x7FFF
                                 end
            | _ => c0x7FFF
            end) with c0x7FFF.
    vm_compute. split; discriminate.
Qed.

(** X19. The 16-bit store of the PCM loop never wraps around: for every
    sample a Float32Array can hold (NaN and the infinities included) and
    every pair of Uint32 draws, the dithered, rounded and clamped value is an
    integer within [-32768, 32767], so the two's complement value
    [setInt16] stores reads back as that very value. *)
Theorem pcm_store_never_wraps (sample : number) (draws : Z * Z) :
  valid_binary prec emax sample = true ->
  0 <= fst draws <= 4294967295 -> 0 <= snd draws <= 4294967295 ->
  let v := truncZ (quantize sample draws) in
  let stored := wrap 16 v in
  -32768 <= v <= 32767
  /\ (if stored <? 32768 then stored else stored - 65536) = v.
Proof.
  intros Hv H1 H2 v stored.
  assert (Hrange : -32768 <= v <= 32767).
  { unfold v, quantize. apply final_clamp_range.
    apply Math_round_valid, add_valid; [| apply dither_valid; assumption].
    apply mul_valid; [| reflexivity].
    apply Math_max_valid; [reflexivity |].
    apply Math_min_valid; [reflexivity | exact Hv]. }
  split; [exact Hrange |].
  unfold stored, wrap. change (2 ^ 16) with 65536.
  destruct (Z_lt_le_dec v 0) as [Hneg|Hpos].
  - assert (Hmod : v mod 65536 = v + 65536).
    { symmetry. apply (Z.mod_unique v 65536 (-1)); lia. }
    rewrite Hmod. destruct (Z.ltb_spec (v + 65536) 32768); lia.
  - rewrite Z.mod_small by lia. destruct (Z.ltb_spec v 32768); lia.
Qed.

Lemma pcm_store_never_wraps_witness :
  let v := truncZ (quantize (neg one) (0, 4294967295)) in
  let stored := wrap 16 v in
  -32768 <= v <= 32767
  /\ (if stored <? 32768 then stored else stored - 65536) = v.
Proof.
  apply (pcm_store_never_wraps (neg one) (0, 4294967295)).
  - reflexivity.
  - cbn. lia.
  - cbn. lia.
Defined.

(** ** The magnitude of the dithered sample *)

Lemma upto_weaken (U U' a : Z) (x : number) :
  upto U a x -> U <= U' -> upto U' a x.
Proof.
  destruct x as [s|s| |s m e]; cbn [upto]; try tauto.
  intros (Hc & He & Hm) HU. split; [exact Hc |]. split; [exact He |].
  assert (0 < 2 ^ (a - e)) by (apply Z.pow_pos_nonneg; lia). nia.
Qed.

Lemma upto_halve (U a : Z) (x : number) :
  upto U a x -> 0 < U < 2 ^ 52 -> -1073 <= a -> upto (2 * U) (a - 1) x.
Proof.
  destruct x as [s|s| |s m e]; cbn [upto]; try tauto.
  intros (Hc & He & Hm) HU Ha.
  assert (Hlt : e <= a - 1).
  { destruct (Z_le_gt_dec e (-1074)) as [|Hn]; [lia |].
    destruct (canonical_normal m e Hc ltac:(lia)) as [_ [H52 _]].
    destruct (Z.eq_dec e a) as [->|]; [| lia].
    rewrite Z.sub_diag in Hm. change (2 ^ 0) with 1 in Hm. lia. }
  split; [exact Hc |]. split; [exact Hlt |].
  replace (a - e) with (a - 1 - e + 1) in Hm by lia.
  rewrite Z.pow_add_r in Hm by lia. change (2 ^ 1) with 2 in Hm. lia.
Qed.

(** Rounding an exact mantissa never crosses a bound that the format can
    represent. *)
Lemma binary_round_aux_upto (U a : Z) (s : bool) (mx ex : Z) :
  0 < mx -> ex <= fexp prec emax (Zdigits2 mx + ex) ->
  0 < U < 2 ^ 53 -> -1074 <= a <= 971 -> ex <= a ->
  mx <= U * 2 ^ (a - ex) ->
  upto U a (binary_round_aux prec emax s mx ex loc_Exact).
Proof.
  intros Hmx Hreg HU Ha Hex Hle.
  destruct (binary_round_aux_regular prec emax ltac:(reflexivity)
              s mx ex loc_Exact Hmx Hreg)
    as (R & HR & HRx & Hq & HRle & Hcanon & Hres).
  rewrite Hres. clear Hres.
  set (d := Zdigits2 mx) in *.
  assert (Hfe : fexp prec emax (d + ex) = Z.max (d + ex - 53) (-1074))
    by apply fexp64.
  rewrite !Hfe in *. set (e1 := Z.max (d + ex - 53) (-1074)) in *.
  set (k := e1 - ex) in *. set (q := mx / 2 ^ k) in *.
  pose proof (Zdigits2_bounds mx Hmx) as [Hlo Hhi]. fold d in Hlo, Hhi.
  pose proof (Zdigits2_pos mx Hmx) as Hd. fold d in Hd.
  assert (Hk : 0 <= k) by (unfold k; lia).
  assert (He1a : e1 <= a).
  { assert (0 < 2 ^ (a - ex)) by (apply Z.pow_pos_nonneg; lia).
    assert (mx < 2 ^ (53 + (a - ex))) by (rewrite Z.pow_add_r by lia; nia).
    assert (d <= 53 + (a - ex)) by (apply Zdigits2_lt_pow; lia).
    unfold e1. lia. }
  set (T := U * 2 ^ (a - e1)).
  assert (HP : 0 < 2 ^ (a - e1)) by (apply Z.pow_pos_nonneg; lia).
  assert (Hpk : 0 < 2 ^ k) by (apply Z.pow_pos_nonneg; lia).
  assert (HmT : mx <= T * 2 ^ k).
  { unfold T. rewrite <- Z.mul_assoc, <- Z.pow_add_r by lia.
    replace (a - e1 + k) with (a - ex) by (unfold k; lia). exact Hle. }
  assert (HqT : q <= T).
  { unfold q. apply Z.div_le_upper_bound; [lia |]. lia. }
  assert (HRT : R <= T).
  { destruct HR as [HRq|HRq]; [lia |].
    destruct (Z.eq_dec (mx mod 2 ^ k) 0) as [Hz|Hnz].
    - specialize (HRx eq_refl Hz). lia.
    - pose proof (Z.div_mod mx (2 ^ k) ltac:(lia)) as Hdm. fold q in Hdm.
      pose proof (Z.mod_pos_bound mx (2 ^ k) Hpk).
      assert (q < T) by nia. lia. }
  destruct (Z.ltb_spec R (2 ^ prec)) as [HRlt|HRge].
  - destruct (Z.eq_dec R 0) as [->|HRnz]; [exact I |].
    assert (HRpos : 0 < R) by lia.
    destruct R as [|p|p]; try lia. unfold pack.
    change (emax - prec) with 971.
    destruct (Z.leb_spec e1 971); [| lia].
    cbn [upto]. split; [| split; [exact He1a | exact HRT]].
    apply canonical_spec. specialize (Hcanon ltac:(lia)).
    rewrite fexp64 in Hcanon. lia.
  - unfold pack. change (2 ^ (prec - 1)) with (Zpos 4503599627370496).
    change (emax - prec) with 971.
    assert (HReq : R = 2 ^ 53) by (change (2 ^ prec) with (2 ^ 53) in *; lia).
    assert (Ha1 : e1 + 1 <= a).
    { destruct (Z.eq_dec e1 a) as [Heq|]; [| lia]. unfold T in HRT.
      rewrite Heq, Z.sub_diag in HRT. change (2 ^ 0) with 1 in HRT. lia. }
    destruct (Z.leb_spec (e1 + 1) 971); [| lia].
    cbn [upto]. split; [| split; [exact Ha1 |]].
    + apply canonical_spec. change (Zdigits2 (Zpos 4503599627370496)) with 53.
      unfold e1. lia.
    + unfold T in HRT. replace (a - e1) with (a - (e1 + 1) + 1) in HRT by lia.
      rewrite Z.pow_add_r in HRT by lia. change (2 ^ 1) with 2 in HRT.
      change (Zpos 4503599627370496) with (2 ^ 52).
      change (2 ^ 53) with (2 * 2 ^ 52) in HReq. lia.
Qed.

Lemma binary_round_upto (U a : Z) (s : bool) (m : positive) (e : Z) :
  0 < U < 2 ^ 53 -> -1074 <= a <= 971 -> e <= a ->
  Zpos m <= U * 2 ^ (a - e) ->
  upto U a (binary_round prec emax s m e).
Proof.
  intros HU Ha He Hm. unfold binary_round.
  pose proof (shl_align_spec m e (fexp prec emax (Zpos (digits2_pos m) + e)))
    as Hs.
  destruct (shl_align m e (fexp prec emax (Zpos (digits2_pos m) + e)))
    as [mz ez].
  destruct Hs as [Hlt Hge].
  change (Zpos (digits2_pos m)) with (Zdigits2 (Zpos m)) in *.
  set (f := fexp prec emax (Zdigits2 (Zpos m) + e)) in *.
  destruct (Z_lt_le_dec f e) as [Hc|Hc].
  - destruct (Hlt Hc) as [Hmz ->].
    assert (Hdig : Zdigits2 (Zpos mz) + f = Zdigits2 (Zpos m) + e).
    { rewrite Hmz, Zdigits2_mul_pow2 by lia. lia. }
    apply binary_round_aux_upto; try lia.
    + rewrite Hdig. fold f. lia.
    + rewrite Hmz. replace (a - f) with (a - e + (e - f)) by lia.
      rewrite Z.pow_add_r by lia.
      assert (0 < 2 ^ (e - f)) by (apply Z.pow_pos_nonneg; lia). nia.
  - destruct (Hge Hc) as [-> ->]. apply binary_round_aux_upto; lia.
Qed.

Lemma binary_normalize_upto (U a z ez : Z) :
  0 < U < 2 ^ 53 -> -1074 <= a <= 971 -> ez <= a ->
  Z.abs z <= U * 2 ^ (a - ez) ->
  upto U a (binary_normalize prec emax z ez false).
Proof.
  intros HU Ha He Hz. destruct z as [|p|p]; unfold binary_normalize.
  - exact I.
  - apply binary_round_upto; lia.
  - apply binary_round_upto; lia.
Qed.

Lemma aligned_upto (U a : Z) (m : positive) (e ez : Z) :
  e <= a -> Zpos m <= U * 2 ^ (a - e) -> ez <= e ->
  Zpos (fst (shl_align m e ez)) <= U * 2 ^ (a - ez).
Proof.
  intros Hea Hm Hle.
  pose proof (shl_align_spec m e ez) as Hs.
  destruct (shl_align m e ez) as [m' e']. destruct Hs as [Hlt Hge].
  cbn [fst].
  destruct (Z_lt_le_dec ez e) as [Hc|Hc].
  - destruct (Hlt Hc) as [-> _].
    replace (a - ez) with (a - e + (e - ez)) by lia.
    rewrite Z.pow_add_r by lia.
    assert (0 < 2 ^ (e - ez)) by (apply Z.pow_pos_nonneg; lia). nia.
  - destruct (Hge Hc) as [-> _]. replace ez with e by lia. exact Hm.
Qed.

(** A sum is at most the sum of the bounds. *)
Lemma add_upto (U1 U2 a : Z) (x y : number) :
  upto U1 a x -> upto U2 a y -> 0 < U1 -> 0 < U2 -> U1 + U2 < 2 ^ 53 ->
  -1074 <= a <= 971 -> upto (U1 + U2) a (add x y).
Proof.
  intros Hx Hy H1 H2 HU Ha.
  destruct x as [sx|sx| |sx mx ex], y as [sy|sy| |sy my ey];
    try contradiction.
  - destruct sx, sy; exact I.
  - eapply upto_weaken; [exact Hy | lia].
  - eapply upto_weaken; [exact Hx | lia].
  - destruct Hx as (Hcx & Hex & Hmx), Hy as (Hcy & Hey & Hmy).
    unfold add, SFadd.
    pose proof (aligned_upto U1 a mx ex (Z.min ex ey) Hex Hmx ltac:(lia))
      as A1.
    pose proof (aligned_upto U2 a my ey (Z.min ex ey) Hey Hmy ltac:(lia))
      as A2.
    apply binary_normalize_upto; try lia.
    rewrite Z.mul_add_distr_r.
    set (pw := 2 ^ (a - Z.min ex ey)) in *.
    set (p := Zpos (fst (shl_align mx ex (Z.min ex ey)))) in *.
    set (q := Zpos (fst (shl_align my ey (Z.min ex ey)))) in *.
    assert (0 < p /\ 0 < q) by (unfold p, q; lia).
    clearbody pw p q.
    destruct sx, sy; cbn [cond_Zopp]; lia.
Qed.

(** The difference of two numbers of one sign is at most the larger. *)
Lemma sub_upto (U a : Z) (x y : number) :
  upto U a x -> upto U a y -> 0 < U < 2 ^ 53 -> -1074 <= a <= 971 ->
  (forall m e, x <> S754_finite true m e) ->
  (forall m e, y <> S754_finite true m e) ->
  upto U a (sub x y).
Proof.
  intros Hx Hy HU Ha Hpx Hpy.
  destruct x as [sx|sx| |sx mx ex], y as [sy|sy| |sy my ey];
    try contradiction.
  - destruct sx, sy; exact I.
  - exact Hy.
  - exact Hx.
  - destruct sx; [destruct (Hpx mx ex eq_refl) |].
    destruct sy; [destruct (Hpy my ey eq_refl) |].
    destruct Hx as (Hcx & Hex & Hmx), Hy as (Hcy & Hey & Hmy).
    unfold sub, SFsub.
    pose proof (aligned_upto U a mx ex (Z.min ex ey) Hex Hmx ltac:(lia))
      as A1.
    pose proof (aligned_upto U a my ey (Z.min ex ey) Hey Hmy ltac:(lia))
      as A2.
    apply binary_normalize_upto; try lia.
    set (pw := 2 ^ (a - Z.min ex ey)) in *.
    set (p := Zpos (fst (shl_align mx ex (Z.min ex ey)))) in *.
    set (q := Zpos (fst (shl_align my ey (Z.min ex ey)))) in *.
    assert (0 < p /\ 0 < q) by (unfold p, q; lia).
    clearbody pw p q. cbn [cond_Zopp]. lia.
Qed.

(** A product is at most the product of the bounds. *)
Lemma mul_upto (U1 U2 a1 a2 : Z) (x y : number) :
  upto U1 a1 x -> upto U2 a2 y -> 0 < U1 -> 0 < U2 -> U1 * U2 < 2 ^ 53 ->
  -1074 <= a1 + a2 <= 971 -> upto (U1 * U2) (a1 + a2) (mul x y).
Proof.
  intros Hx Hy H1 H2 HU Ha.
  destruct x as [sx|sx| |sx mx ex], y as [sy|sy| |sy my ey];
    try contradiction; try exact I.
  destruct Hx as (Hcx & Hex & Hmx), Hy as (Hcy & Hey & Hmy).
  unfold mul, SFmul. rewrite Pos2Z.inj_mul.
  apply binary_round_aux_upto; try lia.
  - rewrite fexp64.
    destruct (Z_le_gt_dec (ex + ey) (-1074)) as [|Hbig]; [lia |].
    pose proof (canonical_digits mx ex Hcx) as [_ Hex'].
    pose proof (canonical_digits my ey Hcy) as [_ Hey'].
    assert (Hd53 : 53 <= Zdigits2 (Zpos mx * Zpos my)).
    { destruct (Z_le_gt_dec ex (-1074)) as [Hsx|Hnx].
      - destruct (canonical_normal my ey Hcy ltac:(lia)) as [Hdy _].
        rewrite <- Hdy. apply Zdigits2_mono. nia.
      - destruct (canonical_normal mx ex Hcx ltac:(lia)) as [Hdx _].
        rewrite <- Hdx. apply Zdigits2_mono. nia. }
    lia.
  - replace (a1 + a2 - (ex + ey)) with ((a1 - ex) + (a2 - ey)) by lia.
    rewrite Z.pow_add_r by lia.
    assert (0 < 2 ^ (a1 - ex)) by (apply Z.pow_pos_nonneg; lia).
    assert (0 < 2 ^ (a2 - ey)) by (apply Z.pow_pos_nonneg; lia).
    apply Z.le_trans with (U1 * 2 ^ (a1 - ex) * (U2 * 2 ^ (a2 - ey)));
      [apply Z.mul_le_mono_nonneg; lia | lia].
Qed.

(** ** The clamps *)

Lemma Math_min_cases (a x : number) :
  (forall s, a <> S754_zero s) ->
  Math_min a x = nan \/ Math_min a x = a
  \/ (Math_min a x = x /\ lt x a = true).
Proof.
  intros Ha. unfold Math_min.
  destruct (is_nan a || is_nan x); [left; reflexivity |].
  destruct (lt a x); [right; left; reflexivity |].
  destruct (lt x a) eqn:Hx; [right; right; split; reflexivity |].
  right; left. destruct a as [s| | |]; [destruct (Ha s eq_refl) | reflexivity ..].
Qed.

Lemma Math_max_cases (a x : number) :
  (forall s, a <> S754_zero s) ->
  Math_max a x = nan \/ Math_max a x = a
  \/ (Math_max a x = x /\ lt a x = true).
Proof.
  intros Ha. unfold Math_max.
  destruct (is_nan a || is_nan x); [left; reflexivity |].
  destruct (lt a x) eqn:Hx; [right; right; split; reflexivity |].
  destruct (lt x a); [right; left; reflexivity |].
  right; left. destruct a as [s| | |]; [destruct (Ha s eq_refl) | reflexivity ..].
Qed.

Lemma below_one_upto (s : bool) (m : positive) (e : Z) :
  canonical m e -> e < -52 \/ (e = -52 /\ Zpos m <= 2 ^ 52) ->
  upto 1 0 (S754_finite s m e).
Proof.
  intros Hc Hb. pose proof (canonical_digits m e Hc) as [Hm He].
  cbn [upto]. split; [exact Hc |]. split; [lia |].
  rewrite Z.mul_1_l, Z.sub_0_l.
  destruct Hb as [Hlt|[-> Hle]]; [| exact Hle].
  assert (2 ^ 53 <= 2 ^ (- e)) by (apply Z.pow_le_mono_r; lia). lia.
Qed.

(** A valid number strictly between -1 and 1. *)
Lemma inside_unit (x : number) :
  valid_binary prec emax x = true ->
  lt (neg one) x = true -> lt x one = true -> upto 1 0 x.
Proof.
  intros Hv Hlo Hhi.
  destruct x as [s|[|]| |[|] m e]; try discriminate; [exact I | |].
  - cbn [valid_binary] in Hv.
    unfold lt, SFltb, neg, one, SFopp in Hlo. rewrite compare_negative in Hlo.
    apply below_one_upto; [exact Hv |].
    destruct (Z.compare_spec (-52) e) as [Heq|Hl|Hg];
      [| discriminate | left; lia].
    right. split; [lia |].
    destruct (4503599627370496 ?= m)%positive eqn:Hcmp; try discriminate.
    rewrite Pos2Z.inj_compare in Hcmp.
    assert (Zpos m < 4503599627370496) by (apply Z.gt_lt; exact Hcmp).
    change (2 ^ 52) with 4503599627370496. lia.
  - cbn [valid_binary] in Hv.
    unfold lt, SFltb, one in Hhi. rewrite compare_positive in Hhi.
    apply below_one_upto; [exact Hv |].
    destruct (Z.compare_spec e (-52)) as [Heq|Hl|Hg];
      [| left; lia | discriminate].
    right. split; [lia |].
    destruct (m ?= 4503599627370496)%positive eqn:Hcmp; try discriminate.
    rewrite Pos2Z.inj_compare in Hcmp.
    assert (Zpos m < 4503599627370496) by exact Hcmp.
    change (2 ^ 52) with 4503599627370496. lia.
Qed.

Lemma one_upto (s : bool) : upto 1 0 (S754_finite s 4503599627370496 (-52)).
Proof.
  apply below_one_upto; [reflexivity |]. right. split; [reflexivity |].
  change (2 ^ 52) with 4503599627370496. lia.
Qed.

(** The clamped sample is NaN or at most 1 in magnitude. *)
Lemma clamp_upto (sample : number) :
  valid_binary prec emax sample = true ->
  let c := Math_max (neg one) (Math_min one sample) in
  c = nan \/ upto 1 0 c.
Proof.
  intros Hv c. unfold c.
  destruct (Math_max_cases (neg one) (Math_min one sample))
    as [->|[->|[-> Hlo]]]; [discriminate | left; reflexivity | |].
  - right. apply one_upto.
  - destruct (Math_min_cases one sample) as [Hm|[Hm|[Hm Hhi]]];
      [discriminate | | |]; rewrite Hm in *.
    + left. reflexivity.
    + right. apply one_upto.
    + right. apply inside_unit; assumption.
Qed.

(** ** Dither, sum and rounding *)

Lemma draw_upto (r : Z) :
  0 <= r <= 4294967295 ->
  let u := div (ofZ r) c0xFFFFFFFF in
  upto 1 0 u /\ forall m e, u <> S754_finite true m e.
Proof.
  intros Hr u.
  destruct (draw_fraction r Hr) as [Hu|(m & e & Hu & Hc & Hb)];
    fold u in Hu; rewrite Hu.
  - split; [exact I | discriminate].
  - split; [apply below_one_upto; assumption | discriminate].
Qed.

(** The dither is at most half a step. *)
Lemma dither_upto (draws : Z * Z) :
  0 <= fst draws <= 4294967295 -> 0 <= snd draws <= 4294967295 ->
  upto 1 (-1)
    (mul (sub (div (ofZ (fst draws)) c0xFFFFFFFF)
              (div (ofZ (snd draws)) c0xFFFFFFFF)) c0_5).
Proof.
  intros H1 H2.
  destruct (draw_upto (fst draws) H1) as [Hu1 Hp1].
  destruct (draw_upto (snd draws) H2) as [Hu2 Hp2].
  cbv zeta in *.
  apply (mul_upto 1 1 0 (-1)); try lia.
  - apply sub_upto; try assumption; lia.
  - cbn [upto c0_5]. split; [reflexivity |]. split; [lia |].
    vm_compute. discriminate.
Qed.

(** The scaled sample plus the dither is at most 32767.5. *)
Lemma dithered_upto (c dither : number) :
  upto 1 0 c -> upto 1 (-1) dither ->
  upto 65535 (-1) (add (mul c c0x7FFF) dither).
Proof.
  intros Hc Hd.
  assert (H7 : upto 32767 0 c0x7FFF).
  { cbn [upto c0x7FFF]. split; [reflexivity |]. split; [lia |].
    vm_compute. discriminate. }
  pose proof (mul_upto 1 32767 0 0 c c0x7FFF Hc H7 ltac:(lia) ltac:(lia)
                ltac:(lia) ltac:(lia)) as Hs.
  change (1 * 32767) with 32767 in Hs. change (0 + 0) with 0 in Hs.
  apply upto_halve in Hs; [| lia | lia].
  apply (add_upto 65534 1 (-1)); try lia; assumption.
Qed.

(** Rounding a number of magnitude at most 32767.5 gives a zero or an
    integer from -32767 to 32768. *)
Lemma Math_round_upto (x : number) :
  upto 65535 (-1) x ->
  (exists s, Math_round x = S754_zero s)
  \/ exists q, Math_round x = ofZ q /\ -32767 <= q <= 32768 /\ q <> 0.
Proof.
  destruct x as [s|s| |s m e]; cbn [upto]; try contradiction.
  - intros _. left. exists s. reflexivity.
  - intros (Hc & He & Hm). unfold Math_round.
    destruct (Z.leb_spec 0 e); [lia |].
    set (P := 2 ^ (-1 - e)) in *.
    assert (HP : 0 < P) by (apply Z.pow_pos_nonneg; lia).
    assert (E1 : 2 ^ (- e) = 2 * P).
    { unfold P. replace (- e) with (1 + (-1 - e)) by lia.
      rewrite Z.pow_add_r by lia. reflexivity. }
    assert (E2 : 2 ^ (- e + 1) = 4 * P).
    { rewrite Z.pow_add_r by lia. rewrite E1. change (2 ^ 1) with 2. lia. }
    rewrite E1, E2.
    set (q := (2 * cond_Zopp s (Zpos m) + 2 * P) / (4 * P)).
    assert (Hq : -32767 <= q <= 32768).
    { unfold q. split.
      - apply Z.div_le_lower_bound; [lia |].
        destruct s; cbn [cond_Zopp]; lia.
      - apply Z.div_le_upper_bound; [lia |].
        destruct s; cbn [cond_Zopp]; lia. }
    clearbody q.
    destruct q as [|p|p].
    + left. exists s. reflexivity.
    + right. exists (Zpos p). split; [reflexivity |]. split; [exact Hq | lia].
    + right. exists (Zneg p). split; [reflexivity |]. split; [exact Hq | lia].
Qed.

Lemma ofZ_opp (n : Z) : 0 < n < 2 ^ 53 -> ofZ (- n) = neg (ofZ n).
Proof.
  intros [Hn Hlt]. destruct n as [|p|p]; try lia.
  pose proof (Zdigits2_pos (Zpos p) Hn) as Hd.
  assert (Hd53 : Zdigits2 (Zpos p) <= 53) by (apply Zdigits2_lt_pow; lia).
  assert (0 < 2 ^ (0 - (Zdigits2 (Zpos p) - 53)))
    by (apply Z.pow_pos_nonneg; lia).
  change (- Z.pos p) with (Z.neg p). unfold ofZ, binary_normalize.
  rewrite !binary_round_exact; rewrite Z.add_0_r, fexp64;
    replace (Z.max (Zdigits2 (Zpos p) - 53) (-1074))
      with (Zdigits2 (Zpos p) - 53) by lia; try lia.
  rewrite !pack_pos by lia. reflexivity.
Qed.

Lemma truncZ_neg (x : number) : truncZ (neg x) = - truncZ x.
Proof.
  destruct x as [s|s| |s m e]; try reflexivity.
  unfold neg, SFopp, truncZ. destruct (0 <=? e); destruct s; cbn; lia.
Qed.

(** The final clamp of a rounded value: -32768 is out of reach. *)
Lemma final_clamp_symmetric (d : number) :
  valid_binary prec emax d = true ->
  d = nan \/ (exists s, d = S754_zero s)
  \/ (exists q, d = ofZ q /\ -32767 <= q <= 32768 /\ q <> 0) ->
  -32767 <= truncZ (Math_max cm0x8000 (Math_min c0x7FFF d)) <= 32767.
Proof.
  intros Hv Hd.
  pose proof (final_clamp_range d Hv) as [_ Hhi]. split; [| exact Hhi].
  destruct Hd as [->|[[s ->]|(q & -> & Hq & Hnz)]].
  - vm_compute. discriminate.
  - destruct s; vm_compute; discriminate.
  - destruct (Z_lt_le_dec q 0) as [Hneg|Hpos].
    + (* a negative integer *)
      replace q with (- - q) by lia. rewrite ofZ_opp by lia.
      destruct (integer_form (- q) ltac:(lia)) as (Hform & HM & HdM & HE & HMq).
      cbv zeta in *.
      assert (Hdq : Zdigits2 (- q) <= 15) by (apply Zdigits2_lt_pow; lia).
      rewrite Hform. cbn [neg SFopp negb].
      set (M := Z.to_pos (- q * 2 ^ (53 - Zdigits2 (- q)))) in *.
      set (E := Zdigits2 (- q) - 53) in *.
      change (Math_min c0x7FFF (S754_finite true M E))
        with (S754_finite true M E).
      assert (Hlt : lt cm0x8000 (S754_finite true M E) = true).
      { unfold lt, SFltb, cm0x8000. rewrite compare_negative.
        destruct (Z.compare_spec (-37) E); try (unfold E in *; lia). }
      unfold Math_max. rewrite Hlt.
      change (is_nan cm0x8000 || is_nan (S754_finite true M E)) with false.
      cbv iota.
      change (S754_finite true M E) with (neg (S754_finite false M E)).
      rewrite truncZ_neg, <- Hform, truncZ_ofZ by lia. lia.
    + (* a positive integer *)
      destruct (integer_form q ltac:(lia)) as (Hform & HM & HdM & HE & HMq).
      cbv zeta in *.
      destruct (Math_min_cases c0x7FFF (ofZ q)) as [Hm|[Hm|[Hm _]]];
        [discriminate | | |]; rewrite Hm.
      * vm_compute. discriminate.
      * vm_compute. discriminate.
      * rewrite Hform.
        set (M := Z.to_pos (q * 2 ^ (53 - Zdigits2 q))) in *.
        set (E := Zdigits2 q - 53) in *.
        change (Math_max cm0x8000 (S754_finite false M E))
          with (S754_finite false M E).
        rewrite <- Hform, truncZ_ofZ by lia. lia.
Qed.

(** X20. The PCM loop never writes the most negative code: for every sample
    (NaN and the infinities included) and every pair of Uint32 draws the
    value stored is within [-32767, 32767], although the final clamp allows
    -32768; the clamped sample times 32767 plus a dither of at most half a
    step cannot round below -32767.  So the bit pattern 0x8000 never occurs
    in the data. *)
Theorem most_negative_code_is_never_written (sample : number)
    (draws : Z * Z) :
  valid_binary prec emax sample = true ->
  0 <= fst draws <= 4294967295 -> 0 <= snd draws <= 4294967295 ->
  let v := truncZ (quantize sample draws) in
  -32767 <= v <= 32767 /\ wrap 16 v <> 32768.
Proof.
  intros Hv H1 H2 v.
  assert (Hrange : -32767 <= v <= 32767).
  { unfold v, quantize.
    pose proof (dither_valid draws H1 H2) as Hdv.
    pose proof (dither_upto draws H1 H2) as Hdu.
    set (dither := mul (sub _ _) c0_5) in *.
    pose proof (Math_max_valid (neg one) (Math_min one sample) eq_refl
                  (Math_min_valid one sample eq_refl Hv)) as Hcv.
    destruct (clamp_upto sample Hv) as [Hc|Hc]; cbv zeta in Hc.
    - rewrite Hc. apply final_clamp_symmetric; [reflexivity |].
      left. reflexivity.
    - set (c := Math_max (neg one) (Math_min one sample)) in *.
      apply final_clamp_symmetric.
      + apply Math_round_valid, add_valid; [| exact Hdv].
        apply mul_valid; [exact Hcv | reflexivity].
      + right. apply Math_round_upto, dithered_upto; assumption. }
  split; [exact Hrange |].
  unfold wrap. change (2 ^ 16) with 65536.
  destruct (Z_lt_le_dec v 0) as [Hneg|Hpos].
  - assert (Hmod : v mod 65536 = v + 65536).
    { symmetry. apply (Z.mod_unique v 65536 (-1)); lia. }
    lia.
  - rewrite Z.mod_small by lia. lia.
Qed.

Lemma most_negative_code_is_never_written_witness :
  let v := truncZ (quantize (neg one) (0, 4294967295)) in
  -32767 <= v <= 32767 /\ wrap 16 v <> 32768.
Proof.
  apply (most_negative_code_is_never_written (neg one) (0, 4294967295)).
  - reflexivity.
  - cbn. lia.
  - cbn. lia.
Defined.

(** ** Full scale *)

(** Rounding an exact mantissa between two bounds that the format can
    represent stays between them. *)
Lemma binary_round_aux_within (L U a : Z) (s : bool) (mx ex : Z) :
  0 < mx -> ex <= fexp prec emax (Zdigits2 mx + ex) ->
  0 < L -> U < 2 ^ 53 -> -1074 <= a <= 971 -> ex <= a ->
  L * 2 ^ (a - ex) <= mx <= U * 2 ^ (a - ex) ->
  exists m e,
    binary_round_aux prec emax s mx ex loc_Exact = S754_finite s m e
    /\ within L U a (S754_finite s m e).
Proof.
  intros Hmx Hreg HL HU Ha Hex [Hlow Hle].
  assert (HU0 : 0 < U).
  { assert (0 < 2 ^ (a - ex)) by (apply Z.pow_pos_nonneg; lia). nia. }
  pose proof (binary_round_aux_upto U a s mx ex Hmx Hreg ltac:(lia) Ha Hex Hle)
    as Hup.
  destruct (binary_round_aux_regular prec emax ltac:(reflexivity)
              s mx ex loc_Exact Hmx Hreg)
    as (R & HR & HRx & Hq & HRle & Hcanon & Hres).
  rewrite Hres in *. clear Hres.
  set (d := Zdigits2 mx) in *.
  assert (Hfe : fexp prec emax (d + ex) = Z.max (d + ex - 53) (-1074))
    by apply fexp64.
  rewrite !Hfe in *. set (e1 := Z.max (d + ex - 53) (-1074)) in *.
  set (k := e1 - ex) in *. set (q := mx / 2 ^ k) in *.
  pose proof (Zdigits2_bounds mx Hmx) as [Hlo Hhi]. fold d in Hlo, Hhi.
  pose proof (Zdigits2_pos mx Hmx) as Hd. fold d in Hd.
  assert (Hk : 0 <= k) by (unfold k; lia).
  assert (He1a : e1 <= a).
  { assert (0 < 2 ^ (a - ex)) by (apply Z.pow_pos_nonneg; lia).
    assert (mx < 2 ^ (53 + (a - ex))) by (rewrite Z.pow_add_r by lia; nia).
    assert (d <= 53 + (a - ex)) by (apply Zdigits2_lt_pow; lia).
    unfold e1. lia. }
  set (T := L * 2 ^ (a - e1)).
  assert (HP : 0 < 2 ^ (a - e1)) by (apply Z.pow_pos_nonneg; lia).
  assert (Hpk : 0 < 2 ^ k) by (apply Z.pow_pos_nonneg; lia).
  assert (HmT : T * 2 ^ k <= mx).
  { unfold T. rewrite <- Z.mul_assoc, <- Z.pow_add_r by lia.
    replace (a - e1 + k) with (a - ex) by (unfold k; lia). exact Hlow. }
  assert (HqT : T <= q).
  { unfold q. apply Z.div_le_lower_bound; [lia |]. lia. }
  assert (HT0 : 0 < T) by (unfold T; nia).
  assert (HRT : T <= R) by lia.
  destruct (Z.ltb_spec R (2 ^ prec)) as [HRlt|HRge].
  - destruct R as [|p|p]; try lia. unfold pack in *.
    change (emax - prec) with 971 in *.
    destruct (Z.leb_spec e1 971); [| lia].
    exists p, e1. split; [reflexivity |].
    cbn [upto] in Hup. destruct Hup as (Hc & _ & Hu).
    cbn [within]. split; [exact Hc |]. split; [exact He1a |].
    split; [exact HRT | exact Hu].
  - unfold pack in *.
    change (2 ^ (prec - 1)) with (Zpos 4503599627370496) in *.
    change (emax - prec) with 971 in *.
    destruct (Z.leb_spec (e1 + 1) 971); [| contradiction].
    exists 4503599627370496%positive, (e1 + 1). split; [reflexivity |].
    cbn [upto] in Hup. destruct Hup as (Hc & He & Hu).
    cbn [within]. split; [exact Hc |]. split; [exact He |].
    split; [| exact Hu].
    assert (Hq53 : q < 2 ^ 53) by (change (2 ^ prec) with (2 ^ 53) in Hq; lia).
    unfold T in HqT. replace (a - e1) with (a - (e1 + 1) + 1) in HqT by lia.
    rewrite Z.pow_add_r in HqT by lia. change (2 ^ 1) with 2 in HqT.
    change (Zpos 4503599627370496) with (2 ^ 52).
    change (2 ^ 53) with (2 * 2 ^ 52) in Hq53. lia.
Qed.

Lemma binary_round_within (L U a : Z) (s : bool) (m : positive) (e : Z) :
  0 < L -> U < 2 ^ 53 -> -1074 <= a <= 971 -> e <= a ->
  L * 2 ^ (a - e) <= Zpos m <= U * 2 ^ (a - e) ->
  exists m' e',
    binary_round prec emax s m e = S754_finite s m' e'
    /\ within L U a (S754_finite s m' e').
Proof.
  intros HL HU Ha He [Hlow Hm]. unfold binary_round.
  pose proof (shl_align_spec m e (fexp prec emax (Zpos (digits2_pos m) + e)))
    as Hs.
  destruct (shl_align m e (fexp prec emax (Zpos (digits2_pos m) + e)))
    as [mz ez].
  destruct Hs as [Hlt Hge].
  change (Zpos (digits2_pos m)) with (Zdigits2 (Zpos m)) in *.
  set (f := fexp prec emax (Zdigits2 (Zpos m) + e)) in *.
  destruct (Z_lt_le_dec f e) as [Hc|Hc].
  - destruct (Hlt Hc) as [Hmz ->].
    assert (Hdig : Zdigits2 (Zpos mz) + f = Zdigits2 (Zpos m) + e).
    { rewrite Hmz, Zdigits2_mul_pow2 by lia. lia. }
    apply binary_round_aux_within; try lia.
    + rewrite Hdig. fold f. lia.
    + rewrite Hmz. replace (a - f) with (a - e + (e - f)) by lia.
      rewrite Z.pow_add_r by lia.
      assert (0 < 2 ^ (e - f)) by (apply Z.pow_pos_nonneg; lia). nia.
  - destruct (Hge Hc) as [-> ->]. apply binary_round_aux_within; lia.
Qed.

Lemma aligned_within (L a : Z) (m : positive) (e ez : Z) :
  e <= a -> L * 2 ^ (a - e) <= Zpos m -> ez <= e ->
  L * 2 ^ (a - ez) <= Zpos (fst (shl_align m e ez)).
Proof.
  intros Hea Hm Hle.
  pose proof (shl_align_spec m e ez) as Hs.
  destruct (shl_align m e ez) as [m' e']. destruct Hs as [Hlt Hge].
  cbn [fst].
  destruct (Z_lt_le_dec ez e) as [Hc|Hc].
  - destruct (Hlt Hc) as [-> _].
    replace (a - ez) with (a - e + (e - ez)) by lia.
    rewrite Z.pow_add_r by lia.
    assert (0 < 2 ^ (e - ez)) by (apply Z.pow_pos_nonneg; lia). nia.
  - destruct (Hge Hc) as [-> _]. replace ez with e by lia. exact Hm.
Qed.

(** Adding a smaller number keeps the sign and moves the magnitude by at
    most the smaller number's bound. *)
Lemma add_near (L1 U1 U2 a : Z) (s : bool) (m : positive) (e : Z)
    (y : number) :
  within L1 U1 a (S754_finite s m e) -> upto U2 a y ->
  0 < U2 < L1 -> U1 + U2 < 2 ^ 53 -> -1074 <= a <= 971 ->
  exists m' e',
    add (S754_finite s m e) y = S754_finite s m' e'
    /\ within (L1 - U2) (U1 + U2) a (S754_finite s m' e').
Proof.
  intros Hx Hy HU2 HU Ha.
  destruct Hx as (Hcx & Hex & Hlx & Hmx).
  destruct y as [sy|sy| |sy my ey]; try contradiction.
  - exists m, e. split; [reflexivity |].
    assert (0 < 2 ^ (a - e)) by (apply Z.pow_pos_nonneg; lia).
    cbn [within]. split; [exact Hcx |]. split; [exact Hex |]. nia.
  - destruct Hy as (Hcy & Hey & Hmy).
    unfold add, SFadd.
    pose proof (aligned_upto U1 a m e (Z.min e ey) Hex Hmx ltac:(lia)) as A1.
    pose proof (aligned_within L1 a m e (Z.min e ey) Hex Hlx ltac:(lia))
      as A0.
    pose proof (aligned_upto U2 a my ey (Z.min e ey) Hey Hmy ltac:(lia))
      as A2.
    set (pw := 2 ^ (a - Z.min e ey)) in *.
    assert (Hpw : 0 < pw) by (apply Z.pow_pos_nonneg; lia).
    set (p := Zpos (fst (shl_align m e (Z.min e ey)))) in *.
    set (q := Zpos (fst (shl_align my ey (Z.min e ey)))) in *.
    assert (Hq0 : 0 < q) by (unfold q; lia).
    assert (Hz : (L1 - U2) * pw <= p - q /\ p + q <= (U1 + U2) * pw) by nia.
    assert (Hpos : 0 < (L1 - U2) * pw) by nia.
    assert (Hmin : Z.min e ey <= a) by lia.
    clearbody p q.
    unfold binary_normalize.
    destruct s; cbn [cond_Zopp];
      destruct sy; cbn [cond_Zopp].
    + destruct (- p + - q) as [|z|z] eqn:Hzq; try lia.
      apply binary_round_within; try fold pw; lia.
    + destruct (- p + q) as [|z|z] eqn:Hzq; try lia.
      apply binary_round_within; try fold pw; lia.
    + destruct (p + - q) as [|z|z] eqn:Hzq; try lia.
      apply binary_round_within; try fold pw; lia.
    + destruct (p + q) as [|z|z] eqn:Hzq; try lia.
      apply binary_round_within; try fold pw; lia.
Qed.

Lemma clamp_high (sample : number) :
  is_nan sample = false -> lt sample one = false ->
  Math_max (neg one) (Math_min one sample) = one.
Proof.
  intros Hnan Hlt. unfold Math_min. rewrite Hnan, Hlt.
  change (is_nan one || false) with false. cbv iota.
  destruct (lt one sample); reflexivity.
Qed.

Lemma clamp_low (sample : number) :
  is_nan sample = false -> lt (neg one) sample = false ->
  Math_max (neg one) (Math_min one sample) = neg one.
Proof.
  intros Hnan Hlt.
  destruct sample as [s|[|]| |[|] m e]; try discriminate; [reflexivity |].
  change (Math_min one (S754_finite true m e)) with (S754_finite true m e).
  unfold Math_max. rewrite Hlt.
  change (is_nan (neg one) || is_nan (S754_finite true m e)) with false.
  cbv iota. destruct (lt (S754_finite true m e) (neg one)); reflexivity.
Qed.

(** Full scale plus the dither stays within half a step of full scale. *)
Lemma full_scale_sum (s : bool) (dither : number) :
  upto 1 (-1) dither ->
  exists m e,
    add (S754_finite s 9006924376834048 (-38)) dither = S754_finite s m e
    /\ within 65533 65535 (-1) (S754_finite s m e).
Proof.
  intros Hd.
  apply (add_near 65534 65534 1 (-1)); try lia; [| exact Hd].
  cbn [within]. split; [reflexivity |]. split; [lia |].
  vm_compute. split; discriminate.
Qed.

Lemma Math_round_full (s : bool) (m : positive) (e : Z) :
  within 65533 65535 (-1) (S754_finite s m e) ->
  exists q, Math_round (S754_finite s m e) = ofZ q
            /\ if s then -32767 <= q <= -32766 else 32767 <= q <= 32768.
Proof.
  intros (Hc & He & Hlo & Hhi). unfold Math_round.
  destruct (Z.leb_spec 0 e); [lia |].
  set (P := 2 ^ (-1 - e)) in *.
  assert (HP : 0 < P) by (apply Z.pow_pos_nonneg; lia).
  assert (E1 : 2 ^ (- e) = 2 * P).
  { unfold P. replace (- e) with (1 + (-1 - e)) by lia.
    rewrite Z.pow_add_r by lia. reflexivity. }
  assert (E2 : 2 ^ (- e + 1) = 4 * P).
  { rewrite Z.pow_add_r by lia. rewrite E1. change (2 ^ 1) with 2. lia. }
  rewrite E1, E2.
  set (q := (2 * cond_Zopp s (Zpos m) + 2 * P) / (4 * P)).
  assert (Hq : if s then -32767 <= q <= -32766 else 32767 <= q <= 32768).
  { unfold q. destruct s; cbn [cond_Zopp]; split;
      (apply Z.div_le_lower_bound; [lia |]; lia)
      || (apply Z.div_le_upper_bound; [lia |]; lia). }
  clearbody q. exists q. split; [| exact Hq].
  destruct q as [|p|p]; [destruct s; lia | reflexivity | reflexivity].
Qed.

(** X21. Samples at or beyond full scale are clipped whatever the dither:
    every sample of at least 1 (Infinity included) is stored as 32767 for
    every pair of draws, and every sample of at most -1 (-Infinity
    included) as -32767 or -32766; the dither can pull a negative peak
    inwards, never a positive one. *)
Theorem full_scale_is_clipped (sample : number) (draws : Z * Z) :
  is_nan sample = false ->
  0 <= fst draws <= 4294967295 -> 0 <= snd draws <= 4294967295 ->
  let v := truncZ (quantize sample draws) in
  (lt sample one = false -> v = 32767)
  /\ (lt (neg one) sample = false -> v = -32767 \/ v = -32766).
Proof.
  intros Hnan H1 H2 v. unfold v, quantize.
  pose proof (dither_upto draws H1 H2) as Hdu.
  set (dither := mul (sub _ _) c0_5) in *. clearbody dither.
  split; intros Hlt.
  - rewrite (clamp_high sample Hnan Hlt).
    change (mul one c0x7FFF) with (S754_finite false 9006924376834048 (-38)).
    destruct (full_scale_sum false dither Hdu) as (m & e & -> & Hw).
    destruct (Math_round_full false m e Hw) as (q & -> & Hq).
    assert (Hcases : q = 32767 \/ q = 32768) by lia.
    destruct Hcases as [-> | ->]; reflexivity.
  - rewrite (clamp_low sample Hnan Hlt).
    change (mul (neg one) c0x7FFF)
      with (S754_finite true 9006924376834048 (-38)).
    destruct (full_scale_sum true dither Hdu) as (m & e & -> & Hw).
    destruct (Math_round_full true m e Hw) as (q & -> & Hq).
    assert (Hcases : q = -32767 \/ q = -32766) by lia.
    destruct Hcases as [-> | ->]; [left | right]; reflexivity.
Qed.

Lemma full_scale_is_clipped_witness :
  let v := truncZ (quantize pinf (0, 4294967295)) in
  (lt pinf one = false -> v = 32767)
  /\ (lt (neg one) pinf = false -> v = -32767 \/ v = -32766).
Proof.
  apply (full_scale_is_clipped pinf (0, 4294967295)).
  - reflexivity.
  - cbn. lia.
  - cbn. lia.
Defined.

(** ** A silent sample in the PCM loop *)

Lemma Zdigits2_pow2 (j : Z) : 0 <= j -> Zdigits2 (2 ^ j) = j + 1.
Proof.
  intros Hj. replace (2 ^ j) with (1 * 2 ^ j) by lia.
  rewrite Zdigits2_mul_pow2 by lia. change (Zdigits2 1) with 1. lia.
Qed.

(** Rounding a number of magnitude at most one half gives a zero, or 1 when
    the number is exactly one half. *)
Lemma Math_round_half (x : number) :
  upto 1 (-1) x ->
  (exists s, Math_round x = S754_zero s)
  \/ (x = c0_5 /\ Math_round x = one).
Proof.
  destruct x as [s|s| |s m e]; cbn [upto]; try contradiction.
  - intros _. left. exists s. reflexivity.
  - intros (Hc & He & Hm). unfold Math_round.
    destruct (Z.leb_spec 0 e); [lia |].
    set (P := 2 ^ (-1 - e)) in *.
    assert (HP : 0 < P) by (apply Z.pow_pos_nonneg; lia).
    assert (E1 : 2 ^ (- e) = 2 * P).
    { unfold P. replace (- e) with (1 + (-1 - e)) by lia.
      rewrite Z.pow_add_r by lia. reflexivity. }
    assert (E2 : 2 ^ (- e + 1) = 4 * P).
    { rewrite Z.pow_add_r by lia. rewrite E1. change (2 ^ 1) with 2. lia. }
    rewrite E1, E2. rewrite Z.mul_1_l in Hm.
    assert (Hsmall : forall s',
              (s' = true \/ Zpos m <> P) ->
              (2 * cond_Zopp s' (Zpos m) + 2 * P) / (4 * P) = 0).
    { intros s' Hs'. apply Z.div_small.
      destruct s'; cbn [cond_Zopp]; [lia |].
      destruct Hs' as [|]; [discriminate | lia]. }
    destruct s.
    { left. exists true. rewrite Hsmall by (left; reflexivity). reflexivity. }
    destruct (Z.eq_dec (Zpos m) P) as [Heq|Hne].
    + (* exactly one half *)
      right.
      assert (He53 : e = -53).
      { apply canonical_spec in Hc. destruct Hc as [Hf _].
        rewrite Heq in Hf. unfold P in Hf.
        rewrite Zdigits2_pow2 in Hf by lia. lia. }
      subst e. change (2 ^ (-1 - -53)) with (Zpos 4503599627370496) in P.
      unfold P in Heq. injection Heq as ->. split; reflexivity.
    + left. exists false. rewrite Hsmall by (right; exact Hne). reflexivity.
Qed.

(** X22. Silence stays silent under the dither: a zero sample (of either
    sign) is stored as 0 for every pair of draws, except when the dither is
    exactly one half, its largest value, where it is stored as 1; it is
    never stored as -1. *)
Theorem silence_is_stored_as_zero (s : bool) (draws : Z * Z) :
  0 <= fst draws <= 4294967295 -> 0 <= snd draws <= 4294967295 ->
  let dither := mul (sub (div (ofZ (fst draws)) c0xFFFFFFFF)
                         (div (ofZ (snd draws)) c0xFFFFFFFF)) c0_5 in
  let v := truncZ (quantize (S754_zero s) draws) in
  (dither <> c0_5 -> v = 0) /\ (dither = c0_5 -> v = 1).
Proof.
  intros H1 H2 dither v. unfold v, quantize. fold dither.
  pose proof (dither_upto draws H1 H2) as Hdu. fold dither in Hdu.
  clearbody dither.
  change (Math_max (neg one) (Math_min one (S754_zero s))) with (S754_zero s).
  change (mul (S754_zero s) c0x7FFF) with (S754_zero (xorb s false)).
  split.
  - intros Hne.
    destruct dither as [sd|sd| |sd m e]; try contradiction.
    + destruct s, sd; reflexivity.
    + change (add (S754_zero (xorb s false)) (S754_finite sd m e))
        with (S754_finite sd m e).
      destruct (Math_round_half _ Hdu) as [[s' ->]|[Heq _]];
        [destruct s'; reflexivity | contradiction].
  - intros ->. destruct s; reflexivity.
Qed.

Lemma silence_is_stored_as_zero_witness :
  let dither := mul (sub (div (ofZ 4294967295) c0xFFFFFFFF)
                         (div (ofZ 0) c0xFFFFFFFF)) c0_5 in
  let v := truncZ (quantize (S754_zero true) (4294967295, 0)) in
  (dither <> c0_5 -> v = 0) /\ (dither = c0_5 -> v = 1).
Proof.
  apply (silence_is_stored_as_zero true (4294967295, 0)).
  - cbn. lia.
  - cbn. lia.
Defined.

(** ** Samples the resampler reads as zero *)

Lemma read_sample_idempotent (x : number) :
  read_sample (read_sample x) = read_sample x.
Proof.
  unfold read_sample, or_zero. destruct (truthy x) eqn:Hx.
  - rewrite Hx. reflexivity.
  - reflexivity.
Qed.

Lemma or_zero_get_read (a : Float32Array) (k : number) :
  or_zero (get (map read_sample a) k) = or_zero (get a k).
Proof.
  unfold get. destruct (index_of k) as [i|]; [| reflexivity].
  cbn. unfold Float32Array in *. rewrite map_lookup.
  destruct (a !! i) as [x|]; [| reflexivity].
  exact (read_sample_idempotent x).
Qed.

Lemma length_number_read (a : Float32Array) :
  length_number (map read_sample a) = length_number a.
Proof. unfold length_number. rewrite length_map. reflexivity. Qed.

Lemma interpolate_read (a : Float32Array) (ratio : number) (i : nat) :
  interpolate (map read_sample a) ratio i = interpolate a ratio i.
Proof.
  unfold interpolate. rewrite length_number_read, !or_zero_get_read.
  reflexivity.
Qed.

Lemma upsampled_read (a : Float32Array)
    (inputSampleRate outputSampleRate : number) :
  upsampled (map read_sample a) inputSampleRate outputSampleRate
  = upsampled a inputSampleRate outputSampleRate.
Proof.
  unfold upsampled, upsample_length.
  rewrite length_map, length_number_read.
  destruct (length a =? 0)%nat; [reflexivity |].
  destruct (new_Float32Array _) as [allocated|e]; [| reflexivity].
  f_equal. apply map_ext. intros i. rewrite interpolate_read. reflexivity.
Qed.

(** X23. The resampler reads a NaN sample and a -0 sample as +0 (each read
    is [audioData[k] || 0]): replacing every such sample by +0 beforehand
    changes nothing in what [upsampleAudio] returns or throws. *)
Theorem upsampleAudio_reads_nan_as_zero (P : Platform) (w : World)
    (audioData : Float32Array) (inputSampleRate outputSampleRate : number) :
  quiet P ->
  result (upsampleAudio P
            (map (fun x => if is_nan x || is_zero x then pzero else x)
                 audioData)
            inputSampleRate outputSampleRate) w
  = result (upsampleAudio P audioData inputSampleRate outputSampleRate) w.
Proof.
  intros Hq.
  rewrite !(upsampleAudio_result P _ _ _ Hq w).
  rewrite <- (upsampled_read audioData). f_equal.
  apply map_ext. intros x. unfold read_sample, or_zero, truthy.
  destruct (is_nan x || is_zero x); reflexivity.
Qed.

Lemma upsampleAudio_reads_nan_as_zero_witness :
  result (upsampleAudio quiet_host
            (map (fun x => if is_nan x || is_zero x then pzero else x)
                 [nan; c0_5; S754_zero true])
            (ofZ 24000) c48000) (fresh_world development_config)
  = result (upsampleAudio quiet_host [nan; c0_5; S754_zero true]
              (ofZ 24000) c48000) (fresh_world development_config).
Proof.
  apply (upsampleAudio_reads_nan_as_zero quiet_host
           (fresh_world development_config) [nan; c0_5; S754_zero true]
           (ofZ 24000) c48000).
  intros l message d. reflexivity.
Defined.

(** ** Silence through the resampler *)

(** A normal number divided by 1 is itself, and divided by 2 is itself one
    exponent lower. *)
Lemma div_normal_one (M : positive) (E : Z) :
  Zdigits2 (Zpos M) = 53 -> -1073 <= E <= 971 ->
  div (S754_finite false M E) one = S754_finite false M E.
Proof.
  intros HdM HE.
  unfold div, one, SFdiv, SFdiv_core_binary. cbn [xorb].
  rewrite HdM.
  change (Zdigits2 4503599627370496) with 53.
  replace (53 + E - (53 + -52)) with (E + 52) by lia.
  rewrite fexp64.
  replace (Z.min (Z.max (E + 52 - 53) (-1074)) (E - -52)) with (E - 1) by lia.
  replace (E - -52 - (E - 1)) with 53 by lia.
  rewrite Z.shiftl_mul_pow2 by lia.
  rewrite div_eucl_spec.
  change (Zpos 4503599627370496) with (2 ^ 52).
  replace (Zpos M * 2 ^ 53) with (Zpos M * 2 * 2 ^ 52)
    by (change (2 ^ 53) with (2 * 2 ^ 52); lia).
  rewrite Z.div_mul, Z.mod_mul by lia.
  rewrite new_location_zero.
  assert (Hd : Zdigits2 (Zpos M * 2) = 54).
  { change 2 with (2 ^ 1) at 1. rewrite Zdigits2_mul_pow2 by lia. lia. }
  destruct (binary_round_aux_regular prec emax ltac:(reflexivity)
              false (Zpos M * 2) (E - 1) loc_Exact ltac:(lia))
    as (R & _ & HRx & [_ Hq] & _ & _ & Hres).
  { rewrite Hd, fexp64. lia. }
  rewrite Hd, fexp64 in HRx, Hq, Hres.
  replace (Z.max (54 + (E - 1) - 53) (-1074)) with E in HRx, Hq, Hres by lia.
  replace (E - (E - 1)) with 1 in HRx, Hq by lia.
  change (2 ^ 1) with 2 in HRx, Hq.
  rewrite Z.div_mul in HRx, Hq by lia.
  assert (Hmod : (Zpos M * 2) mod 2 = 0) by (apply Z.mod_mul; lia).
  rewrite (HRx eq_refl Hmod) in Hres.
  rewrite Hres.
  destruct (Z.ltb_spec (Zpos M) (2 ^ prec)) as [_|]; [| lia].
  apply pack_pos; lia.
Qed.

Lemma div_normal_two (M : positive) (E : Z) :
  Zdigits2 (Zpos M) = 53 -> -1072 <= E <= 972 ->
  div (S754_finite false M E) two = S754_finite false M (E - 1).
Proof.
  intros HdM HE. rewrite <- (div_normal_one M (E - 1)) by lia.
  unfold div, two, one, SFdiv, SFdiv_core_binary.
  change (Zdigits2 4503599627370496) with 53.
  replace (E - -51) with (E - 1 - -52) by lia.
  replace (Zdigits2 (Zpos M) + E - (53 + -51))
    with (Zdigits2 (Zpos M) + (E - 1) - (53 + -52)) by lia.
  reflexivity.
Qed.

Lemma ofZ_bounded (q : Z) : 0 <= q < 2 ^ 53 -> bounded_by 53 (ofZ q).
Proof.
  intros Hq. destruct (Z.eq_dec q 0) as [->|Hne]; [exact I |].
  destruct (integer_form q ltac:(lia)) as (-> & HM & HdM & HE & _).
  cbv zeta in *. cbn [bounded_by]. rewrite Z2Pos.id by lia.
  split; [apply canonical_spec; rewrite Z2Pos.id by lia |]; lia.
Qed.

(** At the ratio 2 the fractional part of every source index is finite. *)
Lemma fraction_finite_two (i : nat) :
  Z.of_nat i < 2 ^ 53 ->
  let sourceIndex := div (num_of_nat i) two in
  is_finite (sub sourceIndex (Math_floor sourceIndex)) = true.
Proof.
  intros Hi sourceIndex. unfold sourceIndex, num_of_nat.
  destruct (Z.eq_dec (Z.of_nat i) 0) as [->|Hne]; [reflexivity |].
  destruct (integer_form (Z.of_nat i) ltac:(lia)) as (-> & HM & HdM & HE & HMi).
  cbv zeta in *.
  set (M := Z.of_nat i * 2 ^ (53 - Zdigits2 (Z.of_nat i))) in *.
  set (E := Zdigits2 (Z.of_nat i) - 53) in *.
  rewrite div_normal_two; [| rewrite Z2Pos.id by lia; exact HdM | lia].
  assert (Bx : bounded_by 53 (S754_finite false (Z.to_pos M) (E - 1))).
  { cbn [bounded_by]. rewrite Z2Pos.id by lia.
    split; [apply canonical_spec; rewrite Z2Pos.id by lia |]; lia. }
  apply (bounded_by_finite 55). apply (sub_bounded 53); [exact Bx | | lia].
  unfold Math_floor. destruct (Z.leb_spec 0 (E - 1)); [lia |].
  assert (Hfl : 0 <= floorZ (S754_finite false (Z.to_pos M) (E - 1)) < 2 ^ 53).
  { unfold floorZ. destruct (Z.leb_spec 0 (E - 1)); [lia |].
    cbn [cond_Zopp]. rewrite Z2Pos.id by lia.
    pose proof (Zdigits2_bounds M HM) as [_ Hhi]. rewrite HdM in Hhi.
    assert (0 < 2 ^ (- (E - 1))) by (apply Z.pow_pos_nonneg; lia).
    split; [apply Z.div_pos; lia |].
    apply Z.div_lt_upper_bound; [lia |]. nia. }
  destruct (floorZ _) as [|q|q] eqn:Hq; [exact I | |].
  - apply ofZ_bounded. lia.
  - lia.
Qed.

Lemma or_zero_silent (a : Float32Array) (k : number) :
  Forall (fun x => truthy x = false) a -> or_zero (get a k) = pzero.
Proof.
  intros Ha. unfold get. destruct (index_of k) as [i|]; [| reflexivity].
  cbn. destruct (a !! i) as [x|] eqn:Hx; [| reflexivity].
  rewrite Forall_forall in Ha. unfold or_zero.
  rewrite (Ha x); [reflexivity |].
  apply list_elem_of_lookup. exists i. exact Hx.
Qed.

(** Between silent samples the spline is +0, wherever the fraction is
    finite. *)
Lemma interpolate_silent (a : Float32Array) (ratio : number) (i : nat) :
  Forall (fun x => truthy x = false) a ->
  is_finite (sub (div (num_of_nat i) ratio)
                 (Math_floor (div (num_of_nat i) ratio))) = true ->
  interpolate a ratio i = pzero.
Proof.
  intros Ha Hf. unfold interpolate.
  rewrite !(or_zero_silent a _ Ha).
  destruct (sub _ _) as [s|s| |s m e]; try discriminate;
    destruct s; reflexivity.
Qed.

Lemma upsampled_silence (a : Float32Array) :
  a <> [] -> Z.of_nat (length a) < 2 ^ 52 ->
  Forall (fun x => truthy x = false) a ->
  upsampled a (ofZ 24000) c48000
  = Returned (replicate (2 * length a) pzero).
Proof.
  intros Hne Hlen Ha.
  destruct (upsampled_doubles a Hne Hlen) as (up & Hup & Hl).
  rewrite Hup. f_equal. unfold Float32Array in *. apply list_eq. intros i.
  destruct (up !! i) as [y|] eqn:Hy.
  - assert (Hi : (i < length up)%nat)
      by (apply lookup_lt_is_Some; exists y; exact Hy).
    rewrite (upsampled_lookup a up _ _ _ y Hup Hy).
    change (upsample_ratio (ofZ 24000) c48000) with two.
    assert (H53 : 2 ^ 53 = 2 * 2 ^ 52) by reflexivity.
    rewrite interpolate_silent;
      [| exact Ha | apply fraction_finite_two; lia].
    symmetry. apply lookup_replicate. split; [reflexivity | lia].
  - apply lookup_ge_None in Hy. symmetry. apply lookup_ge_None.
    rewrite length_replicate. lia.
Qed.

(** X24. Silence resamples to silence: from 24000 Hz to 48000 Hz, a
    non-empty signal whose samples are all zeros (of either sign) or NaN
    comes out as twice as many +0 samples; the spline produces no NaN and
    no -0 from it. *)
Theorem silence_resamples_to_silence (P : Platform) (w : World)
    (audioData : Float32Array) :
  quiet P -> audioData <> [] -> Z.of_nat (length audioData) < 2 ^ 52 ->
  Forall (fun x => is_nan x || is_zero x = true) audioData ->
  result (upsampleAudio P audioData (ofZ 24000) c48000) w
  = Returned (replicate (2 * length audioData) pzero).
Proof.
  intros Hq Hne Hlen Ha.
  rewrite (upsampleAudio_result P _ _ _ Hq w).
  apply upsampled_silence; [exact Hne | exact Hlen |].
  eapply Forall_impl; [exact Ha |]. intros x Hx. unfold truthy.
  rewrite Hx. reflexivity.
Qed.

Lemma silence_resamples_to_silence_witness :
  result (upsampleAudio quiet_host [nan; S754_zero true; pzero]
            (ofZ 24000) c48000) (fresh_world development_config)
  = Returned (replicate (2 * length [nan; S754_zero true; pzero]) pzero).
Proof.
  apply (silence_resamples_to_silence quiet_host
           (fresh_world development_config) [nan; S754_zero true; pzero]).
  - intros l message d. reflexivity.
  - discriminate.
  - cbn. lia.
  - repeat constructor.
Defined.

(** ** A NaN sample *)

Lemma sumSquares_nan (a : Float32Array) :
  Exists (fun x => is_nan x = true) a -> sumSquares a = nan.
Proof.
  unfold sumSquares. generalize pzero.
  induction a as [|x a IH]; intros acc Hex.
  - inversion Hex.
  - cbn [fold_left]. apply Exists_cons in Hex. destruct Hex as [Hx|Hex].
    + destruct x; try discriminate.
      change (mul S754_nan S754_nan) with nan. rewrite add_nan_r.
      clear. induction a as [|y a IH]; [reflexivity | exact IH].
    + apply IH, Hex.
Qed.

Lemma normalized_nan (P : Platform) (a : Float32Array) (targetRMS : number) :
  Math_tanh P nan = nan ->
  Exists (fun x => is_nan x = true) a ->
  normalized P a targetRMS = Returned (replicate (length a) nan).
Proof.
  intros Htanh Hex. unfold normalized, rms_of.
  rewrite (sumSquares_nan a Hex).
  destruct a as [|x a]; [inversion Hex |]. cbn [length Nat.eqb].
  change (strict_eq (Math_sqrt (div nan (length_number (x :: a)))) pzero)
    with false. cbv iota.
  change (Math_sqrt (div nan (length_number (x :: a)))) with nan.
  assert (Hscale : div targetRMS nan = nan) by (destruct targetRMS; reflexivity).
  rewrite Hscale. f_equal.
  assert (Hlimit : forall y, soft_limit P nan y = nan).
  { intros y. unfold soft_limit.
    assert (Hy : mul y nan = nan) by (destruct y; reflexivity).
    rewrite Hy. change (mul nan c0_9) with nan. rewrite Htanh. reflexivity. }
  assert (Hmap : forall l : list number,
             map (soft_limit P nan) l = replicate (length l) nan).
  { intros l. induction l as [|y l IH]; [reflexivity |].
    cbn [map length replicate]. rewrite Hlimit, IH. reflexivity. }
  exact (Hmap (x :: a)).
Qed.

(** X25. One NaN sample silences the whole blob: the sum of squares, the
    RMS and the scale factor are then NaN, so (the host's tanh of NaN being
    NaN) the normalizer returns NaN for every sample; the resampler reads
    each NaN as 0, and at 24000 Hz [createAudioBlob] encodes twice as many
    +0 samples without raising any error. *)
Theorem nan_sample_silences_the_blob (P : Platform) (w : World)
    (audioData : Float32Array) :
  quiet P -> Math_tanh P nan = nan ->
  Exists (fun x => is_nan x = true) audioData ->
  Z.of_nat (length audioData) < 2 ^ 52 ->
  result (normalizeAudio P audioData c0_15) w
  = Returned (replicate (length audioData) nan)
  /\ processed P audioData (ofZ 24000)
     = Returned (replicate (2 * length audioData) pzero)
  /\ encoded (replicate (2 * length audioData) pzero)
       (result (createAudioBlob P audioData (ofZ 24000)) w).
Proof.
  intros Hq Htanh Hex Hlen.
  assert (Hne : audioData <> []) by (intros ->; inversion Hex).
  assert (Hn : normalized P audioData c0_15
               = Returned (replicate (length audioData) nan))
    by (apply normalized_nan; assumption).
  assert (Hp : processed P audioData (ofZ 24000)
               = Returned (replicate (2 * length audioData) pzero)).
  { unfold processed. rewrite Hn.
    rewrite upsampled_silence.
    - rewrite length_replicate. reflexivity.
    - destruct audioData; [contradiction | discriminate].
    - rewrite length_replicate. exact Hlen.
    - apply Forall_replicate. reflexivity. }
  split; [| split; [exact Hp |]].
  - rewrite (normalizeAudio_result P _ _ Hq w). exact Hn.
  - pose proof (createAudioBlob_result P audioData (ofZ 24000) Hq Hne
                  eq_refl w) as Hres.
    cbv beta in Hres. rewrite Hp in Hres. exact Hres.
Qed.

Lemma nan_sample_silences_the_blob_witness :
  result (normalizeAudio quiet_host [c0_5; nan; neg c0_5] c0_15)
    (fresh_world development_config)
  = Returned (replicate (length [c0_5; nan; neg c0_5]) nan)
  /\ processed quiet_host [c0_5; nan; neg c0_5] (ofZ 24000)
     = Returned (replicate (2 * length [c0_5; nan; neg c0_5]) pzero)
  /\ encoded (replicate (2 * length [c0_5; nan; neg c0_5]) pzero)
       (result (createAudioBlob quiet_host [c0_5; nan; neg c0_5] (ofZ 24000))
          (fresh_world development_config)).
Proof.
  apply (nan_sample_silences_the_blob quiet_host
           (fresh_world development_config) [c0_5; nan; neg c0_5]).
  - intros l message d. reflexivity.
  - reflexivity.
  - apply Exists_cons_tl, Exists_cons_hd. reflexivity.
  - cbn. lia.
Defined.

(** ** The PCM data of the blob *)

Section Entropy.
Variable P : Platform.
Variable n : nat.

Lemma log_keeps_entropy l category message d :
  keeps (fun w => entropy w = n) (log P l category message d).
Proof.
  unfold log. apply keeps_bind; [intros w Hw; exact Hw |].
  intros lg. destruct (negb _); [apply keeps_ret |].
  apply keeps_bind; [intros w Hw; exact Hw |]. intros t.
  apply keeps_bind.
  { intros w Hw. unfold deduplicateMessage, bind, get_logger, now,
      set_logger, ret. cbn [fst snd].
    destruct (enableDeduplication (config (logger w))); cbn [negb];
      [| exact Hw].
    destruct (lastMessages (logger w) !! _) as [[stored lastSeen]|];
      [destruct (_ <? _) |]; exact Hw. }
  intros [e|]; [| apply keeps_ret].
  apply keeps_bind; [intros w Hw; exact Hw |]. intros _.
  destruct (enableConsole _); [| apply keeps_ret].
  intros w Hw. unfold console_call.
  destruct l; try exact Hw; destruct (console P _ _ _); exact Hw.
Qed.

Lemma ttsDebugger_log_keeps_entropy stg ok d err :
  keeps (fun w => entropy w = n) (ttsDebugger_log P stg ok d err).
Proof.
  unfold ttsDebugger_log.
  apply keeps_bind; [intros w Hw; exact Hw |]. intros t.
  apply keeps_bind; [intros w Hw; exact Hw |].
  intros _. destruct ok; apply log_keeps_entropy.
Qed.

Lemma normalizeAudio_keeps_entropy audioData targetRMS :
  keeps (fun w => entropy w = n) (normalizeAudio P audioData targetRMS).
Proof.
  unfold normalizeAudio, validateAudioData.
  apply keeps_bind; [apply log_keeps_entropy |]. intros _.
  apply keeps_bind; [apply log_keeps_entropy |]. intros _.
  destruct (_ =? _)%nat.
  - apply keeps_bind; [apply log_keeps_entropy | intros; apply keeps_throw].
  - destruct (strict_eq _ _).
    + apply keeps_bind; [apply log_keeps_entropy | intros; apply keeps_ret].
    + apply keeps_bind; [apply log_keeps_entropy |]. intros _.
      apply keeps_bind; [apply log_keeps_entropy | intros; apply keeps_ret].
Qed.

Lemma upsampleAudio_keeps_entropy audioData inputSampleRate outputSampleRate :
  keeps (fun w => entropy w = n)
    (upsampleAudio P audioData inputSampleRate outputSampleRate).
Proof.
  unfold upsampleAudio, validateAudioData.
  apply keeps_bind; [apply ttsDebugger_log_keeps_entropy |]. intros _.
  apply keeps_bind; [apply log_keeps_entropy |]. intros _.
  destruct (_ =? _)%nat.
  - apply keeps_bind; [apply ttsDebugger_log_keeps_entropy |].
    intros; apply keeps_throw.
  - apply keeps_bind; [apply keeps_lift |]. intros allocated.
    apply keeps_bind; [apply log_keeps_entropy |]. intros _.
    apply keeps_bind; [apply ttsDebugger_log_keeps_entropy |].
    intros; apply keeps_ret.
Qed.

Lemma validate_header_keeps_entropy view :
  keeps (fun w => entropy w = n) (validate_header P view).
Proof.
  unfold validate_header.
  apply keeps_bind; [apply keeps_lift |]. intros h.
  apply keeps_bind; [apply log_keeps_entropy |]. intros _.
  destruct (header_rejected h).
  - apply keeps_bind; [apply log_keeps_entropy | intros; apply keeps_throw].
  - apply keeps_ret.
Qed.

End Entropy.

(** Running one step from a world that satisfies an invariant. *)
Lemma from_bind {A B} (I : World -> Prop) (m : M A) (k : A -> M B)
    (R : Outcome A -> Prop) (Q : Outcome B -> Prop) :
  holds I m R ->
  (forall a, R (Returned a) -> forall w, I w -> Q (fst (k a w))) ->
  (forall e, R (Thrown e) -> Q (Thrown e)) ->
  forall w, I w -> Q (fst (bind m k w)).
Proof.
  intros Hm Hk He w Hw. unfold bind. destruct (Hm w Hw) as [HR HI].
  destruct (m w) as [[a|e] w']; cbn [fst snd] in *.
  - apply Hk; assumption.
  - apply He, HR.
Qed.

(** The PCM loop writes sample [k] at offset + 2k, quantized with the
    draws of its own turn, and leaves the bytes before [offset] alone. *)
Lemma write_pcm_data (P : Platform) (samples : list number) :
  forall (offset : nat) (view : ArrayBuffer) (w : World),
    (offset + 2 * length samples <= length view)%nat ->
    exists view',
      fst (write_pcm P samples offset view w) = Returned view'
      /\ length view' = length view
      /\ take offset view' = take offset view
      /\ forall (k : nat) (x : number),
           samples !! k = Some x ->
           take 2 (drop (offset + 2 * k) view')
           = le_bytes 2 (wrap 16 (truncZ (quantize x
                           (getRandomValues P (entropy w + k))))).
Proof.
  induction samples as [|sample rest IH]; intros offset view w Hlen.
  - exists view. split; [reflexivity |]. split; [reflexivity |].
    split; [reflexivity |]. intros k x Hk. discriminate.
  - cbn [write_pcm]. cbn [length] in Hlen.
    unfold bind at 1. unfold random_pair at 1.
    set (w1 := {| logger := logger w; ttsDebugger := ttsDebugger w;
                  clock := clock w; entropy := S (entropy w) |}).
    set (v := truncZ (quantize sample (getRandomValues P (entropy w)))).
    unfold bind at 1. unfold lift at 1, setInt16, write_le.
    destruct (Nat.leb_spec (offset + 2) (length view)) as [_|]; [| lia].
    set (view1 := take offset view ++ le_bytes 2 (wrap 16 v)
                  ++ drop (offset + 2) view).
    assert (Hlen1 : length view1 = length view).
    { unfold view1. rewrite !length_app, length_take, length_drop.
      rewrite length_le_bytes. lia. }
    destruct (IH (offset + 2)%nat view1 w1 ltac:(lia))
      as (view' & Hrun & Hl & Ht & Hdata).
    exists view'. split; [exact Hrun |]. split; [lia |].
    assert (Htake1 : take offset view1 = take offset view).
    { unfold view1. rewrite take_app_le by (rewrite length_take; lia).
      rewrite take_take. f_equal. lia. }
    split.
    { rewrite <- Htake1.
      assert (Hboth : take offset (take (offset + 2) view')
                      = take offset (take (offset + 2) view1))
        by (rewrite Ht; reflexivity).
      rewrite !take_take in Hboth.
      replace (offset `min` (offset + 2))%nat with offset in Hboth by lia.
      exact Hboth. }
    intros [|k] x Hk.
    + injection Hk as <-.
      replace (offset + 2 * 0)%nat with offset by lia.
      rewrite Nat.add_0_r. fold v.
      rewrite take_drop_commute, Ht, <- take_drop_commute.
      unfold view1. rewrite drop_app_length' by (rewrite length_take; lia).
      rewrite take_app_length' by (symmetry; apply length_le_bytes).
      reflexivity.
    + cbn [lookup] in Hk.
      specialize (Hdata k x Hk).
      replace (offset + 2 * S k)%nat with (offset + 2 + 2 * k)%nat by lia.
      replace (entropy w + S k)%nat with (entropy w1 + k)%nat
        by (unfold w1; cbn [entropy]; lia).
      exact Hdata.
Qed.

Lemma from_then {A B} (I : World -> Prop) (m : M A) (k : A -> M B)
    (a : A) (Q : Outcome B -> Prop) :
  holds I m (fun o => o = Returned a) ->
  (forall w, I w -> Q (fst (k a w))) ->
  forall w, I w -> Q (fst (bind m k w)).
Proof.
  intros Hm Hk. eapply from_bind; [exact Hm | |].
  - intros a' Ha. injection Ha as ->. exact Hk.
  - intros e He. discriminate.
Qed.

Lemma encode_data (P : Platform) (audioData up : Float32Array)
    (sampleRate : number) (n : nat) :
  quiet P -> processed P audioData sampleRate = Returned up ->
  forall w, entropy w = n ->
    exists bytes,
      fst (encode P audioData sampleRate w)
      = Returned {| blob_bytes := bytes; blob_type := "audio/wav" |}
      /\ forall (k : nat) (x : number),
           up !! k = Some x ->
           take 2 (drop (44 + 2 * k) bytes)
           = le_bytes 2 (wrap 16 (truncZ (quantize x
                           (getRandomValues P (n + k))))).
Proof.
  intros Hq Hup. unfold processed in Hup.
  destruct (normalized P audioData c0_15) as [na|e] eqn:Hn; [| discriminate].
  set (Q := fun o : Outcome Blob =>
         exists bytes,
           o = Returned {| blob_bytes := bytes; blob_type := "audio/wav" |}
           /\ forall (k : nat) (x : number),
                up !! k = Some x ->
                take 2 (drop (44 + 2 * k) bytes)
                = le_bytes 2 (wrap 16 (truncZ (quantize x
                                (getRandomValues P (n + k)))))).
  change (forall w, entropy w = n
                    -> Q (fst (encode P audioData sampleRate w))).
  unfold encode.
  apply from_then with (a := na).
  { apply holds_post; [| apply normalizeAudio_keeps_entropy].
    pose proof (normalizeAudio_result P audioData c0_15 Hq) as H.
    rewrite Hn in H. exact H. }
  apply from_then with (a := up).
  { apply holds_post; [| apply upsampleAudio_keeps_entropy].
    pose proof (upsampleAudio_result P na sampleRate c48000 Hq) as H.
    rewrite Hup in H. exact H. }
  apply from_then with (a := tt).
  { apply holds_post; [apply ttsDebugger_log_returns, Hq
                      | apply ttsDebugger_log_keeps_entropy]. }
  cbv zeta. rewrite write_header_bytes.
  apply from_then with (a := header_bytes (length up)
                             ++ replicate (length up * 2) 0).
  { apply holds_lift. reflexivity. }
  apply from_then with (a := tt).
  { apply holds_post; [apply written_header_accepted, Hq
                      | apply validate_header_keeps_entropy]. }
  intros w Hw.
  destruct (write_pcm_data P up 44
              (header_bytes (length up) ++ replicate (length up * 2) 0) w)
    as (view' & Hrun & Hl & Ht & Hdata).
  { rewrite length_app, length_header_bytes, length_replicate. lia. }
  unfold bind at 1.
  destruct (write_pcm P up 44 _ w) as [o w'].
  cbn [fst] in Hrun. subst o.
  unfold Q. exists view'. split.
  - assert (Hpost : forall blob : Blob,
              post (debug P "audio-utils" "WAV PCM conversion complete"
                      (VObj [Field "samplesConverted"
                               (VNum (num_of_nat (length up)));
                             Field "blobSize"
                               (VNum (num_of_nat (length view')))]) ;;
                    ttsDebugger_log P "createAudioBlob-complete" true
                      (VObj [Field "blobSize"
                               (VNum (num_of_nat (length (blob_bytes blob))));
                             Field "blobType" (VStr (blob_type blob));
                             Field "bufferSize"
                               (VNum (num_of_nat (length view')))]) None ;;
                    ret blob)
                   (fun o => o = Returned blob)).
    { intros blob. unfold debug. do 2 log_step. apply post_ret. reflexivity. }
    exact (Hpost {| blob_bytes := view'; blob_type := "audio/wav" |} w').
  - intros k x Hk. rewrite <- Hw. apply Hdata, Hk.
Qed.

(** X26. The data of the blob is the quantized signal: after the 44 header
    bytes, the 16-bit little-endian word at offset 44 + 2k holds the low 16
    bits of the quantized k-th processed sample, dithered with the k-th draw
    of the call; the loop writes the samples in order, each exactly
    once. *)
Theorem pcm_data_is_the_quantized_signal (P : Platform) (w : World)
    (audioData up : Float32Array) (sampleRate : number) :
  quiet P -> audioData <> [] -> accepted_rate sampleRate = true ->
  processed P audioData sampleRate = Returned up ->
  exists blob,
    result (createAudioBlob P audioData sampleRate) w = Returned blob
    /\ forall (k : nat) (x : number),
         up !! k = Some x ->
         getUint16 (blob_bytes blob) (44 + 2 * k)
         = Returned (wrap 16 (truncZ (quantize x
                       (getRandomValues P (entropy w + k))))).
Proof.
  intros Hq Hne Hrate Hup.
  assert (Hmain : forall w', entropy w' = entropy w ->
            exists bytes,
              fst (createAudioBlob P audioData sampleRate w')
              = Returned {| blob_bytes := bytes; blob_type := "audio/wav" |}
              /\ forall (k : nat) (x : number),
                   up !! k = Some x ->
                   take 2 (drop (44 + 2 * k) bytes)
                   = le_bytes 2 (wrap 16 (truncZ (quantize x
                                   (getRandomValues P (entropy w + k)))))).
  { set (Q := fun o : Outcome Blob =>
           exists bytes,
             o = Returned {| blob_bytes := bytes; blob_type := "audio/wav" |}
             /\ forall (k : nat) (x : number),
                  up !! k = Some x ->
                  take 2 (drop (44 + 2 * k) bytes)
                  = le_bytes 2 (wrap 16 (truncZ (quantize x
                                  (getRandomValues P (entropy w + k)))))).
    change (forall w', entropy w' = entropy w
                       -> Q (fst (createAudioBlob P audioData sampleRate w'))).
    unfold createAudioBlob.
    apply from_then with (a := tt).
    { apply holds_post; [apply ttsDebugger_log_returns, Hq
                        | apply ttsDebugger_log_keeps_entropy]. }
    destruct audioData as [|x0 rest]; [contradiction |].
    cbn [length Nat.eqb].
    unfold accepted_rate in Hrate. apply negb_true_iff in Hrate.
    rewrite Hrate.
    intros w' Hw'.
    destruct (encode_data P (x0 :: rest) up sampleRate (entropy w) Hq Hup
                w' Hw') as (bytes & Hrun & Hdata).
    unfold Q. exists bytes. split; [| exact Hdata].
    unfold try_catch.
    destruct (encode P (x0 :: rest) sampleRate w') as [o w''].
    cbn [fst] in Hrun. subst o. reflexivity. }
  destruct (Hmain w eq_refl) as (bytes & Hrun & Hdata).
  exists {| blob_bytes := bytes; blob_type := "audio/wav" |}.
  split; [exact Hrun |]. cbn [blob_bytes].
  intros k x Hk. specialize (Hdata k x Hk).
  unfold getUint16, read_le.
  assert (Hlen : (44 + 2 * k + 2 <= length bytes)%nat).
  { apply (f_equal length) in Hdata.
    rewrite length_take, length_drop, length_le_bytes in Hdata. lia. }
  destruct (Nat.leb_spec (44 + 2 * k + 2) (length bytes)) as [_|]; [| lia].
  rewrite Hdata, le_value_le_bytes. f_equal.
  unfold wrap. change (256 ^ Z.of_nat 2) with (2 ^ 16).
  apply Z.mod_mod. lia.
Qed.

Lemma pcm_data_is_the_quantized_signal_witness :
  exists blob,
    result (createAudioBlob quiet_host click c48000)
      (fresh_world development_config) = Returned blob
    /\ forall (k : nat) (x : number),
         [pzero; one; neg one; pzero] !! k = Some x ->
         getUint16 (blob_bytes blob) (44 + 2 * k)
         = Returned (wrap 16 (truncZ (quantize x
                       (getRandomValues quiet_host
                          (entropy (fresh_world development_config) + k))))).
Proof.
  apply (pcm_data_is_the_quantized_signal quiet_host
           (fresh_world development_config) click
           [pzero; one; neg one; pzero] c48000).
  - intros l message d. reflexivity.
  - discriminate.
  - reflexivity.
  - vm_compute. reflexivity.
Defined.

(** ** The payload above the DEBUG level *)

Lemma holds_and {A} (I J : World -> Prop) (m : M A) (Q : Outcome A -> Prop) :
  holds I m Q -> keeps J m -> holds (fun w => I w /\ J w) m Q.
Proof.
  intros Hm Hk w [HI HJ]. destruct (Hm w HI) as [HQ HI'].
  split; [exact HQ |]. split; [exact HI' | apply Hk, HJ].
Qed.

Lemma encode_data_filtered (P : Platform) (lg : Logger)
    (audioData up : Float32Array) (sampleRate : number) (n : nat) :
  level (config lg) <> DEBUG ->
  audioData <> [] -> strict_eq (rms_of audioData) pzero = false ->
  processed P audioData sampleRate = Returned up ->
  forall w, logger w = lg /\ entropy w = n ->
    exists bytes,
      fst (encode P audioData sampleRate w)
      = Returned {| blob_bytes := bytes; blob_type := "audio/wav" |}
      /\ forall (k : nat) (x : number),
           up !! k = Some x ->
           take 2 (drop (44 + 2 * k) bytes)
           = le_bytes 2 (wrap 16 (truncZ (quantize x
                           (getRandomValues P (n + k))))).
Proof.
  intros Hlevel Hne Hrms Hup. unfold processed in Hup.
  destruct (normalized P audioData c0_15) as [na|e] eqn:Hn; [| discriminate].
  assert (Hna : na <> []).
  { destruct (normalized_returns P audioData c0_15 Hne) as (na' & Hn' & Hl).
    rewrite Hn in Hn'. injection Hn' as <-.
    intros ->. destruct audioData; [contradiction | discriminate]. }
  set (Q := fun o : Outcome Blob =>
         exists bytes,
           o = Returned {| blob_bytes := bytes; blob_type := "audio/wav" |}
           /\ forall (k : nat) (x : number),
                up !! k = Some x ->
                take 2 (drop (44 + 2 * k) bytes)
                = le_bytes 2 (wrap 16 (truncZ (quantize x
                                (getRandomValues P (n + k)))))).
  change (forall w, logger w = lg /\ entropy w = n
                    -> Q (fst (encode P audioData sampleRate w))).
  unfold encode.
  apply from_then with (a := na).
  { apply holds_and; [| apply normalizeAudio_keeps_entropy].
    rewrite <- Hn. apply normalizeAudio_filtered; assumption. }
  apply from_then with (a := up).
  { apply holds_and; [| apply upsampleAudio_keeps_entropy].
    rewrite <- Hup. apply upsampleAudio_filtered; assumption. }
  apply from_then with (a := tt).
  { apply holds_and; [apply ttsDebugger_log_filtered, Hlevel
                     | apply ttsDebugger_log_keeps_entropy]. }
  cbv zeta. rewrite write_header_bytes.
  apply from_then with (a := header_bytes (length up)
                             ++ replicate (length up * 2) 0).
  { apply holds_lift. reflexivity. }
  apply from_then with (a := tt).
  { apply holds_and; [apply validate_header_filtered, Hlevel
                     | apply validate_header_keeps_entropy]. }
  intros w [Hlg Hw].
  destruct (write_pcm_data P up 44
              (header_bytes (length up) ++ replicate (length up * 2) 0) w)
    as (view' & Hrun & Hl & Ht & Hdata).
  { rewrite length_app, length_header_bytes, length_replicate. lia. }
  pose proof (write_pcm_keeps_logger P lg up 44
                (header_bytes (length up) ++ replicate (length up * 2) 0)
                w Hlg) as Hlg'.
  unfold bind at 1.
  destruct (write_pcm P up 44 _ w) as [o w'].
  cbn [fst] in Hrun. cbn [snd] in Hlg'. subst o.
  unfold Q. exists view'. split.
  - assert (Hrest : forall blob : Blob,
              holds (fun w => logger w = lg)
                (debug P "audio-utils" "WAV PCM conversion complete"
                   (VObj [Field "samplesConverted"
                            (VNum (num_of_nat (length up)));
                          Field "blobSize"
                            (VNum (num_of_nat (length view')))]) ;;
                 ttsDebugger_log P "createAudioBlob-complete" true
                   (VObj [Field "blobSize"
                            (VNum (num_of_nat (length (blob_bytes blob))));
                          Field "blobType" (VStr (blob_type blob));
                          Field "bufferSize"
                            (VNum (num_of_nat (length view')))]) None ;;
                 ret blob)
                (fun o => o = Returned blob)).
    { intros blob.
      eapply holds_then; [apply debug_filtered, Hlevel |].
      eapply holds_then; [apply ttsDebugger_log_filtered, Hlevel |].
      apply holds_ret. reflexivity. }
    exact (proj1 (Hrest {| blob_bytes := view'; blob_type := "audio/wav" |}
                    w' Hlg')).
  - intros k x Hk. rewrite <- Hw. apply Hdata, Hk.
Qed.

(** X4. Unless the logger is at the DEBUG level, a successful run of
    [createAudioBlob] on a signal that is not silent never reaches the
    console: whatever the console does, the WAV blob of the processed signal
    is returned -- its type, its length, its 44 header bytes and, at offset
    44 + 2k, the quantized k-th processed sample dithered with the k-th
    draw -- and the logger is left as it was. *)
Theorem createAudioBlob_is_console_free_above_debug (P : Platform) (w : World)
    (audioData up : Float32Array) (sampleRate : number) :
  level (config (logger w)) <> DEBUG -> audioData <> [] ->
  accepted_rate sampleRate = true ->
  strict_eq (rms_of audioData) pzero = false ->
  processed P audioData sampleRate = Returned up ->
  let r := createAudioBlob P audioData sampleRate w in
  encoded up (fst r) /\ logger (snd r) = logger w
  /\ exists blob,
       fst r = Returned blob
       /\ forall (k : nat) (x : number),
            up !! k = Some x ->
            getUint16 (blob_bytes blob) (44 + 2 * k)
            = Returned (wrap 16 (truncZ (quantize x
                          (getRandomValues P (entropy w + k))))).
Proof.
  intros Hlevel Hne Hrate Hrms Hup r.
  assert (H : holds (fun w' => logger w' = logger w)
                (createAudioBlob P audioData sampleRate) (encoded up)).
  { unfold createAudioBlob.
    eapply holds_then; [apply ttsDebugger_log_filtered, Hlevel |].
    destruct audioData as [|x rest]; [contradiction |]. cbn [length Nat.eqb].
    unfold accepted_rate in Hrate. apply negb_true_iff in Hrate.
    rewrite Hrate.
    eapply holds_try_catch.
    - apply encode_filtered; [exact Hlevel | exact Hne | exact Hrms | exact Hup].
    - intros blob Hblob. exact Hblob.
    - intros e (bytes & Hbytes & _). discriminate. }
  destruct (H w eq_refl) as [Henc Hlog]. fold r in Henc, Hlog.
  split; [exact Henc |]. split; [exact Hlog |].
  set (Q := fun o : Outcome Blob =>
         exists bytes,
           o = Returned {| blob_bytes := bytes; blob_type := "audio/wav" |}
           /\ forall (k : nat) (x : number),
                up !! k = Some x ->
                take 2 (drop (44 + 2 * k) bytes)
                = le_bytes 2 (wrap 16 (truncZ (quantize x
                                (getRandomValues P (entropy w + k)))))).
  assert (Hmain : forall w', logger w' = logger w /\ entropy w' = entropy w ->
                             Q (fst (createAudioBlob P audioData sampleRate w'))).
  { unfold createAudioBlob.
    apply from_then with (a := tt).
    { apply holds_and; [apply ttsDebugger_log_filtered, Hlevel
                       | apply ttsDebugger_log_keeps_entropy]. }
    destruct audioData as [|x0 rest]; [contradiction |].
    cbn [length Nat.eqb].
    unfold accepted_rate in Hrate. apply negb_true_iff in Hrate.
    rewrite Hrate.
    intros w' Hw'.
    destruct (encode_data_filtered P (logger w) (x0 :: rest) up sampleRate
                (entropy w) Hlevel Hne Hrms Hup w' Hw')
      as (bytes & Hrun & Hdata).
    unfold Q. exists bytes. split; [| exact Hdata].
    unfold try_catch.
    destruct (encode P (x0 :: rest) sampleRate w') as [o w''].
    cbn [fst] in Hrun. subst o. reflexivity. }
  destruct (Hmain w (conj eq_refl eq_refl)) as (bytes & Hrun & Hdata).
  exists {| blob_bytes := bytes; blob_type := "audio/wav" |}.
  split; [exact Hrun |]. cbn [blob_bytes].
  intros k x Hk. specialize (Hdata k x Hk).
  unfold getUint16, read_le.
  assert (Hlen : (44 + 2 * k + 2 <= length bytes)%nat).
  { apply (f_equal length) in Hdata.
    rewrite length_take, length_drop, length_le_bytes in Hdata. lia. }
  destruct (Nat.leb_spec (44 + 2 * k + 2) (length bytes)) as [_|]; [| lia].
  rewrite Hdata, le_value_le_bytes. f_equal.
  unfold wrap. change (256 ^ Z.of_nat 2) with (2 ^ 16).
  apply Z.mod_mod. lia.
Qed.

Lemma createAudioBlob_is_console_free_above_debug_witness :
  let r := createAudioBlob failing_host click c48000
             (fresh_world production_config) in
  encoded [pzero; one; neg one; pzero] (fst r)
  /\ logger (snd r) = logger (fresh_world production_config)
  /\ exists blob,
       fst r = Returned blob
       /\ forall (k : nat) (x : number),
            [pzero; one; neg one; pzero] !! k = Some x ->
            getUint16 (blob_bytes blob) (44 + 2 * k)
            = Returned (wrap 16 (truncZ (quantize x
                          (getRandomValues failing_host
                             (entropy (fresh_world production_config)
                              + k))))).
Proof.
  apply (createAudioBlob_is_console_free_above_debug failing_host
           (fresh_world production_config) click
           [pzero; one; neg one; pzero] c48000).
  - discriminate.
  - discriminate.
  - reflexivity.
  - vm_compute. reflexivity.
  - vm_compute. reflexivity.
Defined.

(** ** The self-check inside the encoder *)

(** A byte the reads of a field do not cover does not change the field. *)
Lemma read_le_insert (width : nat) (view : ArrayBuffer) (offset i : nat)
    (b : Z) :
  (i < offset \/ offset + width <= i)%nat ->
  read_le width (<[i := b]> view) offset = read_le width view offset.
Proof.
  intros Hout. unfold read_le, ArrayBuffer in *. rewrite length_insert.
  destruct (_ <=? _)%nat; [| reflexivity]. do 2 f_equal.
  apply list_eq. intros k.
  destruct (decide (k < width)%nat) as [Hk|Hk].
  - rewrite !lookup_take_lt, !lookup_drop by exact Hk.
    apply list_lookup_insert_ne. lia.
  - rewrite !lookup_take_ge by lia. reflexivity.
Qed.

Lemma read_marker_insert (view : ArrayBuffer) (offset i : nat) (b : Z) :
  (i < offset \/ offset + 4 <= i)%nat ->
  read_marker (<[i := b]> view) offset = read_marker view offset.
Proof.
  intros Hout. unfold read_marker, getUint8, ArrayBuffer in *.
  rewrite !list_lookup_insert_ne by lia. reflexivity.
Qed.

Lemma read_header_insert (view : ArrayBuffer) (i : nat) (b : Z) :
  (16 <= i < 20 \/ 28 <= i < 34 \/ 36 <= i)%nat ->
  read_header (<[i := b]> view) = read_header view.
Proof.
  intros Hout. unfold read_header, getUint32, getUint16.
  rewrite !read_marker_insert, !read_le_insert by lia. reflexivity.
Qed.

(** The eight fields read back from the header just written. *)
Lemma read_written_header (len : nat) (rest : list Z) :
  read_header (header_bytes len ++ rest)
  = Returned {| riffMarker := "RIFF";
                fileSize := wrap 32 (36 + Z.of_nat len * 2);
                waveMarker := "WAVE"; fmtMarker := "fmt ";
                audioFormat := 1; numChannels := 1; sampleRate := 48000;
                bitsPerSample := 16 |}.
Proof.
  assert (Htake : take 44 (header_bytes len ++ rest) = header_bytes len).
  { apply take_app_length'. symmetry. apply length_header_bytes. }
  assert (Hlen : (44 <= length (header_bytes len ++ rest))%nat).
  { rewrite length_app, length_header_bytes. lia. }
  destruct (container_fields len _ Htake Hlen)
    as (_ & Hsize & _ & _ & _ & Hformat & Hchannels & Hrate & _ & _
        & Hbits & _).
  unfold read_header. rewrite Hsize, Hformat, Hchannels, Hrate, Hbits.
  unfold header_bytes.
  generalize (wrap 32 (36 + Z.of_nat len * 2)) (wrap 32 (Z.of_nat len * 2)).
  intros z1 z2. reflexivity.
Qed.

Lemma runs_bind {A B} (I : World -> Prop) (m : M A) (k : A -> M B)
    (Q : A -> World -> Prop) (R : B -> World -> Prop) :
  runs I m Q -> (forall a, runs (Q a) (k a) R) -> runs I (bind m k) R.
Proof.
  intros Hm Hk w Hw. destruct (Hm w Hw) as (a & Ha & HQ).
  unfold bind. destruct (m w) as [o w1]. cbn [fst snd] in *. subst o.
  apply (Hk a w1 HQ).
Qed.

Lemma runs_ret {A} (I : World -> Prop) (a : A) (Q : A -> World -> Prop) :
  (forall w, I w -> Q a w) -> runs I (ret a) Q.
Proof. intros H w Hw. exists a. split; [reflexivity | apply H, Hw]. Qed.

Lemma runs_try_catch {A} (I : World -> Prop) (m : M A) (h : Exn -> M A)
    (Q : A -> World -> Prop) :
  runs I m Q -> runs I (try_catch m h) Q.
Proof.
  intros Hm w Hw. destruct (Hm w Hw) as (a & Ha & HQ).
  unfold try_catch. destruct (m w) as [o w1]. cbn [fst snd] in *. subst o.
  exists a. split; [reflexivity | exact HQ].
Qed.

Section HeaderKey.
Variable P : Platform.
Variable cfg : LoggerConfig.

Let K := key_of "audio-utils" "WAV header validation".

Ltac other_key := let H := fresh in intros H; vm_compute in H; discriminate H.

(** A call with another key leaves the key without a record. *)
Lemma log_other_key l category message d :
  key_of category message <> K ->
  keeps (unrecorded K cfg) (log P l category message d).
Proof.
  intros Hkey. unfold log.
  apply keeps_bind; [intros w Hw; exact Hw |].
  intros lg. destruct (negb _); [apply keeps_ret |].
  apply keeps_bind; [intros w Hw; exact Hw |]. intros t.
  apply keeps_bind.
  { intros w [Hc Hk]. unfold deduplicateMessage, bind, get_logger, now,
      set_logger, ret. cbn [fst snd].
    destruct (enableDeduplication (config (logger w))); cbn [negb];
      [| split; assumption].
    cbn [le_category le_message logger].
    destruct (lastMessages (logger w)
                !! String.append category (String.append ":" message))
      as [[stored lastSeen]|];
      [destruct (_ <? _) |];
      (split; [exact Hc |]);
      cbn [fst snd logger lastMessages];
      rewrite lookup_insert_ne by exact Hkey; exact Hk. }
  intros [e|]; [| apply keeps_ret].
  apply keeps_bind; [intros w Hw; exact Hw |]. intros _.
  destruct (enableConsole _); [| apply keeps_ret].
  intros w Hw. unfold console_call.
  destruct l; try exact Hw; destruct (console P _ _ _); exact Hw.
Qed.

Lemma ttsDebugger_log_other_key stg ok d err :
  keeps (unrecorded K cfg) (ttsDebugger_log P stg ok d err).
Proof.
  unfold ttsDebugger_log.
  apply keeps_bind; [intros w Hw; exact Hw |]. intros t.
  apply keeps_bind; [intros w Hw; exact Hw |].
  intros _. destruct ok; apply log_other_key; other_key.
Qed.

Lemma validateAudioData_other_key audioData stg :
  keeps (unrecorded K cfg) (validateAudioData P audioData stg).
Proof. apply log_other_key. other_key. Qed.

Lemma normalizeAudio_other_key audioData targetRMS :
  keeps (unrecorded K cfg) (normalizeAudio P audioData targetRMS).
Proof.
  unfold normalizeAudio.
  apply keeps_bind; [apply log_other_key; other_key |]. intros _.
  apply keeps_bind; [apply validateAudioData_other_key |]. intros _.
  destruct (_ =? _)%nat.
  - apply keeps_bind; [apply log_other_key; other_key |].
    intros; apply keeps_throw.
  - destruct (strict_eq _ _).
    + apply keeps_bind; [apply log_other_key; other_key |].
      intros; apply keeps_ret.
    + apply keeps_bind; [apply validateAudioData_other_key |]. intros _.
      apply keeps_bind; [apply log_other_key; other_key |].
      intros; apply keeps_ret.
Qed.

Lemma upsampleAudio_other_key audioData inputSampleRate outputSampleRate :
  keeps (unrecorded K cfg)
    (upsampleAudio P audioData inputSampleRate outputSampleRate).
Proof.
  unfold upsampleAudio.
  apply keeps_bind; [apply ttsDebugger_log_other_key |]. intros _.
  apply keeps_bind; [apply validateAudioData_other_key |]. intros _.
  destruct (_ =? _)%nat.
  - apply keeps_bind; [apply ttsDebugger_log_other_key |].
    intros; apply keeps_throw.
  - apply keeps_bind; [apply keeps_lift |]. intros allocated.
    apply keeps_bind; [apply validateAudioData_other_key |]. intros _.
    apply keeps_bind; [apply ttsDebugger_log_other_key |].
    intros; apply keeps_ret.
Qed.

End HeaderKey.

Lemma log_filtered_run (P : Platform) (l : LogLevel)
    (category message : string) (d : LogVal) (w : World) :
  shouldLog (config (logger w)) l = false ->
  log P l category message d w = (Returned tt, w).
Proof.
  intros Hlevel. unfold log, bind, get_logger. cbn [fst snd].
  rewrite Hlevel. reflexivity.
Qed.

Section Logged.
Variable P : Platform.
Variable cfg : LoggerConfig.
Variable j : nat.
Variable l0 : LogLevel.
Variables category0 message0 : string.
Variable d0 : LogVal.
Hypothesis Hroom : (j + 2 <= maxEntries cfg)%nat.

(** A later call leaves the entry in the buffer, one place further from
    its end at most. *)
Lemma log_keeps_logged l category message d (w : World) :
  logged j l0 category0 message0 d0 cfg w ->
  logged (S j) l0 category0 message0 d0 cfg
    (snd (log P l category message d w)).
Proof.
  intros [Hc (older & newer & t & Hent & Hlen)].
  destruct (log_buffer_grows P l category message d w) as (Hcfg & _).
  split; [rewrite Hcfg; exact Hc |].
  destruct (shouldLog (config (logger w)) l) eqn:Hlevel.
  - destruct (log_outcome P l category message d w Hlevel) as [_ Hentries].
    cbv zeta in Hentries. rewrite Hentries. clear Hentries.
    destruct (_ && _).
    + exists older, newer, t. split; [exact Hent | lia].
    + destruct (Nat.leb_spec (maxEntries (config (logger w)))
                             (length (entries (logger w)))) as [Hfull|_].
      * rewrite Hc, Hent in Hfull. rewrite Hent.
        destruct older as [|o older].
        -- cbn [app length] in Hfull. lia.
        -- cbn [app tail]. eexists older, (newer ++ [_]), t.
           rewrite <- app_assoc. split; [reflexivity |].
           rewrite length_app. cbn [length]. lia.
      * rewrite Hent. eexists older, (newer ++ [_]), t.
        rewrite <- app_assoc. split; [reflexivity |].
        rewrite length_app. cbn [length]. lia.
  - rewrite (log_filtered_run P l category message d w Hlevel).
    exists older, newer, t. split; [exact Hent | lia].
Qed.

Lemma ttsDebugger_log_keeps_logged stg ok d err (w : World) :
  logged j l0 category0 message0 d0 cfg w ->
  logged (S j) l0 category0 message0 d0 cfg
    (snd (ttsDebugger_log P stg ok d err w)).
Proof.
  intros H. unfold ttsDebugger_log, bind, now. cbn [fst snd].
  destruct ok; apply log_keeps_logged; exact H.
Qed.

End Logged.

(** On a header the encoder wrote, the self-check returns and, at the
    DEBUG level, leaves the eight fields it read as the last entry. *)
Lemma validate_header_logs (P : Platform) (cfg : LoggerConfig) (len : nat)
    (rest : list Z) :
  quiet P -> level cfg = DEBUG ->
  runs (unrecorded (key_of "audio-utils" "WAV header validation") cfg)
    (validate_header P (header_bytes len ++ rest))
    (fun _ w =>
       logged 0 DEBUG "audio-utils" "WAV header validation"
         (header_log {| riffMarker := "RIFF";
                        fileSize := wrap 32 (36 + Z.of_nat len * 2);
                        waveMarker := "WAVE"; fmtMarker := "fmt ";
                        audioFormat := 1; numChannels := 1;
                        sampleRate := 48000; bitsPerSample := 16 |})
         cfg w).
Proof.
  intros Hq Hlevel w [Hc Hk].
  unfold validate_header. rewrite read_written_header.
  set (h := {| riffMarker := "RIFF"; fileSize := _ |}).
  assert (Hshould : shouldLog (config (logger w)) DEBUG = true).
  { rewrite Hc. unfold shouldLog. rewrite Hlevel. reflexivity. }
  assert (Hrun : exists w1 kept t,
            debug P "audio-utils" "WAV header validation" (header_log h) w
            = (Returned tt, w1)
            /\ config (logger w1) = config (logger w)
            /\ entries (logger w1)
               = kept ++ [{| le_level := DEBUG;
                             le_category := "audio-utils";
                             le_message := "WAV header validation";
                             le_data := header_log h;
                             le_timestamp := t;
                             le_count := None |}]).
  { unfold debug.
    destruct (enableDeduplication (config (logger w))) eqn:Hdedup.
    - rewrite (log_fresh_run P DEBUG _ _ (header_log h) w Hshould Hdedup)
        by (rewrite Hk; exact I).
      cbv zeta. rewrite Hq. eexists _, _, _.
      split; [destruct (enableConsole _); reflexivity |].
      split; reflexivity.
    - rewrite (log_plain_run P DEBUG _ _ (header_log h) w Hshould Hdedup).
      cbv zeta. rewrite Hq. eexists _, _, _.
      split; [destruct (enableConsole _); reflexivity |].
      split; reflexivity. }
  destruct Hrun as (w1 & kept & t & Hrun & Hcfg & Hent).
  match goal with
  | |- exists a, fst ?m = _ /\ _ => assert (Hall : m = (Returned tt, w1))
  end.
  { cbv beta iota delta [bind lift]. rewrite Hrun.
    change (header_rejected h) with false. reflexivity. }
  rewrite Hall. exists tt. split; [reflexivity |].
  split; [exact (eq_trans Hcfg Hc) |].
  exists kept, [], t. split; [exact Hent | cbn; lia].
Qed.

(** A step whose value is the same on every world. *)
Lemma runs_then {A B} (I J : World -> Prop) (m : M A) (a : A)
    (k : A -> M B) (R : B -> World -> Prop) :
  returns m a -> (forall w, I w -> J (snd (m w))) ->
  runs J (k a) R -> runs I (bind m k) R.
Proof.
  intros Hm HJ Hk w Hw. specialize (Hm w). specialize (HJ w Hw).
  unfold result in Hm. unfold bind.
  destruct (m w) as [o w1]. cbn [fst snd] in *. subst o.
  apply (Hk w1 HJ).
Qed.

Lemma write_pcm_keeps_logged (P : Platform) (samples : list number)
    (offset : nat) (view : ArrayBuffer) (j : nat) (l : LogLevel)
    (category message : string) (d : LogVal) (cfg : LoggerConfig) :
  (offset + 2 * length samples <= length view)%nat ->
  runs (logged j l category message d cfg)
    (write_pcm P samples offset view)
    (fun _ w => logged j l category message d cfg w).
Proof.
  intros Hfit w Hw.
  destruct (write_pcm_frame P samples offset view Hfit w)
    as (view' & Hview & _).
  exists view'. split; [exact Hview |].
  pose proof (write_pcm_keeps_logger P (logger w) samples offset view w
                eq_refl) as Hlogger.
  cbv beta in Hlogger. unfold logged in *. rewrite Hlogger. exact Hw.
Qed.

(** The encoder runs the self-check: at the DEBUG level, on a quiet host,
    a successful run of [createAudioBlob] leaves the entry of the
    self-check, with the eight fields read back from the header of the
    processed signal, among the last three entries of the logger. *)
Lemma createAudioBlob_logs_header (P : Platform) (cfg : LoggerConfig)
    (audioData up : Float32Array) (sampleRate : number) :
  quiet P -> audioData <> [] -> accepted_rate sampleRate = true ->
  processed P audioData sampleRate = Returned up ->
  level cfg = DEBUG -> (3 <= maxEntries cfg)%nat ->
  runs (unrecorded (key_of "audio-utils" "WAV header validation") cfg)
    (createAudioBlob P audioData sampleRate)
    (fun _ w =>
       logged 2 DEBUG "audio-utils" "WAV header validation"
         (header_log {| riffMarker := "RIFF";
                        fileSize := wrap 32 (36 + Z.of_nat (length up) * 2);
                        waveMarker := "WAVE"; fmtMarker := "fmt ";
                        audioFormat := 1; numChannels := 1;
                        sampleRate := 48000; bitsPerSample := 16 |})
         cfg w).
Proof.
  intros Hq Hne Hrate Hup Hlevel Hroom.
  set (E := header_log _).
  unfold processed in Hup.
  destruct (normalized P audioData c0_15) as [na|] eqn:Hna;
    [| discriminate].
  unfold createAudioBlob.
  eapply runs_then;
    [apply ttsDebugger_log_returns, Hq | apply ttsDebugger_log_other_key |].
  destruct audioData as [|x rest]; [contradiction |]. cbn [length Nat.eqb].
  unfold accepted_rate in Hrate. apply negb_true_iff in Hrate.
  rewrite Hrate. apply runs_try_catch. unfold encode.
  eapply runs_then with (a := na).
  { intros w. rewrite <- Hna. apply normalizeAudio_result, Hq. }
  { apply normalizeAudio_other_key. }
  eapply runs_then with (a := up).
  { intros w. rewrite <- Hup. apply upsampleAudio_result, Hq. }
  { apply upsampleAudio_other_key. }
  eapply runs_then;
    [apply ttsDebugger_log_returns, Hq | apply ttsDebugger_log_other_key |].
  cbv zeta. rewrite write_header_bytes.
  eapply runs_then with (a := (header_bytes (length up)
                               ++ replicate (length up * 2) 0)).
  { intros w. reflexivity. }
  { intros w Hw. exact Hw. }
  eapply runs_bind; [apply validate_header_logs; assumption |]. intros u.
  cbv beta.
  eapply runs_bind.
  { apply write_pcm_keeps_logged.
    rewrite length_app, length_header_bytes, length_replicate. lia. }
  intros view.
  eapply runs_then
    with (J := logged 1 DEBUG "audio-utils" "WAV header validation" E cfg);
    [apply log_returns, Hq
    | intros w Hw; apply log_keeps_logged; [lia | exact Hw] |].
  eapply runs_then
    with (J := logged 2 DEBUG "audio-utils" "WAV header validation" E cfg);
    [apply ttsDebugger_log_returns, Hq
    | intros w Hw; apply ttsDebugger_log_keeps_logged; [lia | exact Hw] |].
  apply runs_ret. intros w Hw. exact Hw.
Qed.

(** C2, as the code has it.  The self-check reads the header back and
    throws the header-construction error exactly when the RIFF or the WAVE
    marker it read is wrong; the header the encoder writes always passes.
    No byte at the offsets 16 to 19, 28 to 33 or from 36 on -- the size of
    the format chunk, the byte rate, the block align, the data marker, the
    data size -- is read back: changing one changes nothing in the check.
    The encoder runs the check on the header it wrote: a successful run of
    [createAudioBlob] returns the blob, and at the DEBUG level it leaves in
    the logger the entry of the check with the eight fields read back, the
    three markers RIFF, WAVE and fmt and the five numbers, provided the
    buffer holds three entries and the message is not on the
    deduplication record. *)
Theorem header_check_is_riff_and_wave (P : Platform) (w : World)
    (view : ArrayBuffer) (audioData up : Float32Array)
    (sampleRate : number) :
  quiet P ->
  ((44 <= length view)%nat ->
   (result (validate_header P view) w
      = Thrown (Error "Invalid WAV header construction")
    <-> marker view 0 <> "RIFF"%string \/ marker view 8 <> "WAVE"%string)
   /\ (result (validate_header P view) w = Returned tt
       <-> marker view 0 = "RIFF"%string /\ marker view 8 = "WAVE"%string))
  /\ (forall len : nat,
        exists written,
          write_header (new_ArrayBuffer (44 + len * 2)) len = Returned written
          /\ result (validate_header P written) w = Returned tt)
  /\ (forall (i : nat) (b : Z),
        (16 <= i < 20 \/ 28 <= i < 34 \/ 36 <= i)%nat ->
        validate_header P (<[i := b]> view) = validate_header P view)
  /\ (audioData <> [] -> accepted_rate sampleRate = true ->
      processed P audioData sampleRate = Returned up ->
      level (config (logger w)) = DEBUG ->
      (3 <= maxEntries (config (logger w)))%nat ->
      lastMessages (logger w)
        !! key_of "audio-utils" "WAV header validation" = None ->
      let r := createAudioBlob P audioData sampleRate w in
      encoded up (fst r)
      /\ exists t,
           In {| le_level := DEBUG; le_category := "audio-utils";
                 le_message := "WAV header validation";
                 le_data :=
                   header_log
                     {| riffMarker := "RIFF";
                        fileSize := wrap 32 (36 + Z.of_nat (length up) * 2);
                        waveMarker := "WAVE"; fmtMarker := "fmt ";
                        audioFormat := 1; numChannels := 1;
                        sampleRate := 48000; bitsPerSample := 16 |};
                 le_timestamp := t; le_count := None |}
              (entries (logger (snd r)))).
Proof.
  intros Hq. split; [| split; [| split]].
  - intros Hlen.
    destruct (read_header_44 view Hlen) as (h & Hh & Hr & Hw).
    pose proof (validate_header_result P view h Hq Hh w) as Hres.
    simpl in Hres. rewrite Hres. rewrite <- Hr, <- Hw.
    pose proof (header_rejected_iff h) as Hiff.
    split.
    + destruct (header_rejected h).
      * split; [intros _; apply Hiff; reflexivity | reflexivity].
      * split; [discriminate |]. intros H. apply Hiff in H. discriminate.
    + destruct (header_rejected h).
      * split; [discriminate |]. intros [H1 H2].
        destruct (proj1 Hiff eq_refl) as [H | H]; contradiction.
      * split; [| reflexivity]. intros _.
        destruct (String.eqb_spec (riffMarker h) "RIFF") as [H1|H1];
          destruct (String.eqb_spec (waveMarker h) "WAVE") as [H2|H2];
          try (split; assumption);
          exfalso; assert (false = true) as Hrej by (apply Hiff; auto);
          discriminate.
  - intros len. exists (header_bytes len ++ replicate (len * 2) 0).
    split; [apply write_header_bytes |].
    apply (written_header_accepted P len _ Hq w).
  - intros i b Hout. unfold validate_header.
    rewrite (read_header_insert view i b Hout). reflexivity.
  - intros Hne Hrate Hup Hlevel Hroom Hkey r. subst r. split.
    + pose proof (createAudioBlob_result P audioData sampleRate Hq Hne
                    Hrate w) as Hres.
      cbv beta in Hres. rewrite Hup in Hres. exact Hres.
    + destruct (createAudioBlob_logs_header P (config (logger w))
                  audioData up sampleRate Hq Hne Hrate Hup Hlevel Hroom w)
        as (blob & _ & _ & older & newer & t & Hent & _).
      { split; [reflexivity | exact Hkey]. }
      exists t. rewrite Hent. apply in_elt.
Qed.

Lemma header_check_is_riff_and_wave_witness :
  ((result (validate_header quiet_host wrong_data_marker)
      (fresh_world development_config)
      = Thrown (Error "Invalid WAV header construction")
    <-> marker wrong_data_marker 0 <> "RIFF"%string
        \/ marker wrong_data_marker 8 <> "WAVE"%string)
   /\ (result (validate_header quiet_host wrong_data_marker)
         (fresh_world development_config) = Returned tt
       <-> marker wrong_data_marker 0 = "RIFF"%string
           /\ marker wrong_data_marker 8 = "WAVE"%string))
  /\ (forall len : nat,
        exists written,
          write_header (new_ArrayBuffer (44 + len * 2)) len = Returned written
          /\ result (validate_header quiet_host written)
               (fresh_world development_config) = Returned tt)
  /\ validate_header quiet_host (<[40%nat := 255]> wrong_data_marker)
     = validate_header quiet_host wrong_data_marker
  /\ (let r := createAudioBlob quiet_host click c48000
                 (fresh_world development_config) in
      encoded [pzero; one; neg one; pzero] (fst r)
      /\ exists t,
           In {| le_level := DEBUG; le_category := "audio-utils";
                 le_message := "WAV header validation";
                 le_data :=
                   header_log
                     {| riffMarker := "RIFF";
                        fileSize :=
                          wrap 32
                            (36 + Z.of_nat
                                    (length [pzero; one; neg one; pzero]) * 2);
                        waveMarker := "WAVE"; fmtMarker := "fmt ";
                        audioFormat := 1; numChannels := 1;
                        sampleRate := 48000; bitsPerSample := 16 |};
                 le_timestamp := t; le_count := None |}
              (entries (logger (snd r)))).
Proof.
  destruct (header_check_is_riff_and_wave quiet_host
              (fresh_world development_config) wrong_data_marker click
              [pzero; one; neg one; pzero] c48000)
    as (Hcheck & Hwritten & Hunread & Hencoder).
  { intros l message d. reflexivity. }
  split; [apply Hcheck; vm_compute; lia |].
  split; [exact Hwritten |].
  split; [apply Hunread; lia |].
  apply Hencoder.
  - discriminate.
  - reflexivity.
  - vm_compute. reflexivity.
  - reflexivity.
  - cbn. lia.
  - reflexivity.
Defined.

(** C2 fails as stated: a header whose data marker is wrong, and one whose
    sample rate field is wrong, both pass the self-check. *)
Lemma header_check_misses_fields :
  marker wrong_data_marker 36 = "Xata"%string
  /\ result (validate_header quiet_host wrong_data_marker)
       (fresh_world development_config) = Returned tt
  /\ getUint32 wrong_sample_rate 24 = Returned 0
  /\ result (validate_header quiet_host wrong_sample_rate)
       (fresh_world development_config) = Returned tt.
Proof. repeat split; vm_compute; reflexivity. Qed.
